(* ===== verification/_CoqProject ===== *)
-Q . S2P
Prelude.v
JsNumber.v
JsString.v
Json.v
JsonRoundtrip.v
Styles.v
Events.v
WireEvent.v
Auth.v
Connection.v
EventsApi.v
Hub.v
Pipeline.v
CausalApi.v
DebugAnalysis.v
Graph.v
Feed.v
View.v
Icons.v
GraphPage.v
StreamPage.v
Settings.v
SettingsServer.v
Shell.v
Session.v
Console.v
Search.v
MockData.v
Replay.v
Timeline.v
Paint.v
Live.v
Protobuf.v
Varint.v
Kprobe.v
Styling.v
