(* ===== verification/Prelude.v ===== *)
(** * The kprobe console

    A model of the web console of kprobe (src/console/src, TypeScript) and of the
    search of its documentation site (src/www/src), with the theorems that make
    them correct.  The probe, the engine and the servers record kernel events and
    the causal edges between them; the console receives events live over a
    WebSocket and from the stored history, decodes them, and shows them as a
    table, a causal graph, a timeline and the replay of a recorded incident.

    ** The parts and how they interact

    - the language: [JsNumber] (numbers are IEEE doubles, with their rounding),
      [JsString] (strings as UTF-8 bytes and UTF-16 units, numbers to text and
      back, the locale's order as a class), [Json] (untyped values, JSON.parse and
      JSON.stringify), [JsonRoundtrip] (a flat object with well-formed strings
      survives them), [View] (what a component renders: elements, text, attributes
      and the actions they fire).  This file holds results that may throw,
      Array.prototype.sort, insertion-ordered Map and Set, [slice(-n)] and lists.
    - [Events] is types/events.ts and the tables of lib/mockData.ts; [MockData] is
      the generator of that file.
    - [WireEvent] is lib/wireEvent.ts: an untyped value becomes a kernel event or an
      exception.  It also has the encoders of the Go server that feed it
      (api/main.go, api/handlers/causal_http.go).
    - [Auth] is lib/auth.ts; [CausalApi] is lib/api.ts with the server's encoder of
      a causal chain.
    - [Connection] is hooks/useConnection.tsx: socket, reconnect timer, history,
      deduplication and the list of messages, under every order of its callbacks.
    - [EventsApi] is the other end of the history request: the handler of
      api/handlers/events.go behind the token check of api/auth/interceptor.go,
      composed with the provider that asks it.  [Hub] is the other end of the socket:
      api/stream/hub.go and the /ws handler of api/main.go, whose goroutines
      interleave.  [Pipeline] runs that server, a socket and the provider together.
    - [Feed] is the effect the three live pages share, which hands each message of
      that list to the page once; [pass] composes it with the provider's steps.
      [Live] is the provider with a whole page: what [useConnection] hands over is a
      class ([Consumer], and [Window] for a page that shows the newest events).  The
      table and the timeline are instances of both, the graph of the first; the
      lemmas are proved against the classes.
    - [StreamPage], [Timeline], [Replay] and [Settings] are the pages of the same
      name, [Paint] the calls of the timeline on its canvas; [Graph] holds the
      algorithms of pages/Graph.tsx, [DebugAnalysis] is lib/debugAnalysis.ts, whose
      analysis may throw, and [GraphPage] the graph page around both.
    - [Shell] is the frame (Shell.tsx, Topbar.tsx, Sidebar.tsx) and its shortcuts;
      [Session] the application, login and routes (App.tsx, RequireAuth.tsx,
      Login.tsx), which uses [Auth] and [Shell]; [Console] composes it with the
      [Connection] that is mounted while somebody is signed in.
    - [SettingsServer] is api/handlers/settings.go, and the settings page with it:
      [Deployment] has the page, the server and the requests under way between them.
    - [Protobuf] is the template of the classes in src/console/src/generated/kprobe.ts,
      over the reader and writer of @protobuf-ts/runtime, with the schema a class
      should be compiled from; [Kprobe] has the nineteen classes, their interfaces,
      the services and the clients (kprobe.client.ts); [Varint] is a runtime that
      satisfies the laws, on which the witnesses run.
    - [Search] is the site's search dialog and index (SearchModal.tsx,
      search-index.json.ts).
    - [Icons] is components/ui/icons.tsx; [Styles] has the table of inline styles at
      the end of each component, the style sheets the components render, and the
      themes (src/console/src/index.css, src/www/src/styles/global.css).  An element's
      "style" attribute names entries of its component's table, and [Styling] checks
      the pages against the tables.

    ** How it is modelled

    A component's state is a record with the fields of its hooks and refs; a
    handler, effect or callback is a function on it that runs to completion, as
    JavaScript does, with React's state updates queued where the code depends on
    their order ([Connection.update]).  A component's actions are an inductive type,
    [apply] runs one, and reachability is over all sequences of actions that can
    occur: what the user can press, and what the environment can deliver.  Code
    that throws returns [result].  Definitions are executable; the theorems'
    witnesses run them.

    What the code takes from outside is a class, with its documented behaviour as a
    class of laws where a theorem needs it: [Host] (time zone and clock),
    [Collation] (localeCompare; laws: a total preorder), [Dagre] (the layout library; no
    law), [Locale] (number formatting; no law), [Router] (react-router's path
    matching; laws: a declared path matches itself and is not the index),
    [EventStore] (the handler's query; laws [Answers]: the newest rows of a table),
    [Jwt] (the token library; no law),
    [WireEncoder] (encoding/json on a live message; law: its text parses to the message),
    [Theme] (what the custom properties compute to; no law),
    [Random] (Math.random; law: between zero and the greatest double below one),
    [Runtime] (the binary reader and writer; laws: what is written is read and
    skipped, reading consumes, unknown fields are kept).

    A record of the server has counters in the ranges of their Go types ([proto_ok])
    and, where its text matters, strings of well-formed UTF-8 ([record_ok]), as
    protocol buffers require of them; a timestamp may be 0.  What is typed into the
    settings is well-formed text too.

    Recursion that is not structural has fuel that is shown to be enough: the JSON
    parser takes twice the length of its text and two, the path search the number of edges
    and one ([Graph.getPathIds_spec]), the ruler of the timeline sixteen ticks
    ([Timeline.ruler_terminates]), the shortest digits of a number seventeen, the loop
    that reads a message the number of bytes and one ([Kprobe.generated_read_ends]).

    ** What the theorems show

    - Connection and feed: no event twice ([no_event_twice]), a bounded list in
      increasing order ([messages_bounded_increasing]), one connection at a time
      ([one_connection]) with the backoff schedule ([backoff_schedule]), nothing
      after unmounting ([unmount_is_final]), hydration ([hydrate_plan_spec]),
      and each message consumed by a page exactly once and in order
      ([consumed_exactly_once]).
    - History and stream: a stored record reads like the live one, 64-bit timestamps
      printed with the shortest digits included ([stored_as_live]), so a record that
      comes both ways is listed once ([record_listed_once]); hydration lists the
      newest records of the store, oldest first, one message for each key
      ([history_listed]), and without the history the stream goes on
      ([history_refused]).  The stream's server neither
      sends on a closed channel nor closes one twice ([hub_never_panics]), and offers
      every event to every socket once ([hub_delivers]); what its channel took ends up
      in the console's list, in order, once for each key ([stream_listed]).
    - Provider and page together: after any run the table and the timeline show exactly
      the newest events of what they went through since they were cleared
      ([live_shows_newest]), and an event the server sends, if it has a time, is the
      last one shown ([live_event_shown]) and a node of the graph
      ([live_event_in_graph]) once React has run the queue.
    - Decoding: which values are accepted ([mapWireEvent_ok]), what becomes of what the
      server sends, known or not, timed or not ([wire_roundtrip],
      [causal_chain_roundtrip]), and how precise a timestamp is
      ([timestamp_precision]).
    - Graph: sanitizing ([sanitizeGraph_spec], [sanitized_acyclic]), inferred edges
      ([inferEdges_spec]), paths ([getPathIds_spec]), layout ([layoutDAG_total]), the
      page's invariant ([graph_invariant]), the server's answers
      ([chain_answer_spec], [chain_failure_retries]) and what a selection highlights
      ([highlight_spec]); the summary's cause and status ([primary_cause_spec],
      [status_spec]).
    - Stream, timeline, replay: the invariants ([stream_invariant],
      [timeline_invariant], [playhead_in_range]), the loop over the messages against
      its specification ([consume_spec]), hit testing ([best_hit_spec]), the end of a
      replay ([replay_ends]), its outcome ([outcome_spec]), stepping
      ([step_counts]); every frame of the timeline is drawn and painted, within
      bounds, and leaves the canvas as it found it ([timeline_drawn]).
    - Appearance: every style and class a page names exists, every custom property and
      animation the tables use is declared ([styles_resolve]).
    - Session, frame, settings, search, generator: who is signed in
      ([session_invariant], [login_spec]), the connection that goes with the session
      ([console_invariant]), the keys ([shortcuts_spec]), saving and
      loading ([settings_saved_are_loaded]), what the server can refuse of the page
      (an empty host or port, more than a mebibyte) and what a reload brings back
      ([settings_contract], [saved_after_reload]), what a
      search lists and the dialog's state ([search_spec], [search_invariant]), and
      well-typed demo events ([generateEvent_typed]).
    - Protocol: the generated classes are those of the schema
      ([generated_follows_schema]), every message survives the wire
      ([generated_roundtrip]), reading ends ([generated_read_ends]), and fields of a
      newer schema are passed on ([newer_fields_survive]).

    Where the code does something other than it means to, the theorem states what it
    does ([timestamp_precision], [step_counts], [wire_roundtrip] on a timestamp of 0,
    [primary_cause_spec] and [chain_answer_spec] on a cause spelt like a member of
    Object.prototype, [saved_after_reload]; also [Connection.distinct_events_share_key],
    [Replay.arrow_keys_stale], [Timeline.all_window_is_30s], [Replay.throttle_ignored],
    [Replay.first_incident_sticks], [Shell.listed_shortcuts],
    [Search.enter_while_loading]).

    ** Not modelled

    Scrolling and focus, zooming and resizing of the graph's svg, the hover effect of
    the navigation and what a style looks like; main.tsx, which only mounts the
    application; of the generated protocol code, which the console does not
    import yet, the merge of a partial value in [create], a caller's own handler of
    unknown fields and the transport under the clients; the static pages of the site;
    and the probe, engine, replay and API services (Rust and Go), beyond the encoders,
    the login, settings and event handlers and the stream hub the console talks to.
    [toLowerCase], [toUpperCase] and [trim] act on ASCII. *)

From Stdlib Require Export ZArith Lia Ascii.
From stdpp Require Export sorting strings gmap numbers pretty prelude list.

Create HintDb console.

(** ** Tactics *)

(** Case analysis on the innermost test of a goal or hypothesis. *)
Ltac split_ifs :=
  repeat match goal with
  | |- context [if ?b then _ else _] => let E := fresh "E" in destruct b eqn:E
  end.

(** Turn boolean hypotheses into propositions. *)
Ltac bool_to_prop :=
  repeat match goal with
  | H : Is_true _ |- _ => apply Is_true_true in H
  | H : _ && _ = true |- _ => apply andb_true_iff in H as [? ?]
  | H : _ || _ = false |- _ => apply orb_false_iff in H as [? ?]
  | H : negb _ = true |- _ => apply negb_true_iff in H
  | H : negb _ = false |- _ => apply negb_false_iff in H
  | H : bool_decide _ = true |- _ => apply bool_decide_eq_true in H
  | H : bool_decide _ = false |- _ => apply bool_decide_eq_false in H
  end.

(** Destruct the scrutinee of a [match] that blocks the goal. *)
Ltac case_step :=
  match goal with
  | |- context [match ?x with _ => _ end] => let E := fresh "E" in destruct x eqn:E
  end.

(** ** Results of code that may throw *)

Inductive result (A : Type) := Throw (msg : string) | Return (a : A).
Arguments Throw {A} msg.
Arguments Return {A} a.

#[export] Instance result_ret : MRet result := λ A a, Return a.
#[export] Instance result_bind : MBind result := λ A B f m,
  match m with Throw e => Throw e | Return a => f a end.
#[export] Instance result_fmap : FMap result := λ A B f m,
  match m with Throw e => Throw e | Return a => Return (f a) end.

(** A conversion that throws a TypeError when it has no value. *)
Definition or_throw {A} (o : option A) : result A :=
  match o with Some a => Return a | None => Throw "TypeError" end.

(** [try { ... } catch { }] around a loop body. *)
Definition to_option {A} (r : result A) : option A :=
  match r with Return a => Some a | Throw _ => None end.

Lemma bind_Return {A B} (m : result A) (f : A → result B) b :
  m ≫= f = Return b ↔ ∃ a, m = Return a ∧ f a = Return b.
Proof.
  destruct m as [e|a]; split; [done|by intros (?&?&?)|by exists a|].
  by intros (? & [= <-] & ?).
Qed.

Lemma or_throw_Return {A} (o : option A) a : or_throw o = Return a ↔ o = Some a.
Proof. destruct o; naive_solver. Qed.

Lemma to_option_Some {A} (r : result A) a : to_option r = Some a ↔ r = Return a.
Proof. destruct r; naive_solver. Qed.

(** Open every bind of a result in the hypotheses. *)
Ltac result_inv :=
  repeat match goal with
  | H : _ ≫= _ = Return _ |- _ => apply bind_Return in H as (? & ? & H)
  | H : or_throw _ = Return _ |- _ => apply or_throw_Return in H
  | H : (if ?b then Throw _ else _) = Return _ |- _ =>
      let E := fresh "E" in destruct b eqn:E; [discriminate H|]
  | H : Return _ = Return _ |- _ => injection H as H
  end.

(** ** Lists as the console uses them *)

Section lists.
Context {A : Type}.
Implicit Types (l : list A) (x y : A) (n : nat).

(** [l.slice(-n)] for a positive [n]: the last [n] elements, or all of [l]. *)
Definition slice_last n l : list A := drop (length l - n) l.

Lemma slice_last_length n l : length (slice_last n l) = length l `min` n.
Proof. unfold slice_last. rewrite length_drop. lia. Qed.

Lemma slice_last_le n l : length (slice_last n l) ≤ n.
Proof. rewrite slice_last_length. lia. Qed.

Lemma slice_last_all n l : length l ≤ n → slice_last n l = l.
Proof. intros. unfold slice_last. by replace (length l - n) with 0 by lia. Qed.

Lemma slice_last_suffix n l : slice_last n l `suffix_of` l.
Proof. exists (take (length l - n) l). symmetry. apply take_drop. Qed.

(** Keeping the last [n] along the way or once at the end is the same. *)
Lemma slice_last_app n l k : slice_last n (slice_last n l ++ k) = slice_last n (l ++ k).
Proof.
  unfold slice_last. rewrite <-(drop_app_le l k) by lia. rewrite drop_drop, !length_drop.
  f_equal. rewrite !length_app. lia.
Qed.

Lemma slice_last_snoc n l x : (0 < n)%nat → ∃ k, slice_last n (l ++ [x]) = k ++ [x].
Proof.
  intros Hn. exists (drop (S (length l) - n) l). unfold slice_last. rewrite length_app. simpl.
  replace (length l + 1 - n)%nat with (S (length l) - n)%nat by lia. by rewrite drop_app_le by lia.
Qed.

Lemma slice_last_elem n l x : x ∈ slice_last n l → x ∈ l.
Proof. intros H. rewrite <-(take_drop (length l - n) l). apply elem_of_app. by right. Qed.

Lemma slice_last_NoDup n l : NoDup l → NoDup (slice_last n l).
Proof.
  intros H. rewrite <-(take_drop (length l - n) l) in H. by apply NoDup_app in H as (_&_&?).
Qed.

Lemma slice_last_Forall (P : A → Prop) n l : Forall P l → Forall P (slice_last n l).
Proof. intros. by apply Forall_drop. Qed.

Lemma slice_last_sorted (R : relation A) n l :
  StronglySorted R l → StronglySorted R (slice_last n l).
Proof.
  intros H. rewrite <-(take_drop (length l - n) l) in H. by eapply StronglySorted_app_1_r.
Qed.

Lemma StronglySorted_snoc (R : relation A) l x :
  StronglySorted R l → Forall (λ y, R y x) l → StronglySorted R (l ++ [x]).
Proof.
  induction 1 as [|y l Hs IH Hf]; simpl; intros HF; [repeat constructor|].
  apply Forall_cons in HF as [? ?].
  constructor; [by apply IH|]. apply Forall_app. by split; [|constructor].
Qed.
End lists.

(** Order carried along a map, on elements that satisfy [P]. *)
Lemma StronglySorted_fmap_on {A B} (P : A → Prop) (R : relation A) (S : relation B) (f : A → B) l :
  (∀ a b, P a → P b → R a b → S (f a) (f b)) →
  Forall P l → StronglySorted R l → StronglySorted S (f <$> l).
Proof.
  intros HRS HP. induction 1 as [|a l Hs IH Ha]; [constructor|]. apply Forall_cons in HP as [Pa Pl].
  simpl. constructor; [by apply IH|]. apply Forall_fmap. rewrite Forall_forall in Pl, Ha.
  apply Forall_forall. intros b Hb. simpl. apply HRS; auto.
Qed.

Lemma StronglySorted_take {A} (R : relation A) n l : StronglySorted R l → StronglySorted R (take n l).
Proof. intros H. rewrite <-(take_drop n l) in H. by apply StronglySorted_app_1_l in H. Qed.

Lemma elem_of_snoc {A} (x y : A) l : x ∈ l ++ [y] ↔ x ∈ l ∨ x = y.
Proof. by rewrite elem_of_app, list_elem_of_singleton. Qed.

(** Elements of a list with distinct images are told apart by their image. *)
Lemma NoDup_fmap_elem {A B} (f : A → B) l x y :
  NoDup (f <$> l) → x ∈ l → y ∈ l → f x = f y → x = y.
Proof.
  induction l as [|z l IH]; [by intros _ ?%elem_of_nil|].
  intros [Hz Hn]%NoDup_cons [->|Hx]%elem_of_cons [->|Hy]%elem_of_cons Hf; auto.
  - destruct Hz. rewrite Hf. by apply list_elem_of_fmap_2.
  - destruct Hz. rewrite <-Hf. by apply list_elem_of_fmap_2.
Qed.

Lemma filter_all {A} (P : A → Prop) `{!∀ x, Decision (P x)} (l : list A) :
  (∀ x, x ∈ l → P x) → filter P l = l.
Proof.
  induction l as [|x l IH]; [done|]. intros HP. rewrite filter_cons, decide_True, IH; [done|..].
  - intros y Hy. apply HP. by right.
  - apply HP. by left.
Qed.

Lemma filter_none {A} (P : A → Prop) `{!∀ x, Decision (P x)} (l : list A) :
  (∀ x, x ∈ l → ¬ P x) → filter P l = [].
Proof.
  induction l as [|x l IH]; [done|]. intros HP. rewrite filter_cons, decide_False, IH; [done|..].
  - intros y Hy. apply HP. by right.
  - apply HP. by left.
Qed.

Lemma Forall_filter {A} (P Q : A → Prop) `{∀ x, Decision (Q x)} l : Forall P l → Forall P (filter Q l).
Proof. rewrite !Forall_forall. intros Hl x [_ Hx]%list_elem_of_filter. auto. Qed.

Lemma NoDup_snoc {A} (l : list A) x : NoDup l → x ∉ l → NoDup (l ++ [x]).
Proof.
  intros Hn Hx. apply NoDup_app. split; [done|]. split; [|apply NoDup_singleton].
  by intros y Hy ->%list_elem_of_singleton.
Qed.

(** Paths of a relation and of its converse. *)
Lemma tc_mono {A} (R S : relation A) a b : (∀ a b, R a b → S a b) → tc R a b → tc S a b.
Proof. intros HRS. induction 1; eauto using tc_once, tc_l. Qed.

Lemma tc_flip {A} (R S : relation A) a b : (∀ a b, R a b → S b a) → tc R a b → tc S b a.
Proof. intros HRS. induction 1; eauto using tc_once, tc_r. Qed.

Lemma slice_last_fmap {A B} (f : A → B) n (l : list A) :
  f <$> slice_last n l = slice_last n (f <$> l).
Proof. unfold slice_last. by rewrite fmap_drop, length_fmap. Qed.

(** ** [Array.prototype.sort]

    The comparator is given by [gt x y], "the comparator returned a positive
    number"; a comparator that returns zero or NaN leaves the order alone.  The
    language fixes the result for a consistent comparator: the stable sorted
    permutation, which is what insertion computes. *)
Section js_sort.
Context {A : Type} (gt : A → A → bool).
Implicit Types (l : list A).

Fixpoint sort_insert (x : A) (l : list A) : list A :=
  match l with
  | [] => [x]
  | y :: l' => if gt x y then y :: sort_insert x l' else x :: y :: l'
  end.

Definition js_sort l : list A := foldr sort_insert [] l.

Lemma sort_insert_perm x l : sort_insert x l ≡ₚ x :: l.
Proof.
  induction l as [|y l IH]; simpl; [done|].
  destruct (gt x y); [|done]. rewrite IH. apply Permutation_swap.
Qed.

Lemma js_sort_perm l : js_sort l ≡ₚ l.
Proof. induction l; simpl; [done|]. rewrite sort_insert_perm. by constructor. Qed.

Lemma js_sort_length l : length (js_sort l) = length l.
Proof. by rewrite js_sort_perm. Qed.

Lemma elem_of_js_sort x l : x ∈ js_sort l ↔ x ∈ l.
Proof. by rewrite js_sort_perm. Qed.

Definition sorted_by : list A → Prop := StronglySorted (λ x y, gt x y = false).

(** A comparator consistent on the elements that satisfy [P]: [gt] is
    asymmetric and its negation transitive. *)
Class Consistent (P : A → Prop) := {
  gt_asym x y : P x → P y → gt x y = true → gt y x = false;
  gt_neg_trans x y z : P x → P y → P z → gt x y = false → gt y z = false → gt x z = false
}.

Lemma sort_insert_sorted P `{!Consistent P} x l :
  P x → Forall P l → sorted_by l → sorted_by (sort_insert x l).
Proof.
  intros Hx HP. induction 1 as [|y l Hs IH Hall]; simpl; [repeat constructor|].
  apply Forall_cons in HP as [Hy HP]. destruct (gt x y) eqn:E.
  - constructor; [by apply IH|]. apply Forall_forall. intros z.
    rewrite sort_insert_perm, elem_of_cons. intros [->|Hz]; [by apply gt_asym|].
    by eapply Forall_forall in Hall.
  - constructor; [by constructor|]. constructor; [done|].
    apply Forall_forall. intros z Hz. rewrite Forall_forall in HP, Hall.
    eapply gt_neg_trans; eauto.
Qed.

Lemma js_sort_sorted P `{!Consistent P} l : Forall P l → sorted_by (js_sort l).
Proof.
  induction 1; simpl; [constructor|].
  eapply sort_insert_sorted; [done..| |done]. by rewrite js_sort_perm.
Qed.

(** Elements the comparator does not separate keep their order. *)
Lemma sort_insert_filter (P : A → Prop) `{!∀ x, Decision (P x)} x l :
  (∀ y z, P y → P z → gt y z = false) →
  filter P (sort_insert x l) = filter P (x :: l).
Proof.
  intros HP. induction l as [|y l IH]; simpl; [done|].
  destruct (gt x y) eqn:E; [|done].
  rewrite filter_cons, IH, !filter_cons. repeat case_decide; try done.
  by rewrite HP in E.
Qed.

Lemma js_sort_stable (P : A → Prop) `{!∀ x, Decision (P x)} l :
  (∀ y z, P y → P z → gt y z = false) → filter P (js_sort l) = filter P l.
Proof.
  intros HP. induction l as [|x l IH]; simpl; [done|].
  rewrite sort_insert_filter by done. rewrite !filter_cons, IH. done.
Qed.

(** Sorting a sorted list changes nothing. *)
Lemma js_sort_id l : sorted_by l → js_sort l = l.
Proof.
  induction 1 as [|x l Hs IH Hall]; simpl; [done|]. rewrite IH.
  destruct l as [|y l]; simpl; [done|]. apply Forall_cons in Hall as [-> _]. done.
Qed.

(** [x] is the first least element of [l]. *)
Definition first_least l x : Prop :=
  ∃ l1 l2, l = l1 ++ x :: l2 ∧ Forall (λ y, gt y x = true) l1 ∧ Forall (λ y, gt x y = false) l2.

(** The head of a sorted copy, whatever the sorting algorithm. *)
Lemma js_sort_head P `{!Consistent P} l :
  Forall P l →
  match head (js_sort l) with None => l = [] | Some x => first_least l x end.
Proof.
  induction 1 as [|x l Hx HP IH]; simpl; [done|].
  destruct (js_sort l) as [|y k] eqn:E; simpl in *.
  { subst l. exists [], []. by repeat constructor. }
  destruct IH as (l1 & l2 & -> & H1 & H2).
  apply Forall_app in HP as [HP1 [HPy HP2]%Forall_cons].
  destruct (gt x y) eqn:Exy; simpl.
  - exists (x :: l1), l2. split; [done|]. by split; [constructor|].
  - exists [], (l1 ++ y :: l2). split; [done|]. split; [constructor|].
    rewrite Forall_forall in H1, H2, HP1, HP2.
    apply Forall_app. split; [|constructor; [done|]]; apply Forall_forall; intros z Hz.
    + eapply (gt_neg_trans x y z); eauto. apply gt_asym; auto.
    + eapply (gt_neg_trans x y z); eauto.
Qed.
End js_sort.
Arguments first_least {A} gt l x.
Arguments sorted_by {A} gt l.
Arguments Consistent {A} gt P.

(** ** Insertion-ordered [Map] and [Set] *)

Section js_map.
Context {K V : Type} `{EqDecision K}.
Implicit Types (m : list (K * V)) (k : K) (v : V).

(** [m.set(k, v)]: an existing key keeps its position. *)
Fixpoint map_set k v m : list (K * V) :=
  match m with
  | [] => [(k, v)]
  | (k', v') :: m' =>
      if decide (k = k') then (k, v) :: m' else (k', v') :: map_set k v m'
  end.

(** [m.get(k)]. *)
Fixpoint map_get k m : option V :=
  match m with
  | [] => None
  | (k', v') :: m' => if decide (k = k') then Some v' else map_get k m'
  end.

(** [new Map(entries)]. *)
Definition map_of (l : list (K * V)) : list (K * V) :=
  foldl (λ m kv, map_set kv.1 kv.2 m) [] l.

Lemma map_get_set k k' v m :
  map_get k' (map_set k v m) = if decide (k' = k) then Some v else map_get k' m.
Proof.
  induction m as [|[k0 v0] m IH]; simpl; [by repeat case_decide|].
  repeat case_decide; simpl; repeat case_decide; simplify_eq; auto; congruence.
Qed.

Lemma map_set_keys k v m k' : k' ∈ (map_set k v m).*1 ↔ k' = k ∨ k' ∈ m.*1.
Proof.
  induction m as [|[k0 v0] m IH]; simpl; [set_solver|].
  case_decide; simplify_eq/=; [set_solver|]. rewrite !elem_of_cons, IH. set_solver.
Qed.

Lemma map_set_NoDup k v m : NoDup m.*1 → NoDup (map_set k v m).*1.
Proof.
  induction m as [|[k0 v0] m IH]; simpl; [intros; constructor; set_solver|].
  intros [Hn Hd]%NoDup_cons. case_decide; simplify_eq/=; constructor; auto.
  rewrite map_set_keys. naive_solver.
Qed.

Lemma map_get_elem k v m : map_get k m = Some v → (k, v) ∈ m.
Proof.
  induction m as [|[k0 v0] m IH]; simpl; [done|].
  case_decide; intros; simplify_eq; rewrite elem_of_cons; auto.
Qed.

Lemma map_get_None k m : map_get k m = None ↔ k ∉ m.*1.
Proof.
  induction m as [|[k0 v0] m IH]; simpl; [set_solver|].
  rewrite not_elem_of_cons. case_decide; simplify_eq; [naive_solver|]. naive_solver.
Qed.

Lemma elem_map_get k v m : NoDup m.*1 → (k, v) ∈ m → map_get k m = Some v.
Proof.
  induction m as [|[k0 v0] m IH]; simpl; [set_solver|].
  intros [Hn Hd]%NoDup_cons [?|Hin]%elem_of_cons; simplify_eq; case_decide; simplify_eq; auto.
  destruct Hn. apply list_elem_of_fmap. by exists (k0, v).
Qed.

Lemma map_of_invariant (P : K * V → Prop) l : Forall P l → Forall P (map_of l).
Proof.
  unfold map_of. assert (∀ m, Forall P m → Forall P l →
    Forall P (foldl (λ m kv, map_set kv.1 kv.2 m) m l)) as H; [|by apply H].
  induction l as [|[k v] l IH]; intros m Hm Hl; simpl; [done|].
  apply Forall_cons in Hl as [Hk Hl]. apply IH; [|done].
  clear IH Hl l. induction m as [|[k0 v0] m IHm]; simpl; [by repeat constructor|].
  apply Forall_cons in Hm as []. case_decide; simplify_eq; constructor; auto.
Qed.

Lemma map_of_NoDup l : NoDup (map_of l).*1.
Proof.
  unfold map_of. assert (∀ m : list (K * V), NoDup m.*1 →
    NoDup (foldl (λ m kv, map_set kv.1 kv.2 m) m l).*1) as H; [|apply H; constructor].
  induction l; intros; simpl; auto using map_set_NoDup.
Qed.

(** The last entry of a key wins. *)
Lemma map_of_snoc l kv : map_of (l ++ [kv]) = map_set kv.1 kv.2 (map_of l).
Proof. unfold map_of. by rewrite foldl_app. Qed.

(** A key set for the first time goes last. *)
Lemma map_set_fresh k v m : k ∉ m.*1 → map_set k v m = m ++ [(k, v)].
Proof.
  induction m as [|[k' v'] m IH]; [done|]. simpl. rewrite not_elem_of_cons. intros [Hk Hm].
  destruct (decide (k = k')); [done|]. by rewrite IH.
Qed.

Lemma map_of_id l : NoDup l.*1 → map_of l = l.
Proof.
  induction l as [|[k v] l IH] using rev_ind; [done|].
  rewrite fmap_app, NoDup_app. intros (Hl & Hn & _). rewrite map_of_snoc, IH by done.
  apply map_set_fresh. intros Hk. apply (Hn _ Hk). by left.
Qed.

Lemma map_get_of k l : map_get k (map_of l) = map_get k (reverse l).
Proof.
  induction l as [|[k0 v0] l IH] using rev_ind; [done|].
  rewrite map_of_snoc, map_get_set, reverse_snoc, IH. done.
Qed.

Lemma map_set_elem kv k v m : kv ∈ map_set k v m → kv = (k, v) ∨ kv ∈ m.
Proof.
  induction m as [|[k0 v0] m IH]; simpl; [set_solver|].
  case_decide; simplify_eq; rewrite !elem_of_cons; naive_solver.
Qed.
End js_map.
