(* ===== verification/JsNumber.v ===== *)
(** * JavaScript numbers

    The Number type of the console's language: IEEE 754 binary64 with one NaN.
    A finite number is kept in units of 2^-1074, the least positive double, so
    every finite double is an integer and comparison is comparison of integers.
    The two zeros are one value: no code modelled here divides by a zero whose
    sign it has not fixed, and nothing else tells them apart.

    [rnd_frac n d] is the double nearest to n/d units, ties to even; addition,
    subtraction, multiplication and division compute exactly and round once.
    The lemmas say what the components need: rounding is monotone, keeps the
    sign of an exact difference, and is exact on integers below 2^53. *)

From S2P Require Import Prelude.
Open Scope Z_scope.

Inductive num := NaN | Inf (neg : bool) | Fin (m : Z).

#[export] Instance num_eq_dec : EqDecision num.
Proof. solve_decision. Defined.

(** The number one, in units. *)
Definition one : Z := 2 ^ 1074.

(** ** Rounding *)

(** [a / b] rounded to the nearest integer, ties to even. *)
Definition rne (a b : Z) : Z :=
  let q := a / b in
  let r := a mod b in
  if 2 * r <? b then q
  else if b <? 2 * r then q + 1
  else if Z.even q then q else q + 1.

(** Exponent of the last place of a double of integral part [t] units. *)
Definition rexp (t : Z) : Z := if t <? 2 ^ 53 then 0 else Z.log2 t - 52.

Definition rnd_pos (a d : Z) : Z :=
  let e := rexp (a / d) in rne a (d * 2 ^ e) * 2 ^ e.

Definition rnd_frac (n d : Z) : Z := Z.sgn n * rnd_pos (Z.abs n) d.

Definition rnd (m : Z) : Z := rnd_frac m 1.

(** Overflow to an infinity at 2^1024. *)
Definition mk (m : Z) : num := if 2 ^ 2098 <=? Z.abs m then Inf (m <? 0) else Fin m.

(** ** Literals *)

(** The double nearest to an integer: exact below 2^53. *)
Definition of_Z (z : Z) : num :=
  if Z.abs z <? 2 ^ 53 then Fin (z * one) else mk (rnd (z * one)).

(** The literal n/d, e.g. [0.1] as [of_frac 1 10]. *)
Definition of_frac (n d : Z) : num := mk (rnd_frac (n * one) d).

(** ** Operators *)

Definition nneg (x : num) : num :=
  match x with NaN => NaN | Inf s => Inf (negb s) | Fin a => Fin (- a) end.

Definition nadd (x y : num) : num :=
  match x, y with
  | NaN, _ | _, NaN => NaN
  | Inf s, Inf t => if Bool.eqb s t then Inf s else NaN
  | Inf s, Fin _ | Fin _, Inf s => Inf s
  | Fin a, Fin b => mk (rnd (a + b))
  end.

Definition nsub (x y : num) : num := nadd x (nneg y).

Definition nmul (x y : num) : num :=
  match x, y with
  | NaN, _ | _, NaN => NaN
  | Inf s, Inf t => Inf (xorb s t)
  | Inf s, Fin b | Fin b, Inf s => if b =? 0 then NaN else Inf (xorb s (b <? 0))
  | Fin a, Fin b => mk (rnd_frac (a * b) one)
  end.

(** Division; a zero divisor is the positive zero. *)
Definition ndiv (x y : num) : num :=
  match x, y with
  | NaN, _ | _, NaN => NaN
  | Inf _, Inf _ => NaN
  | Inf s, Fin b => Inf (xorb s (b <? 0))
  | Fin _, Inf _ => Fin 0
  | Fin a, Fin b =>
      if b =? 0 then (if a =? 0 then NaN else Inf (a <? 0))
      else mk (rnd_frac (Z.sgn b * a * one) (Z.abs b))
  end.

(** [x < y]; false when either side is NaN, like every comparison. *)
Definition nlt (x y : num) : bool :=
  match x, y with
  | NaN, _ | _, NaN => false
  | Inf s, Inf t => s && negb t
  | Inf s, Fin _ => s
  | Fin _, Inf t => negb t
  | Fin a, Fin b => a <? b
  end.

Definition nle (x y : num) : bool :=
  match x, y with
  | NaN, _ | _, NaN => false
  | _, _ => negb (nlt y x)
  end.

(** [x === y]. *)
Definition neqb (x y : num) : bool :=
  match x, y with
  | NaN, _ | _, NaN => false
  | _, _ => bool_decide (x = y)
  end.

Definition is_nan (x : num) : bool := match x with NaN => true | _ => false end.
(** [Number.isFinite]. *)
Definition is_finite (x : num) : bool := match x with Fin _ => true | _ => false end.

(** [Math.min], [Math.max]. *)
Definition nmin (x y : num) : num :=
  if is_nan x || is_nan y then NaN else if nlt y x then y else x.
Definition nmax (x y : num) : num :=
  if is_nan x || is_nan y then NaN else if nlt x y then y else x.

(** [Math.floor], [Math.ceil], [Math.round], [Math.abs]. *)
Definition nfloor (x : num) : num :=
  match x with Fin a => Fin (a / one * one) | _ => x end.
Definition nceil (x : num) : num :=
  match x with Fin a => Fin (- (- a / one) * one) | _ => x end.
Definition nround (x : num) : num :=
  match x with Fin a => Fin ((2 * a + one) / (2 * one) * one) | _ => x end.
Definition nabs (x : num) : num :=
  match x with NaN => NaN | Inf _ => Inf false | Fin a => Fin (Z.abs a) end.

(** [Math.sqrt]: the root of [m] units is taken with one spare bit, set when the
    root is not exact, which decides every rounding the way the exact root does. *)
Definition nsqrt (x : num) : num :=
  match x with
  | Fin m =>
      if m <? 0 then NaN
      else let r := Z.sqrt (m * one) in
           mk (rnd_frac (if r * r =? m * one then 2 * r else 2 * r + 1) 2)
  | Inf false => Inf false
  | _ => NaN
  end.

(** The comparator result [x] of a sort puts the first argument last. *)
Definition positive (x : num) : bool := nlt (Fin 0) x.

(** ** Rounding is monotone *)

Lemma one_pos : 0 < one.
Proof. done. Qed.

Lemma rne_close a b : 0 < b → 2 * a - b ≤ 2 * b * rne a b ≤ 2 * a + b.
Proof.
  intros Hb. unfold rne.
  pose proof (Z.div_mod a b ltac:(lia)) as Hd.
  pose proof (Z.mod_pos_bound a b Hb) as Hr.
  destruct (Z.ltb_spec (2 * (a mod b)) b); [nia|].
  destruct (Z.ltb_spec b (2 * (a mod b))); [nia|].
  destruct (Z.even (a / b)); nia.
Qed.

Lemma rne_mono a a' b : 0 < b → a ≤ a' → rne a b ≤ rne a' b.
Proof.
  intros Hb Ha. destruct (Z.eq_dec a a') as [->|]; [lia|].
  pose proof (rne_close a b Hb). pose proof (rne_close a' b Hb). nia.
Qed.

Lemma rne_exact k b : 0 < b → rne (k * b) b = k.
Proof.
  intros Hb. unfold rne. rewrite Z.div_mul, Z.mod_mul by lia. change (2 * 0) with 0.
  destruct (Z.ltb_spec 0 b); [done|lia].
Qed.

Lemma rne_1 z : rne z 1 = z.
Proof. pose proof (rne_exact z 1 ltac:(lia)) as H. by rewrite Z.mul_1_r in H. Qed.

Lemma rne_nonneg a b : 0 < b → 0 ≤ a → 0 ≤ rne a b.
Proof. intros. rewrite <-(rne_exact 0 b) by done. apply rne_mono; lia. Qed.

Lemma rexp_nonneg t : 0 ≤ rexp t.
Proof.
  unfold rexp. destruct (Z.ltb_spec t (2 ^ 53)); [done|].
  pose proof (proj1 (Z.log2_le_pow2 t 53 ltac:(lia)) ltac:(lia)). lia.
Qed.

Lemma rexp_mono t t' : t ≤ t' → rexp t ≤ rexp t'.
Proof.
  intros. unfold rexp. destruct (Z.ltb_spec t (2 ^ 53)), (Z.ltb_spec t' (2 ^ 53)); try lia.
  - pose proof (rexp_nonneg t') as H'. unfold rexp in H'.
    destruct (Z.ltb_spec t' (2 ^ 53)); lia.
  - pose proof (Z.log2_le_mono t t'). lia.
Qed.

(** The integral part of a rounded value fits in 53 bits, and in no fewer
    above 2^53. *)
Lemma rexp_upper t : 0 ≤ t → t < 2 ^ (53 + rexp t).
Proof.
  intros. unfold rexp. destruct (Z.ltb_spec t (2 ^ 53)); [done|].
  replace (53 + (Z.log2 t - 52)) with (Z.succ (Z.log2 t)) by lia.
  apply Z.log2_spec. lia.
Qed.

Lemma rexp_lower t : 0 < rexp t → 2 ^ (52 + rexp t) ≤ t.
Proof.
  unfold rexp. destruct (Z.ltb_spec t (2 ^ 53)); [lia|]. intros.
  replace (52 + (Z.log2 t - 52)) with (Z.log2 t) by lia.
  apply Z.log2_spec. lia.
Qed.

Lemma pow2_pos e : 0 ≤ e → 0 < 2 ^ e.
Proof. intros. by apply Z.pow_pos_nonneg. Qed.

Lemma rnd_pos_nonneg a d : 0 < d → 0 ≤ a → 0 ≤ rnd_pos a d.
Proof.
  intros. unfold rnd_pos. pose proof (pow2_pos _ (rexp_nonneg (a / d))).
  pose proof (rne_nonneg a (d * 2 ^ rexp (a / d)) ltac:(nia)). nia.
Qed.

(** Rounding stays below the next power of two... *)
Lemma rnd_pos_upper a d : 0 < d → 0 ≤ a → rnd_pos a d ≤ 2 ^ (53 + rexp (a / d)).
Proof.
  intros Hd Ha. unfold rnd_pos. set (e := rexp (a / d)).
  pose proof (rexp_nonneg (a / d)) as He. fold e in He. pose proof (pow2_pos e He).
  assert (a / d < 2 ^ (53 + e)) as Hu by (apply rexp_upper; apply Z.div_pos; lia).
  rewrite Z.pow_add_r in Hu |- * by lia. pose proof (Z.mul_succ_div_gt a d Hd).
  assert (a ≤ 2 ^ 53 * (d * 2 ^ e)) by nia.
  apply Z.mul_le_mono_nonneg_r; [lia|].
  rewrite <-(rne_exact (2 ^ 53) (d * 2 ^ e)) by nia. apply rne_mono; nia.
Qed.

(** ... and above the previous one. *)
Lemma rnd_pos_lower a d :
  0 < d → 0 < rexp (a / d) → 2 ^ (52 + rexp (a / d)) ≤ rnd_pos a d.
Proof.
  intros Hd He. pose proof (rexp_lower _ He) as Hl. unfold rnd_pos.
  set (e := rexp (a / d)) in *. pose proof (pow2_pos e ltac:(lia)).
  rewrite Z.pow_add_r in Hl |- * by lia. pose proof (Z.mul_div_le a d Hd).
  assert (2 ^ 52 * (d * 2 ^ e) ≤ a) by nia.
  apply Z.mul_le_mono_nonneg_r; [lia|].
  rewrite <-(rne_exact (2 ^ 52) (d * 2 ^ e)) at 1 by nia. apply rne_mono; nia.
Qed.

Lemma rnd_pos_mono a a' d : 0 < d → 0 ≤ a ≤ a' → rnd_pos a d ≤ rnd_pos a' d.
Proof.
  intros Hd Ha. assert (a / d ≤ a' / d) as Hq by (apply Z.div_le_mono; lia).
  pose proof (rexp_mono _ _ Hq) as He. pose proof (rexp_nonneg (a / d)).
  destruct (Z.eq_dec (rexp (a / d)) (rexp (a' / d))) as [E|E].
  - unfold rnd_pos. rewrite <-E. pose proof (pow2_pos (rexp (a / d)) ltac:(lia)).
    apply Z.mul_le_mono_nonneg_r; [lia|]. apply rne_mono; nia.
  - etrans; [apply rnd_pos_upper; lia|]. etrans; [|apply rnd_pos_lower; lia].
    apply Z.pow_le_mono_r; lia.
Qed.

(** Integers below 2^53 units are doubles. *)
Lemma rnd_pos_small a d k : 0 < d → 0 ≤ k < 2 ^ 53 → a = k * d → rnd_pos a d = k.
Proof.
  intros Hd Hk ->. unfold rnd_pos. rewrite Z.div_mul by lia.
  assert (rexp k = 0) as -> by (unfold rexp; destruct (Z.ltb_spec k (2 ^ 53)); lia).
  rewrite Z.mul_1_r. change (2 ^ 0) with 1. rewrite !Z.mul_1_r. by apply rne_exact.
Qed.

Lemma rnd_frac_mono n n' d : 0 < d → n ≤ n' → rnd_frac n d ≤ rnd_frac n' d.
Proof.
  intros Hd Hn. unfold rnd_frac.
  pose proof (rnd_pos_nonneg (Z.abs n) d Hd ltac:(lia)).
  pose proof (rnd_pos_nonneg (Z.abs n') d Hd ltac:(lia)).
  destruct (Z.lt_trichotomy n 0) as [?|[?|?]], (Z.lt_trichotomy n' 0) as [?|[?|?]]; subst;
    rewrite ?(Z.sgn_neg n), ?(Z.sgn_pos n), ?(Z.sgn_neg n'), ?(Z.sgn_pos n') by done; try nia.
  - pose proof (rnd_pos_mono (Z.abs n') (Z.abs n) d Hd ltac:(lia)). lia.
  - pose proof (rnd_pos_mono (Z.abs n) (Z.abs n') d Hd ltac:(lia)). lia.
Qed.

Lemma rnd_mono a b : a ≤ b → rnd a ≤ rnd b.
Proof. by apply rnd_frac_mono. Qed.

Lemma rnd_small m : Z.abs m < 2 ^ 53 → rnd m = m.
Proof.
  intros. unfold rnd, rnd_frac. rewrite (rnd_pos_small (Z.abs m) 1 (Z.abs m)) by lia. lia.
Qed.

(** Rounding an exact difference keeps its sign. *)
Lemma rnd_pos_iff m : 0 < rnd m ↔ 0 < m.
Proof.
  split; intros H.
  - destruct (Z.lt_trichotomy m 0) as [?|[->|?]]; [|done..].
    pose proof (rnd_mono m 0 ltac:(lia)). by change (rnd 0) with 0 in *; lia.
  - apply Z.lt_le_trans with (rnd 1); [done|]. apply rnd_mono. lia.
Qed.

Lemma rnd_neg_iff m : rnd m < 0 ↔ m < 0.
Proof.
  split; intros H.
  - destruct (Z.lt_trichotomy m 0) as [?|[->|?]]; [done..|].
    apply rnd_pos_iff in H0. lia.
  - apply Z.le_lt_trans with (rnd (-1)); [apply rnd_mono; lia|done].
Qed.

Lemma rnd_zero_iff m : rnd m = 0 ↔ m = 0.
Proof. pose proof (rnd_pos_iff m). pose proof (rnd_neg_iff m). lia. Qed.

(** Every multiple of a power of two by a 53-bit integer is a double. *)
Lemma rexp_scaled k e : 0 ≤ k < 2 ^ 53 → 0 ≤ e → rexp (k * 2 ^ e) ≤ e.
Proof.
  intros Hk He. unfold rexp. destruct (Z.ltb_spec (k * 2 ^ e) (2 ^ 53)); [done|].
  assert (0 < k) by (pose proof (pow2_pos e He); nia).
  rewrite Z.log2_mul_pow2 by lia.
  pose proof (proj1 (Z.log2_lt_pow2 k 53 ltac:(lia)) ltac:(lia)). lia.
Qed.

Lemma rnd_scaled k e : Z.abs k < 2 ^ 53 → 0 ≤ e → rnd (k * 2 ^ e) = k * 2 ^ e.
Proof.
  intros Hk He. unfold rnd, rnd_frac, rnd_pos.
  rewrite Z.abs_mul, (Z.abs_eq (2 ^ e)), Z.div_1_r, Z.mul_1_l by (pose proof (pow2_pos e He); lia).
  pose proof (rexp_scaled (Z.abs k) e ltac:(lia) He) as Hr.
  pose proof (rexp_nonneg (Z.abs k * 2 ^ e)). set (r := rexp _) in *.
  replace (Z.abs k * 2 ^ e) with (Z.abs k * 2 ^ (e - r) * 2 ^ r)
    by (rewrite <-Z.mul_assoc, <-Z.pow_add_r by lia; do 2 f_equal; lia).
  rewrite rne_exact by (apply pow2_pos; lia).
  rewrite <-Z.mul_assoc, <-Z.pow_add_r by lia. replace (e - r + r) with e by lia.
  rewrite Z.sgn_mul, (Z.sgn_pos (2 ^ e)) by (by apply pow2_pos). lia.
Qed.

Lemma rexp_scaled_le k n e : 0 ≤ k < 2 ^ n → 0 ≤ e → rexp (k * 2 ^ e) ≤ Z.max 0 (n + e - 53).
Proof.
  intros Hk He. unfold rexp. destruct (Z.ltb_spec (k * 2 ^ e) (2 ^ 53)); [lia|].
  assert (0 < k) by (pose proof (pow2_pos e He); nia). rewrite Z.log2_mul_pow2 by lia.
  destruct (Z.le_gt_cases 0 n) as [Hn|Hn]; [|rewrite Z.pow_neg_r in Hk by done; lia].
  pose proof (proj1 (Z.log2_lt_pow2 k n ltac:(lia)) ltac:(lia)). lia.
Qed.

(** The rounding error is at most half a unit in the last place. *)
Lemma rnd_error m : 0 ≤ m → 2 * Z.abs (rnd m - m) ≤ 2 ^ rexp m.
Proof.
  intros Hm. unfold rnd, rnd_frac, rnd_pos. rewrite (Z.abs_eq m), Z.div_1_r, Z.mul_1_l by lia.
  destruct (Z.eq_dec m 0) as [->|]; [done|]. rewrite Z.sgn_pos by lia.
  pose proof (rexp_nonneg m). pose proof (pow2_pos (rexp m) ltac:(lia)).
  pose proof (rne_close m (2 ^ rexp m) ltac:(done)). nia.
Qed.

(** ** Integers *)

Lemma of_Z_mk z : of_Z z = mk (rnd (z * one)).
Proof.
  unfold of_Z, one. destruct (Z.ltb_spec (Z.abs z) (2 ^ 53)); [|done].
  rewrite rnd_scaled by lia. unfold mk.
  destruct (Z.leb_spec (2 ^ 2098) (Z.abs (z * 2 ^ 1074))); [|done].
  change (2 ^ 2098) with (2 ^ 1024 * 2 ^ 1074) in *.
  rewrite Z.abs_mul, (Z.abs_eq (2 ^ 1074)) in * by done.
  assert (2 ^ 53 < 2 ^ 1024) by done. assert (0 < 2 ^ 1074) by done. nia.
Qed.

Lemma of_Z_exact z : Z.abs z < 2 ^ 53 → of_Z z = Fin (z * one).
Proof. intros. unfold of_Z. by destruct (Z.ltb_spec (Z.abs z) (2 ^ 53)); [|lia]. Qed.

Lemma mk_Fin m : Z.abs m < 2 ^ 2098 → mk m = Fin m.
Proof. unfold mk. generalize (2 ^ 2098). intros L HL. by destruct (Z.leb_spec L (Z.abs m)); [lia|]. Qed.

(** A 64-bit counter is a finite number, positive when it is. *)
Lemma of_Z_finite z : 0 ≤ z ≤ 2 ^ 64 → of_Z z = Fin (rnd (z * one)).
Proof.
  intros. rewrite of_Z_mk. pose proof one_pos.
  pose proof (rnd_mono (z * one) (2 ^ 64 * one) ltac:(nia)) as Hm.
  pose proof (rnd_mono 0 (z * one) ltac:(nia)) as Hz. change (rnd 0) with 0 in Hz.
  change (2 ^ 64 * one) with (1 * 2 ^ 1138) in Hm. rewrite rnd_scaled in Hm by lia.
  apply mk_Fin. rewrite Z.abs_eq, Z.mul_1_l in * by done.
  eapply Z.le_lt_trans; [exact Hm|done].
Qed.

(** ** Order *)

Definition not_nan (x : num) : Prop := x ≠ NaN.

Lemma mk_not_nan m : not_nan (mk m).
Proof. unfold mk. by case_match. Qed.

Lemma of_Z_not_nan z : not_nan (of_Z z).
Proof. rewrite of_Z_mk. apply mk_not_nan. Qed.

Lemma mk_mono a b : a ≤ b → nle (mk a) (mk b) = true.
Proof.
  intros. assert (0 < 2 ^ 2098) as HL by done. unfold mk. revert HL. generalize (2 ^ 2098). intros L HL.
  destruct (Z.leb_spec L (Z.abs a)), (Z.leb_spec L (Z.abs b)); simpl;
    repeat match goal with |- context [?x <? ?y] => destruct (Z.ltb_spec x y) end; simpl; lia.
Qed.

Lemma of_Z_mono a b : a ≤ b → nle (of_Z a) (of_Z b) = true.
Proof. intros. rewrite !of_Z_mk. apply mk_mono, rnd_mono. pose proof one_pos. nia. Qed.

Lemma positive_mk m : positive (mk m) = (0 <? m).
Proof.
  unfold positive, mk. assert (0 < 2 ^ 2098) as HL by done. revert HL. generalize (2 ^ 2098). intros L HL.
  destruct (Z.leb_spec L (Z.abs m)); simpl; [|done].
  destruct (Z.ltb_spec m 0), (Z.ltb_spec 0 m); simpl; lia.
Qed.

Lemma nsub_Fin a b : nsub (Fin a) (Fin b) = mk (rnd (a - b)).
Proof. done. Qed.

(** [a - b > 0] as a sort comparator decides [a > b] exactly. *)
Lemma positive_nsub a b : positive (nsub (Fin a) (Fin b)) = (b <? a).
Proof.
  rewrite nsub_Fin, positive_mk. pose proof (rnd_pos_iff (a - b)).
  destruct (Z.ltb_spec 0 (rnd (a - b))), (Z.ltb_spec b a); lia.
Qed.

Lemma positive_nsub_nlt x y : not_nan x → not_nan y → positive (nsub x y) = nlt y x.
Proof.
  destruct x as [|[]|a], y as [|[]|b]; intros Hx Hy; try done. apply positive_nsub.
Qed.

Lemma nlt_nsub a b : nlt (nsub (Fin a) (Fin b)) (Fin 0) = (a <? b).
Proof.
  rewrite nsub_Fin. unfold mk. pose proof (rnd_neg_iff (a - b)).
  assert (0 < 2 ^ 2098) by done.
  destruct (Z.leb_spec (2 ^ 2098) (Z.abs (rnd (a - b)))); simpl;
    destruct (Z.ltb_spec (rnd (a - b)) 0), (Z.ltb_spec a b); lia.
Qed.

Lemma neqb_nsub a b : neqb (nsub (Fin a) (Fin b)) (Fin 0) = (a =? b).
Proof.
  rewrite nsub_Fin. unfold mk. pose proof (rnd_zero_iff (a - b)).
  assert (0 < 2 ^ 2098) by done.
  destruct (Z.leb_spec (2 ^ 2098) (Z.abs (rnd (a - b)))); simpl.
  - destruct (Z.eqb_spec a b); [lia|]. done.
  - destruct (Z.eqb_spec a b).
    + rewrite bool_decide_eq_true. f_equal. lia.
    + rewrite bool_decide_eq_false. intros [=]. lia.
Qed.

(** Subtraction is monotone in its first argument, rounding included. *)
Lemma nsub_mono a a' b : a ≤ a' → nle (nsub (Fin a) (Fin b)) (nsub (Fin a') (Fin b)) = true.
Proof. intros. rewrite !nsub_Fin. apply mk_mono, rnd_mono. lia. Qed.

Lemma nle_trans x y z : nle x y = true → nle y z = true → nle x z = true.
Proof.
  destruct x as [|[]|a], y as [|[]|b], z as [|[]|c]; simpl; try done.
  rewrite !negb_true_iff, !Z.ltb_ge. lia.
Qed.

Lemma nlt_le_trans x y z : nlt x y = true → nle y z = true → nlt x z = true.
Proof.
  destruct x as [|[]|a], y as [|[]|b], z as [|[]|c]; simpl; try done.
  rewrite negb_true_iff, !Z.ltb_lt, Z.ltb_ge. lia.
Qed.

Lemma nle_lt_trans x y z : nle x y = true → nlt y z = true → nlt x z = true.
Proof.
  destruct x as [|[]|a], y as [|[]|b], z as [|[]|c]; simpl; try done.
  rewrite negb_true_iff, !Z.ltb_lt, Z.ltb_ge. lia.
Qed.

Lemma nlt_irrefl x : nlt x x = false.
Proof. destruct x as [|[]|a]; simpl; try done. apply Z.ltb_irrefl. Qed.

Lemma nlt_asym x y : nlt x y = true → nlt y x = false.
Proof.
  destruct x as [|[]|a], y as [|[]|b]; simpl; try done. rewrite Z.ltb_lt, Z.ltb_ge. lia.
Qed.

Lemma nlt_neg_trans x y z :
  not_nan y → nlt x y = false → nlt y z = false → nlt x z = false.
Proof.
  destruct x as [|[]|a], y as [|[]|b], z as [|[]|c]; simpl; try done.
  rewrite !Z.ltb_ge. lia.
Qed.

(** ** Arithmetic that moves forward *)

(** A value a double can hold. *)
Definition exact (x : num) : Prop := match x with Fin m => rnd m = m | _ => True end.

Lemma rnd_idem m : rnd (rnd m) = rnd m.
Proof.
  unfold rnd at 2 3. unfold rnd_frac, rnd_pos. set (a := Z.abs m). rewrite Z.div_1_r.
  pose proof (rexp_nonneg a) as He. pose proof (pow2_pos _ He) as Hp.
  assert (0 ≤ a) as Ha by lia.
  pose proof (rnd_pos_upper a 1 ltac:(lia) Ha) as Hu. unfold rnd_pos in Hu. rewrite Z.div_1_r in Hu.
  rewrite Z.mul_1_l in *. set (k := rne a (2 ^ rexp a)) in *.
  assert (0 ≤ k) by (apply rne_nonneg; lia).
  assert (k ≤ 2 ^ 53) as Hk.
  { rewrite Z.pow_add_r in Hu by lia. nia. }
  rewrite Z.mul_assoc. destruct (Z.eq_dec k (2 ^ 53)) as [->|Hne].
  - replace (Z.sgn m * 2 ^ 53 * 2 ^ rexp a) with ((Z.sgn m * 2 ^ 52) * 2 ^ (1 + rexp a)).
    + apply rnd_scaled; [|lia]. destruct (Z.sgn_spec m) as [[_ ->]|[[_ ->]|[_ ->]]]; done.
    + rewrite Z.pow_add_r by lia. change (2 ^ 53) with (2 ^ 52 * 2 ^ 1). ring.
  - apply rnd_scaled; [|done]. destruct (Z.sgn_spec m) as [[_ ->]|[[_ ->]|[_ ->]]]; lia.
Qed.

Lemma exact_mk_rnd m : exact (mk (rnd m)).
Proof. unfold mk. case_match; [done|]. apply rnd_idem. Qed.

Lemma exact_of_Z z : exact (of_Z z).
Proof. rewrite of_Z_mk. apply exact_mk_rnd. Qed.

Lemma exact_nadd x y : exact (nadd x y).
Proof. destruct x, y; simpl; try done; [by case_match|apply exact_mk_rnd]. Qed.

Lemma exact_nmin x y : exact x → exact y → exact (nmin x y).
Proof. intros. unfold nmin. by repeat case_match. Qed.

Lemma nle_refl x : not_nan x → nle x x = true.
Proof. destruct x; simpl; try done. - by destruct neg. - by rewrite Z.ltb_irrefl. Qed.

Lemma nle_not_nan x y : nle x y = true → not_nan x ∧ not_nan y.
Proof. by destruct x, y. Qed.

Lemma nlt_nle x y : not_nan x → not_nan y → nlt x y = negb (nle y x).
Proof. destruct x as [|[]|], y as [|[]|]; simpl; intros; try done; by rewrite ?negb_involutive. Qed.

Lemma nmin_le_r x y : not_nan x → not_nan y → nle (nmin x y) y = true.
Proof.
  intros Hx Hy. unfold nmin. assert (is_nan x || is_nan y = false) as -> by by destruct x, y.
  destruct (nlt y x) eqn:E; [by apply nle_refl|].
  rewrite nlt_nle in E by done. by apply negb_false_iff in E.
Qed.

Lemma nmin_glb x y z : nle z x = true → nle z y = true → nle z (nmin x y) = true.
Proof.
  intros Hx Hy. destruct (nle_not_nan _ _ Hx) as [_ Hnx], (nle_not_nan _ _ Hy) as [_ Hny].
  unfold nmin. assert (is_nan x || is_nan y = false) as -> by by destruct x, y.
  by destruct (nlt y x).
Qed.

(** A position cut at an end: it is at the end, or strictly before it. *)
Lemma nmin_cases a pos d :
  nle (Fin a) pos = true →
  nmin pos (Fin d) = Fin d ∨ ∃ q, nmin pos (Fin d) = Fin q ∧ a ≤ q < d.
Proof.
  destruct pos as [|[]|q]; try done; simpl; intros Ha; [by left|].
  apply negb_true_iff, Z.ltb_ge in Ha. unfold nmin. simpl.
  destruct (Z.ltb_spec d q); [by left|].
  destruct (Z.eq_dec q d) as [->|]; [by left|]. right. exists q. split; [done|lia].
Qed.

Lemma nle_Fin a b : nle (Fin a) (Fin b) = (a <=? b).
Proof. simpl. destruct (Z.ltb_spec b a), (Z.leb_spec a b); simpl; lia. Qed.

Lemma nsub_nonneg x y :
  is_finite x = true → is_finite y = true → nle y x = true → nle (Fin 0) (nsub x y) = true.
Proof.
  destruct x as [| |a], y as [| |b]; try done. intros _ _ Hle. simpl in Hle.
  apply negb_true_iff, Z.ltb_ge in Hle. rewrite nsub_Fin. apply (mk_mono 0).
  apply (rnd_mono 0). lia.
Qed.

Lemma nmul_nonneg x y :
  nle (Fin 0) x = true → nlt (Fin 0) y = true → is_finite y = true → nle (Fin 0) (nmul x y) = true.
Proof.
  destruct x as [|[]|a], y as [|[]|b]; try done; simpl; intros Hx Hy _.
  - apply Z.ltb_lt in Hy. destruct (Z.eqb_spec b 0); [lia|]. by destruct (Z.ltb_spec b 0); [lia|].
  - apply negb_true_iff, Z.ltb_ge in Hx. apply Z.ltb_lt in Hy. apply (mk_mono 0).
    apply (rnd_frac_mono 0); [apply one_pos|]. nia.
Qed.

Lemma nle_mk_nonneg a m : 0 ≤ a → a ≤ m → nle (Fin a) (mk m) = true.
Proof.
  intros Ha Hm. unfold mk. destruct (_ <=? _); simpl.
  - by destruct (Z.ltb_spec m 0); [lia|].
  - by destruct (Z.ltb_spec m a); [lia|].
Qed.

(** Adding something nonnegative never goes back. *)
Lemma nadd_nonneg_le x y :
  exact x → is_finite x = true → nle (Fin 0) x = true → nle (Fin 0) y = true →
  nle x (nadd x y) = true.
Proof.
  destruct x as [| |a], y as [|[]|b]; try done. simpl exact. intros Ha _ Hx Hb.
  simpl in Hx, Hb. apply negb_true_iff, Z.ltb_ge in Hx, Hb.
  apply nle_mk_nonneg; [done|]. rewrite <-Ha at 1. apply rnd_mono. lia.
Qed.

(** Adding at least one to a number below 4096 moves it by a half at least. *)
Lemma nadd_progress p y :
  0 ≤ p < 2 ^ 12 * one → nle (of_Z 1) y = true → nle (Fin (p + one / 2)) (nadd (Fin p) y) = true.
Proof.
  intros Hp Hy. rewrite of_Z_exact, Z.mul_1_l in Hy by done. pose proof one_pos.
  destruct y as [|[]|b]; try done. simpl in Hy. apply negb_true_iff, Z.ltb_ge in Hy.
  change (nadd (Fin p) (Fin b)) with (mk (rnd (p + b))).
  pose proof (rnd_mono (p + one) (p + b) ltac:(lia)) as Hm.
  pose proof (rnd_error (p + one) ltac:(lia)) as He.
  assert (rexp (p + one) ≤ 1034) as Hr.
  { etrans; [apply (rexp_mono _ (8191 * one)); lia|].
    etrans; [apply (rexp_scaled_le 8191 13 1074); lia|]. lia. }
  pose proof (Z.pow_le_mono_r 2 _ _ ltac:(lia) Hr) as Hpow.
  assert (2 ^ 1034 < one) by done. apply nle_mk_nonneg; [|].
  - pose proof (Z.div_pos one 2 ltac:(lia) ltac:(lia)). lia.
  - pose proof (Z.mul_div_le one 2 ltac:(lia)). lia.
Qed.

Lemma nmin_le_l x y : not_nan x → not_nan y → nle (nmin x y) x = true.
Proof.
  intros Hx Hy. unfold nmin. assert (is_nan x || is_nan y = false) as -> by by destruct x, y.
  destruct (nlt y x) eqn:E; [|by apply nle_refl].
  rewrite nlt_nle in E by done. apply negb_true_iff in E.
  destruct x as [|[]|], y as [|[]|]; try done. rewrite nle_Fin in *. lia.
Qed.

Lemma nmax_ge_l x y : not_nan x → not_nan y → nle x (nmax x y) = true ∧ not_nan (nmax x y).
Proof.
  intros Hx Hy. unfold nmax. assert (is_nan x || is_nan y = false) as -> by by destruct x, y.
  destruct (nlt x y) eqn:E; [|by split; [apply nle_refl|]]. split; [|done].
  rewrite nlt_nle in E by done. apply negb_true_iff in E.
  destruct x as [|[]|], y as [|[]|]; try done. rewrite nle_Fin in *. lia.
Qed.

Lemma nle_between a x b :
  nle (Fin a) x = true → nle x (Fin b) = true → ∃ q, x = Fin q ∧ a ≤ q ≤ b.
Proof.
  destruct x as [|[]|q]; try done. rewrite !nle_Fin, !Z.leb_le. intros. by exists q.
Qed.

(** ** Whole numbers of the size of today's nanosecond timestamps *)

Lemma rnd_opp m : rnd (- m) = - rnd m.
Proof. unfold rnd, rnd_frac. rewrite Z.sgn_opp, Z.abs_opp. lia. Qed.

(** Far from overflow. *)
Lemma mk_small m : Z.abs m ≤ 2 ^ 62 * one → mk m = Fin m.
Proof. intros. apply mk_Fin. by eapply Z.le_lt_trans. Qed.

Lemma nle_mk_le a b : 0 ≤ a → nle (mk a) (Fin b) = true → a ≤ b.
Proof.
  unfold mk. generalize (2 ^ 2098). intros L Ha. destruct (L <=? Z.abs a).
  - by destruct (Z.ltb_spec a 0); [lia|].
  - rewrite nle_Fin. by intros ?%Z.leb_le.
Qed.

Lemma mk_whole z : Z.abs z ≤ 2 ^ 62 → mk (z * one) = Fin (z * one).
Proof.
  intros Hz. apply mk_small. pose proof one_pos. rewrite Z.abs_mul, (Z.abs_eq one) by lia.
  apply Z.mul_le_mono_nonneg_r; lia.
Qed.

(** Below 2^61 a result is off by 128 at most. *)
Lemma rnd_close m : Z.abs m < 2 ^ 61 * one → Z.abs (rnd m - m) ≤ 128 * one.
Proof.
  assert (∀ m, 0 ≤ m < 2 ^ 61 * one → Z.abs (rnd m - m) ≤ 128 * one) as Hpos.
  { clear m. intros m Hm. pose proof (rnd_error m ltac:(lia)) as He.
    assert (rexp m ≤ 1082) as Hr.
    { etrans; [apply (rexp_mono _ ((2 ^ 61 - 1) * one + (one - 1))); lia|]. unfold one. vm_compute. congruence. }
    pose proof (Z.pow_le_mono_r 2 _ _ ltac:(lia) Hr) as Hp.
    change (2 ^ 1082) with (2 * (128 * one)) in Hp. lia. }
  intros Hm. destruct (Z.le_ge_cases 0 m); [apply Hpos; lia|].
  specialize (Hpos (- m) ltac:(lia)). rewrite rnd_opp in Hpos. lia.
Qed.

(** A whole number stays whole. *)
Lemma rnd_whole z : Z.abs z < 2 ^ 61 → ∃ k, rnd (z * one) = k * one ∧ Z.abs (k - z) ≤ 128.
Proof.
  intros Hz. pose proof one_pos as Ho.
  pose proof (rnd_close (z * one) ltac:(rewrite Z.abs_mul, (Z.abs_eq one) by lia; nia)) as Hc.
  assert (∃ k, rnd (z * one) = k * one) as [k Hk].
  { destruct (Z.lt_ge_cases (Z.abs z) (2 ^ 53)) as [Hs|Hl].
    - exists z. unfold one. by apply rnd_scaled.
    - unfold rnd, rnd_frac, rnd_pos. rewrite Z.div_1_r.
      set (a := Z.abs (z * one)). assert (1074 ≤ rexp a) as Hr.
      { etrans; [|apply (rexp_mono (2 ^ 53 * one)); subst a; rewrite Z.abs_mul, (Z.abs_eq one) by lia; nia].
        vm_compute. congruence. }
      replace (2 ^ rexp a) with (2 ^ (rexp a - 1074) * one)
        by (unfold one; rewrite <-Z.pow_add_r by lia; f_equal; lia).
      rewrite !Z.mul_assoc. eauto. }
  exists k. split; [done|]. rewrite Hk in Hc.
  replace (k * one - z * one) with ((k - z) * one) in Hc by ring.
  rewrite Z.abs_mul, (Z.abs_eq one) in Hc by lia. nia.
Qed.

(** A fraction in lowest terms or not. *)
Lemma rne_scale a b d : 0 < b → 0 < d → 0 ≤ a → rne (a * d) (b * d) = rne a b.
Proof.
  intros Hb Hd Ha. unfold rne. rewrite Z.div_mul_cancel_r, Z.mul_mod_distr_r by lia.
  assert (∀ x y, (x * d <? y * d) = (x <? y)) as Hlt.
  { intros x y. destruct (Z.ltb_spec (x * d) (y * d)), (Z.ltb_spec x y); nia. }
  rewrite Z.mul_assoc, !Hlt. done.
Qed.

Lemma rnd_frac_scale v d : 0 < d → rnd_frac (v * d) d = rnd v.
Proof.
  intros Hd. unfold rnd, rnd_frac, rnd_pos.
  rewrite Z.sgn_mul, (Z.sgn_pos d), Z.mul_1_r, Z.abs_mul, (Z.abs_eq d) by lia.
  rewrite Z.div_mul, Z.div_1_r, Z.mul_1_l by lia. do 2 f_equal.
  rewrite (Z.mul_comm d). apply rne_scale; [|done|lia]. apply pow2_pos, rexp_nonneg.
Qed.

Lemma ndiv_Fin a b : 0 < b → ndiv (Fin a) (Fin b) = mk (rnd_frac (a * one) b).
Proof.
  intros Hb. simpl. destruct (Z.eqb_spec b 0); [lia|].
  by rewrite (Z.sgn_pos b), Z.mul_1_l, (Z.abs_eq b) by lia.
Qed.

(** The quotient of a time by a unit, rounded up to a whole number. *)
Lemma nceil_ndiv a t :
  Z.abs a < 2 ^ 61 * one → 1000 ≤ t < 2 ^ 53 →
  ∃ k, nceil (ndiv (Fin a) (Fin (t * one))) = Fin (k * one) ∧ a - t * one < k * t * one < a + 2 * t * one.
Proof.
  intros Ha Ht. pose proof one_pos as Ho. rewrite ndiv_Fin by nia.
  set (k0 := a / (t * one)). pose proof (Z.div_mod a (t * one) ltac:(nia)) as Hdm.
  pose proof (Z.mod_pos_bound a (t * one) ltac:(nia)) as Hm. fold k0 in Hdm.
  assert (Z.abs k0 < 2 ^ 52) as Hk0 by nia.
  pose proof (rnd_frac_mono (k0 * one * (t * one)) (a * one) (t * one) ltac:(nia) ltac:(nia)) as Hlo.
  pose proof (rnd_frac_mono (a * one) ((k0 + 1) * one * (t * one)) (t * one) ltac:(nia) ltac:(nia)) as Hhi.
  rewrite rnd_frac_scale in Hlo, Hhi by nia. unfold one in Hlo, Hhi.
  rewrite rnd_scaled in Hlo, Hhi by lia. fold one in Hlo, Hhi.
  set (q := rnd_frac (a * one) (t * one)) in *. clearbody q.
  assert (Z.abs q < 2 ^ 2098) as Hq0.
  { assert (2 ^ 52 * one + one < 2 ^ 2098) as HL by done. revert HL. generalize (2 ^ 2098).
    revert Ho Hk0 Hlo Hhi. clear. generalize one. intros; nia. }
  rewrite mk_Fin by done. cbn [nceil].
  revert Ho Hdm Hm Hlo Hhi. clear -Ht. generalize one. intros one Ho Hdm Hm Hlo Hhi.
  exists (- (- q / one)). split; [done|].
  pose proof (Z.div_mod (- q) one ltac:(lia)) as Hq. pose proof (Z.mod_pos_bound (- q) one ltac:(lia)).
  assert (k0 ≤ - (- q / one) ≤ k0 + 1) by nia. nia.
Qed.

(** ** Values close to a double *)

Lemma rexp_le t e : 0 ≤ t < 2 ^ (53 + e) → 0 ≤ e → rexp t ≤ e.
Proof.
  intros Ht He. unfold rexp. destruct (Z.ltb_spec t (2 ^ 53)); [done|].
  pose proof (proj1 (Z.log2_lt_pow2 t (53 + e) ltac:(lia)) ltac:(lia)). lia.
Qed.

Lemma rexp_ge t e : 0 < e → 2 ^ (52 + e) ≤ t → e ≤ rexp t.
Proof.
  intros He Ht. pose proof (Z.pow_le_mono_r 2 53 (52 + e) ltac:(lia) ltac:(lia)).
  unfold rexp. destruct (Z.ltb_spec t (2 ^ 53)); [lia|].
  pose proof (proj1 (Z.log2_le_pow2 t (52 + e) ltac:(lia)) ltac:(lia)). lia.
Qed.

Lemma rne_near x b k : 0 < b → 2 * Z.abs (x - k * b) < b → rne x b = k.
Proof. intros Hb Hx. pose proof (rne_close x b Hb). nia. Qed.

(** What rounds to a double [m]: everything closer to it than half a unit in the
    last place, on either side of a power of two. *)
Lemma rnd_near m x :
  0 ≤ m → rnd m = m → 0 ≤ x → 2 * Z.abs (x - m) < 2 ^ rexp m → 2 * Z.abs (x - m) < 2 ^ rexp x →
  rnd x = m.
Proof.
  intros Hm Hd Hx Hnm Hnx. destruct (Z.eq_dec x 0) as [->|Hx0].
  { change (2 ^ rexp 0) with 1 in Hnx. assert (m = 0) by lia. by subst. }
  destruct (Z.eq_dec m 0) as [->|Hm0]; [change (2 ^ rexp 0) with 1 in Hnm; lia|].
  pose proof (rexp_nonneg m) as He. pose proof (rexp_nonneg x) as He'.
  assert (∃ k, m = k * 2 ^ rexp m) as [k Hk].
  { exists (rne m (2 ^ rexp m)). rewrite <-Hd at 1.
    unfold rnd, rnd_frac, rnd_pos. rewrite Z.sgn_pos, (Z.abs_eq m), Z.div_1_r, !Z.mul_1_l by lia. done. }
  assert (rexp x ≤ rexp m) as Hle.
  { destruct (Z.le_gt_cases x m); [by apply rexp_mono|]. apply rexp_le; [|done].
    pose proof (rexp_upper m Hm) as Hu. rewrite Z.pow_add_r in * by lia.
    set (p := 2 ^ rexp m) in *. split; [done|]. assert (k < 2 ^ 53) by nia. nia. }
  assert (m = k * 2 ^ (rexp m - rexp x) * 2 ^ rexp x) as Hk'.
  { rewrite <-Z.mul_assoc, <-Z.pow_add_r by lia. by replace (rexp m - rexp x + rexp x) with (rexp m) by lia. }
  unfold rnd, rnd_frac, rnd_pos. rewrite Z.sgn_pos, (Z.abs_eq x), Z.div_1_r, !Z.mul_1_l by lia.
  rewrite (rne_near _ _ (k * 2 ^ (rexp m - rexp x))); [by rewrite <-Hk'|by apply pow2_pos|].
  by rewrite <-Hk'.
Qed.

(** A 64-bit integer that is not safe is held as a whole number of 53 bits. *)
Lemma of_Z_big z :
  2 ^ 53 ≤ z ≤ 2 ^ 64 → ∃ w, of_Z z = Fin (w * one) ∧ rnd (w * one) = w * one ∧ 2 ^ 53 ≤ w ≤ 2 ^ 64.
Proof.
  intros Hz. rewrite of_Z_finite by lia. pose proof one_pos as Ho.
  assert (∃ w, rnd (z * one) = w * one) as [w Hw].
  { unfold rnd, rnd_frac, rnd_pos. rewrite Z.div_1_r, Z.abs_eq, Z.sgn_pos by nia.
    assert (1075 ≤ rexp (z * one)) as Hr.
    { apply rexp_ge; [lia|]. replace (52 + 1075) with (53 + 1074) by lia.
      rewrite Z.pow_add_r by lia. apply Z.mul_le_mono_nonneg_r; [done|lia]. }
    set (e := rexp (z * one)) in *. clearbody e.
    assert (2 ^ e = 2 ^ (e - 1074) * one) as He by (unfold one; rewrite <-Z.pow_add_r by lia; f_equal; lia).
    set (r := rne _ _). clearbody r. exists (r * 2 ^ (e - 1074)). rewrite He. lia. }
  exists w. rewrite Hw. split_and!; [done|by rewrite <-Hw, rnd_idem|..].
  - pose proof (rnd_mono (2 ^ 53 * one) (z * one) ltac:(nia)) as Hm.
    change (2 ^ 53 * one) with (1 * 2 ^ 1127) in Hm. rewrite rnd_scaled in Hm by lia.
    change (1 * 2 ^ 1127) with (2 ^ 53 * one) in Hm. nia.
  - pose proof (rnd_mono (z * one) (2 ^ 64 * one) ltac:(nia)) as Hm.
    change (2 ^ 64 * one) with (1 * 2 ^ 1138) in Hm. rewrite rnd_scaled in Hm by lia.
    change (1 * 2 ^ 1138) with (2 ^ 64 * one) in Hm. nia.
Qed.

#[export] Hint Resolve nlt_irrefl nlt_asym one_pos : console.

(** ** Agreement with decimal intuition, and known roundings *)

Example half_plus_half : nadd (of_frac 1 2) (of_frac 1 2) = of_Z 1.
Proof. vm_compute. reflexivity. Qed.

(** 0.1 + 0.2 is not 0.3 but its successor. *)
Example tenth_plus_fifth :
  nlt (of_frac 3 10) (nadd (of_frac 1 10) (of_frac 2 10)) = true.
Proof. vm_compute. reflexivity. Qed.

(** At the size of today's nanosecond timestamps doubles are 256 apart. *)
Example timestamps_round : of_Z 1700000000000000001 = of_Z 1700000000000000000.
Proof. vm_compute. reflexivity. Qed.

Example sqrt_two : nsqrt (of_Z 2) = Fin (6369051672525773 * 2 ^ (1074 - 52)).
Proof. vm_compute. reflexivity. Qed.

Example sqrt_square : nsqrt (of_Z 25) = of_Z 5.
Proof. vm_compute. reflexivity. Qed.
