(* ===== verification/JsString.v ===== *)
(** * JavaScript strings

    A JavaScript string is kept as the bytes of its UTF-8 form (WTF-8 where it
    holds a lone surrogate), so Rocq string literals read as the source's.
    [to_u16] and [of_u16] give the 16-bit code units, which is what [length]
    and [slice] count.  [toLowerCase], [toUpperCase] and [trim] act on the ASCII
    range and leave every other character alone.

    The second half is the conversion between numbers and strings:
    [num_to_string] is Number::toString (shortest digits that read back),
    [to_fixed] is Number.prototype.toFixed, [string_to_number] is Number(s). *)

From S2P Require Import Prelude JsNumber.
From Stdlib Require Import DecimalString.
Open Scope Z_scope.

(** ** Characters *)

Definition byte_of (c : ascii) : Z := Z.of_N (N_of_ascii c).
Definition chr (z : Z) : ascii := ascii_of_N (Z.to_N z).
Definition in_range (lo hi : Z) (c : ascii) : bool :=
  (lo <=? byte_of c) && (byte_of c <=? hi).
Definition is_digit : ascii → bool := in_range 48 57.
Definition is_space (c : ascii) : bool := in_range 9 13 c || (byte_of c =? 32).

Fixpoint smap (f : ascii → ascii) (s : string) : string :=
  match s with "" => "" | String c s' => String (f c) (smap f s') end.

Definition lower_char (c : ascii) : ascii :=
  if in_range 65 90 c then chr (byte_of c + 32) else c.
Definition upper_char (c : ascii) : ascii :=
  if in_range 97 122 c then chr (byte_of c - 32) else c.

(** [s.toLowerCase()], [s.toUpperCase()]. *)
Definition to_lower : string → string := smap lower_char.
Definition to_upper : string → string := smap upper_char.

(** [s.replaceAll(a, b)] for one-character [a] and [b]. *)
Definition replace_all (a b : ascii) : string → string :=
  smap (λ c, if decide (c = a) then b else c).

(** ** Searching and cutting *)

(** [s.startsWith(p)]. *)
Fixpoint starts_with (s p : string) {struct p} : bool :=
  match p, s with
  | "", _ => true
  | String a p', String b s' => bool_decide (a = b) && starts_with s' p'
  | String _ _, "" => false
  end.

(** [s.includes(p)]. *)
Fixpoint includes (s p : string) : bool :=
  starts_with s p ||
  match s with "" => false | String _ s' => includes s' p end.

(** [l.join(sep)]. *)
Fixpoint join (sep : string) (l : list string) : string :=
  match l with
  | [] => ""
  | [s] => s
  | s :: l' => s +:+ sep +:+ join sep l'
  end.

(** [s.split(c)] for a one-character separator. *)
Fixpoint split_char (c : ascii) (s : string) : list string :=
  match s with
  | "" => [""]
  | String a s' =>
      match split_char c s' with
      | w :: ws => if decide (a = c) then "" :: w :: ws else String a w :: ws
      | [] => [String a ""]
      end
  end.

Fixpoint trim_start (s : string) : string :=
  match s with
  | String c s' => if is_space c then trim_start s' else s
  | "" => ""
  end.

Fixpoint srev_app (s acc : string) : string :=
  match s with "" => acc | String c s' => srev_app s' (String c acc) end.
Definition srev (s : string) : string := srev_app s "".

(** [s.trim()]. *)
Definition trim (s : string) : string := srev (trim_start (srev (trim_start s))).

Fixpoint repeat_char (n : nat) (c : ascii) : string :=
  match n with O => "" | S n' => String c (repeat_char n' c) end.

(** [s.padStart(n, c)] for an ASCII [s]. *)
Definition pad_start (s : string) (n : nat) (c : ascii) : string :=
  repeat_char (n - String.length s) c +:+ s.

(** ** UTF-16 code units *)

Fixpoint to_u16 (s : string) : list Z :=
  match s with
  | "" => []
  | String a s1 =>
      let x := byte_of a in
      if x <? 128 then x :: to_u16 s1 else
      match s1 with
      | "" => []
      | String b s2 =>
          let y := byte_of b mod 64 in
          if x <? 224 then ((x mod 32) * 64 + y) :: to_u16 s2 else
          match s2 with
          | "" => []
          | String c s3 =>
              let z := byte_of c mod 64 in
              if x <? 240 then (((x mod 16) * 64 + y) * 64 + z) :: to_u16 s3 else
              match s3 with
              | "" => []
              | String d s4 =>
                  let p := (((x mod 8) * 64 + y) * 64 + z) * 64 + byte_of d mod 64 - 65536 in
                  (55296 + p / 1024) :: (56320 + p mod 1024) :: to_u16 s4
              end
          end
      end
  end.

Definition utf8_3 (u : Z) (s : string) : string :=
  String (chr (224 + u / 4096))
    (String (chr (128 + u / 64 mod 64)) (String (chr (128 + u mod 64)) s)).

Definition utf8_4 (p : Z) (s : string) : string :=
  String (chr (240 + p / 262144)) (String (chr (128 + p / 4096 mod 64))
    (String (chr (128 + p / 64 mod 64)) (String (chr (128 + p mod 64)) s))).

Definition is_high (u : Z) : bool := (55296 <=? u) && (u <? 56320).
Definition is_low (u : Z) : bool := (56320 <=? u) && (u <? 57344).

Fixpoint of_u16 (l : list Z) : string :=
  match l with
  | [] => ""
  | u :: l' =>
      if u <? 128 then String (chr u) (of_u16 l')
      else if u <? 2048 then
        String (chr (192 + u / 64)) (String (chr (128 + u mod 64)) (of_u16 l'))
      else match l' with
      | v :: l'' =>
          if is_high u && is_low v
          then utf8_4 (65536 + (u - 55296) * 1024 + (v - 56320)) (of_u16 l'')
          else utf8_3 u (of_u16 l')
      | [] => utf8_3 u ""
      end
  end.

(** [s.length], and [s.slice(0, n)] for [n >= 0]. *)
Definition js_length (s : string) : nat := length (to_u16 s).
Definition js_take (n : nat) (s : string) : string := of_u16 (take n (to_u16 s)).

(** ** Numbers to strings *)

Definition dec_of_Z (z : Z) : string := NilZero.string_of_int (Z.to_int z).
Definition dec_of_nat (n : nat) : string := dec_of_Z (Z.of_nat n).

(** [m] units are below 10^k. *)
Definition below_pow10 (m k : Z) : bool :=
  if 0 <=? k then m <? 10 ^ k * one else m * 10 ^ (- k) <? one.

(** The [n] with 10^(n-1) <= m < 10^n, for a positive [m]. *)
Definition dec_point (m : Z) : Z :=
  let n0 := (Z.log2 m - 1074) * 30103 / 100000 in
  if below_pow10 m n0 then n0 else if below_pow10 m (n0 + 1) then n0 + 1 else n0 + 2.

(** The [k]-digit decimal nearest to [m], and the double a decimal reads as. *)
Definition nearest_digits (m n k : Z) : Z :=
  if 0 <=? k - n then rne (m * 10 ^ (k - n)) one else rne m (one * 10 ^ (n - k)).
Definition read_digits (s n k : Z) : Z :=
  if 0 <=? n - k then rnd (s * 10 ^ (n - k) * one) else rnd_frac (s * one) (10 ^ (k - n)).

Fixpoint shortest (fuel : nat) (m n k : Z) : Z * Z :=
  let s := nearest_digits m n k in
  match fuel with
  | O => (s, k)
  | S fuel' =>
      if (10 ^ (k - 1) <=? s) && (s <? 10 ^ k) && (read_digits s n k =? m)
      then (s, k) else shortest fuel' m n (k + 1)
  end.

Definition zeros (z : Z) : string := repeat_char (Z.to_nat z) "0".

(** The layout of digits [ds] ([k] of them) with decimal point after [n]. *)
Definition layout (ds : string) (n k : Z) : string :=
  if (k <=? n) && (n <=? 21) then ds +:+ zeros (n - k)
  else if (0 <? n) && (n <=? 21) then
    String.substring 0 (Z.to_nat n) ds +:+ "." +:+
    String.substring (Z.to_nat n) (Z.to_nat (k - n)) ds
  else if (-6 <? n) && (n <=? 0) then "0." +:+ zeros (- n) +:+ ds
  else
    let e := n - 1 in
    let sign := if 0 <=? e then "+" else "-" in
    let frac := if k =? 1 then "" else "." +:+ String.substring 1 (Z.to_nat (k - 1)) ds in
    String.substring 0 1 ds +:+ frac +:+ "e" +:+ sign +:+ dec_of_Z (Z.abs e).

Definition pos_to_string (m : Z) : string :=
  if (m mod one =? 0) && (m <? 2 ^ 53 * one) then dec_of_Z (m / one)
  else
    let n := dec_point m in
    let '(s, k) := shortest 16 m n 1 in
    layout (dec_of_Z s) n k.

(** [String(x)]. *)
Definition num_to_string (x : num) : string :=
  match x with
  | NaN => "NaN"
  | Inf true => "-Infinity"
  | Inf false => "Infinity"
  | Fin m => if m =? 0 then "0" else if m <? 0 then "-" +:+ pos_to_string (- m) else pos_to_string m
  end.

(** [x.toFixed(f)]. *)
Definition fixed_pos (f : nat) (m : Z) : string :=
  let n := (2 * m * 10 ^ Z.of_nat f + one) / (2 * one) in
  let ds := dec_of_Z n in
  match f with
  | O => ds
  | _ =>
      let ds := pad_start ds (S f) "0" in
      let k := (String.length ds - f)%nat in
      String.substring 0 k ds +:+ "." +:+ String.substring k f ds
  end.

Definition to_fixed (f : nat) (x : num) : string :=
  match x with
  | Fin m =>
      if 10 ^ 21 * one <=? Z.abs m then num_to_string x
      else if m <? 0 then "-" +:+ fixed_pos f (- m) else fixed_pos f m
  | _ => num_to_string x
  end.

(** ** Strings to numbers *)

(** The leading digits of [s], how many, and the rest. *)
Fixpoint scan_digits (acc : Z) (cnt : Z) (s : string) : Z * Z * string :=
  match s with
  | String c s' =>
      if is_digit c then scan_digits (acc * 10 + (byte_of c - 48)) (cnt + 1) s' else (acc, cnt, s)
  | "" => (acc, cnt, "")
  end.

(** The double nearest to [mant * 10^e]; [len] is the digit count of [mant]. *)
Definition decimal (mant len e : Z) : num :=
  if mant =? 0 then Fin 0
  else if 310 <? len + e then Inf false
  else if len + e <? -400 then Fin 0
  else if 0 <=? e then of_Z (mant * 10 ^ e) else of_frac mant (10 ^ (- e)).

(** An optional exponent part; [None] when "e" is not followed by digits. *)
Definition scan_exponent (s : string) : option (Z * string) :=
  match s with
  | String c s' =>
      if bool_decide (c = "e"%char) || bool_decide (c = "E"%char) then
        let '(sg, s1) :=
          match s' with
          | String "-" t => (-1, t)
          | String "+" t => (1, t)
          | _ => (1, s')
          end in
        let '(e, cnt, rest) := scan_digits 0 0 s1 in
        if cnt =? 0 then None else Some (sg * e, rest)
      else Some (0, s)
  | "" => Some (0, "")
  end.

(** An unsigned decimal literal: digits, fraction and exponent. *)
Definition scan_decimal (s : string) : option (num * string) :=
  let '(m1, c1, s1) := scan_digits 0 0 s in
  let '(m2, c2, s2) :=
    match s1 with
    | String "." t => let '(m, c, rest) := scan_digits m1 c1 t in (m, c - c1, rest)
    | _ => (m1, 0, s1)
    end in
  if c1 + c2 =? 0 then None
  else '(e, rest) ← scan_exponent s2; Some (decimal m2 (c1 + c2) (e - c2), rest).

Definition digit_value (c : ascii) : Z :=
  if is_digit c then byte_of c - 48
  else if in_range 97 102 c then byte_of c - 87
  else if in_range 65 70 c then byte_of c - 55
  else 99.

Fixpoint scan_radix (r acc : Z) (s : string) : option Z :=
  match s with
  | "" => Some acc
  | String c s' => if digit_value c <? r then scan_radix r (acc * r + digit_value c) s' else None
  end.

Definition radix_number (r : Z) (s : string) : num :=
  match s with
  | "" => NaN
  | _ => match scan_radix r 0 s with Some z => of_Z z | None => NaN end
  end.

Definition unsigned_number (s : string) : num :=
  if bool_decide (s = "Infinity") then Inf false
  else match scan_decimal s with Some (x, "") => x | _ => NaN end.

(** [Number(s)]. *)
Definition string_to_number (s : string) : num :=
  match trim s with
  | "" => Fin 0
  | String "0" (String c t) as u =>
      match to_lower (String c "") with
      | "x" => radix_number 16 t
      | "o" => radix_number 8 t
      | "b" => radix_number 2 t
      | _ => unsigned_number u
      end
  | String "-" t => nneg (unsigned_number t)
  | String "+" t => unsigned_number t
  | u => unsigned_number u
  end.

(** ** Lemmas *)

Lemma app_assoc_s (a b c : string) : (a +:+ b) +:+ c = a +:+ b +:+ c.
Proof. induction a as [|x a IH]; [done|]. exact (f_equal (String x) IH). Qed.

Lemma app_nil_s (a : string) : a +:+ "" = a.
Proof. induction a as [|x a IH]; [done|]. exact (f_equal (String x) IH). Qed.

Lemma starts_with_spec s p : starts_with s p = true ↔ ∃ t, s = p +:+ t.
Proof.
  revert s. induction p as [|a p IH]; intros s; simpl.
  - split; [intros _; by exists s|done].
  - destruct s as [|b s]; [split; [done|intros [t E]; discriminate E]|].
    rewrite andb_true_iff, bool_decide_eq_true, IH. split.
    + intros [-> [t ->]]. by exists t.
    + intros [t E]. injection E as -> E. eauto.
Qed.

Lemma includes_spec s p : includes s p = true ↔ ∃ u v, s = u +:+ p +:+ v.
Proof.
  induction s as [|c s IH]; simpl; rewrite orb_true_iff, starts_with_spec.
  - split.
    + intros [[t E]|?]; [|done]. by exists "", t.
    + intros ([|] & v & E); [|discriminate E]. left. exists v. exact E.
  - rewrite IH. split.
    + intros [[t ->]|(u & v & ->)]; [exists "", t; reflexivity|exists (String c u), v; reflexivity].
    + intros ([|a u] & v & E); [left; exists v; exact E|].
      right. exists u, v. by injection E.
Qed.

(** ** What the shortest digits read back as *)

(** The test that ends the search. *)
Definition digits_ok (m n s k : Z) : Prop :=
  10 ^ (k - 1) ≤ s < 10 ^ k ∧ read_digits s n k = m.

(** The search ends at the first length that reads back, or gives up at [k + fuel]. *)
Lemma shortest_spec fuel m n k s k' :
  shortest fuel m n k = (s, k') →
  k ≤ k' ≤ k + Z.of_nat fuel ∧ s = nearest_digits m n k' ∧
  (k' < k + Z.of_nat fuel → digits_ok m n s k') ∧
  (∀ j, k ≤ j < k + Z.of_nat fuel → digits_ok m n (nearest_digits m n j) j → k' ≤ j).
Proof.
  revert k. induction fuel as [|fuel IH]; intros k; simpl shortest.
  { intros [= <- <-]. split_and!; [lia|lia|done|lia|]. intros; lia. }
  destruct (_ && _ && _) eqn:E.
  - intros [= <- <-]. apply andb_true_iff in E as [[? ?]%andb_true_iff ?].
    split_and!; [lia|lia|done| |intros; lia]. intros _. unfold digits_ok. split; lia.
  - intros Hs. destruct (IH _ Hs) as (Hk & Hn & Hok & Hmin).
    split_and!; [lia|lia|done|intros; apply Hok; lia|].
    intros j Hj Hd. destruct (Z.eq_dec j k) as [->|]; [|apply Hmin; [lia|done]].
    exfalso. destruct Hd as [[Hl Hu] Hr].
    apply Z.leb_le in Hl. apply Z.ltb_lt in Hu. apply Z.eqb_eq in Hr.
    by rewrite Hl, Hu, Hr in E.
Qed.

Lemma below_pow10_whole z k : 0 ≤ k → below_pow10 (z * one) k = (z <? 10 ^ k).
Proof.
  intros Hk. unfold below_pow10. destruct (Z.leb_spec 0 k); [|lia]. pose proof one_pos.
  destruct (Z.ltb_spec (z * one) (10 ^ k * one)), (Z.ltb_spec z (10 ^ k)); nia.
Qed.

Lemma log2_whole z : 0 < z → Z.log2 (z * one) = Z.log2 z + 1074.
Proof. intros. unfold one. rewrite Z.log2_mul_pow2; lia. Qed.

#[local] Ltac finish_digits :=
  match goal with |- context [?a * 30103 / 100000] =>
    let v := eval vm_compute in (a * 30103 / 100000) in change (a * 30103 / 100000) with v end;
  rewrite !below_pow10_whole by lia;
  repeat match goal with |- context [?a + ?b] =>
    let v := eval vm_compute in (a + b) in change (a + b) with v end;
  repeat match goal with |- context [?a <? ?b] => destruct (Z.ltb_spec a b) end;
  cbv zeta;
  repeat match goal with |- context [?a - ?b] =>
    let v := eval vm_compute in (a - b) in change (a - b) with v end;
  lia.

(** The number of digits of a whole number between 2^53 and 2^64. *)
Lemma dec_point_whole z :
  2 ^ 53 ≤ z ≤ 2 ^ 64 → let n := dec_point (z * one) in 16 ≤ n ≤ 20 ∧ 10 ^ (n - 1) ≤ z < 10 ^ n.
Proof.
  intros Hz. unfold dec_point. rewrite log2_whole by lia.
  replace (Z.log2 z + 1074 - 1074) with (Z.log2 z) by lia.
  pose proof (Z.log2_spec z ltac:(lia)) as Hl.
  pose proof (proj1 (Z.log2_le_pow2 z 53 ltac:(lia)) ltac:(lia)) as H53.
  pose proof (proj1 (Z.log2_lt_pow2 z 65 ltac:(lia)) ltac:(lia)) as H65.
  assert (Z.log2 z ∈ seqZ 53 12) as Hin by (apply elem_of_seqZ; lia). revert Hl.
  repeat (apply elem_of_cons in Hin as [->|Hin]; [by intros Hl; finish_digits|]).
  by apply elem_of_nil in Hin.
Qed.

Lemma nearest_digits_whole z n k :
  0 ≤ z → k ≤ n → nearest_digits (z * one) n k = rne z (10 ^ (n - k)).
Proof.
  intros Hz Hk. pose proof one_pos. unfold nearest_digits. destruct (Z.leb_spec 0 (k - n)).
  - replace k with n by lia. replace (n - n) with 0 by lia. change (10 ^ 0) with 1.
    rewrite Z.mul_1_r, rne_exact by lia. by rewrite rne_1.
  - rewrite (Z.mul_comm one). apply rne_scale; [apply Z.pow_pos_nonneg; lia|done|done].
Qed.

Lemma read_digits_whole s n k : k ≤ n → read_digits s n k = rnd (s * 10 ^ (n - k) * one).
Proof. intros. unfold read_digits. by destruct (Z.leb_spec 0 (n - k)); [|lia]. Qed.

(** The unit in the last place, in every decade, is larger than the error of
    seventeen digits. *)
Lemma seventeen_digits z n :
  2 ^ 53 ≤ z ≤ 2 ^ 64 → rnd (z * one) = z * one → 17 ≤ n ≤ 20 → 10 ^ (n - 1) ≤ z →
  rnd (rne z (10 ^ (n - 17)) * 10 ^ (n - 17) * one) = z * one.
Proof.
  intros Hz Hd Hn Hl. pose proof one_pos as Ho.
  assert (∃ q, 10 ^ (n - 17) < 2 ^ q ∧ 0 < q ∧ 2 ^ (52 + q) + 2 ^ q ≤ 10 ^ (n - 1)) as (q & Hq & Hq0 & Hdec).
  { assert (n = 17 ∨ n = 18 ∨ n = 19 ∨ n = 20) as [->|[->|[->| ->]]] by lia;
      [exists 1|exists 4|exists 7|exists 10]; (split_and!; [reflexivity|lia|by apply Z.leb_le]). }
  set (p := 10 ^ (n - 17)) in *. assert (0 < p) as Hp by (apply Z.pow_pos_nonneg; lia).
  pose proof (rne_close z p Hp) as Hr. set (s := rne z p) in *.
  assert (2 * Z.abs (s * p - z) ≤ p) as He by nia. clearbody s p.
  assert (∀ t, 2 ^ (52 + q) ≤ t → 2 ^ q * one ≤ 2 ^ rexp (t * one)) as Hulp.
  { intros t Ht. unfold one at 1. rewrite <-Z.pow_add_r by lia. apply Z.pow_le_mono_r; [lia|].
    apply rexp_ge; [lia|]. replace (52 + (q + 1074)) with ((52 + q) + 1074) by lia.
    rewrite Z.pow_add_r by lia. apply Z.mul_le_mono_nonneg_r; [done|lia]. }
  assert (2 * Z.abs (s * p * one - z * one) < 2 ^ q * one) as Hnear.
  { rewrite <-Z.mul_sub_distr_r, Z.abs_mul, (Z.abs_eq one) by lia. nia. }
  apply rnd_near; [nia|done|nia|..]; (eapply Z.lt_le_trans; [exact Hnear|]; apply Hulp; lia).
Qed.

(** The digits written for a double between 2^53 and 2^64, with their zeros, read
    back as that double. *)
Lemma shortest_whole z s k :
  2 ^ 53 ≤ z ≤ 2 ^ 64 → rnd (z * one) = z * one →
  shortest 16 (z * one) (dec_point (z * one)) 1 = (s, k) →
  1 ≤ k ≤ dec_point (z * one) ∧ 0 < s ≤ z + 1 ∧
  rnd (s * 10 ^ (dec_point (z * one) - k) * one) = z * one.
Proof.
  intros Hz Hd Hs. destruct (dec_point_whole z Hz) as [Hn [Hl Hu]].
  set (n := dec_point (z * one)) in *. clearbody n.
  destruct (shortest_spec 16 (z * one) n 1 s k Hs) as (Hk & Hnd & Hok & Hmin). pose proof one_pos.
  assert (k ≤ n) as Hkn.
  { destruct (Z.le_gt_cases k n); [done|]. assert (k ≤ 16); [|lia].
    assert (n = 16) as -> by lia. apply Hmin; [lia|].
    rewrite nearest_digits_whole by lia. change (10 ^ (16 - 16)) with 1. rewrite rne_1.
    split; [split; [exact Hl|exact Hu]|]. rewrite read_digits_whole by lia. change (10 ^ (16 - 16)) with 1.
    by rewrite Z.mul_1_r. }
  rewrite nearest_digits_whole in Hnd by lia. subst s.
  pose proof (Z.pow_pos_nonneg 10 (n - k) ltac:(lia) ltac:(lia)) as Hp.
  pose proof (rne_close z (10 ^ (n - k)) Hp) as Hr.
  assert (10 ^ (n - k) ≤ 10 ^ (n - 1)) as Hpn by (apply Z.pow_le_mono_r; lia).
  split_and!; [lia|lia|nia|nia|].
  destruct (Z.lt_ge_cases k 17) as [Hlt|Hge].
  - destruct (Hok ltac:(lia)) as [_ Hrd]. by rewrite read_digits_whole in Hrd by lia.
  - assert (k = 17) as -> by lia. by apply seventeen_digits; [..|lia|].
Qed.

Lemma pos_to_string_big z :
  2 ^ 53 ≤ z → pos_to_string (z * one) =
  let n := dec_point (z * one) in
  let '(s, k) := shortest 16 (z * one) n 1 in layout (dec_of_Z s) n k.
Proof.
  intros Hz. unfold pos_to_string. pose proof one_pos.
  destruct (Z.ltb_spec (z * one) (2 ^ 53 * one)); [nia|]. by rewrite andb_false_r.
Qed.

Lemma num_to_string_pos m : 0 < m → num_to_string (Fin m) = pos_to_string m.
Proof.
  intros. unfold num_to_string. destruct (Z.eqb_spec m 0); [lia|].
  by destruct (Z.ltb_spec m 0); [lia|].
Qed.

(** ** Examples *)

Example to_string_small : num_to_string (of_Z 4821) = "4821".
Proof. vm_compute. reflexivity. Qed.
Example to_string_tenth : num_to_string (of_frac 1 10) = "0.1".
Proof. vm_compute. reflexivity. Qed.
Example to_string_big : num_to_string (of_Z 1700000000000000001) = "1700000000000000000".
Proof. vm_compute. reflexivity. Qed.
Example to_string_exp : num_to_string (of_frac 125 (10 ^ 10)) = "1.25e-8".
Proof. vm_compute. reflexivity. Qed.
Example to_fixed_tie : to_fixed 1 (of_frac 25 100) = "0.3".
Proof. vm_compute. reflexivity. Qed.
Example to_fixed_one : to_fixed 1 (ndiv (of_Z 1450) (of_Z 1000)) = "1.4".
Proof. vm_compute. reflexivity. Qed.
Example number_reads : string_to_number " 1.5e3 " = of_Z 1500.
Proof. vm_compute. reflexivity. Qed.
Example number_hex : string_to_number "0xFf" = of_Z 255.
Proof. vm_compute. reflexivity. Qed.
Example number_bad : string_to_number "12px" = NaN.
Proof. vm_compute. reflexivity. Qed.
Example u16_arrow : js_length "a→b" = 3%nat.
Proof. vm_compute. reflexivity. Qed.
Example u16_cut : js_take 2 "a→b" = "a→".
Proof. vm_compute. reflexivity. Qed.

(** ** The locale's order *)

(** [String.prototype.localeCompare], whose order is the user's locale: a
    consistent comparison, of which the code uses the sign. *)
Class Collation := localeCompare : string → string → Z.

Class CollationLaws `{Collation} := {
  locale_antisym a b : localeCompare a b < 0 ↔ 0 < localeCompare b a;
  locale_trans a b c : localeCompare a b ≤ 0 → localeCompare b c ≤ 0 → localeCompare a c ≤ 0
}.

(** A collation that satisfies the laws: the order of an injective coding. *)
Definition code_order : Collation := λ a b, Zpos (encode a) - Zpos (encode b).

Lemma code_order_laws : @CollationLaws code_order.
Proof. split; unfold localeCompare, code_order; intros; lia. Qed.

(** ** Trimming *)

Lemma length_app_s (a b : string) : String.length (a +:+ b) = (String.length a + String.length b)%nat.
Proof. induction a as [|c a IH]; [done|]. change (String c a +:+ b) with (String c (a +:+ b)). simpl. by rewrite IH. Qed.

Lemma srev_app_spec s acc : srev_app s acc = srev s +:+ acc.
Proof.
  unfold srev. revert acc. induction s as [|c s IH]; intros acc; [done|].
  simpl. rewrite IH, (IH (String c "")), app_assoc_s. done.
Qed.

Lemma srev_cons c s : srev (String c s) = srev s +:+ String c "".
Proof. unfold srev at 1. simpl. apply srev_app_spec. Qed.

Lemma srev_app_distr s t : srev (s +:+ t) = srev t +:+ srev s.
Proof.
  induction s as [|c s IH]; [by rewrite app_nil_s|].
  change (String c s +:+ t) with (String c (s +:+ t)). by rewrite !srev_cons, IH, app_assoc_s.
Qed.

Lemma srev_involutive s : srev (srev s) = s.
Proof. induction s as [|c s IH]; [done|]. by rewrite srev_cons, srev_app_distr, IH. Qed.

Lemma trim_start_suffix s : ∃ w, s = w +:+ trim_start s.
Proof.
  induction s as [|c s [w IH]]; simpl; [by exists ""|].
  destruct (is_space c); [exists (String c w); by rewrite IH at 1|by exists ""].
Qed.

Lemma trim_start_idem s : trim_start (trim_start s) = trim_start s.
Proof. induction s as [|c s IH]; simpl; [done|]. destruct (is_space c) eqn:E; simpl; by rewrite ?E. Qed.

(** A prefix of a string without leading space has none. *)
Lemma trim_start_prefix s t : trim_start (s +:+ t) = s +:+ t → trim_start s = s.
Proof.
  destruct s as [|c s]; [done|]. change (String c s +:+ t) with (String c (s +:+ t)). simpl.
  destruct (is_space c); [|done]. intros H. destruct (trim_start_suffix (s +:+ t)) as [w Hw].
  rewrite H in Hw. apply (f_equal String.length) in Hw. rewrite !length_app_s in Hw. simpl in Hw. rewrite ?length_app_s in Hw. lia.
Qed.

Lemma trim_idem s : trim (trim s) = trim s.
Proof.
  unfold trim. set (x := trim_start s). set (z := trim_start (srev x)).
  assert (trim_start (srev z) = srev z) as ->.
  { destruct (trim_start_suffix (srev x)) as [w Hw]. fold z in Hw.
    apply (trim_start_prefix _ (srev w)). rewrite <-srev_app_distr, <-Hw, srev_involutive.
    apply trim_start_idem. }
  rewrite srev_involutive. f_equal. apply trim_start_idem.
Qed.

Lemma smap_nil f s : smap f s = "" → s = "".
Proof. by destruct s. Qed.
