(* ===== verification/Json.v ===== *)
(** * Untyped values and JSON

    What [JSON.parse] hands to the console: values of unknown shape, the
    conversions [String(v)] and [Number(v)], property reads, and
    [JSON.stringify].  A conversion that throws a TypeError is [None].

    An object is its own enumerable properties in creation order.  An object
    that came from JSON and carries a "toString" property cannot be converted to
    a primitive (the property is not callable and the inherited valueOf returns
    the object); every other object converts to "[object Object]". *)

From S2P Require Import Prelude JsNumber JsString.
Open Scope Z_scope.

Inductive jsval :=
  | JUndef
  | JNull
  | JBool (b : bool)
  | JNum (x : num)
  | JStr (s : string)
  | JArr (l : list jsval)
  | JObj (o : list (string * jsval)).

Declare Scope js_scope.
Delimit Scope js_scope with js.

Definition nullish (v : jsval) : bool :=
  match v with JUndef | JNull => true | _ => false end.

(** [a ?? b]. *)
Definition coalesce (a b : jsval) : jsval := if nullish a then b else a.
Notation "a <??> b" := (coalesce a b) (at level 60, right associativity) : js_scope.
Open Scope js_scope.

Definition truthy (v : jsval) : bool :=
  match v with
  | JUndef | JNull => false
  | JBool b => b
  | JNum NaN => false
  | JNum (Fin 0) => false
  | JNum _ => true
  | JStr s => bool_decide (s ≠ "")
  | JArr _ | JObj _ => true
  end.

(** [a || b]. *)
Definition js_or (a b : jsval) : jsval := if truthy a then a else b.

(** [v[k]] on an object that is not nullish; [undefined] when absent. *)
Definition prop (o : list (string * jsval)) (k : string) : jsval :=
  default JUndef (map_get k o).

(** [v.k]: reading a property of [null] or [undefined] throws; the primitives
    and arrays have none of the properties the console reads. *)
Definition get (v : jsval) (k : string) : option jsval :=
  match v with
  | JUndef | JNull => None
  | JObj o => Some (prop o k)
  | _ => Some JUndef
  end.

(** ** Conversions *)

Definition plain_object (o : list (string * jsval)) : bool :=
  match map_get "toString" o with None => true | Some _ => false end.

(** [String(v)]; an array is its elements joined by commas, nullish ones empty. *)
Fixpoint to_string (v : jsval) : option string :=
  match v with
  | JUndef => Some "undefined"
  | JNull => Some "null"
  | JBool true => Some "true"
  | JBool false => Some "false"
  | JNum x => Some (num_to_string x)
  | JStr s => Some s
  | JArr l =>
      (fix go (first : bool) (acc : string) (l : list jsval) : option string :=
         match l with
         | [] => Some acc
         | v :: l' =>
             s ← (if nullish v then Some "" else to_string v);
             go false (if first then s else acc +:+ "," +:+ s) l'
         end) true "" l
  | JObj o => if plain_object o then Some "[object Object]" else None
  end.

(** [l.join(sep)] on values. *)
Definition join_values (sep : string) (l : list jsval) : option string :=
  join sep <$> mapM (λ v, if nullish v then Some "" else to_string v) l.

Lemma join_values_is_Some sep l :
  Forall (λ v, is_Some (if nullish v then Some "" else to_string v)) l → is_Some (join_values sep l).
Proof. intros Hl. unfold join_values. apply fmap_is_Some, mapM_is_Some. exact Hl. Qed.

(** [Number(v)]. *)
Definition to_number (v : jsval) : option num :=
  match v with
  | JUndef => Some NaN
  | JNull => Some (Fin 0)
  | JBool b => Some (if b then of_Z 1 else Fin 0)
  | JNum x => Some x
  | JStr s => Some (string_to_number s)
  | JArr _ => string_to_number <$> to_string v
  | JObj o => if plain_object o then Some NaN else None
  end.

(** ** [JSON.parse] *)

Definition is_ws (c : ascii) : bool :=
  bool_decide (byte_of c ∈ [32; 9; 10; 13]).

Fixpoint skip_ws (s : string) : string :=
  match s with
  | String c s' => if is_ws c then skip_ws s' else s
  | "" => ""
  end.

Definition hex4 (a b c d : ascii) : option Z :=
  let va := digit_value a in let vb := digit_value b in
  let vc := digit_value c in let vd := digit_value d in
  if (va <? 16) && (vb <? 16) && (vc <? 16) && (vd <? 16)
  then Some (((va * 16 + vb) * 16 + vc) * 16 + vd) else None.

Definition simple_escape (c : ascii) : option ascii :=
  match c with
  | "034" => Some "034"%char
  | "\" => Some "\"%char
  | "/" => Some "/"%char
  | "b" => Some (chr 8)
  | "f" => Some (chr 12)
  | "n" => Some (chr 10)
  | "r" => Some (chr 13)
  | "t" => Some (chr 9)
  | _ => None
  end%char.

(** The body of a string literal, after the opening quote; [pend] is a high
    surrogate from an escape, waiting for its other half. *)
Fixpoint parse_str (pend : option Z) (s : string) : option (string * string) :=
  let flush (t : string) := match pend with Some u => utf8_3 u t | None => t end in
  let emit (c : ascii) (r : option (string * string)) :=
    '(t, rest) ← r; Some (flush (String c t), rest) in
  match s with
  | String "034" s' => Some (flush "", s')
  | String "\" (String "u" (String a (String b (String c (String d s'))))) =>
      u ← hex4 a b c d;
      match pend with
      | Some h =>
          if is_low u then
            '(t, rest) ← parse_str None s';
            Some (utf8_4 (65536 + (h - 55296) * 1024 + (u - 56320)) t, rest)
          else if is_high u then
            '(t, rest) ← parse_str (Some u) s'; Some (utf8_3 h t, rest)
          else '(t, rest) ← parse_str None s'; Some (utf8_3 h (of_u16 [u] +:+ t), rest)
      | None =>
          if is_high u then parse_str (Some u) s'
          else '(t, rest) ← parse_str None s'; Some (of_u16 [u] +:+ t, rest)
      end
  | String "\" (String e s') =>
      c ← simple_escape e; emit c (parse_str None s')
  | String c s' => if byte_of c <? 32 then None else emit c (parse_str None s')
  | "" => None
  end.

(** A JSON number: no leading zeros, digits on both sides of a point. *)
Definition json_number_ok (s : string) : bool :=
  let '(m, c, rest) := scan_digits 0 0 s in
  match s with
  | String "0" _ => c =? 1
  | _ => 0 <? c
  end &&
  match rest with
  | String "." t => let '(_, c2, _) := scan_digits 0 0 t in 0 <? c2
  | _ => true
  end.

Definition parse_num (s : string) : option (num * string) :=
  match s with
  | String "-" t => if json_number_ok t then '(x, r) ← scan_decimal t; Some (nneg x, r) else None
  | _ => if json_number_ok s then scan_decimal s else None
  end.

Definition keyword (k : string) (v : jsval) (s : string) : option (jsval * string) :=
  if starts_with s k then Some (v, String.substring (String.length k) (String.length s) s) else None.

(** One value after leading blanks; [fuel] bounds the nesting and the length. *)
Fixpoint parse_value (fuel : nat) (s : string) : option (jsval * string) :=
  match fuel with
  | O => None
  | S fuel =>
      match skip_ws s with
      | String "{" t =>
          match skip_ws t with
          | String "}" r => Some (JObj [], r)
          | _ => parse_members fuel [] t
          end
      | String "[" t =>
          match skip_ws t with
          | String "]" r => Some (JArr [], r)
          | _ => parse_elements fuel [] t
          end
      | String "034" t => '(b, r) ← parse_str None t; Some (JStr b, r)
      | String "t" _ as u => keyword "true" (JBool true) u
      | String "f" _ as u => keyword "false" (JBool false) u
      | String "n" _ as u => keyword "null" JNull u
      | u => '(x, r) ← parse_num u; Some (JNum x, r)
      end
  end
with parse_members (fuel : nat) (acc : list (string * jsval)) (s : string) : option (jsval * string) :=
  match fuel with
  | O => None
  | S fuel =>
      match skip_ws s with
      | String "034" t =>
          '(k, r1) ← parse_str None t;
          match skip_ws r1 with
          | String ":" r2 =>
              '(v, r3) ← parse_value fuel r2;
              let acc' := map_set k v acc in
              match skip_ws r3 with
              | String "," r4 => parse_members fuel acc' r4
              | String "}" r4 => Some (JObj acc', r4)
              | _ => None
              end
          | _ => None
          end
      | _ => None
      end
  end
with parse_elements (fuel : nat) (acc : list jsval) (s : string) : option (jsval * string) :=
  match fuel with
  | O => None
  | S fuel =>
      '(v, r1) ← parse_value fuel s;
      match skip_ws r1 with
      | String "," r2 => parse_elements fuel (acc ++ [v]) r2
      | String "]" r2 => Some (JArr (acc ++ [v]), r2)
      | _ => None
      end
  end.

(** [JSON.parse(s)]; [None] is a SyntaxError.  Every call consumes a character
    or returns, so twice the length is enough fuel. *)
Definition json_parse (s : string) : option jsval :=
  '(v, r) ← parse_value (2 * String.length s + 2) s;
  match skip_ws r with "" => Some v | _ => None end.

(** ** [JSON.stringify] *)

Definition hex_digit (z : Z) : ascii := if z <? 10 then chr (48 + z) else chr (87 + z).

Definition u_escape (u : Z) (t : string) : string :=
  "\u" +:+ String (hex_digit (u / 4096 mod 16)) (String (hex_digit (u / 256 mod 16))
    (String (hex_digit (u / 16 mod 16)) (String (hex_digit (u mod 16)) t))).

(** The escaped body of a string; a lone surrogate is escaped too. *)
Fixpoint quote_body (s : string) : string :=
  match s with
  | "" => ""
  | String c s1 =>
      let b := byte_of c in
      if b =? 34 then String "\" (String "034" (quote_body s1))
      else if b =? 92 then "\\" +:+ quote_body s1
      else if b =? 8 then "\b" +:+ quote_body s1
      else if b =? 12 then "\f" +:+ quote_body s1
      else if b =? 10 then "\n" +:+ quote_body s1
      else if b =? 13 then "\r" +:+ quote_body s1
      else if b =? 9 then "\t" +:+ quote_body s1
      else if b <? 32 then u_escape b (quote_body s1)
      else if b =? 237 then
        match s1 with
        | String d (String e s3) =>
            if 160 <=? byte_of d
            then u_escape (13 * 4096 + (byte_of d mod 64) * 64 + byte_of e mod 64) (quote_body s3)
            else String c (String d (String e (quote_body s3)))
        | _ => String c (quote_body s1)
        end
      else String c (quote_body s1)
  end.

Definition quote (s : string) : string :=
  String "034" (quote_body s +:+ String "034" "").

(** Array-index keys come first, in ascending order. *)
Definition index_key (k : string) : option Z :=
  match k with
  | "" => None
  | String "0" "" => Some 0
  | String "0" _ => None
  | _ => match scan_digits 0 0 k with
         | (m, _, "") => if m <? 2 ^ 32 - 1 then Some m else None
         | _ => None
         end
  end.

Definition own_keys {V} (o : list (string * V)) : list (string * V) :=
  js_sort (λ a b, match index_key a.1, index_key b.1 with
                  | Some x, Some y => y <? x
                  | _, _ => false
                  end) (filter (λ a, is_Some (index_key a.1)) o) ++
  filter (λ a, index_key a.1 = None) o.

(** [JSON.stringify(v)]; [None] for [undefined], which a property drops and an
    array prints as null. *)
Fixpoint stringify (v : jsval) : option string :=
  match v with
  | JUndef => None
  | JNull => Some "null"
  | JBool b => Some (if b then "true" else "false")
  | JNum x => Some (if is_finite x then num_to_string x else "null")
  | JStr s => Some (quote s)
  | JArr l => Some ("[" +:+ join "," ((λ v, default "null" (stringify v)) <$> l) +:+ "]")
  | JObj o =>
      let members :=
        (fix go (o : list (string * jsval)) : list (string * option string) :=
           match o with [] => [] | (k, v) :: o' => (k, stringify v) :: go o' end) o in
      Some ("{" +:+ join "," (omap (λ kv, (λ t, quote kv.1 +:+ ":" +:+ t) <$> kv.2) (own_keys members))
            +:+ "}")
  end.

(** ** Examples *)

(** JSON text written with single quotes for double ones. *)
Definition jtext (s : string) : string := replace_all "'" "034" s.

Example parse_event :
  json_parse (jtext "{'pid': 7, 'a':[1,-2.5e1,null], 's':'x\u0041\n'}") =
  Some (JObj [("pid", JNum (of_Z 7));
              ("a", JArr [JNum (of_Z 1); JNum (of_Z (-25)); JNull]);
              ("s", JStr ("xA" +:+ String (chr 10) ""))]).
Proof. vm_compute. reflexivity. Qed.

Example parse_rejects : json_parse (jtext "{'pid': 07}") = None.
Proof. vm_compute. reflexivity. Qed.

Example stringify_event :
  stringify (JObj [("b", JStr (jtext "q'uote")); ("1", JNum (of_Z 5)); ("u", JUndef)]) =
  Some (jtext "{'1':5,'b':'q\'uote'}").
Proof. vm_compute. reflexivity. Qed.

Example surrogate_pair : json_parse (jtext "'\ud83d\ude00'") = Some (JStr "😀").
Proof. vm_compute. reflexivity. Qed.
