(* ===== verification/JsonRoundtrip.v ===== *)
(** * JSON text of flat objects reads back

    [JSON.parse] undoes [JSON.stringify] on an object whose members are well-formed
    strings, booleans, null and 64-bit integers (as the doubles nearest to them),
    under distinct well-formed keys that are not array indices: the shape of what the
    console stores and of a record of the event history.  Above 2^53 the text has
    the shortest digits that read back, and zeros. *)

From S2P Require Import Prelude JsNumber JsString Json.
From Stdlib Require Import Decimal DecimalN DecimalZ DecimalString.
Open Scope Z_scope.

(** Well-formed UTF-8, byte by byte: what a string without lone surrogates is, and
    every string field of a protobuf message. *)
Definition trailing (c : ascii) : bool := (128 <=? byte_of c) && (byte_of c <? 192).

Definition second_byte (a b : Z) : bool :=
  (if a =? 224 then 160 <=? b else if a =? 240 then 144 <=? b else 128 <=? b) &&
  (if a =? 237 then b <? 160 else if a =? 244 then b <? 144 else b <? 192).

Fixpoint utf8_ok (s : string) : bool :=
  match s with
  | "" => true
  | String a s1 =>
      if byte_of a <? 128 then utf8_ok s1
      else match s1 with
      | String b s2 =>
          (194 <=? byte_of a) && second_byte (byte_of a) (byte_of b) &&
          if byte_of a <? 224 then utf8_ok s2
          else match s2 with
          | String c s3 =>
              trailing c &&
              if byte_of a <? 240 then utf8_ok s3
              else match s3 with
              | String d s4 => (byte_of a <? 245) && trailing d && utf8_ok s4
              | "" => false
              end
          | "" => false
          end
      | "" => false
      end
  end.

Definition primitive (v : jsval) : Prop :=
  match v with
  | JNull | JBool _ => True
  | JNum x => ∃ z, x = of_Z z ∧ 0 ≤ z < 2 ^ 64
  | JStr s => utf8_ok s = true
  | _ => False
  end.

(** ** Strings *)

Lemma string_app_cons c t rest : String c t +:+ rest = String c (t +:+ rest).
Proof. done. Qed.

Lemma second_byte_spec a b : second_byte a b = true → 128 ≤ b < 192 ∧ (a = 237 → b < 160).
Proof.
  unfold second_byte. destruct (Z.eqb_spec a 224), (Z.eqb_spec a 240), (Z.eqb_spec a 237), (Z.eqb_spec a 244);
    rewrite andb_true_iff, Z.leb_le, Z.ltb_lt; lia.
Qed.

Lemma trailing_spec c : trailing c = true → 128 ≤ byte_of c < 192.
Proof. unfold trailing. rewrite andb_true_iff, Z.leb_le, Z.ltb_lt. done. Qed.

(** [f] once a literal has been read up to its closing quote. *)
Definition read_on (f : string → string) (r : option (string * string)) : option (string * string) :=
  '(t, rest) ← r; Some (f t, rest).

Lemma parse_quote_char c s rest :
  byte_of c ≠ 237 →
  parse_str None (quote_body (String c s) +:+ rest) =
  read_on (String c) (parse_str None (quote_body s +:+ rest)).
Proof.
  intros Hc. destruct c as [[] [] [] [] [] [] [] []]; try (exfalso; vm_compute in Hc; congruence);
    cbn -[parse_str quote_body]; try reflexivity;
    destruct (parse_str None (quote_body s +:+ rest)) as [[t r]|] eqn:E; cbn; rewrite ?E; reflexivity.
Qed.

(** A byte beyond ASCII stands for itself. *)
Lemma parse_raw c s : 128 ≤ byte_of c → parse_str None (String c s) = read_on (String c) (parse_str None s).
Proof.
  intros Hc. destruct c as [[] [] [] [] [] [] [] []]; try (exfalso; vm_compute in Hc; congruence); reflexivity.
Qed.

Lemma parse_quote_237 a b c s rest :
  byte_of a = 237 → 128 ≤ byte_of b < 160 → 128 ≤ byte_of c →
  parse_str None (quote_body (String a (String b (String c s))) +:+ rest) =
  read_on (String a ∘ String b ∘ String c) (parse_str None (quote_body s +:+ rest)).
Proof.
  intros Ha Hb Hc.
  assert (quote_body (String a (String b (String c s))) = String a (String b (String c (quote_body s)))) as ->.
  { cbn [quote_body]. rewrite Ha. cbn. destruct (Z.leb_spec 160 (byte_of b)); [lia|done]. }
  rewrite !string_app_cons, !parse_raw by lia. unfold read_on.
  by destruct (parse_str None _) as [[t r]|].
Qed.

Lemma parse_quote s rest :
  utf8_ok s = true → parse_str None (quote_body s +:+ String "034" rest) = Some (s, rest).
Proof.
  revert s. assert (∀ n s, (String.length s ≤ n)%nat → utf8_ok s = true →
    parse_str None (quote_body s +:+ String "034" rest) = Some (s, rest)) as Hn; [|eauto].
  induction n as [|n IH]; intros s Hl Hs; (destruct s as [|a s]; [done|]); cbn [String.length] in Hl; [lia|].
  assert (∀ t, (String.length t ≤ n)%nat → utf8_ok t = true → ∀ c, byte_of c ≠ 237 →
    parse_str None (quote_body (String c t) +:+ String "034" rest) = Some (String c t, rest)) as Hone.
  { intros t Ht Hok c Hc. by rewrite parse_quote_char, IH. }
  cbn [utf8_ok] in Hs. destruct (Z.ltb_spec (byte_of a) 128); [apply Hone; [lia|done|lia]|].
  destruct s as [|b s]; [done|]. apply andb_true_iff in Hs as [[H1 [Hb H2]%second_byte_spec]%andb_true_iff Hs].
  cbn [String.length] in Hl.
  destruct (Z.ltb_spec (byte_of a) 224).
  { rewrite parse_quote_char by lia. rewrite Hone; [done|lia|done|lia]. }
  destruct s as [|c s]; [done|]. apply andb_true_iff in Hs as [Hc%trailing_spec Hs].
  cbn [String.length] in Hl.
  destruct (Z.ltb_spec (byte_of a) 240).
  { destruct (Z.eqb_spec (byte_of a) 237) as [E|E].
    - rewrite parse_quote_237, IH by (first [done|lia]). done.
    - rewrite 2!parse_quote_char by lia. rewrite Hone; [done|lia|done|lia]. }
  destruct s as [|d s]; [done|]. cbn [String.length] in Hl.
  apply andb_true_iff in Hs as [[_ Hd%trailing_spec]%andb_true_iff Hok].
  rewrite 3!parse_quote_char by lia. rewrite Hone; [done|lia|done|lia].
Qed.

(** ** Numbers *)

(** The value of digits read after [acc]. *)
Fixpoint uint_value (acc : Z) (d : uint) : Z :=
  match d with
  | Nil => acc
  | D0 l => uint_value (acc * 10) l
  | D1 l => uint_value (acc * 10 + 1) l
  | D2 l => uint_value (acc * 10 + 2) l
  | D3 l => uint_value (acc * 10 + 3) l
  | D4 l => uint_value (acc * 10 + 4) l
  | D5 l => uint_value (acc * 10 + 5) l
  | D6 l => uint_value (acc * 10 + 6) l
  | D7 l => uint_value (acc * 10 + 7) l
  | D8 l => uint_value (acc * 10 + 8) l
  | D9 l => uint_value (acc * 10 + 9) l
  end.

Fixpoint uint_length (d : uint) : Z :=
  match d with
  | Nil => 0
  | D0 l | D1 l | D2 l | D3 l | D4 l | D5 l | D6 l | D7 l | D8 l | D9 l => 1 + uint_length l
  end.

Definition no_digit (rest : string) : bool :=
  match rest with "" => true | String c _ => negb (is_digit c) end.

Lemma scan_digit acc cnt c s : is_digit c = true →
  scan_digits acc cnt (String c s) = scan_digits (acc * 10 + (byte_of c - 48)) (cnt + 1) s.
Proof. intros Hc. simpl. by rewrite Hc. Qed.

Lemma scan_uint d acc cnt rest :
  scan_digits acc cnt (NilEmpty.string_of_uint d +:+ rest) =
  scan_digits (uint_value acc d) (cnt + uint_length d) rest.
Proof.
  revert acc cnt. induction d; intros acc cnt; cbn [NilEmpty.string_of_uint uint_value uint_length].
  { by rewrite Z.add_0_r. }
  all: rewrite string_app_cons, scan_digit by done;
    match goal with |- scan_digits (_ * 10 + ?k) _ _ = _ => let k' := eval vm_compute in k in change k with k' end;
    rewrite ?Z.add_0_r, IHd; f_equal; lia.
Qed.

Lemma scan_zeros j acc cnt rest :
  scan_digits acc cnt (repeat_char j "0" +:+ rest) =
  scan_digits (acc * 10 ^ Z.of_nat j) (cnt + Z.of_nat j) rest.
Proof.
  revert acc cnt. induction j as [|j IH]; intros acc cnt.
  { change (10 ^ Z.of_nat 0) with 1. by rewrite Z.mul_1_r, Z.add_0_r. }
  cbn [repeat_char]. rewrite string_app_cons, scan_digit, IH by done.
  change (byte_of "0" - 48) with 0. rewrite Nat2Z.inj_succ, Z.pow_succ_r by lia. f_equal; lia.
Qed.

Lemma scan_stop acc cnt rest : no_digit rest = true → scan_digits acc cnt rest = (acc, cnt, rest).
Proof. destruct rest as [|c t]; [done|]. simpl. by destruct (is_digit c). Qed.

Lemma uint_value_acc d p : uint_value (Zpos p) d = Zpos (Pos.of_uint_acc d p).
Proof.
  revert p. induction d; intros p; cbn [uint_value Pos.of_uint_acc]; [done|..];
    rewrite <-IHd; f_equal; lia.
Qed.

Lemma uint_value_of d : uint_value 0 d = Z.of_uint d.
Proof.
  unfold Z.of_uint. induction d; cbn [uint_value Pos.of_uint]; [done|exact IHd|..];
    apply uint_value_acc.
Qed.

(** Digits without a leading zero. *)
Definition normal (d : uint) : Prop := d = D0 Nil ∨ nzhead d = d ∧ d ≠ Nil.

Lemma normal_zero l : normal (D0 l) → l = Nil.
Proof. intros [[= ->]|[Hz _]]; [done|]. by apply DecimalFacts.nzhead_nonzero in Hz. Qed.

Lemma normal_cons d : normal d → d ≠ Nil.
Proof. by intros [->|[_ ?]]. Qed.

Lemma dec_value z : 0 ≤ z → ∃ d, dec_of_Z z = NilEmpty.string_of_uint d ∧ uint_value 0 d = z ∧ normal d.
Proof.
  intros Hz. unfold dec_of_Z. pose proof (DecimalZ.of_to z) as Ho.
  destruct z as [|p|p]; [by exists (D0 Nil); split_and!; [..|left]| |lia].
  cbn [Z.to_int] in *. exists (Pos.to_uint p). cbn [NilZero.string_of_int].
  pose proof (DecimalPos.Unsigned.to_uint_nonnil p) as Hn.
  split; [unfold NilZero.string_of_uint; by destruct (Pos.to_uint p)|].
  split; [by rewrite uint_value_of|]. right. split; [|done].
  pose proof (DecimalN.Unsigned.to_of (Pos.to_uint p)) as Hu.
  assert (N.of_uint (Pos.to_uint p) = Npos p) as Hp by apply (DecimalN.Unsigned.of_to (Npos p)).
  rewrite Hp in Hu. change (N.to_uint (Npos p)) with (Pos.to_uint p) in Hu.
  unfold unorm in Hu. destruct (nzhead (Pos.to_uint p)) eqn:E; try congruence.
  exfalso. rewrite Hu in Hp. vm_compute in Hp. discriminate.
Qed.

Lemma uint_length_nonneg d : 0 ≤ uint_length d.
Proof. induction d; cbn [uint_length]; lia. Qed.

Lemma uint_value_ge d acc : 0 ≤ acc → acc * 10 ^ uint_length d ≤ uint_value acc d.
Proof.
  revert acc. induction d; intros acc Ha; cbn [uint_value uint_length]; [lia|..];
    pose proof (uint_length_nonneg d); rewrite Z.pow_add_r by lia; change (10 ^ 1) with 10;
    (etrans; [|apply IHd; lia]); nia.
Qed.

Lemma uint_length_small L d : 1 ≤ L → uint_value 0 d < 10 ^ L → normal d → 1 ≤ uint_length d ≤ L.
Proof.
  intros HL Hv Hn.
  assert (∀ k l, 1 ≤ k → uint_value k l < 10 ^ L → 1 ≤ 1 + uint_length l ≤ L) as Hlen.
  { intros k l Hk Hl. pose proof (uint_value_ge l k ltac:(lia)) as Hge.
    pose proof (uint_length_nonneg l). destruct (Z.le_gt_cases (1 + uint_length l) L); [lia|].
    pose proof (Z.pow_le_mono_r 10 L (uint_length l) ltac:(lia) ltac:(lia)). nia. }
  destruct d as [|l|l|l|l|l|l|l|l|l|l]; cbn [uint_value uint_length] in *;
    try (eapply Hlen; [|exact Hv]; lia).
  - by apply normal_cons in Hn.
  - rewrite (normal_zero _ Hn). cbn. lia.
Qed.

(** What may follow a number: a separator or the end. *)
Definition num_end (rest : string) : bool :=
  match rest with "" => true | String c _ => bool_decide (c ∈ [","; "}"; "]"]%char) end.

Lemma num_end_cases rest :
  num_end rest = true → rest = "" ∨ ∃ c t, rest = String c t ∧ c ∈ [","; "}"; "]"]%char.
Proof. destruct rest; [by left|]. simpl. intros ?%bool_decide_eq_true. right. by eexists _, _. Qed.

Lemma num_end_spec rest : num_end rest = true →
  no_digit rest = true ∧ scan_exponent rest = Some (0, rest) ∧
  ∀ A (f : string → A) a, match rest with String "." t => f t | _ => a end = a.
Proof.
  intros [->|(c & t & -> & Hc)]%num_end_cases; [by split_and!|].
  repeat (apply elem_of_cons in Hc as [->|Hc]; [by split_and!|]). by apply elem_of_nil in Hc.
Qed.

Lemma first_digit (d : uint) : d ≠ Nil → ∃ c t, NilEmpty.string_of_uint d = String c t ∧ is_digit c = true ∧
  (c = "0"%char → ∃ l, d = D0 l).
Proof. destruct d; [done|..]; intros _; eexists _, _; (split; [done|]); by eauto. Qed.

(** Digits, then zeros: the text of a whole number. *)
Definition digits_text (d : uint) (j : nat) : string :=
  NilEmpty.string_of_uint d +:+ repeat_char j "0".

(** A lone zero has no zeros after it. *)
Definition short_number (d : uint) (j : nat) : Prop :=
  normal d ∧ (d = D0 Nil → j = 0%nat) ∧ uint_length d + Z.of_nat j ≤ 300.

Lemma first_of_text d j rest : short_number d j → ∃ c t,
  digits_text d j +:+ rest = String c t ∧ is_digit c = true ∧ (c = "0"%char → d = D0 Nil ∧ j = 0%nat).
Proof.
  intros (Hn & Hj & _). destruct (first_digit d) as (c & t & Hs & Hc & H0); [by destruct Hn as [->|[_ ?]]|].
  exists c, ((t +:+ repeat_char j "0") +:+ rest). unfold digits_text. rewrite Hs. split_and!; [done|done|].
  intros Hc0. destruct (H0 Hc0) as [l ->]. rewrite (normal_zero _ Hn) in *. by rewrite Hj.
Qed.

Lemma parse_num_digits d j rest :
  short_number d j → num_end rest = true →
  parse_num (digits_text d j +:+ rest) = Some (of_Z (uint_value 0 d * 10 ^ Z.of_nat j), rest).
Proof.
  intros Hd Hr. destruct (num_end_spec rest Hr) as (Hnd & Hexp & Hdot).
  destruct (first_of_text d j rest Hd) as (c & t & Hs & Hc & H0).
  assert (scan_digits 0 0 (digits_text d j +:+ rest) =
    (uint_value 0 d * 10 ^ Z.of_nat j, uint_length d + Z.of_nat j, rest)) as Hscan.
  { unfold digits_text. by rewrite app_assoc_s, scan_uint, scan_zeros, (scan_stop _ _ rest). }
  set (v := uint_value 0 d * 10 ^ Z.of_nat j) in *.
  destruct Hd as (Hn & Hj & Hl).
  assert (0 < uint_length d + Z.of_nat j) as Hpos.
  { pose proof (normal_cons d Hn). pose proof (uint_length_nonneg d).
    destruct (decide (uint_length d = 0)) as [E|]; [|lia]. destruct d; cbn in E; [done|..];
      match type of E with 1 + uint_length ?l = 0 => pose proof (uint_length_nonneg l); lia end. }
  assert (c = "0"%char → uint_length d + Z.of_nat j = 1) as Hone.
  { intros Hc0. by destruct (H0 Hc0) as [-> ->]. }
  set (len := uint_length d + Z.of_nat j) in *. clearbody v len. rewrite Hs in *.
  assert (json_number_ok (String c t) = true) as Hok.
  { unfold json_number_ok. rewrite Hscan, Hdot, andb_true_r. rewrite (proj2 (Z.ltb_lt 0 len) Hpos).
    destruct c as [[] [] [] [] [] [] [] []]; try discriminate Hc; try done. by rewrite Hone. }
  assert (scan_decimal (String c t) = Some (of_Z v, rest)) as Hdec.
  { unfold scan_decimal. rewrite Hscan, Hdot.
    destruct (Z.eqb_spec (len + 0) 0); [lia|]. rewrite Hexp. cbn [mbind option_bind].
    unfold JsString.decimal. change (0 - 0) with 0. rewrite Z.mul_1_r.
    destruct (Z.eqb_spec v 0) as [->|]; [done|].
    destruct (Z.ltb_spec 310 (len + 0 + 0)); [lia|].
    by destruct (Z.ltb_spec (len + 0 + 0) (-400)); [lia|]. }
  unfold parse_num. rewrite Hok, Hdec.
  destruct (decide (c = "-"%char)) as [->|Hm]; [done|].
  by destruct c as [[] [] [] [] [] [] [] []].
Qed.

Lemma num_to_string_safe z : 0 ≤ z < 2 ^ 53 → num_to_string (of_Z z) = dec_of_Z z.
Proof.
  intros Hz. rewrite of_Z_exact by lia. pose proof one_pos. unfold num_to_string.
  destruct (Z.eqb_spec (z * one) 0) as [E|]; [by replace z with 0 by nia|].
  destruct (Z.ltb_spec (z * one) 0); [nia|]. unfold pos_to_string.
  rewrite Z.mod_mul, Z.div_mul by lia. cbn [Z.eqb].
  by destruct (Z.ltb_spec (z * one) (2 ^ 53 * one)); [|nia].
Qed.

(** The text of a 64-bit integer, and what it reads back as. *)
Lemma num_text z : 0 ≤ z < 2 ^ 64 → ∃ d j,
  num_to_string (of_Z z) = digits_text d j ∧ short_number d j ∧
  of_Z (uint_value 0 d * 10 ^ Z.of_nat j) = of_Z z.
Proof.
  intros Hz. destruct (Z.lt_ge_cases z (2 ^ 53)) as [Hs|Hb].
  - rewrite num_to_string_safe by lia. destruct (dec_value z ltac:(lia)) as (d & -> & Hv & Hd).
    exists d, 0%nat. pose proof (uint_length_small 16 d ltac:(lia) ltac:(lia) Hd).
    unfold short_number; split_and!; [unfold digits_text; by rewrite app_nil_s|done|done|lia|].
    change (10 ^ Z.of_nat 0) with 1. by rewrite Z.mul_1_r, Hv.
  - destruct (of_Z_big z ltac:(lia)) as (w & Hw & Hrw & Hwz). pose proof one_pos.
    rewrite Hw, num_to_string_pos, pos_to_string_big by nia. cbv zeta.
    destruct (shortest _ _ _ _) as [s k] eqn:E.
    destruct (shortest_whole w s k Hwz Hrw E) as (Hk & Hs & Hrd).
    destruct (dec_point_whole w Hwz) as [Hn _]. set (n := dec_point (w * one)) in *. clearbody n.
    destruct (dec_value s ltac:(lia)) as (d & Hds & Hv & Hd). exists d, (Z.to_nat (n - k)).
    unfold layout. destruct (Z.leb_spec k n), (Z.leb_spec n 21); try lia. cbn [andb].
    rewrite Hds, Hv, Z2Nat.id by lia. unfold short_number; split_and!; [done|done| | |].
    + intros ->. cbn [uint_value] in Hv. lia.
    + pose proof (uint_length_small 20 d ltac:(lia) ltac:(lia) Hd). lia.
    + rewrite of_Z_mk, Hrd, <-Hrw at 1. rewrite <-of_Z_mk, of_Z_finite by lia. by rewrite Hrw.
Qed.

(** ** Values and members *)

Lemma substring_all s n : (String.length s ≤ n)%nat → String.substring 0 n s = s.
Proof.
  revert n. induction s as [|c s IH]; intros [|n]; simpl; try done; [lia|].
  intros. f_equal. apply IH. lia.
Qed.

Lemma substring_app (a b : string) n : String.substring (String.length a) n (a +:+ b) = String.substring 0 n b.
Proof. by induction a as [|c a IH]. Qed.

Lemma starts_with_app (a b : string) : starts_with (a +:+ b) a = true.
Proof. induction a as [|c a IH]; [by destruct b|]. simpl. by rewrite bool_decide_true. Qed.

Lemma keyword_app k v rest : keyword k v (k +:+ rest) = Some (v, rest).
Proof.
  unfold keyword. rewrite starts_with_app, substring_app, substring_all; [done|].
  induction k as [|c k IH]; [done|]. rewrite string_app_cons. simpl. lia.
Qed.

Lemma quote_app s rest : quote s +:+ rest = String "034" (quote_body s +:+ String "034" rest).
Proof. unfold quote. by rewrite string_app_cons, app_assoc_s. Qed.

Lemma parse_number_value fuel d j rest :
  short_number d j → num_end rest = true →
  parse_value (S fuel) (digits_text d j +:+ rest) =
  Some (JNum (of_Z (uint_value 0 d * 10 ^ Z.of_nat j)), rest).
Proof.
  intros Hd Hr. pose proof (parse_num_digits d j rest Hd Hr) as Hp.
  destruct (first_of_text d j rest Hd) as (c & t & Hs & Hc & _). rewrite Hs in *. cbn [parse_value].
  assert (skip_ws (String c t) = String c t) as ->.
  { by destruct c as [[] [] [] [] [] [] [] []]. }
  destruct c as [[] [] [] [] [] [] [] []]; try discriminate Hc; by rewrite Hp.
Qed.

Lemma parse_primitive fuel v rest :
  primitive v → num_end rest = true →
  parse_value (S fuel) (default "" (stringify v) +:+ rest) = Some (v, rest).
Proof.
  intros Hv Hr. destruct v as [| |b|x|s| |]; try done.
  - exact (keyword_app "null" JNull rest).
  - destruct b; [exact (keyword_app "true" (JBool true) rest)|exact (keyword_app "false" (JBool false) rest)].
  - destruct Hv as (z & -> & Hz). cbn [stringify].
    assert (is_finite (of_Z z) = true) as -> by by rewrite of_Z_finite by lia.
    destruct (num_text z Hz) as (d & j & -> & Hd & <-). by apply parse_number_value.
  - change (default "" (stringify (JStr s))) with (quote s). rewrite quote_app.
    change (('(b, r) ← parse_str None (quote_body s +:+ String "034" rest); Some (JStr b, r)) =
      Some (JStr s, rest)). by rewrite parse_quote.
Qed.

(** A member of a flat object. *)
Definition flat_member (kv : string * jsval) : Prop :=
  utf8_ok kv.1 = true ∧ index_key kv.1 = None ∧ primitive kv.2.

Definition member_text (kv : string * jsval) : string :=
  quote kv.1 +:+ ":" +:+ default "" (stringify kv.2).

Lemma primitive_text v : primitive v → ∃ t, stringify v = Some t.
Proof. destruct v; simpl; try done; eauto. Qed.

Lemma stringify_flat o :
  Forall flat_member o →
  stringify (JObj o) = Some ("{" +:+ join "," (member_text <$> o) +:+ "}").
Proof.
  intros Ho. cbn [stringify]. do 3 f_equal.
  set (members := (fix go (o : list (string * jsval)) : list (string * option string) :=
     match o with [] => [] | (k, v) :: o' => (k, stringify v) :: go o' end) o).
  assert (members = (λ kv, (kv.1, stringify kv.2)) <$> o) as Hm.
  { subst members. clear Ho. induction o as [|[k v] o IH]; [done|]. by rewrite fmap_cons, IH. }
  assert (Forall (λ a, index_key a.1 = None) members) as Hi.
  { rewrite Hm. apply Forall_fmap. eapply Forall_impl; [exact Ho|]. by intros kv (_ & ? & _). }
  assert (own_keys members = members) as ->.
  { unfold own_keys. rewrite filter_none, filter_all; [done|..];
      rewrite Forall_forall in Hi; intros a Ha; rewrite (Hi a Ha); [done|]. by intros []. }
  f_equal. rewrite Hm. clear -Ho.
  induction Ho as [|[k v] o (_ & _ & Hv) _ IH]; [done|]. rewrite !fmap_cons. cbn [omap list_omap fst snd].
  destruct (primitive_text v Hv) as [t Ht]. unfold member_text at 1. cbn [fst snd]. rewrite Ht.
  cbn [fmap option_fmap option_map]. f_equal. exact IH.
Qed.

(** ** Objects *)

Lemma join_cons sep a b l : join sep (a :: b :: l) = a +:+ sep +:+ join sep (b :: l).
Proof. done. Qed.

(** One member and what follows it. *)
Lemma parse_member fuel acc kv rest :
  flat_member kv → kv.1 ∉ acc.*1 → num_end rest = true →
  parse_members (S (S fuel)) acc (member_text kv +:+ rest) =
  match skip_ws rest with
  | String "," r4 => parse_members (S fuel) (acc ++ [kv]) r4
  | String "}" r4 => Some (JObj (acc ++ [kv]), r4)
  | _ => None
  end.
Proof.
  destruct kv as [k v]. intros (Hk & _ & Hv) Hfresh Hr. cbn [fst snd] in *.
  unfold member_text. cbn [fst snd]. rewrite app_assoc_s, quote_app, app_assoc_s.
  change (parse_members (S (S fuel)) acc (String "034" ?t)) with
    ('(k, r1) ← parse_str None t;
     match skip_ws r1 with
     | String ":" r2 =>
         '(v, r3) ← parse_value (S fuel) r2;
         let acc' := map_set k v acc in
         match skip_ws r3 with
         | String "," r4 => parse_members (S fuel) acc' r4
         | String "}" r4 => Some (JObj acc', r4)
         | _ => None
         end
     | _ => None
     end).
  rewrite parse_quote by done. cbn [mbind option_bind].
  change (skip_ws (":" +:+ ?u)) with (String ":" u). cbv iota.
  rewrite (parse_primitive fuel v rest Hv Hr). cbn [mbind option_bind].
  by rewrite map_set_fresh.
Qed.

Lemma parse_members_flat o acc fuel rest :
  Forall flat_member o → o ≠ [] → NoDup (acc.*1 ++ o.*1) → (length o < fuel)%nat →
  parse_members fuel acc (join "," (member_text <$> o) +:+ String "}" rest) = Some (JObj (acc ++ o), rest).
Proof.
  intros Ho. revert acc fuel. induction Ho as [|kv o Hkv Ho IH]; intros acc fuel Hne Hnd Hf; [done|].
  destruct fuel as [|[|fuel]]; [simpl in Hf; lia..|]. rewrite fmap_cons in Hnd.
  assert (kv.1 ∉ acc.*1) as Hfresh.
  { apply NoDup_app in Hnd as (_ & Hd & _). intros Hin. apply (Hd _ Hin). left. }
  destruct o as [|kv' o].
  - change (join "," (member_text <$> [kv])) with (member_text kv). by rewrite parse_member.
  - rewrite !fmap_cons, join_cons, <-fmap_cons, !app_assoc_s, parse_member by done.
    change (skip_ws ("," +:+ ?u)) with (String "," u). cbv iota.
    rewrite IH; [by rewrite <-app_assoc|done| |simpl in Hf |- *; lia].
    rewrite fmap_app, <-app_assoc. exact Hnd.
Qed.

Lemma length_string_app (a b : string) : String.length (a +:+ b) = (String.length a + String.length b)%nat.
Proof. induction a as [|c a IH]; [done|]. rewrite string_app_cons. simpl. by rewrite IH. Qed.

Lemma join_length o : (length o ≤ String.length (join "," (member_text <$> o)))%nat.
Proof.
  induction o as [|kv o IH]; [simpl; lia|]. rewrite fmap_cons.
  assert (1 ≤ String.length (member_text kv))%nat as Hm.
  { unfold member_text, quote. rewrite string_app_cons. simpl. lia. }
  destruct o as [|kv' o]; [exact Hm|].
  rewrite fmap_cons, join_cons, <-fmap_cons, !length_string_app. simpl in *. lia.
Qed.

Lemma json_flat_roundtrip o :
  Forall flat_member o → NoDup o.*1 →
  ∃ t, stringify (JObj o) = Some t ∧ json_parse t = Some (JObj o).
Proof.
  intros Ho Hn. eexists. split; [by apply stringify_flat|].
  unfold json_parse. destruct o as [|kv o]; [done|].
  set (body := join "," (member_text <$> (kv :: o))).
  pose proof (join_length (kv :: o)) as Hlen. fold body in Hlen.
  assert (∃ u, body +:+ "}" = String "034" u) as [u Hu].
  { subst body. rewrite fmap_cons. destruct (member_text <$> o).
    - change (join "," [member_text kv]) with (member_text kv).
      unfold member_text. rewrite app_assoc_s, quote_app. by eexists.
    - rewrite join_cons. unfold member_text. rewrite !app_assoc_s, quote_app. by eexists. }
  rewrite !length_string_app. cbn [String.length].
  replace (2 * (1 + (String.length body + 1)) + 2)%nat with (S (2 * String.length body + 5))%nat by lia.
  assert (parse_value (S (2 * String.length body + 5)) ("{" +:+ body +:+ "}") = Some (JObj (kv :: o), "")) as ->.
  { pose proof (parse_members_flat (kv :: o) [] (2 * String.length body + 5) "" Ho) as Hp.
    fold body in Hp. rewrite Hu in Hp |- *.
    change (parse_members (2 * String.length body + 5) [] (String "034" u) = Some (JObj (kv :: o), "")).
    apply Hp; [done|exact Hn|lia]. }
  done.
Qed.
