(* ===== verification/Styles.v ===== *)
(** * The style tables, the style sheets and the themes

    What the pages' "style" and "className" attributes name: the table of inline
    styles at the end of each component, the <style> element it renders, and the
    custom properties of src/console/src/index.css and src/www/src/styles/global.css
    that both refer to. *)

From S2P Require Import Prelude JsNumber JsString Json.
Open Scope Z_scope.

(** A value of a style property: a string, or the number n/d. *)
Inductive css_value := Str (s : string) | Num (n d : Z).

(** [Record<string, React.CSSProperties>]. *)
Definition sheet : Type := list (string * list (string * css_value)).

(** A rule of a style sheet, under a media query or none. *)
Record rule := mkRule { media : string; selectors : list string; declarations : list (string * string) }.

(** ** What a value and a selector refer to *)

(** The characters of a name. *)
Definition name_char (c : ascii) : bool :=
  is_digit c || in_range 65 90 c || in_range 97 122 c || bool_decide (c = "-"%char) || bool_decide (c = "_"%char).

Fixpoint take_name (s : string) : string :=
  match s with
  | String c t => if name_char c then String c (take_name t) else ""
  | "" => ""
  end.

Fixpoint drop_name (s : string) : string :=
  match s with String c t => if name_char c then drop_name t else s | "" => "" end.

(** The custom properties of [var(...)] without a fallback. *)
Fixpoint variables (s : string) : list string :=
  match s with
  | "" => []
  | String _ t =>
      (if starts_with s "var(" then
         let arg := String.substring 4 (String.length s) s in
         if starts_with (drop_name arg) ")" then [take_name arg] else []
       else []) ++ variables t
  end.

(** The classes of a selector. *)
Fixpoint selector_classes (s : string) : list string :=
  match s with
  | "" => []
  | String c t => (if decide (c = "."%char) then [take_name t] else []) ++ selector_classes t
  end.

Definition sheet_names (l : sheet) : list string := l.*1.
Definition css_classes (l : list rule) : list string := concat ((λ r, concat (selector_classes <$> selectors r)) <$> l).

Definition value_variables (v : css_value) : list string := match v with Str s => variables s | Num _ _ => [] end.
Definition sheet_variables (l : sheet) : list string :=
  concat ((λ e, concat ((λ p, value_variables p.2) <$> e.2)) <$> l).
Definition css_variables (l : list rule) : list string :=
  concat ((λ r, concat ((λ p, variables p.2) <$> declarations r)) <$> l).

(** The animations the declarations of a table start. *)
Definition sheet_animations (l : sheet) : list string :=
  concat ((λ e : string * list (string * css_value), omap (λ p,
                   match p.2 with
                   | Str v => if decide (p.1 = "animation") then Some (take_name v) else None
                   | Num _ _ => None
                   end) e.2) <$> l).

(** ** The themes and the sheet of the console *)

Definition console_variables : list (string * string) :=
  [("--bg", "#0e0e0f"); ("--bg-subtle", "#141415"); ("--bg-elevated", "#1a1a1b");
   ("--border", "#242426"); ("--border-subtle", "#1e1e20"); ("--text-primary", "#f0eeeb");
   ("--text-secondary", "#a09e9b"); ("--text-muted", "#5c5a57"); ("--accent", "#f59e0b");
   ("--accent-dim", "rgba(245, 158, 11, 0.12)"); ("--accent-dim-hover", "rgba(245, 158, 11, 0.2)");
   ("--font", (jtext "'Raleway', system-ui, -apple-system, sans-serif"));
   ("--font-mono", (jtext "'JetBrains Mono', 'Fira Code', 'Cascadia Code', monospace"));
   ("--radius-sm", "0px"); ("--radius-md", "0px"); ("--radius-lg", "0px"); ("--sidebar-width", "200px");
   ("--topbar-height", "48px")].

Definition console_light : list (string * string) :=
  [("--bg", "#f5f3f0"); ("--bg-subtle", "#edeae6"); ("--bg-elevated", "#e5e2de");
   ("--border", "#d0cdc8"); ("--border-subtle", "#d8d5d0"); ("--text-primary", "#0e0e0f");
   ("--text-secondary", "#4a4845"); ("--text-muted", "#8a8784"); ("--accent", "#d97706");
   ("--accent-dim", "rgba(217, 119, 6, 0.1)"); ("--accent-dim-hover", "rgba(217, 119, 6, 0.18)")].

Definition site_variables : list (string * string) :=
  [("--bg", "#0e0e0f"); ("--bg-subtle", "#141415"); ("--bg-elevated", "#1a1a1b");
   ("--border", "#242426"); ("--border-subtle", "#1e1e20"); ("--text-primary", "#f0eeeb");
   ("--text-secondary", "#a09e9b"); ("--text-muted", "#5c5a57"); ("--accent", "#f59e0b");
   ("--accent-dim", "rgba(245, 158, 11, 0.12)"); ("--accent-dim-hover", "rgba(245, 158, 11, 0.2)");
   ("--overlay", "rgba(0, 0, 0, 0.66)"); ("--shadow-lg", "0 24px 64px rgba(0, 0, 0, 0.46)");
   ("--button-text-on-accent", "#0e0e0f");
   ("--font", (jtext "'Raleway', system-ui, -apple-system, sans-serif")); ("--radius-sm", "4px");
   ("--radius-md", "8px"); ("--radius-lg", "8px"); ("--ease-out", "cubic-bezier(0.16, 1, 0.3, 1)");
   ("--ease-standard", "cubic-bezier(0.2, 0, 0, 1)"); ("--motion-fast", "140ms");
   ("--motion-medium", "240ms"); ("--theme-duration", "150ms");
   ("--scrollbar-thumb", "rgba(128, 128, 128, 0.28)");
   ("--scrollbar-thumb-hover", "rgba(128, 128, 128, 0.46)")].

Definition site_light : list (string * string) :=
  [("--bg", "#f5f3f0"); ("--bg-subtle", "#edeae6"); ("--bg-elevated", "#e5e2de");
   ("--border", "#d0cdc8"); ("--border-subtle", "#d8d5d0"); ("--text-primary", "#0e0e0f");
   ("--text-secondary", "#4a4845"); ("--text-muted", "#8a8784"); ("--accent", "#d97706");
   ("--accent-dim", "rgba(217, 119, 6, 0.1)"); ("--accent-dim-hover", "rgba(217, 119, 6, 0.18)");
   ("--overlay", "rgba(14, 14, 15, 0.28)"); ("--shadow-lg", "0 24px 64px rgba(14, 14, 15, 0.16)");
   ("--button-text-on-accent", "#ffffff")].

Definition index_css : list rule := [
  mkRule "" ["*"; "*::before"; "*::after"] [("box-sizing", "border-box"); ("margin", "0"); ("padding", "0"); ("transition", "background-color 0ms ease, border-color 0ms ease, color 0ms ease, fill 0ms ease, stroke 0ms ease, opacity 0ms ease")];
  mkRule "" ["html"] [("font-family", "var(--font)"); ("background-color", "var(--bg)"); ("color", "var(--text-primary)"); ("-webkit-font-smoothing", "antialiased"); ("-moz-osx-font-smoothing", "grayscale"); ("font-size", "16px")];
  mkRule "" ["body"] [("min-height", "100vh"); ("line-height", "1.6"); ("background-color", "var(--bg)"); ("overflow", "hidden")];
  mkRule "" ["#root"] [("height", "100vh"); ("display", "flex"); ("flex-direction", "column")];
  mkRule "" ["a"] [("color", "inherit"); ("text-decoration", "none")];
  mkRule "" ["button"] [("font-family", "var(--font)"); ("cursor", "pointer")];
  mkRule "" ["code"; "pre"] [("font-family", "var(--font-mono)")];
  mkRule "" ["pre"] [("background", "var(--bg-elevated)"); ("border", "1px solid var(--border)"); ("border-radius", "var(--radius-md)"); ("padding", "1.25rem 1.5rem"); ("overflow-x", "auto"); ("font-size", "0.875rem"); ("line-height", "1.7")];
  mkRule "" ["code:not(pre code)"] [("background", "var(--bg-elevated)"); ("border", "1px solid var(--border)"); ("border-radius", "var(--radius-sm)"); ("padding", "0.15em 0.4em"); ("font-size", "0.85em"); ("color", "var(--accent)")];
  mkRule "" ["::-webkit-scrollbar"] [("width", "5px"); ("height", "5px")];
  mkRule "" ["::-webkit-scrollbar-track"] [("background", "transparent")];
  mkRule "" ["::-webkit-scrollbar-thumb"] [("background", "var(--border)"); ("border-radius", "0px")];
  mkRule "" ["::-webkit-scrollbar-thumb:hover"] [("background", "var(--text-muted)")];
  mkRule "" ["html"] [("scrollbar-width", "thin"); ("scrollbar-color", "var(--border) transparent")];
  mkRule "" ["::selection"] [("background", "var(--accent-dim)"); ("color", "var(--accent)")];
  mkRule "" ["input:-webkit-autofill"; "input:-webkit-autofill:focus"] [("-webkit-box-shadow", "0 0 0 1000px var(--bg-elevated) inset !important"); ("-webkit-text-fill-color", "var(--text-primary) !important"); ("caret-color", "var(--text-primary)")];
  mkRule "" ["input:focus"] [("border-color", "rgba(245, 158, 11, 0.4) !important"); ("box-shadow", "0 0 0 2px var(--accent-dim)")];
  mkRule "" [".animate-fade-in"] [("animation", "fadeIn 180ms ease forwards")];
  mkRule "" [".font-mono"] [("font-family", "var(--font-mono)")];
  mkRule "" [".text-accent"] [("color", "var(--accent)")];
  mkRule "" [".text-primary"] [("color", "var(--text-primary)")];
  mkRule "" [".text-secondary"] [("color", "var(--text-secondary)")];
  mkRule "" [".text-muted"] [("color", "var(--text-muted)")];
  mkRule "" [".truncate"] [("overflow", "hidden"); ("text-overflow", "ellipsis"); ("white-space", "nowrap")];
  mkRule "" [".stream-row"] [("display", "flex"); ("align-items", "center"); ("padding", "0 1.25rem"); ("height", "34px"); ("gap", "0.75rem"); ("cursor", "pointer"); ("user-select", "none"); ("border-bottom", "1px solid transparent")];
  mkRule "" [".stream-row:nth-child(even)"] [("background-color", "var(--bg)")];
  mkRule "" [".stream-row:nth-child(odd)"] [("background-color", "var(--bg-subtle)")];
  mkRule "" [".stream-row:hover"] [("background-color", "var(--bg-elevated) !important")];
  mkRule "" [".stream-row.expanded"] [("background-color", "var(--accent-dim) !important")]].

(** The steps of the animations. *)
Definition keyframes : list (string * list rule) := [
  ("pulse", [mkRule "" ["0%"; "100%"] [("opacity", "1")]; mkRule "" ["50%"] [("opacity", "0.25")]]);
  ("spin", [mkRule "" ["to"] [("transform", "rotate(360deg)")]]);
  ("fadeIn", [mkRule "" ["from"] [("opacity", "0"); ("transform", "translateY(4px)")]; mkRule "" ["to"] [("opacity", "1"); ("transform", "translateY(0)")]])].

(** ** The tables and sheets of the components *)

Definition replay_styles_1 : sheet := [
  ("root",
   [("display", Str "flex"); ("flexDirection", Str "column"); ("height", Str "100%");
    ("overflow", Str "hidden"); ("backgroundColor", Str "var(--bg)")]);
  ("incidentBar",
   [("display", Str "flex"); ("alignItems", Str "center"); ("gap", Str "0.375rem");
    ("padding", Str "0 1.25rem"); ("height", Str "44px");
    ("borderBottom", Str "1px solid var(--border-subtle)"); ("flexShrink", Num 0 1);
    ("backgroundColor", Str "var(--bg-subtle)"); ("overflowX", Str "auto")]);
  ("incidentBarLabel",
   [("fontSize", Str "0.6rem"); ("fontWeight", Num 700 1); ("letterSpacing", Str "0.14em");
    ("textTransform", Str "uppercase"); ("color", Str "var(--text-muted)");
    ("marginRight", Str "0.25rem"); ("flexShrink", Num 0 1)]);
  ("incidentBtnId",
   [("fontFamily", Str "var(--font-mono)"); ("fontSize", Str "0.65rem"); ("fontWeight", Num 700 1);
    ("color", Str "var(--text-primary)")]);
  ("incidentBtnName",
   [("fontFamily", Str "var(--font-mono)"); ("fontSize", Str "0.62rem");
    ("color", Str "var(--text-muted)")]);
  ("outcomeDot",
   [("width", Num 6 1); ("height", Num 6 1); ("borderRadius", Str "50%"); ("flexShrink", Num 0 1)]);
  ("body",
   [("display", Str "flex"); ("flex", Num 1 1); ("overflow", Str "hidden")]);
  ("injPanel",
   [("width", Str "240px"); ("flexShrink", Num 0 1);
    ("borderRight", Str "1px solid var(--border-subtle)"); ("padding", Str "1rem");
    ("overflowY", Str "auto"); ("display", Str "flex"); ("flexDirection", Str "column");
    ("gap", Num 0 1); ("backgroundColor", Str "var(--bg-subtle)")]);
  ("panelHeader",
   [("display", Str "flex"); ("alignItems", Str "center"); ("justifyContent", Str "space-between");
    ("marginBottom", Str "1rem")]);
  ("panelTitle",
   [("fontSize", Str "0.6rem"); ("fontWeight", Num 700 1); ("letterSpacing", Str "0.14em");
    ("textTransform", Str "uppercase"); ("color", Str "var(--text-muted)")]);
  ("resetInjBtn",
   [("fontSize", Str "0.6rem"); ("fontFamily", Str "var(--font-mono)"); ("fontWeight", Num 600 1);
    ("color", Str "var(--text-muted)"); ("background", Str "transparent");
    ("border", Str "1px solid var(--border-subtle)"); ("borderRadius", Str "0px");
    ("padding", Str "0.15rem 0.4rem"); ("cursor", Str "pointer"); ("letterSpacing", Str "0.04em")]);
  ("injSection",
   [("paddingBottom", Str "0.875rem")]);
  ("injDivider",
   [("height", Str "1px"); ("backgroundColor", Str "var(--border-subtle)");
    ("marginBottom", Str "0.875rem")]);
  ("sliderHints",
   [("display", Str "flex"); ("justifyContent", Str "space-between"); ("marginTop", Str "0.2rem");
    ("fontSize", Str "0.55rem"); ("fontFamily", Str "var(--font-mono)");
    ("color", Str "var(--text-muted)"); ("opacity", Num 6 10)]);
  ("toggleRow",
   [("display", Str "flex"); ("alignItems", Str "center"); ("justifyContent", Str "space-between")]);
  ("rootCauseBox",
   [("marginTop", Str "0.5rem"); ("padding", Str "0.625rem"); ("backgroundColor", Str "var(--bg)");
    ("border", Str "1px solid var(--border)"); ("borderRadius", Str "0px"); ("display", Str "flex");
    ("flexDirection", Str "column"); ("gap", Str "0.3rem")]);
  ("rootCauseLabel",
   [("fontSize", Str "0.55rem"); ("fontWeight", Num 700 1); ("letterSpacing", Str "0.14em");
    ("textTransform", Str "uppercase"); ("color", Str "var(--text-muted)")]);
  ("rootCauseText",
   [("fontSize", Str "0.65rem"); ("fontFamily", Str "var(--font-mono)");
    ("color", Str "var(--text-secondary)"); ("lineHeight", Num 155 100)]);
  ("hintBox",
   [("marginTop", Str "0.625rem"); ("padding", Str "0.5rem 0.625rem");
    ("backgroundColor", Str "var(--bg)"); ("border", Str "1px dashed var(--border)");
    ("borderRadius", Str "0px")]);
  ("hintText",
   [("fontSize", Str "0.6rem"); ("fontFamily", Str "var(--font-mono)");
    ("color", Str "var(--text-secondary)"); ("lineHeight", Num 15 10)]);
  ("playPanel",
   [("flex", Num 1 1); ("display", Str "flex"); ("flexDirection", Str "column");
    ("overflow", Str "hidden"); ("minWidth", Num 0 1)])].

Definition replay_styles_2 : sheet := [
  ("outcomeRow",
   [("display", Str "flex"); ("alignItems", Str "center"); ("justifyContent", Str "space-between");
    ("padding", Str "0.75rem 1.25rem"); ("borderBottom", Str "1px solid var(--border-subtle)");
    ("flexShrink", Num 0 1)]);
  ("incidentMeta",
   [("display", Str "flex"); ("alignItems", Str "center"); ("gap", Str "0.5rem")]);
  ("metaId",
   [("fontFamily", Str "var(--font-mono)"); ("fontSize", Str "0.72rem"); ("fontWeight", Num 700 1);
    ("color", Str "var(--text-primary)")]);
  ("metaSep",
   [("color", Str "var(--border)"); ("fontSize", Str "0.7rem")]);
  ("metaTs",
   [("fontFamily", Str "var(--font-mono)"); ("fontSize", Str "0.62rem");
    ("color", Str "var(--text-muted)")]);
  ("metaDur",
   [("fontFamily", Str "var(--font-mono)"); ("fontSize", Str "0.62rem");
    ("color", Str "var(--text-muted)")]);
  ("outcomeBadge",
   [("display", Str "flex"); ("alignItems", Str "center"); ("gap", Str "0.4rem");
    ("padding", Str "0.3rem 0.75rem"); ("borderRadius", Str "0px");
    ("fontFamily", Str "var(--font-mono)"); ("fontSize", Str "0.72rem"); ("fontWeight", Num 700 1);
    ("letterSpacing", Str "0.08em"); ("border", Str "1px solid"); ("transition", Str "all 150ms ease")]);
  ("scrubberWrap",
   [("padding", Str "0.75rem 1.25rem 0.5rem"); ("borderBottom", Str "1px solid var(--border-subtle)");
    ("flexShrink", Num 0 1)]);
  ("scrubberTrack",
   [("position", Str "relative"); ("height", Str "16px"); ("display", Str "flex");
    ("alignItems", Str "center")]);
  ("scrubRail",
   [("position", Str "absolute"); ("left", Num 0 1); ("right", Num 0 1); ("height", Str "3px");
    ("backgroundColor", Str "var(--border)"); ("borderRadius", Str "0px"); ("pointerEvents", Str "none")]);
  ("scrubFill",
   [("position", Str "absolute"); ("left", Num 0 1); ("height", Str "3px");
    ("backgroundColor", Str "var(--text-muted)"); ("borderRadius", Str "0px");
    ("pointerEvents", Str "none")]);
  ("scrubInput",
   [("position", Str "absolute"); ("inset", Num 0 1); ("width", Str "100%"); ("opacity", Num 0 1);
    ("cursor", Str "pointer"); ("zIndex", Num 3 1); ("margin", Num 0 1); ("height", Str "100%")]);
  ("scrubTime",
   [("display", Str "flex"); ("alignItems", Str "baseline"); ("gap", Str "0.3rem");
    ("marginTop", Str "0.35rem")]);
  ("scrubTs",
   [("fontFamily", Str "var(--font-mono)"); ("fontSize", Str "0.72rem"); ("fontWeight", Num 700 1);
    ("color", Str "var(--text-primary)")]);
  ("scrubTotal",
   [("fontFamily", Str "var(--font-mono)"); ("fontSize", Str "0.62rem");
    ("color", Str "var(--text-muted)")]);
  ("controls",
   [("display", Str "flex"); ("alignItems", Str "center"); ("justifyContent", Str "space-between");
    ("padding", Str "0.5rem 1.25rem"); ("borderBottom", Str "1px solid var(--border-subtle)");
    ("flexShrink", Num 0 1)]);
  ("ctrlLeft",
   [("display", Str "flex"); ("alignItems", Str "center"); ("gap", Str "0.375rem")]);
  ("ctrlRight",
   [("display", Str "flex"); ("alignItems", Str "center"); ("gap", Str "0.5rem")]);
  ("speedLabel",
   [("fontSize", Str "0.6rem"); ("fontWeight", Num 700 1); ("letterSpacing", Str "0.1em");
    ("textTransform", Str "uppercase"); ("color", Str "var(--text-muted)")]);
  ("speedGroup",
   [("display", Str "flex"); ("border", Str "1px solid var(--border)"); ("borderRadius", Str "0px");
    ("overflow", Str "hidden")]);
  ("keyEventList",
   [("display", Str "flex"); ("flexDirection", Str "column"); ("gap", Num 0 1);
    ("padding", Str "0.5rem 1.25rem"); ("borderBottom", Str "1px solid var(--border-subtle)");
    ("flexShrink", Num 0 1); ("overflowX", Str "auto"); ("minHeight", Str "60px")]);
  ("keyEventRow",
   [("display", Str "flex"); ("alignItems", Str "center"); ("gap", Str "0.625rem");
    ("padding", Str "0.2rem 0"); ("transition", Str "opacity 0ms ease")]);
  ("keyEventDot",
   [("width", Num 6 1); ("height", Num 6 1); ("borderRadius", Str "50%"); ("flexShrink", Num 0 1);
    ("transition", Str "background-color 0ms ease")])].

Definition replay_styles_3 : sheet := [
  ("keyEventOffset",
   [("fontFamily", Str "var(--font-mono)"); ("fontSize", Str "0.6rem");
    ("color", Str "var(--text-muted)"); ("width", Str "44px"); ("flexShrink", Num 0 1)]);
  ("keyEventLabel",
   [("fontFamily", Str "var(--font-mono)"); ("fontSize", Str "0.65rem");
    ("transition", Str "color 0ms ease")]);
  ("logHeader",
   [("display", Str "flex"); ("alignItems", Str "center"); ("justifyContent", Str "space-between");
    ("padding", Str "0.4rem 1.25rem"); ("borderBottom", Str "1px solid var(--border-subtle)");
    ("flexShrink", Num 0 1); ("backgroundColor", Str "var(--bg-subtle)")]);
  ("logTitle",
   [("fontSize", Str "0.6rem"); ("fontWeight", Num 700 1); ("letterSpacing", Str "0.12em");
    ("textTransform", Str "uppercase"); ("color", Str "var(--text-muted)")]);
  ("logCount",
   [("fontFamily", Str "var(--font-mono)"); ("fontSize", Str "0.6rem");
    ("color", Str "var(--text-muted)")]);
  ("logBody",
   [("flex", Num 1 1); ("overflowY", Str "auto")]);
  ("logEmpty",
   [("display", Str "flex"); ("alignItems", Str "center"); ("justifyContent", Str "center");
    ("padding", Str "3rem"); ("fontFamily", Str "var(--font-mono)"); ("fontSize", Str "0.7rem");
    ("color", Str "var(--text-muted)"); ("opacity", Num 4 10)]);
  ("logRow",
   [("display", Str "flex"); ("alignItems", Str "center"); ("gap", Str "0.75rem");
    ("padding", Str "0 1.25rem"); ("height", Str "32px"); ("cursor", Str "default")]);
  ("logOffset",
   [("fontFamily", Str "var(--font-mono)"); ("fontSize", Str "0.62rem");
    ("color", Str "var(--text-muted)"); ("width", Str "48px"); ("flexShrink", Num 0 1)]);
  ("logBadge",
   [("display", Str "inline-flex"); ("alignItems", Str "center"); ("justifyContent", Str "center");
    ("fontFamily", Str "var(--font-mono)"); ("fontSize", Str "0.6rem"); ("fontWeight", Num 600 1);
    ("padding", Str "0.1em 0.4em"); ("borderRadius", Str "0px");
    ("backgroundColor", Str "var(--bg-elevated)"); ("border", Str "1px solid var(--border-subtle)");
    ("color", Str "var(--text-secondary)"); ("whiteSpace", Str "nowrap"); ("flexShrink", Num 0 1);
    ("width", Str "80px")]);
  ("logSvc",
   [("fontFamily", Str "var(--font-mono)"); ("fontSize", Str "0.65rem");
    ("color", Str "var(--text-secondary)"); ("width", Str "130px"); ("flexShrink", Num 0 1);
    ("overflow", Str "hidden"); ("textOverflow", Str "ellipsis"); ("whiteSpace", Str "nowrap")]);
  ("logDetail",
   [("fontFamily", Str "var(--font-mono)"); ("fontSize", Str "0.68rem");
    ("color", Str "var(--text-secondary)"); ("flex", Num 1 1); ("overflow", Str "hidden");
    ("textOverflow", Str "ellipsis"); ("whiteSpace", Str "nowrap"); ("minWidth", Num 0 1)]);
  ("logDur",
   [("fontFamily", Str "var(--font-mono)"); ("fontSize", Str "0.62rem");
    ("color", Str "var(--text-muted)"); ("flexShrink", Num 0 1); ("width", Str "64px");
    ("textAlign", Str "right")])].

Definition replay_styles : sheet := replay_styles_1 ++ replay_styles_2 ++ replay_styles_3.

Definition replay_css : list rule := [
  mkRule "" [".inj-slider"]
    [("width", "100%"); ("accent-color", "var(--text-secondary)"); ("cursor", "pointer")];
  mkRule "" [".toggle-btn"]
    [("padding", "0.2rem 0.6rem"); ("border-radius", "0px"); ("border", "1px solid var(--border)");
     ("background-color", "transparent"); ("color", "var(--text-muted)"); ("font-size", "0.63rem");
     ("font-family", "var(--font-mono)"); ("font-weight", "600"); ("cursor", "pointer");
     ("transition", "all 0ms ease")];
  mkRule "" [".toggle-btn.on"]
    [("background-color", "var(--bg-elevated)"); ("border-color", "var(--border-subtle)");
     ("color", "var(--text-primary)")];
  mkRule "" [".incident-btn"]
    [("display", "flex"); ("align-items", "center"); ("gap", "0.5rem");
     ("padding", "0.25rem 0.75rem"); ("border-radius", "0px");
     ("border", "1px solid var(--border-subtle)"); ("background-color", "transparent");
     ("cursor", "pointer"); ("flex-shrink", "0"); ("transition", "all 0ms ease")];
  mkRule "" [".incident-btn:hover"]
    [("background-color", "var(--bg-elevated)")];
  mkRule "" [".incident-btn.on"]
    [("background-color", "var(--bg-elevated)"); ("border-color", "var(--border)")];
  mkRule "" [".ctrl-btn"]
    [("display", "flex"); ("align-items", "center"); ("gap", "0.35rem");
     ("padding", "0.3rem 0.625rem"); ("background-color", "transparent");
     ("border", "1px solid var(--border)"); ("border-radius", "0px"); ("color", "var(--text-muted)");
     ("font-size", "0.68rem"); ("font-family", "var(--font)"); ("font-weight", "600");
     ("letter-spacing", "0.04em"); ("cursor", "pointer"); ("transition", "all 0ms ease")];
  mkRule "" [".ctrl-btn:hover:not(.primary)"]
    [("background-color", "var(--bg-elevated)")];
  mkRule "" [".ctrl-btn.primary"]
    [("background-color", "var(--accent-dim)"); ("border-color", "var(--border)");
     ("color", "var(--accent)")];
  mkRule "" [".speed-btn"]
    [("padding", "0.2rem 0.45rem"); ("font-size", "0.62rem"); ("font-family", "var(--font-mono)");
     ("font-weight", "600"); ("cursor", "pointer"); ("border", "none");
     ("border-right", "1px solid var(--border)"); ("background-color", "transparent");
     ("color", "var(--text-muted)"); ("letter-spacing", "0.02em"); ("transition", "all 0ms ease")];
  mkRule "" [".speed-btn:hover"]
    [("background-color", "var(--bg-elevated)")];
  mkRule "" [".speed-btn.on"]
    [("background-color", "var(--bg-elevated)"); ("color", "var(--text-primary)")];
  mkRule "" [".log-row"]
    [("transition", "background-color 0ms ease, border-color 0ms ease")];
  mkRule "" [".scrub-marker"]
    [("position", "absolute"); ("width", "8px"); ("height", "12px");
     ("transform", "translateX(-50%)"); ("z-index", "2"); ("cursor", "pointer");
     ("background-color", "var(--border-subtle)");
     ("transition", "background-color 80ms ease, height 80ms ease")];
  mkRule "" [".scrub-marker:hover"]
    [("background-color", "var(--text-muted)"); ("height", "16px")]].

Definition graph_styles_1 : sheet := [
  ("root",
   [("display", Str "flex"); ("flexDirection", Str "column"); ("height", Str "100%");
    ("overflow", Str "hidden"); ("backgroundColor", Str "var(--bg)")]);
  ("toolbar",
   [("display", Str "flex"); ("alignItems", Str "center"); ("justifyContent", Str "space-between");
    ("padding", Str "0 1.25rem"); ("height", Str "44px");
    ("borderBottom", Str "1px solid var(--border-subtle)"); ("flexShrink", Num 0 1);
    ("backgroundColor", Str "var(--bg-subtle)"); ("gap", Str "1rem")]);
  ("tlLeft",
   [("display", Str "flex"); ("alignItems", Str "center"); ("gap", Str "1rem")]);
  ("tlRight",
   [("display", Str "flex"); ("alignItems", Str "center"); ("gap", Str "0.625rem")]);
  ("chainState",
   [("fontFamily", Str "var(--font-mono)"); ("fontSize", Str "0.6rem");
    ("color", Str "var(--text-muted)"); ("minWidth", Num 0 1); ("maxWidth", Str "360px");
    ("overflow", Str "hidden"); ("textOverflow", Str "ellipsis"); ("whiteSpace", Str "nowrap")]);
  ("ctrlBtn",
   [("display", Str "flex"); ("alignItems", Str "center"); ("gap", Str "0.375rem");
    ("padding", Str "0.25rem 0.625rem"); ("backgroundColor", Str "transparent");
    ("border", Str "1px solid var(--border)"); ("borderRadius", Str "0px");
    ("color", Str "var(--text-muted)"); ("fontSize", Str "0.68rem"); ("fontFamily", Str "var(--font)");
    ("fontWeight", Num 600 1); ("letterSpacing", Str "0.04em"); ("cursor", Str "pointer")]);
  ("ctrlBtnOn",
   [("backgroundColor", Str "var(--accent-dim)"); ("borderColor", Str "rgba(245,158,11,0.3)");
    ("color", Str "var(--accent)")]);
  ("canvasWrapper",
   [("flex", Num 1 1); ("position", Str "relative"); ("display", Str "flex"); ("minHeight", Num 0 1);
    ("overflow", Str "hidden")]);
  ("graphSurface",
   [("flex", Num 1 1); ("position", Str "relative"); ("minWidth", Num 0 1); ("overflow", Str "hidden")]);
  ("svg",
   [("position", Str "absolute"); ("inset", Num 0 1); ("width", Str "100%"); ("height", Str "100%")]);
  ("summaryPanel",
   [("position", Str "relative"); ("width", Str "330px"); ("flexShrink", Num 0 1); ("zIndex", Num 2 1);
    ("padding", Str "1rem"); ("borderLeft", Str "1px solid var(--border)");
    ("backgroundColor", Str "var(--bg-subtle)")]);
  ("summaryHeader",
   [("display", Str "flex"); ("alignItems", Str "center"); ("gap", Str "0.5rem");
    ("marginBottom", Str "0.4rem")]);
  ("summaryStatus",
   [("fontFamily", Str "var(--font-mono)"); ("fontSize", Str "0.58rem"); ("fontWeight", Num 800 1);
    ("textTransform", Str "uppercase"); ("letterSpacing", Str "0.08em")]);
  ("summaryTitle",
   [("fontSize", Str "0.72rem"); ("fontWeight", Num 700 1); ("color", Str "var(--text-primary)")]);
  ("summaryCause",
   [("fontSize", Str "0.95rem"); ("fontWeight", Num 750 1); ("color", Str "var(--text-primary)");
    ("marginBottom", Str "0.35rem")]);
  ("summaryImpact",
   [("fontSize", Str "0.68rem"); ("lineHeight", Num 145 100); ("color", Str "var(--text-secondary)");
    ("marginBottom", Str "0.55rem")]);
  ("summaryEvidence",
   [("display", Str "grid"); ("gap", Str "0.28rem"); ("marginBottom", Str "0.55rem")]);
  ("summaryEvidenceItem",
   [("fontFamily", Str "var(--font-mono)"); ("fontSize", Str "0.58rem"); ("lineHeight", Num 14 10);
    ("color", Str "var(--text-muted)")]);
  ("summaryNext",
   [("borderTop", Str "1px solid var(--border-subtle)"); ("paddingTop", Str "0.5rem");
    ("fontSize", Str "0.66rem"); ("lineHeight", Num 145 100); ("color", Str "var(--accent)");
    ("fontWeight", Num 650 1)]);
  ("emptyState",
   [("position", Str "absolute"); ("inset", Num 0 1); ("display", Str "flex");
    ("alignItems", Str "center"); ("justifyContent", Str "center"); ("pointerEvents", Str "none")]);
  ("emptyText",
   [("fontFamily", Str "var(--font-mono)"); ("fontSize", Str "0.65rem");
    ("color", Str "var(--text-muted)"); ("opacity", Num 35 100); ("letterSpacing", Str "0.08em")]);
  ("detailPanel",
   [("flexShrink", Num 0 1); ("borderTop", Str "1px solid var(--border-subtle)");
    ("backgroundColor", Str "var(--bg-subtle)"); ("padding", Str "0.75rem 1.25rem");
    ("maxHeight", Str "180px"); ("overflowY", Str "auto")])].

Definition graph_styles_2 : sheet := [
  ("detailHeader",
   [("display", Str "flex"); ("alignItems", Str "center"); ("gap", Str "0.5rem");
    ("marginBottom", Str "0.625rem")]);
  ("detailType",
   [("fontFamily", Str "var(--font-mono)"); ("fontSize", Str "0.68rem"); ("fontWeight", Num 700 1);
    ("color", Str "var(--accent)"); ("letterSpacing", Str "0.04em")]);
  ("detailSep",
   [("color", Str "var(--border)"); ("fontSize", Str "0.7rem")]);
  ("detailSvc",
   [("fontFamily", Str "var(--font-mono)"); ("fontSize", Str "0.62rem");
    ("color", Str "var(--text-secondary)"); ("flex", Num 1 1)]);
  ("detailDur",
   [("fontFamily", Str "var(--font-mono)"); ("fontSize", Str "0.65rem"); ("color", Str "var(--accent)");
    ("fontWeight", Num 700 1)]);
  ("closeBtn",
   [("display", Str "flex"); ("alignItems", Str "center"); ("justifyContent", Str "center");
    ("width", Str "20px"); ("height", Str "20px"); ("backgroundColor", Str "transparent");
    ("border", Str "1px solid var(--border-subtle)"); ("borderRadius", Str "0px");
    ("color", Str "var(--text-muted)"); ("cursor", Str "pointer"); ("padding", Num 0 1)]);
  ("detailGrid",
   [("display", Str "grid"); ("gridTemplateColumns", Str "auto 1fr auto 1fr");
    ("gap", Str "0.2rem 1.25rem"); ("alignItems", Str "baseline")])].

Definition graph_styles : sheet := graph_styles_1 ++ graph_styles_2.

Definition graph_css : list rule := [
  mkRule "" [".bg-rect"]
    [("fill", "var(--bg)"); ("transition", "fill 0ms ease")];
  mkRule "" [".edge"]
    [("stroke", "var(--border)"); ("stroke-width", "1px");
     ("transition", "stroke 0ms ease, stroke-width 0ms ease, opacity 0ms ease")];
  mkRule "" [".edge.on-path"]
    [("stroke", "var(--accent)"); ("stroke-width", "1.5px")];
  mkRule "" [".edge.dimmed"]
    [("opacity", "0.15")];
  mkRule "" [".node-g"]
    [("cursor", "pointer"); ("transition", "opacity 0ms ease")];
  mkRule "" [".node-g.dimmed"]
    [("opacity", "0.2")];
  mkRule "" [".node-rect"]
    [("fill", "var(--bg)"); ("stroke", "var(--border)");
     ("transition", "fill 0ms ease, stroke 0ms ease, stroke-width 0ms ease")];
  mkRule "" [".node-g:hover .node-rect"]
    [("fill", "var(--bg-elevated)"); ("stroke", "var(--border-subtle)")];
  mkRule "" [".node-g.selected .node-rect"]
    [("fill", "var(--accent-dim)"); ("stroke", "var(--accent)"); ("stroke-width", "1.5px")];
  mkRule "" [".node-g.on-path .node-rect"]
    [("fill", "var(--accent-dim)"); ("stroke", "var(--accent)")];
  mkRule "" [".node-type"]
    [("fill", "var(--text-primary)"); ("transition", "fill 0ms ease")];
  mkRule "" [".node-g.selected .node-type"; ".node-g.on-path .node-type"]
    [("fill", "var(--accent)")];
  mkRule "" [".node-detail"; ".node-dur"]
    [("fill", "var(--text-muted)"); ("transition", "fill 0ms ease")];
  mkRule "@media (max-width: 900px)" [".debug-summary"]
    [("position", "absolute !important"); ("top", "14px"); ("right", "14px");
     ("width", "min(330px, calc(100% - 28px)) !important"); ("max-height", "calc(100% - 28px)");
     ("overflow-y", "auto"); ("box-shadow", "0 12px 34px rgba(0,0,0,0.16)")]].

Definition settings_styles_1 : sheet := [
  ("root",
   [("display", Str "flex"); ("flexDirection", Str "column"); ("height", Str "100%");
    ("overflow", Str "hidden"); ("backgroundColor", Str "var(--bg)")]);
  ("header",
   [("display", Str "flex"); ("alignItems", Str "center"); ("justifyContent", Str "space-between");
    ("padding", Str "0.875rem 1.25rem"); ("borderBottom", Str "1px solid var(--border-subtle)");
    ("flexShrink", Num 0 1); ("backgroundColor", Str "var(--bg-subtle)")]);
  ("headerTitle",
   [("fontFamily", Str "var(--font-mono)"); ("fontSize", Str "0.72rem"); ("fontWeight", Num 700 1);
    ("letterSpacing", Str "0.12em"); ("textTransform", Str "uppercase");
    ("color", Str "var(--text-primary)"); ("marginBottom", Str "0.2rem")]);
  ("headerSub",
   [("fontSize", Str "0.62rem"); ("fontFamily", Str "var(--font-mono)");
    ("color", Str "var(--text-muted)")]);
  ("headerActions",
   [("display", Str "flex"); ("alignItems", Str "center"); ("gap", Str "0.625rem")]);
  ("body",
   [("flex", Num 1 1); ("overflowY", Str "auto"); ("padding", Str "0 1.25rem")]);
  ("section",
   [("paddingTop", Str "1.75rem")]);
  ("sectionHead",
   [("marginBottom", Str "1.25rem")]);
  ("sectionTitle",
   [("fontFamily", Str "var(--font-mono)"); ("fontSize", Str "0.65rem"); ("fontWeight", Num 700 1);
    ("letterSpacing", Str "0.14em"); ("textTransform", Str "uppercase"); ("color", Str "var(--accent)");
    ("display", Str "block"); ("marginBottom", Str "0.2rem")]);
  ("sectionSub",
   [("fontSize", Str "0.62rem"); ("fontFamily", Str "var(--font-mono)");
    ("color", Str "var(--text-muted)")]);
  ("sectionBody",
   [("display", Str "flex"); ("flexDirection", Str "column"); ("gap", Num 0 1)]);
  ("row",
   [("display", Str "flex"); ("alignItems", Str "center"); ("justifyContent", Str "space-between");
    ("padding", Str "0.75rem 0"); ("borderBottom", Str "1px solid var(--border-subtle)");
    ("gap", Str "2rem")]);
  ("rowMeta",
   [("display", Str "flex"); ("flexDirection", Str "column"); ("gap", Str "0.15rem");
    ("minWidth", Num 0 1)]);
  ("rowLabel",
   [("fontSize", Str "0.7rem"); ("fontFamily", Str "var(--font-mono)"); ("fontWeight", Num 600 1);
    ("color", Str "var(--text-secondary)"); ("letterSpacing", Str "0.02em")]);
  ("rowSub",
   [("fontSize", Str "0.6rem"); ("fontFamily", Str "var(--font-mono)");
    ("color", Str "var(--text-muted)")]);
  ("rowControl",
   [("flexShrink", Num 0 1); ("display", Str "flex"); ("alignItems", Str "center")]);
  ("divider",
   [("height", Str "1px"); ("backgroundColor", Str "var(--border-subtle)"); ("marginTop", Str "1.75rem")]);
  ("derived",
   [("fontFamily", Str "var(--font-mono)"); ("fontSize", Str "0.68rem");
    ("color", Str "var(--text-muted)"); ("padding", Str "0.3rem 0.625rem");
    ("backgroundColor", Str "var(--bg-elevated)"); ("border", Str "1px solid var(--border-subtle)");
    ("borderRadius", Str "0px")]);
  ("numRow",
   [("display", Str "flex"); ("alignItems", Str "center"); ("gap", Str "0.75rem")]);
  ("numVal",
   [("fontFamily", Str "var(--font-mono)"); ("fontSize", Str "0.7rem"); ("fontWeight", Num 700 1);
    ("color", Str "var(--text-secondary)"); ("width", Str "48px"); ("textAlign", Str "right")]);
  ("seg",
   [("display", Str "flex"); ("border", Str "1px solid var(--border)"); ("borderRadius", Str "0px");
    ("overflow", Str "hidden")]);
  ("hookList",
   [("display", Str "flex"); ("flexWrap", Str "wrap"); ("gap", Str "0.3rem"); ("maxWidth", Str "380px");
    ("justifyContent", Str "flex-end")])].

Definition settings_styles_2 : sheet := [
  ("hookBadge",
   [("fontFamily", Str "var(--font-mono)"); ("fontSize", Str "0.58rem"); ("fontWeight", Num 600 1);
    ("padding", Str "0.15em 0.45em"); ("borderRadius", Str "0px");
    ("backgroundColor", Str "var(--bg-elevated)"); ("border", Str "1px solid var(--border-subtle)");
    ("color", Str "var(--text-muted)"); ("letterSpacing", Str "0.02em")]);
  ("shortcutGrid",
   [("display", Str "grid"); ("gridTemplateColumns", Str "1fr 1fr"); ("gap", Str "0 2rem")]);
  ("shortcutRow",
   [("display", Str "flex"); ("alignItems", Str "center"); ("justifyContent", Str "space-between");
    ("padding", Str "0.6rem 0"); ("borderBottom", Str "1px solid var(--border-subtle)")]);
  ("shortcutLabel",
   [("fontSize", Str "0.68rem"); ("fontFamily", Str "var(--font-mono)");
    ("color", Str "var(--text-secondary)")]);
  ("shortcutKeys",
   [("display", Str "flex"); ("alignItems", Str "center"); ("gap", Str "0.2rem")]);
  ("kbd",
   [("fontFamily", Str "var(--font-mono)"); ("fontSize", Str "0.6rem"); ("fontWeight", Num 700 1);
    ("padding", Str "0.15rem 0.4rem"); ("backgroundColor", Str "var(--bg-elevated)");
    ("border", Str "1px solid var(--border)"); ("borderRadius", Str "0px");
    ("color", Str "var(--text-secondary)"); ("letterSpacing", Str "0.02em")]);
  ("aboutGrid",
   [("display", Str "grid"); ("gridTemplateColumns", Str "140px 1fr"); ("gap", Str "0.5rem 1.5rem");
    ("alignItems", Str "baseline")]);
  ("aboutKey",
   [("fontFamily", Str "var(--font-mono)"); ("fontSize", Str "0.62rem");
    ("color", Str "var(--text-muted)")]);
  ("aboutVal",
   [("fontFamily", Str "var(--font-mono)"); ("fontSize", Str "0.68rem");
    ("color", Str "var(--text-secondary)")]);
  ("aboutLink",
   [("fontFamily", Str "var(--font-mono)"); ("fontSize", Str "0.68rem"); ("color", Str "var(--accent)");
    ("textDecoration", Str "none")])].

Definition settings_styles : sheet := settings_styles_1 ++ settings_styles_2.

Definition settings_css : list rule := [
  mkRule "" [".settings-slider"]
    [("width", "140px"); ("accent-color", "var(--text-secondary)"); ("cursor", "pointer")];
  mkRule "" [".settings-input"]
    [("padding", "0.3rem 0.625rem"); ("background-color", "var(--bg-elevated)");
     ("border", "1px solid var(--border)"); ("border-radius", "0px");
     ("color", "var(--text-primary)"); ("font-size", "0.68rem"); ("font-family", "var(--font-mono)");
     ("outline", "none"); ("box-shadow", "none")];
  mkRule "" [".settings-input:focus"]
    [("border-color", "var(--accent)")];
  mkRule "" [".settings-toggle"]
    [("width", "36px"); ("height", "20px"); ("border-radius", "0px");
     ("border", "1px solid var(--border)"); ("background-color", "var(--bg-elevated)");
     ("cursor", "pointer"); ("position", "relative"); ("padding", "0"); ("flex-shrink", "0")];
  mkRule "" [".settings-toggle.on"]
    [("background-color", "var(--accent-dim)"); ("border-color", "var(--accent)")];
  mkRule "" [".settings-toggle-thumb"]
    [("position", "absolute"); ("top", "2px"); ("left", "2px"); ("width", "14px");
     ("height", "14px"); ("border-radius", "0px"); ("background-color", "var(--text-muted)")];
  mkRule "" [".settings-toggle-thumb.on"]
    [("transform", "translateX(16px)"); ("background-color", "var(--accent)")];
  mkRule "" [".settings-btn"]
    [("display", "flex"); ("align-items", "center"); ("gap", "0.375rem");
     ("padding", "0.3rem 0.875rem"); ("background-color", "transparent");
     ("border", "1px solid var(--border)"); ("border-radius", "0px"); ("color", "var(--text-muted)");
     ("font-size", "0.65rem"); ("font-family", "var(--font-mono)"); ("font-weight", "600");
     ("cursor", "pointer"); ("letter-spacing", "0.04em")];
  mkRule "" [".settings-btn:hover"]
    [("background-color", "var(--bg-elevated)")];
  mkRule "" [".settings-btn.primary"]
    [("background-color", "var(--accent-dim)"); ("border-color", "var(--accent)");
     ("color", "var(--accent)")];
  mkRule "" [".settings-btn.primary:hover"]
    [("background-color", "var(--bg-elevated)")];
  mkRule "" [".settings-btn.success"]
    [("background-color", "var(--bg-elevated)"); ("border-color", "var(--border)");
     ("color", "var(--text-primary)")];
  mkRule "" [".settings-seg-btn"]
    [("padding", "0.25rem 0.625rem"); ("font-size", "0.63rem"); ("font-family", "var(--font-mono)");
     ("font-weight", "600"); ("cursor", "pointer"); ("border", "none");
     ("border-right", "1px solid var(--border)"); ("background-color", "transparent");
     ("color", "var(--text-muted)"); ("letter-spacing", "0.03em")];
  mkRule "" [".settings-seg-btn:hover"]
    [("background-color", "var(--bg-elevated)")];
  mkRule "" [".settings-seg-btn.on"]
    [("background-color", "var(--accent-dim)"); ("color", "var(--accent)")]].

Definition login_styles_1 : sheet := [
  ("root",
   [("display", Str "flex"); ("minHeight", Str "100vh"); ("width", Str "100%");
    ("fontFamily", Str "var(--font)"); ("backgroundColor", Str "var(--bg)");
    ("color", Str "var(--text-primary)")]);
  ("left",
   [("flex", Num 1 1); ("borderRight", Str "1px solid var(--border-subtle)"); ("display", Str "flex");
    ("flexDirection", Str "column"); ("justifyContent", Str "space-between"); ("padding", Str "3rem");
    ("backgroundColor", Str "var(--bg-subtle)"); ("minWidth", Num 0 1)]);
  ("leftInner",
   [("display", Str "flex"); ("flexDirection", Str "column"); ("gap", Str "2rem")]);
  ("wordmark",
   [("display", Str "flex"); ("alignItems", Str "baseline"); ("lineHeight", Num 1 1)]);
  ("wordmarkK",
   [("fontFamily", Str "var(--font-mono)"); ("fontSize", Str "1.5rem"); ("fontWeight", Num 700 1);
    ("color", Str "var(--accent)"); ("letterSpacing", Str "-0.04em")]);
  ("wordmarkProbe",
   [("fontFamily", Str "var(--font)"); ("fontSize", Str "1.5rem"); ("fontWeight", Num 700 1);
    ("color", Str "var(--text-primary)"); ("letterSpacing", Str "-0.04em")]);
  ("leftTagline",
   [("fontSize", Str "clamp(1.4rem, 2.2vw, 2rem)"); ("fontWeight", Num 700 1);
    ("letterSpacing", Str "-0.03em"); ("lineHeight", Num 115 100); ("color", Str "var(--text-primary)");
    ("maxWidth", Str "420px")]);
  ("leftMeta",
   [("display", Str "flex"); ("flexDirection", Str "column"); ("gap", Str "0.625rem")]);
  ("metaRow",
   [("display", Str "flex"); ("alignItems", Str "center"); ("gap", Str "0.625rem")]);
  ("metaDot",
   [("width", Str "5px"); ("height", Str "5px"); ("borderRadius", Str "50%");
    ("backgroundColor", Str "var(--accent)"); ("opacity", Num 7 10); ("flexShrink", Num 0 1)]);
  ("metaText",
   [("fontSize", Str "0.8rem"); ("color", Str "var(--text-muted)"); ("fontWeight", Num 500 1)]);
  ("streamDecor",
   [("border", Str "1px solid var(--border-subtle)"); ("overflow", Str "hidden");
    ("backgroundColor", Str "var(--bg)")]);
  ("streamLabel",
   [("display", Str "flex"); ("alignItems", Str "center"); ("gap", Str "0.5rem");
    ("fontSize", Str "0.62rem"); ("fontWeight", Num 700 1); ("letterSpacing", Str "0.14em");
    ("textTransform", Str "uppercase"); ("color", Str "var(--text-muted)");
    ("padding", Str "0.625rem 0.875rem"); ("borderBottom", Str "1px solid var(--border-subtle)");
    ("fontFamily", Str "var(--font-mono)")]);
  ("streamPulse",
   [("width", Str "6px"); ("height", Str "6px"); ("borderRadius", Str "50%");
    ("backgroundColor", Str "var(--accent)"); ("flexShrink", Num 0 1);
    ("animation", Str "pulse 2s ease-in-out infinite")]);
  ("streamRow",
   [("display", Str "grid"); ("gridTemplateColumns", Str "88px 100px 1fr"); ("gap", Str "0.625rem");
    ("padding", Str "0.3rem 0.875rem"); ("fontFamily", Str "var(--font-mono)");
    ("fontSize", Str "0.68rem"); ("alignItems", Str "center")]);
  ("streamRowHighlight",
   [("backgroundColor", Str "var(--accent-dim)"); ("borderLeft", Str "2px solid var(--accent)");
    ("paddingLeft", Str "calc(0.875rem - 2px)")]);
  ("streamRowMuted",
   [("opacity", Num 35 100)]);
  ("streamTs",
   [("color", Str "var(--text-muted)"); ("flexShrink", Num 0 1)]);
  ("streamType",
   [("fontWeight", Num 600 1); ("fontSize", Str "0.65rem"); ("padding", Str "0.12em 0.4em");
    ("color", Str "var(--text-secondary)"); ("backgroundColor", Str "var(--bg-elevated)");
    ("border", Str "1px solid var(--border-subtle)"); ("letterSpacing", Str "0.02em");
    ("whiteSpace", Str "nowrap"); ("overflow", Str "hidden"); ("textOverflow", Str "ellipsis")]);
  ("streamTypeAccent",
   [("color", Str "var(--accent)"); ("backgroundColor", Str "var(--accent-dim)");
    ("border", Str "1px solid transparent")]);
  ("streamDetail",
   [("color", Str "var(--text-muted)"); ("overflow", Str "hidden"); ("textOverflow", Str "ellipsis");
    ("whiteSpace", Str "nowrap")])].

Definition login_styles_2 : sheet := [
  ("right",
   [("width", Str "460px"); ("flexShrink", Num 0 1); ("display", Str "flex");
    ("flexDirection", Str "column"); ("justifyContent", Str "center"); ("alignItems", Str "center");
    ("padding", Str "3rem"); ("position", Str "relative")]);
  ("card",
   [("width", Str "100%"); ("maxWidth", Str "360px"); ("display", Str "flex");
    ("flexDirection", Str "column"); ("gap", Str "1.75rem")]);
  ("cardHeader",
   [("display", Str "flex"); ("flexDirection", Str "column"); ("gap", Str "0.3rem")]);
  ("cardTitle",
   [("fontSize", Str "1.25rem"); ("fontWeight", Num 700 1); ("letterSpacing", Str "-0.025em");
    ("color", Str "var(--text-primary)")]);
  ("cardSub",
   [("fontSize", Str "0.8rem"); ("color", Str "var(--text-muted)")]);
  ("form",
   [("display", Str "flex"); ("flexDirection", Str "column"); ("gap", Str "1rem")]);
  ("field",
   [("display", Str "flex"); ("flexDirection", Str "column"); ("gap", Str "0.375rem")]);
  ("label",
   [("fontSize", Str "0.72rem"); ("fontWeight", Num 600 1); ("letterSpacing", Str "0.06em");
    ("textTransform", Str "uppercase"); ("color", Str "var(--text-muted)")]);
  ("input",
   [("width", Str "100%"); ("padding", Str "0.6rem 0.75rem");
    ("backgroundColor", Str "var(--bg-subtle)"); ("border", Str "1px solid var(--border)");
    ("color", Str "var(--text-primary)"); ("fontSize", Str "0.875rem");
    ("fontFamily", Str "var(--font)"); ("fontWeight", Num 500 1); ("outline", Str "none")]);
  ("inputError",
   [("borderColor", Str "var(--accent)")]);
  ("errorRow",
   [("display", Str "flex"); ("alignItems", Str "center"); ("gap", Str "0.5rem");
    ("padding", Str "0.5rem 0.75rem"); ("backgroundColor", Str "var(--accent-dim)");
    ("border", Str "1px solid rgba(245,158,11,0.2)")]);
  ("errorText",
   [("fontSize", Str "0.78rem"); ("color", Str "var(--accent)"); ("fontWeight", Num 500 1)]);
  ("submitBtn",
   [("width", Str "100%"); ("padding", Str "0.625rem"); ("backgroundColor", Str "var(--accent)");
    ("color", Str "var(--bg)"); ("border", Str "none"); ("fontSize", Str "0.875rem");
    ("fontWeight", Num 700 1); ("fontFamily", Str "var(--font)"); ("letterSpacing", Str "0.02em");
    ("cursor", Str "pointer"); ("marginTop", Str "0.25rem")]);
  ("submitBtnDisabled",
   [("opacity", Num 4 10); ("cursor", Str "not-allowed")]);
  ("loadingRow",
   [("display", Str "flex"); ("alignItems", Str "center"); ("justifyContent", Str "center");
    ("gap", Str "0.5rem")]);
  ("spinner",
   [("width", Str "13px"); ("height", Str "13px"); ("border", Str "1.5px solid rgba(14,14,15,0.3)");
    ("borderTopColor", Str "var(--bg)"); ("borderRadius", Str "50%"); ("display", Str "inline-block");
    ("animation", Str "spin 0.7s linear infinite")]);
  ("cardFooter",
   [("display", Str "flex"); ("alignItems", Str "center"); ("padding", Str "0.75rem");
    ("backgroundColor", Str "var(--bg-subtle)"); ("border", Str "1px solid var(--border-subtle)")]);
  ("footerText",
   [("fontSize", Str "0.72rem"); ("color", Str "var(--text-muted)")]);
  ("footerCode",
   [("fontFamily", Str "var(--font-mono)"); ("fontSize", Str "0.7rem"); ("color", Str "var(--accent)");
    ("backgroundColor", Str "var(--accent-dim)"); ("padding", Str "0.1em 0.4em")]);
  ("rightFooter",
   [("position", Str "absolute"); ("bottom", Str "2rem"); ("display", Str "flex");
    ("alignItems", Str "center"); ("gap", Str "1.25rem")]);
  ("rightFooterText",
   [("fontSize", Str "0.68rem"); ("color", Str "var(--border)"); ("fontWeight", Num 500 1)])].

Definition login_styles : sheet := login_styles_1 ++ login_styles_2.

Definition timeline_styles_1 : sheet := [
  ("root",
   [("display", Str "flex"); ("flexDirection", Str "column"); ("height", Str "100%");
    ("overflow", Str "hidden"); ("backgroundColor", Str "var(--bg)")]);
  ("toolbar",
   [("display", Str "flex"); ("alignItems", Str "center"); ("justifyContent", Str "space-between");
    ("padding", Str "0 1.25rem"); ("height", Str "44px");
    ("borderBottom", Str "1px solid var(--border-subtle)"); ("flexShrink", Num 0 1); ("gap", Str "1rem");
    ("backgroundColor", Str "var(--bg-subtle)")]);
  ("tlLeft",
   [("display", Str "flex"); ("alignItems", Str "center"); ("gap", Str "0.375rem");
    ("minWidth", Num 0 1); ("flexWrap", Str "wrap")]);
  ("tlRight",
   [("display", Str "flex"); ("alignItems", Str "center"); ("gap", Str "0.5rem");
    ("flexShrink", Num 0 1)]);
  ("filterLabel",
   [("fontSize", Str "0.6rem"); ("fontWeight", Num 700 1); ("letterSpacing", Str "0.14em");
    ("textTransform", Str "uppercase"); ("color", Str "var(--text-muted)");
    ("marginRight", Str "0.25rem"); ("flexShrink", Num 0 1)]);
  ("pill",
   [("display", Str "flex"); ("alignItems", Str "center"); ("gap", Str "0.3rem");
    ("padding", Str "0.2rem 0.5rem"); ("borderRadius", Str "0px"); ("fontSize", Str "0.63rem");
    ("fontFamily", Str "var(--font-mono)"); ("fontWeight", Num 600 1); ("cursor", Str "pointer");
    ("border", Str "1px solid transparent"); ("letterSpacing", Str "0.02em");
    ("whiteSpace", Str "nowrap"); ("lineHeight", Num 15 10)]);
  ("pillDot",
   [("width", Num 5 1); ("height", Num 5 1); ("borderRadius", Str "0px"); ("flexShrink", Num 0 1)]);
  ("segGroup",
   [("display", Str "flex"); ("border", Str "1px solid var(--border)"); ("borderRadius", Str "0px");
    ("overflow", Str "hidden")]);
  ("seg",
   [("padding", Str "0.2rem 0.55rem"); ("fontSize", Str "0.65rem");
    ("fontFamily", Str "var(--font-mono)"); ("fontWeight", Num 600 1); ("cursor", Str "pointer");
    ("border", Str "none"); ("borderRight", Str "1px solid var(--border)");
    ("backgroundColor", Str "transparent"); ("color", Str "var(--text-muted)");
    ("letterSpacing", Str "0.03em")]);
  ("segOn",
   [("backgroundColor", Str "var(--accent-dim)"); ("color", Str "var(--accent)")]);
  ("divider",
   [("width", Str "1px"); ("height", Str "14px"); ("backgroundColor", Str "var(--border-subtle)")]);
  ("zoomLabel",
   [("fontFamily", Str "var(--font-mono)"); ("fontSize", Str "0.62rem");
    ("color", Str "var(--text-muted)"); ("letterSpacing", Str "0.04em"); ("minWidth", Str "32px");
    ("textAlign", Str "center")]);
  ("ctrlBtn",
   [("display", Str "flex"); ("alignItems", Str "center"); ("gap", Str "0.375rem");
    ("padding", Str "0.25rem 0.625rem"); ("backgroundColor", Str "transparent");
    ("border", Str "1px solid var(--border)"); ("borderRadius", Str "0px");
    ("color", Str "var(--text-muted)"); ("fontSize", Str "0.68rem"); ("fontFamily", Str "var(--font)");
    ("fontWeight", Num 600 1); ("letterSpacing", Str "0.04em"); ("cursor", Str "pointer")]);
  ("ctrlBtnOn",
   [("backgroundColor", Str "var(--accent-dim)"); ("borderColor", Str "rgba(245,158,11,0.3)");
    ("color", Str "var(--accent)")]);
  ("legend",
   [("display", Str "flex"); ("alignItems", Str "center"); ("justifyContent", Str "space-between");
    ("padding", Str "0 1.25rem"); ("height", Str "32px");
    ("borderBottom", Str "1px solid var(--border-subtle)"); ("flexShrink", Num 0 1);
    ("backgroundColor", Str "var(--bg)")]);
  ("legendHint",
   [("fontSize", Str "0.6rem"); ("fontFamily", Str "var(--font-mono)");
    ("color", Str "var(--text-muted)"); ("opacity", Num 6 10); ("letterSpacing", Str "0.04em")]);
  ("legendItems",
   [("display", Str "flex"); ("alignItems", Str "center"); ("gap", Str "1rem")]);
  ("legendItem",
   [("display", Str "flex"); ("alignItems", Str "center"); ("gap", Str "0.3rem")]);
  ("legendDot",
   [("width", Num 8 1); ("height", Num 8 1); ("borderRadius", Str "0px"); ("flexShrink", Num 0 1)]);
  ("legendLabel",
   [("fontSize", Str "0.6rem"); ("fontFamily", Str "var(--font-mono)"); ("fontWeight", Num 600 1);
    ("color", Str "var(--text-muted)"); ("letterSpacing", Str "0.04em")]);
  ("canvasWrap",
   [("flex", Num 1 1); ("position", Str "relative"); ("overflow", Str "auto");
    ("overflowX", Str "hidden")]);
  ("canvas",
   [("display", Str "block"); ("cursor", Str "crosshair")])].

Definition timeline_styles_2 : sheet := [
  ("empty",
   [("position", Str "absolute"); ("inset", Num 0 1); ("display", Str "flex");
    ("alignItems", Str "center"); ("justifyContent", Str "center"); ("pointerEvents", Str "none")]);
  ("emptyText",
   [("fontFamily", Str "var(--font-mono)"); ("fontSize", Str "0.65rem");
    ("color", Str "var(--text-muted)"); ("opacity", Num 35 100); ("letterSpacing", Str "0.08em")]);
  ("detail",
   [("flexShrink", Num 0 1); ("borderTop", Str "1px solid var(--border-subtle)");
    ("backgroundColor", Str "var(--bg-subtle)"); ("padding", Str "0.75rem 1.25rem");
    ("maxHeight", Str "180px"); ("overflowY", Str "auto")]);
  ("detailHeader",
   [("display", Str "flex"); ("alignItems", Str "center"); ("gap", Str "0.5rem");
    ("marginBottom", Str "0.625rem")]);
  ("detailType",
   [("fontFamily", Str "var(--font-mono)"); ("fontSize", Str "0.68rem"); ("fontWeight", Num 700 1);
    ("color", Str "var(--accent)"); ("letterSpacing", Str "0.04em")]);
  ("detailSep",
   [("color", Str "var(--border)"); ("fontSize", Str "0.7rem")]);
  ("detailSvc",
   [("fontFamily", Str "var(--font-mono)"); ("fontSize", Str "0.62rem");
    ("color", Str "var(--text-secondary)"); ("flex", Num 1 1)]);
  ("detailTs",
   [("fontFamily", Str "var(--font-mono)"); ("fontSize", Str "0.6rem");
    ("color", Str "var(--text-muted)")]);
  ("detailDur",
   [("fontFamily", Str "var(--font-mono)"); ("fontSize", Str "0.65rem"); ("color", Str "var(--accent)");
    ("fontWeight", Num 700 1)]);
  ("closeBtn",
   [("display", Str "flex"); ("alignItems", Str "center"); ("justifyContent", Str "center");
    ("width", Str "20px"); ("height", Str "20px"); ("backgroundColor", Str "transparent");
    ("border", Str "1px solid var(--border-subtle)"); ("borderRadius", Str "0px");
    ("color", Str "var(--text-muted)"); ("cursor", Str "pointer"); ("padding", Num 0 1)]);
  ("detailGrid",
   [("display", Str "grid"); ("gridTemplateColumns", Str "auto 1fr auto 1fr");
    ("gap", Str "0.2rem 1.25rem"); ("alignItems", Str "baseline")])].

Definition timeline_styles : sheet := timeline_styles_1 ++ timeline_styles_2.

Definition stream_styles_1 : sheet := [
  ("root",
   [("display", Str "flex"); ("flexDirection", Str "column"); ("height", Str "100%");
    ("overflow", Str "hidden"); ("backgroundColor", Str "var(--bg)")]);
  ("toolbar",
   [("display", Str "flex"); ("alignItems", Str "center"); ("justifyContent", Str "space-between");
    ("padding", Str "0 1.25rem"); ("height", Str "44px");
    ("borderBottom", Str "1px solid var(--border-subtle)"); ("flexShrink", Num 0 1); ("gap", Str "1rem");
    ("backgroundColor", Str "var(--bg-subtle)")]);
  ("tlLeft",
   [("display", Str "flex"); ("alignItems", Str "center"); ("gap", Str "0.375rem");
    ("minWidth", Num 0 1); ("flexWrap", Str "wrap")]);
  ("tlRight",
   [("display", Str "flex"); ("alignItems", Str "center"); ("gap", Str "0.5rem");
    ("flexShrink", Num 0 1)]);
  ("filterLabel",
   [("fontSize", Str "0.6rem"); ("fontWeight", Num 700 1); ("letterSpacing", Str "0.14em");
    ("textTransform", Str "uppercase"); ("color", Str "var(--text-muted)");
    ("marginRight", Str "0.25rem"); ("flexShrink", Num 0 1)]);
  ("pill",
   [("padding", Str "0.2rem 0.55rem"); ("borderRadius", Str "0px"); ("fontSize", Str "0.63rem");
    ("fontFamily", Str "var(--font-mono)"); ("fontWeight", Num 600 1); ("cursor", Str "pointer");
    ("border", Str "1px solid transparent"); ("letterSpacing", Str "0.02em");
    ("whiteSpace", Str "nowrap"); ("lineHeight", Num 15 10)]);
  ("ctrlBtn",
   [("display", Str "flex"); ("alignItems", Str "center"); ("gap", Str "0.375rem");
    ("padding", Str "0.25rem 0.625rem"); ("backgroundColor", Str "transparent");
    ("border", Str "1px solid var(--border)"); ("borderRadius", Str "var(--radius-sm)");
    ("color", Str "var(--text-muted)"); ("fontSize", Str "0.7rem"); ("fontFamily", Str "var(--font)");
    ("fontWeight", Num 600 1); ("letterSpacing", Str "0.04em"); ("cursor", Str "pointer")]);
  ("ctrlBtnOn",
   [("backgroundColor", Str "var(--accent-dim)"); ("borderColor", Str "rgba(245,158,11,0.3)");
    ("color", Str "var(--accent)")]);
  ("statsBar",
   [("display", Str "flex"); ("alignItems", Str "center"); ("padding", Str "0 1.25rem");
    ("height", Str "36px"); ("borderBottom", Str "1px solid var(--border-subtle)");
    ("flexShrink", Num 0 1); ("backgroundColor", Str "var(--bg)")]);
  ("thead",
   [("display", Str "flex"); ("alignItems", Str "center"); ("padding", Str "0 1.25rem");
    ("height", Str "30px"); ("borderBottom", Str "1px solid var(--border-subtle)");
    ("flexShrink", Num 0 1); ("backgroundColor", Str "var(--bg-subtle)"); ("gap", Str "0.75rem")]);
  ("th",
   [("fontSize", Str "0.6rem"); ("fontWeight", Num 700 1); ("letterSpacing", Str "0.1em");
    ("textTransform", Str "uppercase"); ("color", Str "var(--text-muted)"); ("flexShrink", Num 0 1)]);
  ("tbody",
   [("flex", Num 1 1); ("overflowY", Str "auto"); ("overflowX", Str "hidden")]);
  ("empty",
   [("display", Str "flex"); ("alignItems", Str "center"); ("justifyContent", Str "center");
    ("padding", Str "4rem"); ("fontFamily", Str "var(--font-mono)"); ("fontSize", Str "0.75rem");
    ("color", Str "var(--text-muted)")]);
  ("td",
   [("flexShrink", Num 0 1); ("lineHeight", Num 1 1)]);
  ("mono",
   [("fontFamily", Str "var(--font-mono)")]);
  ("badge",
   [("display", Str "inline-flex"); ("alignItems", Str "center"); ("fontFamily", Str "var(--font-mono)");
    ("fontSize", Str "0.62rem"); ("fontWeight", Num 600 1); ("letterSpacing", Str "0.02em");
    ("padding", Str "0.15em 0.45em"); ("borderRadius", Str "0px"); ("border", Str "1px solid");
    ("whiteSpace", Str "nowrap")]);
  ("expanded",
   [("backgroundColor", Str "var(--bg-subtle)"); ("borderTop", Str "1px solid var(--border-subtle)");
    ("borderBottom", Str "1px solid var(--border-subtle)")]);
  ("expandedHeader",
   [("display", Str "flex"); ("alignItems", Str "center"); ("justifyContent", Str "space-between");
    ("padding", Str "0.625rem 1.25rem 0")])].

Definition stream_styles_2 : sheet := [
  ("expandedTitle",
   [("fontSize", Str "0.58rem"); ("fontWeight", Num 700 1); ("letterSpacing", Str "0.14em");
    ("textTransform", Str "uppercase"); ("color", Str "var(--text-muted)")]);
  ("closeBtn",
   [("display", Str "flex"); ("alignItems", Str "center"); ("justifyContent", Str "center");
    ("width", Str "20px"); ("height", Str "20px"); ("backgroundColor", Str "transparent");
    ("border", Str "1px solid var(--border-subtle)"); ("borderRadius", Str "var(--radius-sm)");
    ("color", Str "var(--text-muted)"); ("cursor", Str "pointer"); ("padding", Num 0 1)]);
  ("expandedInner",
   [("display", Str "flex"); ("flexWrap", Str "wrap"); ("gap", Str "1rem");
    ("padding", Str "0.875rem 1.25rem 1rem")]);
  ("expandDiv",
   [("width", Str "1px"); ("backgroundColor", Str "var(--border-subtle)"); ("flexShrink", Num 0 1);
    ("alignSelf", Str "stretch")])].

Definition stream_styles : sheet := stream_styles_1 ++ stream_styles_2.

Definition topbar_styles : sheet := [
  ("root",
   [("height", Str "var(--topbar-height)"); ("display", Str "flex"); ("alignItems", Str "center");
    ("justifyContent", Str "space-between"); ("paddingLeft", Str "1.25rem");
    ("paddingRight", Str "1rem"); ("borderBottom", Str "1px solid var(--border-subtle)");
    ("backgroundColor", Str "var(--bg)"); ("flexShrink", Num 0 1); ("gap", Str "1rem")]);
  ("left",
   [("display", Str "flex"); ("alignItems", Str "center"); ("gap", Str "0.5rem"); ("minWidth", Num 0 1)]);
  ("title",
   [("fontSize", Str "0.825rem"); ("fontWeight", Num 700 1); ("color", Str "var(--text-primary)");
    ("letterSpacing", Str "-0.01em"); ("whiteSpace", Str "nowrap")]);
  ("sep",
   [("color", Str "var(--border)"); ("fontSize", Str "0.875rem"); ("flexShrink", Num 0 1)]);
  ("desc",
   [("fontSize", Str "0.775rem"); ("color", Str "var(--text-muted)"); ("overflow", Str "hidden");
    ("textOverflow", Str "ellipsis"); ("whiteSpace", Str "nowrap")]);
  ("right",
   [("display", Str "flex"); ("alignItems", Str "center"); ("gap", Str "0.75rem");
    ("flexShrink", Num 0 1)]);
  ("statusPill",
   [("display", Str "flex"); ("alignItems", Str "center"); ("gap", Str "0.4rem");
    ("padding", Str "0.25rem 0.625rem"); ("backgroundColor", Str "var(--bg-subtle)");
    ("border", Str "1px solid var(--border-subtle)"); ("borderRadius", Str "var(--radius-sm)")]);
  ("statusDot",
   [("width", Str "6px"); ("height", Str "6px"); ("borderRadius", Str "50%"); ("flexShrink", Num 0 1)]);
  ("statusText",
   [("fontFamily", Str "var(--font-mono)"); ("fontSize", Str "0.65rem"); ("fontWeight", Num 600 1);
    ("letterSpacing", Str "0.04em")]);
  ("statusEndpoint",
   [("fontFamily", Str "var(--font-mono)"); ("fontSize", Str "0.62rem");
    ("color", Str "var(--text-muted)"); ("letterSpacing", Str "0.02em")]);
  ("divider",
   [("width", Str "1px"); ("height", Str "16px"); ("backgroundColor", Str "var(--border-subtle)");
    ("flexShrink", Num 0 1)]);
  ("iconBtn",
   [("display", Str "flex"); ("alignItems", Str "center"); ("justifyContent", Str "center");
    ("width", Str "28px"); ("height", Str "28px"); ("backgroundColor", Str "transparent");
    ("border", Str "1px solid transparent"); ("borderRadius", Str "var(--radius-sm)");
    ("color", Str "var(--text-muted)"); ("cursor", Str "pointer"); ("flexShrink", Num 0 1);
    ("transition", Str "background-color 120ms ease, color 120ms ease")]);
  ("userRow",
   [("display", Str "flex"); ("alignItems", Str "center"); ("gap", Str "0.5rem")]);
  ("userLabel",
   [("fontFamily", Str "var(--font-mono)"); ("fontSize", Str "0.68rem");
    ("color", Str "var(--text-secondary)"); ("fontWeight", Num 500 1)])].

Definition sidebar_styles : sheet := [
  ("root",
   [("width", Str "var(--sidebar-width)"); ("flexShrink", Num 0 1); ("height", Str "100vh");
    ("display", Str "flex"); ("flexDirection", Str "column");
    ("borderRight", Str "1px solid var(--border-subtle)"); ("backgroundColor", Str "var(--bg-subtle)");
    ("position", Str "fixed"); ("top", Num 0 1); ("left", Num 0 1); ("zIndex", Num 10 1)]);
  ("logo",
   [("display", Str "flex"); ("alignItems", Str "baseline"); ("gap", Num 0 1); ("padding", Str "0 1rem");
    ("height", Str "var(--topbar-height)"); ("borderBottom", Str "1px solid var(--border-subtle)");
    ("alignSelf", Str "stretch"); ("flexShrink", Num 0 1)]);
  ("logoK",
   [("fontFamily", Str "var(--font-mono)"); ("fontSize", Str "1.1rem"); ("fontWeight", Num 700 1);
    ("color", Str "var(--accent)"); ("letterSpacing", Str "-0.04em");
    ("lineHeight", Str "var(--topbar-height)")]);
  ("logoProbe",
   [("fontFamily", Str "var(--font)"); ("fontSize", Str "1.1rem"); ("fontWeight", Num 700 1);
    ("color", Str "var(--text-primary)"); ("letterSpacing", Str "-0.04em");
    ("lineHeight", Str "var(--topbar-height)")]);
  ("nav",
   [("flex", Num 1 1); ("overflowY", Str "auto"); ("padding", Str "1rem 0"); ("display", Str "flex");
    ("flexDirection", Str "column"); ("gap", Str "1.5rem")]);
  ("navGroup",
   [("display", Str "flex"); ("flexDirection", Str "column"); ("gap", Str "1px")]);
  ("navGroupLabel",
   [("fontSize", Str "0.6rem"); ("fontWeight", Num 700 1); ("letterSpacing", Str "0.14em");
    ("textTransform", Str "uppercase"); ("color", Str "var(--text-muted)");
    ("padding", Str "0 1rem 0.5rem")]);
  ("navItem",
   [("display", Str "flex"); ("alignItems", Str "center"); ("gap", Str "0.625rem");
    ("padding", Str "0.5rem 1rem"); ("position", Str "relative"); ("cursor", Str "pointer");
    ("textDecoration", Str "none"); ("userSelect", Str "none");
    ("transition", Str "background-color 100ms ease")]);
  ("navItemActive",
   [("backgroundColor", Str "var(--accent-dim)")]);
  ("navIcon",
   [("display", Str "flex"); ("alignItems", Str "center"); ("justifyContent", Str "center");
    ("flexShrink", Num 0 1); ("width", Str "15px"); ("height", Str "15px")]);
  ("navLabel",
   [("fontSize", Str "0.8rem"); ("letterSpacing", Str "-0.01em"); ("lineHeight", Num 1 1)]);
  ("activeBar",
   [("position", Str "absolute"); ("right", Num 0 1); ("top", Str "50%");
    ("transform", Str "translateY(-50%)"); ("width", Str "2px"); ("height", Str "16px");
    ("backgroundColor", Str "var(--accent)"); ("borderRadius", Str "1px 0 0 1px")]);
  ("bottom",
   [("paddingBottom", Str "0.75rem"); ("display", Str "flex"); ("flexDirection", Str "column");
    ("gap", Str "1px")]);
  ("bottomDivider",
   [("height", Str "1px"); ("backgroundColor", Str "var(--border-subtle)");
    ("margin", Str "0 0 0.75rem")])].

Definition shell_styles : sheet := [
  ("root",
   [("display", Str "flex"); ("height", Str "100vh"); ("width", Str "100%"); ("overflow", Str "hidden");
    ("backgroundColor", Str "var(--bg)")]);
  ("main",
   [("marginLeft", Str "var(--sidebar-width)"); ("flex", Num 1 1); ("display", Str "flex");
    ("flexDirection", Str "column"); ("minWidth", Num 0 1); ("height", Str "100vh");
    ("overflow", Str "hidden")]);
  ("content",
   [("flex", Num 1 1); ("overflowY", Str "auto"); ("overflowX", Str "hidden"); ("display", Str "flex");
    ("flexDirection", Str "column"); ("minHeight", Num 0 1)])].

Definition search_css_1 : list rule := [
  mkRule "" [".modal-overlay"]
    [("position", "fixed"); ("inset", "0"); ("z-index", "1000"); ("background", "var(--overlay)");
     ("backdrop-filter", "blur(4px)"); ("-webkit-backdrop-filter", "blur(4px)"); ("display", "flex");
     ("align-items", "flex-start"); ("justify-content", "center"); ("padding", "7.5rem 1rem 1rem")];
  mkRule "" [".modal"]
    [("width", "min(100%, 620px)"); ("max-height", "min(680px, calc(100dvh - 2rem))");
     ("background", "var(--bg-subtle)"); ("border", "1px solid var(--border)");
     ("border-radius", "var(--radius-lg)"); ("overflow", "hidden");
     ("box-shadow", "var(--shadow-lg)"); ("display", "flex"); ("flex-direction", "column")];
  mkRule "" [".modal-input-row"]
    [("display", "flex"); ("align-items", "center"); ("gap", "0.75rem");
     ("padding", "0.875rem 1rem"); ("border-bottom", "1px solid var(--border-subtle)")];
  mkRule "" [".search-icon"]
    [("color", "var(--text-muted)"); ("flex-shrink", "0")];
  mkRule "" [".modal-input"]
    [("flex", "1"); ("min-width", "0"); ("background", "transparent"); ("border", "none");
     ("outline", "none"); ("font-family", "var(--font)"); ("font-size", "0.95rem");
     ("font-weight", "400"); ("color", "var(--text-primary)"); ("caret-color", "var(--accent)")];
  mkRule "" [".modal-input::placeholder"]
    [("color", "var(--text-muted)")];
  mkRule "" [".close-btn"]
    [("display", "flex"); ("align-items", "center"); ("justify-content", "center");
     ("width", "28px"); ("height", "28px"); ("border-radius", "var(--radius-sm)");
     ("border", "1px solid var(--border)"); ("background", "var(--bg-elevated)");
     ("color", "var(--text-muted)"); ("cursor", "pointer"); ("flex-shrink", "0")];
  mkRule "" [".close-btn:hover"]
    [("color", "var(--text-primary)")];
  mkRule "" [".modal-results"]
    [("overflow-y", "auto"); ("padding", "0.375rem")];
  mkRule "" [".no-results"]
    [("padding", "2rem"); ("text-align", "center"); ("color", "var(--text-muted)");
     ("font-size", "0.875rem")];
  mkRule "" [".result-item"]
    [("display", "grid"); ("grid-template-columns", "auto minmax(0, 1fr) auto auto");
     ("align-items", "center"); ("gap", "0.75rem"); ("padding", "0.7rem 0.75rem");
     ("border-radius", "var(--radius-sm)"); ("text-decoration", "none"); ("cursor", "pointer")];
  mkRule "" [".result-selected"]
    [("background", "var(--bg-elevated)")];
  mkRule "" [".result-icon"]
    [("color", "var(--text-muted)"); ("flex-shrink", "0")];
  mkRule "" [".result-selected .result-icon"]
    [("color", "var(--accent)")];
  mkRule "" [".result-text"]
    [("min-width", "0")];
  mkRule "" [".result-title"]
    [("font-size", "0.9rem"); ("font-weight", "600"); ("color", "var(--text-primary)");
     ("white-space", "nowrap"); ("overflow", "hidden"); ("text-overflow", "ellipsis")];
  mkRule "" [".result-selected .result-title"]
    [("color", "var(--accent)")];
  mkRule "" [".result-desc"]
    [("font-size", "0.78rem"); ("color", "var(--text-muted)"); ("white-space", "nowrap");
     ("overflow", "hidden"); ("text-overflow", "ellipsis"); ("margin-top", "0.1rem")]].

Definition search_css_2 : list rule := [
  mkRule "" [".result-section"]
    [("font-size", "0.68rem"); ("font-weight", "600"); ("color", "var(--text-muted)");
     ("background", "var(--bg-elevated)"); ("border", "1px solid var(--border)");
     ("border-radius", "var(--radius-sm)"); ("padding", "0.15em 0.5em"); ("flex-shrink", "0");
     ("letter-spacing", "0.03em")];
  mkRule "" [".result-arrow"]
    [("color", "var(--accent)"); ("flex-shrink", "0")];
  mkRule "" [".modal-footer"]
    [("display", "flex"); ("align-items", "center"); ("gap", "1.25rem");
     ("padding", "0.625rem 1rem"); ("border-top", "1px solid var(--border-subtle)")];
  mkRule "" [".hint"]
    [("display", "flex"); ("align-items", "center"); ("gap", "0.3rem"); ("font-size", "0.72rem");
     ("color", "var(--text-muted)"); ("letter-spacing", "0.02em")];
  mkRule "@media (max-width: 560px)" [".modal-overlay"]
    [("padding", "4.25rem 0.75rem 0.75rem")];
  mkRule "@media (max-width: 560px)" [".modal"]
    [("max-height", "calc(100dvh - 5rem)")];
  mkRule "@media (max-width: 560px)" [".result-item"]
    [("grid-template-columns", "auto minmax(0, 1fr)")];
  mkRule "@media (max-width: 560px)" [".result-section"; ".result-arrow"]
    [("display", "none")];
  mkRule "@media (max-width: 560px)" [".modal-footer"]
    [("justify-content", "space-between"); ("gap", "0.5rem")]].

Definition search_css : list rule := search_css_1 ++ search_css_2.
