(* ===== verification/Events.v ===== *)
(** * Kernel events

    The event record every page of the console works on (types/events.ts), and
    the tables and formatters of lib/mockData.ts: the closed set of event types,
    their labels and colours, [fmtDur] and [isSlow]. *)

From S2P Require Import Prelude JsNumber JsString.
Open Scope Z_scope.

Inductive EventType :=
  | tcp_send | tcp_recv | tcp_retransmit | sys_write
  | sys_read | sched_switch | page_fault | block_io.

#[export] Instance EventType_eq_dec : EqDecision EventType.
Proof. solve_decision. Defined.

Inductive ConnectionStatus := connected | connecting | disconnected | mock.

#[export] Instance ConnectionStatus_eq_dec : EqDecision ConnectionStatus.
Proof. solve_decision. Defined.

Record KernelEvent := mkEvent {
  id : string;
  timestamp : string;
  timestampNs : num;
  type : EventType;
  pid : num;
  tid : num;
  cpu : num;
  service : string;
  detail : string;
  durationUs : option num;
  meta : list (string * string)
}.

#[export] Instance KernelEvent_eq_dec : EqDecision KernelEvent.
Proof. solve_decision. Defined.

Definition SERVICES : list string :=
  ["api-worker"; "checkout-service"; "auth-service";
   "database-writer"; "queue-consumer"; "batch-job"].

Definition EVENT_TYPES : list EventType :=
  [tcp_send; tcp_recv; tcp_retransmit; sys_write; sys_read; sched_switch; page_fault; block_io].

(** The string an event type is. *)
Definition type_name (t : EventType) : string :=
  match t with
  | tcp_send => "tcp_send" | tcp_recv => "tcp_recv" | tcp_retransmit => "tcp_retransmit"
  | sys_write => "sys_write" | sys_read => "sys_read" | sched_switch => "sched_switch"
  | page_fault => "page_fault" | block_io => "block_io"
  end.

Definition TYPE_LABELS (t : EventType) : string :=
  match t with sched_switch => "sched" | _ => type_name t end.

Definition TYPE_SHORT (t : EventType) : string :=
  match t with
  | tcp_send => "TCP↑" | tcp_recv => "TCP↓" | tcp_retransmit => "RETX"
  | sys_write => "WRITE" | sys_read => "READ" | sched_switch => "SCHED"
  | page_fault => "PF" | block_io => "BLK"
  end.

Record TypeColor := mkColor { bg : string; border : string; text : string; canvas : string }.

Definition TYPE_COLORS (t : EventType) : TypeColor :=
  match t with
  | tcp_send => mkColor "rgba(59,130,246,0.12)" "rgba(59,130,246,0.25)" "#60a5fa" "rgba(59,130,246,0.75)"
  | tcp_recv => mkColor "rgba(99,102,241,0.12)" "rgba(99,102,241,0.25)" "#818cf8" "rgba(99,102,241,0.75)"
  | tcp_retransmit => mkColor "rgba(244,63,94,0.12)" "rgba(244,63,94,0.25)" "#fb7185" "rgba(244,63,94,0.75)"
  | sys_write => mkColor "rgba(16,185,129,0.12)" "rgba(16,185,129,0.25)" "#34d399" "rgba(16,185,129,0.75)"
  | sys_read => mkColor "rgba(20,184,166,0.12)" "rgba(20,184,166,0.25)" "#2dd4bf" "rgba(20,184,166,0.75)"
  | sched_switch => mkColor "rgba(245,158,11,0.12)" "rgba(245,158,11,0.25)" "#f59e0b" "rgba(245,158,11,0.80)"
  | page_fault => mkColor "rgba(239,68,68,0.12)" "rgba(239,68,68,0.25)" "#f87171" "rgba(239,68,68,0.80)"
  | block_io => mkColor "rgba(168,85,247,0.12)" "rgba(168,85,247,0.25)" "#c084fc" "rgba(168,85,247,0.75)"
  end.

(** [us === null], then the three magnitudes. *)
Definition fmtDur (us : option num) : string :=
  match us with
  | None => "—"
  | Some u =>
      if nlt u (of_Z 1000) then num_to_string u +:+ "µs"
      else if nlt u (of_Z 1000000) then to_fixed 1 (ndiv u (of_Z 1000)) +:+ "ms"
      else to_fixed 2 (ndiv u (of_Z 1000000)) +:+ "s"
  end.

Definition isSlow (us : option num) : bool :=
  match us with None => false | Some u => nlt (of_Z 500000) u end.

(** ** Facts about the tables *)

Lemma EVENT_TYPES_complete t : t ∈ EVENT_TYPES.
Proof. destruct t; repeat (left || right). Qed.

Lemma EVENT_TYPES_NoDup : NoDup EVENT_TYPES.
Proof. by apply (bool_decide_unpack _). Qed.

#[export] Instance type_name_inj : Inj (=) (=) type_name.
Proof. by intros [] []. Qed.

(** The event type a string names, as [EVENT_TYPES.has] decides it. *)
Definition type_of_name (s : string) : option EventType :=
  list_find (λ t, type_name t = s) EVENT_TYPES ≫= λ p, Some p.2.

Lemma type_of_name_Some s t : type_of_name s = Some t ↔ type_name t = s.
Proof.
  split.
  - unfold type_of_name. intros ((i & t') & H & [= <-])%bind_Some.
    by apply list_find_Some in H as (_ & ? & _).
  - intros <-. by destruct t.
Qed.

#[export] Hint Resolve EVENT_TYPES_complete EVENT_TYPES_NoDup : console.

Example fmtDur_null : fmtDur None = "—".
Proof. reflexivity. Qed.
Example fmtDur_ms : fmtDur (Some (of_Z 800000)) = "800.0ms".
Proof. vm_compute. reflexivity. Qed.
Example fmtDur_s : fmtDur (Some (of_Z 1234567)) = "1.23s".
Proof. vm_compute. reflexivity. Qed.

(** An event for the examples of the development. *)
Definition sample_event (i : string) (ts : Z) (t : EventType) (p : Z) (s : string)
    (dur : option Z) : KernelEvent := {|
  id := i; timestamp := ""; timestampNs := of_Z ts; type := t; pid := of_Z p; tid := of_Z p;
  cpu := of_Z 0; service := s; detail := ""; durationUs := of_Z <$> dur; meta := []
|}.
