(* ===== verification/WireEvent.v ===== *)
(** * lib/wireEvent.ts: from the wire to a kernel event

    [mapWireEvent] validates one decoded JSON value and builds the event record
    of the console, or throws.  [Host] is what the code reads of its machine: the
    offset of the local time zone, and the clock as the call for a given fallback
    id reads it.  [kernelEventWire] is one encoder on the other end of the socket
    (api/main.go), so that the pair can be stated as a round trip. *)

From S2P Require Import Prelude JsNumber JsString Json Events.
Open Scope Z_scope.

(** The machine the console runs on. *)
Class Host := {
  (** Offset of local time from UTC at a UTC time, in milliseconds. *)
  local_tza : Z → Z;
  (** [Date.now()] as read while mapping the event with this fallback id. *)
  date_now : Z → Z
}.

Definition record := list (string * jsval).

(** Only a plain object passes. *)
Definition asRecord (value : jsval) : result record :=
  match value with
  | JObj o => Return o
  | _ => Throw "kernel event must be an object"
  end.

(** The first of [keys] that is neither undefined nor null. *)
Fixpoint first (r : record) (keys : list string) : jsval :=
  match keys with
  | [] => JUndef
  | k :: ks => if nullish (prop r k) then first r ks else prop r k
  end.

Definition number_of (v : jsval) : result num := or_throw (to_number v).
Definition string_of (v : jsval) : result string := or_throw (to_string v).

(** [pad] and the local clock reading of a time value in milliseconds, NaN
    outside the range of Date. *)
Definition pad (value : option Z) (n : nat) : string :=
  pad_start (match value with Some z => dec_of_Z z | None => "NaN" end) n "0".

Definition clock_text `{Host} (t : num) : string :=
  let ms :=
    match t with
    | Fin m => let v := Z.quot m one in
               if 8640000000000000 * one <? Z.abs m then None else Some (v + local_tza v)
    | _ => None
    end in
  pad ((λ l, l / 3600000 mod 24) <$> ms) 2 +:+ ":" +:+
  pad ((λ l, l / 60000 mod 60) <$> ms) 2 +:+ ":" +:+
  pad ((λ l, l / 1000 mod 60) <$> ms) 2 +:+ "." +:+
  pad ((λ l, l mod 1000) <$> ms) 3.

(** [tsNs] and [durNs] are accepted. *)
Definition timing_ok (tsNs durNs : num) : bool :=
  is_finite tsNs && nlt (Fin 0) tsNs && is_finite durNs && negb (nlt durNs (Fin 0)).

Definition duration_us (durNs : num) : option num :=
  if nlt (Fin 0) durNs then Some (nround (ndiv durNs (of_Z 1000))) else None.

Definition mapWireEvent `{Host} (raw : jsval) (fallbackId : Z) : result KernelEvent :=
  event ← asRecord raw;
  tsNs ← number_of (first event ["timestampNs"; "timestamp_ns"] <??>
                    JNum (nmul (of_Z (date_now fallbackId)) (of_Z 1000000)));
  durNs ← number_of (first event ["durationNs"; "duration_ns"] <??> JNum (Fin 0));
  rawType ← string_of (first event ["eventType"; "event_type"] <??> JStr "");
  match type_of_name rawType with
  | None => Throw ("unknown kernel event type: " +:+
                   (if decide (rawType = "") then "missing" else rawType))
  | Some ty =>
      if negb (timing_ok tsNs durNs) then Throw "kernel event has invalid timing fields" else
      id ← string_of (first event ["eventId"; "event_id"] <??>
                      JStr ("ws-" +:+ dec_of_Z fallbackId));
      pid ← number_of (prop event "pid" <??> JNum (Fin 0));
      tid ← number_of (prop event "tid" <??> prop event "pid" <??> JNum (Fin 0));
      cpu ← number_of (prop event "cpu" <??> JNum (Fin 0));
      service ← string_of (js_or (first event ["serviceName"; "service_name"]) (JStr "kernel"));
      detail ← (if truthy (prop event "detail") then string_of (prop event "detail")
                else t ← string_of (js_or (prop event "tid")
                                          (js_or (prop event "pid") (JNum (Fin 0))));
                     Return (type_name ty +:+ " · tid=" +:+ t));
      transaction ← string_of (first event ["transactionId"; "transaction_id"] <??> JStr "");
      trace ← string_of (first event ["traceId"; "trace_id"] <??> JStr "");
      span ← string_of (first event ["spanId"; "span_id"] <??> JStr "");
      Return {| id := id; timestamp := clock_text (ndiv tsNs (of_Z 1000000));
                timestampNs := tsNs; type := ty; pid := pid; tid := tid; cpu := cpu;
                service := service; detail := detail; durationUs := duration_us durNs;
                meta := [("transaction_id", transaction); ("trace_id", trace); ("span_id", span)] |}
  end.

(** ** The encoder of the server *)

Record KernelEventProto := mkProto {
  EventId : string; TimestampNs : Z; Pid : Z; EventType' : string; TransactionId : string;
  ServiceName : string; TraceId : string; DurationNs : Z; Tid : Z; Cpu : Z; SpanId : string
}.

(** The object [kernelEventWire] writes, as [JSON.parse] reads it back: the
    encoder sorts the keys of a map, and an integer is the nearest double. *)
Definition kernelEventWire (event : KernelEventProto) : jsval :=
  JObj [("cpu", JNum (of_Z (Cpu event)));
        ("durationNs", JNum (of_Z (DurationNs event)));
        ("eventId", JStr (EventId event));
        ("eventType", JStr (EventType' event));
        ("pid", JNum (of_Z (Pid event)));
        ("serviceName", JStr (ServiceName event));
        ("spanId", JStr (SpanId event));
        ("tid", JNum (of_Z (Tid event)));
        ("timestampNs", JNum (of_Z (TimestampNs event)));
        ("traceId", JStr (TraceId event));
        ("transactionId", JStr (TransactionId event))].

(** The same record as a node of a causal chain (api/handlers/causal_http.go): a
    struct is encoded in the order of its fields. *)
Definition kernelEventToWire (event : KernelEventProto) : jsval :=
  JObj [("eventId", JStr (EventId event));
        ("timestampNs", JNum (of_Z (TimestampNs event)));
        ("pid", JNum (of_Z (Pid event)));
        ("tid", JNum (of_Z (Tid event)));
        ("cpu", JNum (of_Z (Cpu event)));
        ("eventType", JStr (EventType' event));
        ("transactionId", JStr (TransactionId event));
        ("serviceName", JStr (ServiceName event));
        ("traceId", JStr (TraceId event));
        ("spanId", JStr (SpanId event));
        ("durationNs", JNum (of_Z (DurationNs event)))].

(** ** What an accepted event satisfies *)

Definition wf_duration (d : option num) : Prop :=
  match d with None => True | Some x => nle (Fin 0) x = true end.

(** The well-formedness the pages rely on. *)
Definition wf_event (e : KernelEvent) : Prop :=
  is_finite (timestampNs e) = true ∧ nlt (Fin 0) (timestampNs e) = true ∧
  wf_duration (durationUs e).

Lemma ndiv_nonneg x d : nlt (Fin 0) x = true → 0 < d → nle (Fin 0) (ndiv x (Fin d)) = true.
Proof.
  intros Hx Hd. destruct x as [|[]|a]; simpl in *; try done.
  - destruct (Z.ltb_spec d 0); [lia|done].
  - apply Z.ltb_lt in Hx. destruct (Z.eqb_spec d 0); [lia|].
    apply (mk_mono 0). apply (rnd_frac_mono 0); [lia|]. pose proof one_pos. nia.
Qed.

Lemma nround_nonneg x : nle (Fin 0) x = true → nle (Fin 0) (nround x) = true.
Proof.
  destruct x as [|[]|a]; simpl; try done. rewrite !negb_true_iff, !Z.ltb_ge. intros.
  pose proof one_pos. apply Z.mul_nonneg_nonneg; [apply Z.div_pos; lia|lia].
Qed.

Lemma duration_us_wf d : wf_duration (duration_us d).
Proof.
  unfold duration_us. destruct (nlt (Fin 0) d) eqn:E; [|done]. simpl.
  apply nround_nonneg. rewrite of_Z_exact by done. by apply ndiv_nonneg.
Qed.

(** The lookups of [mapWireEvent] on an encoded record, whatever the order of its keys. *)
Definition encodes (o : record) (p : KernelEventProto) : Prop :=
  first o ["timestampNs"; "timestamp_ns"] = JNum (of_Z (TimestampNs p)) ∧
  first o ["durationNs"; "duration_ns"] = JNum (of_Z (DurationNs p)) ∧
  first o ["eventType"; "event_type"] = JStr (EventType' p) ∧
  first o ["eventId"; "event_id"] = JStr (EventId p) ∧
  prop o "pid" = JNum (of_Z (Pid p)) ∧ prop o "tid" = JNum (of_Z (Tid p)) ∧
  prop o "cpu" = JNum (of_Z (Cpu p)) ∧
  first o ["serviceName"; "service_name"] = JStr (ServiceName p) ∧
  prop o "detail" = JUndef ∧
  first o ["transactionId"; "transaction_id"] = JStr (TransactionId p) ∧
  first o ["traceId"; "trace_id"] = JStr (TraceId p) ∧
  first o ["spanId"; "span_id"] = JStr (SpanId p).

Lemma kernelEventWire_encodes p : ∃ o, kernelEventWire p = JObj o ∧ encodes o p.
Proof. eexists. split; [done|]. unfold encodes. by split_and!. Qed.

Lemma kernelEventToWire_encodes p : ∃ o, kernelEventToWire p = JObj o ∧ encodes o p.
Proof. eexists. split; [done|]. unfold encodes. by split_and!. Qed.

(** Rewrite with every lookup among the hypotheses. *)
Ltac rewrite_lookups :=
  repeat match goal with
  | H : first ?o ?ks = _ |- context [first ?o ?ks] => rewrite H
  | H : prop ?o ?k = _ |- context [prop ?o ?k] => rewrite H
  end.

(** A 64-bit timestamp as the console holds it. *)
Lemma timing_ok_of_Z ts d :
  0 ≤ ts < 2 ^ 64 → 0 ≤ d < 2 ^ 64 → timing_ok (of_Z ts) (of_Z d) = negb (ts =? 0).
Proof.
  intros Hts Hd. unfold timing_ok. rewrite !of_Z_finite by lia. simpl.
  pose proof one_pos. pose proof (rnd_pos_iff (ts * one)).
  pose proof (rnd_neg_iff (d * one)). assert (¬ rnd (d * one) < 0) by nia.
  destruct (Z.ltb_spec 0 (rnd (ts * one))), (Z.ltb_spec (rnd (d * one)) 0), (Z.eqb_spec ts 0); simpl; nia.
Qed.

Lemma truthy_of_Z z : 0 ≤ z < 2 ^ 53 → truthy (JNum (of_Z z)) = negb (z =? 0).
Proof.
  intros. rewrite of_Z_exact by lia. simpl. pose proof one_pos.
  destruct (Z.eqb_spec z 0) as [->|]; [done|].
  destruct (z * one) eqn:E; [nia|done..].
Qed.

Lemma truthy_JStr s : truthy (JStr s) = negb (bool_decide (s = "")).
Proof. simpl. by destruct s. Qed.

Definition detail_of_tid (t : EventType) (p : KernelEventProto) : string :=
  type_name t +:+ " · tid=" +:+
  num_to_string (of_Z (if Tid p =? 0 then Pid p else Tid p)).

(** The event a server record stands for. *)
Definition event_of_proto `{Host} (t : EventType) (p : KernelEventProto) : KernelEvent := {|
  id := EventId p;
  timestamp := clock_text (ndiv (of_Z (TimestampNs p)) (of_Z 1000000));
  timestampNs := of_Z (TimestampNs p);
  type := t;
  pid := of_Z (Pid p);
  tid := of_Z (Tid p);
  cpu := of_Z (Cpu p);
  service := if decide (ServiceName p = "") then "kernel" else ServiceName p;
  detail := detail_of_tid t p;
  durationUs := duration_us (of_Z (DurationNs p));
  meta := [("transaction_id", TransactionId p); ("trace_id", TraceId p); ("span_id", SpanId p)]
|}.

(** The ranges of the Go types of a server record's counters. *)
Definition proto_ok (p : KernelEventProto) : Prop :=
  0 ≤ TimestampNs p < 2 ^ 64 ∧ 0 ≤ DurationNs p < 2 ^ 64 ∧
  0 ≤ Pid p < 2 ^ 32 ∧ 0 ≤ Tid p < 2 ^ 32 ∧ 0 ≤ Cpu p < 2 ^ 32.

(** What the console makes of a server record: the event it stands for, provided
    that it knows the type and that the record has a time. *)
Definition outcome_of_proto `{Host} (p : KernelEventProto) : result KernelEvent :=
  match type_of_name (EventType' p) with
  | None => Throw ("unknown kernel event type: " +:+
                   (if decide (EventType' p = "") then "missing" else EventType' p))
  | Some t => if decide (TimestampNs p = 0) then Throw "kernel event has invalid timing fields"
              else Return (event_of_proto t p)
  end.

Section wire.
Context `{Host}.

Lemma outcome_known p t :
  type_of_name (EventType' p) = Some t → TimestampNs p ≠ 0 → outcome_of_proto p = Return (event_of_proto t p).
Proof. intros Ht Hts. unfold outcome_of_proto. by rewrite Ht, decide_False. Qed.

Lemma mapWireEvent_wf raw fb e : mapWireEvent raw fb = Return e → wf_event e.
Proof.
  unfold mapWireEvent. intros Hm. result_inv.
  case_match; [|discriminate].
  destruct (negb (timing_ok _ _)) eqn:Et; [discriminate|]. result_inv. subst e.
  apply negb_false_iff in Et. unfold timing_ok in Et. bool_to_prop.
  repeat split; [done..|apply duration_us_wf].
Qed.

(** C17: an event that [mapWireEvent] accepts comes from a plain object, has the
    type its wire field names, a finite positive timestamp, and a duration that
    is null or a non-negative number. *)
Lemma mapWireEvent_ok raw fb e :
  mapWireEvent raw fb = Return e →
  wf_event e ∧
  ∃ o, raw = JObj o ∧
    string_of (first o ["eventType"; "event_type"] <??> JStr "") = Return (type_name (type e)).
Proof.
  intros Hm. split; [by eapply mapWireEvent_wf|]. revert Hm.
  unfold mapWireEvent. intros Hm. result_inv.
  destruct raw as [| | | | | |o]; try discriminate. simplify_eq/=.
  eexists. split; [done|]. case_match eqn:Ety; [|discriminate].
  apply type_of_name_Some in Ety. case_match; [discriminate|]. result_inv. by subst.
Qed.

Lemma mapWireEvent_encoded o p fb :
  encodes o p → proto_ok p → mapWireEvent (JObj o) fb = outcome_of_proto p.
Proof.
  intros (F1 & F2 & F3 & F4 & F5 & F6 & F7 & F8 & F9 & F10 & F11 & F12) (Hts & Hd & Hp & Ht & Hc).
  unfold mapWireEvent, outcome_of_proto. change (asRecord (JObj o)) with (Return o).
  cbn [mbind result_bind]. rewrite_lookups.
  cbn -[of_Z type_of_name timing_ok truthy nmul].
  destruct (type_of_name (EventType' p)) as [t|]; [|done]. rewrite timing_ok_of_Z, negb_involutive by done.
  destruct (Z.eqb_spec (TimestampNs p) 0); [by rewrite decide_True|rewrite decide_False by done].
  unfold js_or. rewrite truthy_JStr, !truthy_of_Z by lia.
  unfold event_of_proto, detail_of_tid.
  destruct (decide (ServiceName p = "")) as [->|Hs];
    [|rewrite bool_decide_eq_false_2 by done];
    cbn -[of_Z]; destruct (Z.eqb_spec (Tid p) 0) as [Et|]; cbn -[of_Z]; try done;
    destruct (Z.eqb_spec (Pid p) 0) as [->|]; done.
Qed.

Lemma mapWireEvent_live p fb : proto_ok p → mapWireEvent (kernelEventWire p) fb = outcome_of_proto p.
Proof. intros Hp. destruct (kernelEventWire_encodes p) as (o & -> & Ho). by apply mapWireEvent_encoded. Qed.

(** C15: what becomes of any record of the server, its counters in the ranges of
    their Go types, that is encoded by [kernelEventWire] and decoded by
    [mapWireEvent].  With a known type and a timestamp other than 0 it is the event
    the record stands for: no field is lost, an empty service becomes "kernel", and
    the counters become the nearest doubles.  A record of timestamp 0 and one of
    unknown type are refused, each with its message. *)
Theorem wire_roundtrip p fb :
  proto_ok p →
  mapWireEvent (kernelEventWire p) fb =
    match type_of_name (EventType' p) with
    | Some t => if decide (TimestampNs p = 0) then Throw "kernel event has invalid timing fields"
                else Return (event_of_proto t p)
    | None => Throw ("unknown kernel event type: " +:+
                     (if decide (EventType' p = "") then "missing" else EventType' p))
    end.
Proof. intros Hp. rewrite mapWireEvent_live by done. unfold outcome_of_proto. by case_match. Qed.

Lemma mapWireEvent_timestamp o fb e x :
  mapWireEvent (JObj o) fb = Return e →
  first o ["timestampNs"; "timestamp_ns"] = JNum x → timestampNs e = x.
Proof.
  unfold mapWireEvent. intros Hm Hf. change (asRecord (JObj o)) with (Return o) in Hm.
  cbn [mbind result_bind] in Hm. rewrite Hf in Hm.
  change (number_of (JNum x <??> _)) with (Return x) in Hm. cbn [mbind result_bind] in Hm.
  result_inv. case_match; [|discriminate]. case_match; [discriminate|]. result_inv.
  by subst.
Qed.

(** C18: the timestamp the console keeps for an integral wire timestamp is within
    128 ns of it for any instant before the year 2043, and equal to it below
    2^53 ns: decoding loses nanoseconds, never more. *)
Theorem timestamp_precision o fb e ts :
  mapWireEvent (JObj o) fb = Return e →
  first o ["timestampNs"; "timestamp_ns"] = JNum (of_Z ts) → 0 ≤ ts < 2 ^ 61 →
  ∃ m, timestampNs e = Fin m ∧ Z.abs (m - ts * one) ≤ 128 * one ∧
       (ts < 2 ^ 53 → m = ts * one).
Proof.
  intros Hm Hf Hts. rewrite (mapWireEvent_timestamp _ _ _ _ Hm Hf).
  rewrite of_Z_finite by lia. eexists. split; [done|]. split.
  - pose proof (rnd_error (ts * one) ltac:(pose proof one_pos; nia)) as He.
    unfold one in *. pose proof (rexp_scaled_le ts 61 1074 ltac:(lia) ltac:(lia)) as Hr.
    pose proof (Z.pow_le_mono_r 2 _ _ ltac:(lia) Hr) as Hp.
    change (2 ^ Z.max 0 (61 + 1074 - 53)) with (2 * (128 * 2 ^ 1074)) in Hp. lia.
  - intros. unfold one. by rewrite rnd_scaled by lia.
Qed.
End wire.

(** ** Witnesses *)

Definition utc : Host := {| local_tza := λ _, 0; date_now := λ _, 0 |}.

(** A server record of May 2026. *)
Definition sample_proto : KernelEventProto := {|
  EventId := "evt-1"; TimestampNs := 1778207233000000001; Pid := 4821; EventType' := "sys_write";
  TransactionId := "req-9f21"; ServiceName := ""; TraceId := "t1"; DurationNs := 950000400;
  Tid := 0; Cpu := 3; SpanId := ""
|}.

Example sample_decodes :
  mapWireEvent (H := utc) (kernelEventWire sample_proto) 1 = Return {|
    id := "evt-1"; timestamp := "02:27:13.000"; timestampNs := of_Z 1778207233000000000;
    type := sys_write; pid := of_Z 4821; tid := Fin 0; cpu := of_Z 3; service := "kernel";
    detail := "sys_write · tid=4821"; durationUs := Some (of_Z 950000);
    meta := [("transaction_id", "req-9f21"); ("trace_id", "t1"); ("span_id", "")] |}.
Proof. vm_compute. reflexivity. Qed.

Lemma mapWireEvent_ok_witness :
  ∃ e, mapWireEvent (H := utc) (kernelEventWire sample_proto) 1 = Return e ∧ wf_event e.
Proof.
  eexists. split; [apply sample_decodes|].
  apply (mapWireEvent_ok (H := utc) (kernelEventWire sample_proto) 1). apply sample_decodes.
Defined.

Lemma wire_roundtrip_witness :
  mapWireEvent (H := utc) (kernelEventWire sample_proto) 1 =
  Return (event_of_proto (H := utc) sys_write sample_proto).
Proof.
  refine (wire_roundtrip (H := utc) sample_proto 1 _).
  unfold proto_ok, sample_proto; simpl; lia.
Defined.

Definition sample_fields : record :=
  match kernelEventWire sample_proto with JObj o => o | _ => [] end.

(** The last nanosecond of the sample's timestamp is lost. *)
Lemma timestamp_precision_witness :
  ∃ m, of_Z 1778207233000000000 = Fin m ∧
       Z.abs (m - TimestampNs sample_proto * one) ≤ 128 * one.
Proof.
  destruct (timestamp_precision (H := utc) sample_fields 1 _ (TimestampNs sample_proto)
    sample_decodes) as (m & Hm & He & _); [reflexivity|vm_compute; split; congruence|].
  exists m. split; [exact Hm|exact He].
Defined.
