(* ===== verification/Auth.v ===== *)
(** * lib/auth.ts: the token of the session

    The module variable [_token] and the entry of sessionStorage it mirrors. *)

From S2P Require Import Prelude JsString.
Open Scope Z_scope.

Definition TOKEN_KEY : string := "kprobe_token".

(** The variable, and what sessionStorage holds under [TOKEN_KEY]. *)
Record Auth := mkAuth { token : option string; stored : option string }.

(** Loading the module reads the storage once. *)
Definition load_module (stored : option string) : Auth := mkAuth stored stored.

Definition getToken (a : Auth) : option string := token a.

(** [ok] is false when the storage refuses the entry: [setItem] throws, after the
    variable has been set. *)
Definition setToken (ok : bool) (t : string) (a : Auth) : Auth :=
  mkAuth (Some t) (if ok then Some t else stored a).

Definition clearToken (_ : Auth) : Auth := mkAuth None None.

Definition isAuthenticated (a : Auth) : bool :=
  match token a with Some _ => true | None => false end.

(** [token ? {Authorization: ...} : {}] (lib/api.ts, [authHeaders]): an empty
    token is not sent. *)
Definition authHeaders (a : Auth) : list (string * string) :=
  match getToken a with
  | Some t => if decide (t = "") then [] else [("Authorization", "Bearer " +:+ t)]
  | None => []
  end.
