(* ===== verification/Connection.v ===== *)
(** * hooks/useConnection.tsx: the live connection

    The provider that owns the WebSocket and the message list every page reads.
    [Conn] is its state and its refs; [apply] is one callback of the component
    run to completion (socket events, the reconnect timer, the history request
    resolving, a page clearing the list, the effect and its cleanup), and [Flush]
    is React processing the queued [setMessages] updates: the updaters run then,
    not when they are queued, and it is they that draw ids and rebuild the set of
    seen keys. *)

From S2P Require Import Prelude JsNumber JsString Json Events WireEvent.
Open Scope Z_scope.

Definition INITIAL_BACKOFF : Z := 1000.
Definition MAX_BACKOFF : Z := 30000.
Definition BACKOFF_FACTOR : Z := 2.
Definition MAX_MESSAGES : nat := 2000.

(** [getWsUrl]: the query string is set only when a token is held;
    [encode] is the form-urlencoding of URLSearchParams. *)
Definition getWsUrl (encode : string → string) (https : bool) (host : string)
    (token : option string) : string :=
  (if https then "wss:" else "ws:") +:+ "//" +:+ host +:+ "/ws" +:+
  match token with
  | Some t => if decide (t = "") then "" else "?access_token=" +:+ encode t
  | None => ""
  end.

Record ConnectionMessage := mkMsg { msg_id : Z; data : string }.

#[export] Instance ConnectionMessage_eq_dec : EqDecision ConnectionMessage.
Proof. solve_decision. Defined.

(** ** Keys and timestamps of raw messages *)

Definition key_fields : list (list string) :=
  [["timestampNs"; "timestamp_ns"]; ["eventType"; "event_type"]; ["pid"]; ["tid"]; ["cpu"];
   ["transactionId"; "transaction_id"]; ["serviceName"; "service_name"];
   ["traceId"; "trace_id"]; ["spanId"; "span_id"]; ["durationNs"; "duration_ns"]].

(** [event.a ?? event.b ?? last]; reading a property of null throws. *)
Fixpoint pick (event : jsval) (keys : list string) (last : jsval) : option jsval :=
  match keys with
  | [] => Some last
  | k :: ks => v ← get event k; if nullish v then pick event ks last else Some v
  end.

Definition eventKey (data : string) : string :=
  default data (
    event ← json_parse data;
    vs ← mapM (λ ks, pick event ks (JStr "")) key_fields;
    join_values ":" vs).

Definition eventTimestamp (data : string) : num :=
  default (Fin 0) (
    event ← json_parse data;
    v ← pick event ["timestampNs"; "timestamp_ns"] (JNum (Fin 0));
    to_number v).

(** ** Hydration from stored history *)

(** How the history request ends: it fails, is refused, or answers a body that
    may not be JSON. *)
Inductive fetch_outcome := FetchFails | FetchNotOk | FetchOk (body : option jsval).

Definition historical (token : option string) (r : fetch_outcome) : list string :=
  match token, r with
  | Some t, FetchOk (Some body) =>
      if decide (t = "") then [] else
      match get body "events" with
      | Some (JArr l) => (λ v, default "undefined" (stringify v)) <$> l
      | _ => []
      end
  | _, _ => []
  end.

(** One entry per key, the last one wins; oldest first; the newest
    [MAX_MESSAGES] kept. *)
Definition unique (combined : list string) : list string :=
  (map_of ((λ d, (eventKey d, d)) <$> combined)).*2.

Definition later (left right : string) : bool :=
  positive (nsub (eventTimestamp left) (eventTimestamp right)).

Definition hydrate_plan (history buffered : list string) : list string :=
  slice_last MAX_MESSAGES (js_sort later (unique (history ++ buffered))).

(** [ordered.map((data) => ({ id: ++sequence, data }))]. *)
Fixpoint number_from (seq : Z) (l : list string) : list ConnectionMessage :=
  match l with
  | [] => []
  | d :: l' => mkMsg (seq + 1) d :: number_from (seq + 1) l'
  end.

(** ** State *)

(** A queued [setMessages]: a value, or the appending updater of [onmessage]. *)
Inductive update := USet (msgs : list ConnectionMessage) | UAppend (d : string).

Record Conn := mkConn {
  status : ConnectionStatus;
  messages : list ConnectionMessage;
  queue : list update;
  ws : bool;                    (* [wsRef.current] is a socket whose close is awaited *)
  backoff : Z;
  timer : option Z;             (* the delay of the pending reconnect *)
  mounted : bool;
  sequence : Z;
  hydrated : bool;
  bufferedLive : list string;
  seenEventKeys : gset string;
  lifecycle : Z;
  inflight : list Z             (* lifecycles whose history request is pending *)
}.

Definition initial : Conn := {|
  status := connecting; messages := []; queue := []; ws := false; backoff := INITIAL_BACKOFF;
  timer := None; mounted := false; sequence := 0; hydrated := false; bufferedLive := [];
  seenEventKeys := ∅; lifecycle := 0; inflight := []
|}.

Definition set_status (s : ConnectionStatus) (c : Conn) : Conn :=
  mkConn s (messages c) (queue c) (ws c) (backoff c) (timer c) (mounted c) (sequence c)
    (hydrated c) (bufferedLive c) (seenEventKeys c) (lifecycle c) (inflight c).
Definition set_ws (b : bool) (c : Conn) : Conn :=
  mkConn (status c) (messages c) (queue c) b (backoff c) (timer c) (mounted c) (sequence c)
    (hydrated c) (bufferedLive c) (seenEventKeys c) (lifecycle c) (inflight c).
Definition set_backoff (b : Z) (c : Conn) : Conn :=
  mkConn (status c) (messages c) (queue c) (ws c) b (timer c) (mounted c) (sequence c)
    (hydrated c) (bufferedLive c) (seenEventKeys c) (lifecycle c) (inflight c).
Definition set_timer (t : option Z) (c : Conn) : Conn :=
  mkConn (status c) (messages c) (queue c) (ws c) (backoff c) t (mounted c) (sequence c)
    (hydrated c) (bufferedLive c) (seenEventKeys c) (lifecycle c) (inflight c).
Definition set_queue (q : list update) (c : Conn) : Conn :=
  mkConn (status c) (messages c) q (ws c) (backoff c) (timer c) (mounted c) (sequence c)
    (hydrated c) (bufferedLive c) (seenEventKeys c) (lifecycle c) (inflight c).
Definition set_seen (s : gset string) (c : Conn) : Conn :=
  mkConn (status c) (messages c) (queue c) (ws c) (backoff c) (timer c) (mounted c) (sequence c)
    (hydrated c) (bufferedLive c) s (lifecycle c) (inflight c).
Definition set_buffered (b : list string) (c : Conn) : Conn :=
  mkConn (status c) (messages c) (queue c) (ws c) (backoff c) (timer c) (mounted c) (sequence c)
    (hydrated c) b (seenEventKeys c) (lifecycle c) (inflight c).
Definition set_inflight (l : list Z) (c : Conn) : Conn :=
  mkConn (status c) (messages c) (queue c) (ws c) (backoff c) (timer c) (mounted c) (sequence c)
    (hydrated c) (bufferedLive c) (seenEventKeys c) (lifecycle c) l.

(** [setMessages]. *)
Definition enqueue (u : update) (c : Conn) : Conn := set_queue (queue c ++ [u]) c.

Definition clearMessages : Conn → Conn := enqueue (USet []).

(** ** Callbacks *)

Definition scheduleReconnect (c : Conn) : Conn :=
  if negb (mounted c) then c
  else set_backoff (Z.min (backoff c * BACKOFF_FACTOR) MAX_BACKOFF) (set_timer (Some (backoff c)) c).

(** [ok]: [new WebSocket] did not throw. *)
Definition connect (ok : bool) (c : Conn) : Conn :=
  if negb (mounted c) then c
  else
    let c := set_status connecting c in
    if ok then set_ws true c else scheduleReconnect (set_status disconnected c).

Definition onopen (c : Conn) : Conn :=
  if negb (mounted c) then c else set_backoff INITIAL_BACKOFF (set_status connected c).

Definition onmessage (d : string) (c : Conn) : Conn :=
  if negb (mounted c) then c
  else if negb (hydrated c) then set_buffered (bufferedLive c ++ [d]) c
  else
    let key := eventKey d in
    if decide (key ∈ seenEventKeys c) then c
    else enqueue (UAppend d) (set_seen (seenEventKeys c ∪ {[key]}) c).

Definition onclose (c : Conn) : Conn :=
  if negb (mounted c) then c
  else scheduleReconnect (set_ws false (set_status disconnected c)).

Definition onerror (c : Conn) : Conn :=
  if negb (mounted c) then c else set_status disconnected c.

(** The continuation of [hydrateHistory] once the request is over. *)
Definition hydrateHistory (lc : Z) (history : list string) (c : Conn) : Conn :=
  if negb (mounted c) || negb (lc =? lifecycle c) then c
  else
    let ordered := hydrate_plan history (bufferedLive c) in
    mkConn (status c) (messages c) (queue c ++ [USet (number_from (sequence c) ordered)]) (ws c)
      (backoff c) (timer c) (mounted c) (sequence c + Z.of_nat (length ordered)) true []
      (list_to_set (eventKey <$> ordered)) (lifecycle c) (inflight c).

(** The effect: a new lifecycle, a connection attempt, a history request. *)
Definition run_effect (ok : bool) (c : Conn) : Conn :=
  let lc := lifecycle c + 1 in
  let c := mkConn (status c) (messages c) (queue c) (ws c) (backoff c) (timer c) true (sequence c)
             (hydrated c) (bufferedLive c) (seenEventKeys c) lc (inflight c) in
  let c := connect ok c in
  set_inflight (inflight c ++ [lc]) c.

(** Its cleanup: the timer is cleared and the socket closed without [onclose]. *)
Definition cleanup (c : Conn) : Conn :=
  mkConn (status c) (messages c) (queue c) false (backoff c) None false (sequence c)
    (hydrated c) (bufferedLive c) (seenEventKeys c) (lifecycle c + 1) (inflight c).

(** React applying one queued update. *)
Definition run_update (c : Conn) (u : update) : Conn :=
  match u with
  | USet msgs =>
      mkConn (status c) msgs (queue c) (ws c) (backoff c) (timer c) (mounted c) (sequence c)
        (hydrated c) (bufferedLive c) (seenEventKeys c) (lifecycle c) (inflight c)
  | UAppend d =>
      let next := slice_last MAX_MESSAGES (messages c ++ [mkMsg (sequence c + 1) d]) in
      mkConn (status c) next (queue c) (ws c) (backoff c) (timer c) (mounted c) (sequence c + 1)
        (hydrated c) (bufferedLive c) (list_to_set ((λ m, eventKey (data m)) <$> next))
        (lifecycle c) (inflight c)
  end.

Definition flush (c : Conn) : Conn := set_queue [] (foldl run_update c (queue c)).

(** ** Steps *)

Inductive action :=
  | Mount (ok : bool) | Unmount
  | Opened | Message (d : string) | Closed | Errored
  | TimerFires (ok : bool)
  | HistoryDone (lc : Z) (token : option string) (r : fetch_outcome)
  | Clear | Flush.

(** When an action can happen.  React re-runs the effect of a live component only
    in StrictMode, right after its first run and before any answer arrives, so a
    second [Mount] finds the list not hydrated; leaving the page drops the whole
    state.  Messages and errors may still come from a socket already let go. *)
Definition enabled (c : Conn) (a : action) : Prop :=
  match a with
  | Mount _ => mounted c = false ∧ hydrated c = false
  | Unmount => mounted c = true
  | Opened | Closed => ws c = true
  | TimerFires _ => is_Some (timer c)
  | HistoryDone lc _ _ => lc ∈ inflight c
  | Message _ | Errored | Clear | Flush => True
  end.

Definition apply (c : Conn) (a : action) : Conn :=
  match a with
  | Mount ok => run_effect ok c
  | Unmount => cleanup c
  | Opened => onopen c
  | Message d => onmessage d c
  | Closed => onclose c
  | Errored => onerror c
  | TimerFires ok => connect ok (set_timer None c)
  | HistoryDone lc token r =>
      hydrateHistory lc (historical token r)
        (set_inflight (filter (λ x, x ≠ lc) (inflight c)) c)
  | Clear => clearMessages c
  | Flush => flush c
  end.

Inductive reachable : Conn → Prop :=
  | reach_initial : reachable initial
  | reach_step c a : reachable c → enabled c a → reachable (apply c a).

(** ** Numbering and bounds *)

Definition ids (l : list ConnectionMessage) : list Z := msg_id <$> l.
Definition keys (l : list ConnectionMessage) : list string := (λ m, eventKey (data m)) <$> l.

(** A message list as the pages expect it: bounded, numbered upwards, and by
    numbers already drawn. *)
Definition good_list (seq : Z) (l : list ConnectionMessage) : Prop :=
  (length l ≤ MAX_MESSAGES)%nat ∧ StronglySorted Z.lt (ids l) ∧ Forall (λ i, i ≤ seq) (ids l).

Lemma good_list_mono s s' l : s ≤ s' → good_list s l → good_list s' l.
Proof.
  intros Hs (?&?&Hf). repeat split; [done..|]. eapply Forall_impl; [done|]. simpl. lia.
Qed.

Lemma good_list_nil s : good_list s [].
Proof. repeat split; [simpl; lia|constructor..]. Qed.

Lemma good_list_append s l d :
  good_list s l → good_list (s + 1) (slice_last MAX_MESSAGES (l ++ [mkMsg (s + 1) d])).
Proof.
  intros (_ & Hs & Hf). unfold good_list, ids. rewrite slice_last_fmap, fmap_app. repeat split.
  - apply slice_last_le.
  - apply slice_last_sorted, StronglySorted_snoc; [done|].
    eapply Forall_impl; [done|]. simpl. lia.
  - apply slice_last_Forall, Forall_app. split.
    + eapply Forall_impl; [done|]. simpl. lia.
    + apply Forall_cons. split; [simpl; lia|constructor].
Qed.

Lemma number_from_data seq l : data <$> number_from seq l = l.
Proof. revert seq. induction l; intros; f_equal/=; auto. Qed.

Lemma number_from_ids seq l : Forall (λ i, seq < i ≤ seq + Z.of_nat (length l)) (ids (number_from seq l)).
Proof.
  revert seq. induction l as [|d l IH]; intros seq; simpl; [constructor|].
  constructor; [lia|]. eapply Forall_impl; [apply IH|]. simpl. lia.
Qed.

Lemma number_from_good seq l :
  (length l ≤ MAX_MESSAGES)%nat →
  good_list (seq + Z.of_nat (length l)) (number_from seq l).
Proof.
  intros Hl. repeat split.
  - by rewrite <-(length_fmap data), number_from_data.
  - clear Hl. revert seq. induction l as [|d l IH]; intros seq; simpl; [constructor|].
    constructor; [apply IH|]. eapply Forall_impl; [apply number_from_ids|]. simpl. lia.
  - eapply Forall_impl; [apply number_from_ids|]. simpl. lia.
Qed.

Definition good_update (seq : Z) (u : update) : Prop :=
  match u with USet l => good_list seq l | UAppend _ => True end.

Lemma good_update_mono s s' u : s ≤ s' → good_update s u → good_update s' u.
Proof. destruct u; simpl; eauto using good_list_mono. Qed.

(** ** The connection itself *)

(** The reconnect delays that can occur: 1 s doubled, at most 30 s. *)
Definition delay (n : nat) : Z := Z.min (INITIAL_BACKOFF * 2 ^ Z.of_nat n) MAX_BACKOFF.

Lemma delay_S n : Z.min (delay n * BACKOFF_FACTOR) MAX_BACKOFF = delay (S n).
Proof.
  unfold delay, BACKOFF_FACTOR, INITIAL_BACKOFF, MAX_BACKOFF.
  rewrite Nat2Z.inj_succ, Z.pow_succ_r by lia.
  assert (0 < 2 ^ Z.of_nat n) by (apply Z.pow_pos_nonneg; lia). lia.
Qed.

Lemma delay_bounds n : INITIAL_BACKOFF ≤ delay n ≤ MAX_BACKOFF.
Proof.
  unfold delay, INITIAL_BACKOFF, MAX_BACKOFF.
  assert (0 < 2 ^ Z.of_nat n) by (apply Z.pow_pos_nonneg; lia). lia.
Qed.

(** One connection at a time: a socket or a pending reconnect, never both, and
    neither once unmounted; "connected" is only shown over a live socket. *)
Definition conn_ok (c : Conn) : Prop :=
  (∃ n, backoff c = delay n) ∧
  (∀ t, timer c = Some t → ∃ n, t = delay n) ∧
  (ws c = true → timer c = None) ∧
  (mounted c = false → ws c = false ∧ timer c = None) ∧
  (mounted c = true → status c = connected → ws c = true).

Lemma scheduleReconnect_ok c :
  (∃ n, backoff c = delay n) → ws c = false → timer c = None → mounted c = true →
  status c ≠ connected → conn_ok (scheduleReconnect c).
Proof.
  intros [n Hn] Hw Ht Hm Hs. unfold scheduleReconnect. rewrite Hm. simpl.
  unfold conn_ok; simpl. rewrite Hn, delay_S, Hm.
  split; [by exists (S n)|]. split; [intros t [= <-]; by exists n|]. repeat split; congruence.
Qed.

Lemma connect_ok ok c :
  (∃ n, backoff c = delay n) → ws c = false → timer c = None → mounted c = true →
  conn_ok (connect ok c).
Proof.
  intros Hb Hw Ht Hm. unfold connect. rewrite Hm. simpl. destruct ok.
  - unfold conn_ok; simpl. rewrite Ht, Hm. naive_solver.
  - by apply scheduleReconnect_ok.
Qed.

(** The fields the connection machinery reads are untouched by the updates. *)
Definition same_conn (c c' : Conn) : Prop :=
  status c' = status c ∧ ws c' = ws c ∧ backoff c' = backoff c ∧ timer c' = timer c ∧
  mounted c' = mounted c ∧ hydrated c' = hydrated c ∧ bufferedLive c' = bufferedLive c ∧
  lifecycle c' = lifecycle c.

#[export] Instance same_conn_preorder : PreOrder same_conn.
Proof. split; [by repeat split|]. unfold same_conn. intros ???. intuition congruence. Qed.

Lemma flush_same c : same_conn c (flush c).
Proof.
  unfold flush. assert (∀ q c', same_conn c c' → same_conn c (foldl run_update c' q)) as H.
  { induction q as [|u q IH]; intros c' H'; simpl; [done|]. apply IH.
    etrans; [done|]. by destruct u. }
  specialize (H (queue c) c ltac:(done)). unfold same_conn in *. naive_solver.
Qed.

Lemma conn_ok_same c c' : same_conn c c' → conn_ok c → conn_ok c'.
Proof.
  intros (H1&H2&H3&H4&H5&_) Hc. unfold conn_ok in *. by rewrite H1, H2, H3, H4, H5.
Qed.

Lemma apply_conn_ok c a : conn_ok c → enabled c a → conn_ok (apply c a).
Proof.
  intros Hc He. destruct Hc as ([n Hn] & Ht & Hw & Hu & Hs) eqn:Hc'. clear Hc'.
  destruct a as [ok| | |d| | |ok|lc tok r| |]; simpl in *.
  - destruct He as [Hm _]. destruct (Hu Hm) as [Hws Htm].
    unfold run_effect. set (c1 := mkConn _ _ _ _ _ _ _ _ _ _ _ _ _).
    apply (conn_ok_same (connect ok c1)); [by repeat split|]. apply connect_ok; simpl; eauto.
  - unfold conn_ok; simpl. split_and!; [by exists n|done..].
  - unfold onopen. destruct (mounted c) eqn:Hm; simpl; [|done].
    unfold conn_ok; simpl. rewrite Hm, Hw by done. split; [by exists O|]. naive_solver.
  - unfold onmessage. repeat case_match; done.
  - unfold onclose. destruct (mounted c) eqn:Hm; simpl; [|done].
    apply scheduleReconnect_ok; simpl; eauto.
  - unfold onerror. destruct (mounted c) eqn:Hm; simpl; [|done].
    unfold conn_ok; simpl. rewrite Hm. naive_solver.
  - destruct He as [t Ht']. destruct (mounted c) eqn:Hm.
    + apply connect_ok; simpl; eauto. destruct (ws c); [|done]. by rewrite Hw in Ht'.
    + destruct (Hu eq_refl). congruence.
  - unfold hydrateHistory. by case_match.
  - done.
  - eapply conn_ok_same; [apply flush_same|done].
Qed.

(** ** Hydration *)

Lemma Forall_snd_fst {A B} (f : B → A) (m : list (A * B)) :
  Forall (λ kv, f kv.2 = kv.1) m → f <$> m.*2 = m.*1.
Proof. induction 1; f_equal/=; auto. Qed.

Lemma unique_keys_NoDup l : NoDup (eventKey <$> unique l).
Proof.
  unfold unique. set (es := (λ d, (eventKey d, d)) <$> l).
  assert (Forall (λ kv, eventKey kv.2 = kv.1) (map_of es)) as Hf.
  { apply map_of_invariant. subst es. by apply Forall_fmap, Forall_true. }
  rewrite (Forall_snd_fst eventKey) by done. apply map_of_NoDup.
Qed.

Lemma elem_of_unique d l : d ∈ unique l → d ∈ l.
Proof.
  unfold unique. set (es := (λ d, (eventKey d, d)) <$> l).
  assert (Forall (λ kv, kv.2 ∈ l) (map_of es)) as Hf.
  { apply map_of_invariant. subst es. apply Forall_fmap, Forall_forall. done. }
  intros ([k v] & -> & Hin)%list_elem_of_fmap. by eapply Forall_forall in Hf.
Qed.

(** Every key of the input survives, with the last message that had it. *)
Lemma unique_last d l :
  d ∈ l → ∃ d', d' ∈ unique l ∧ eventKey d' = eventKey d ∧
                map_get (eventKey d) (reverse ((λ d, (eventKey d, d)) <$> l)) = Some d'.
Proof.
  intros Hd. set (es := (λ d, (eventKey d, d)) <$> l).
  destruct (map_get (eventKey d) (map_of es)) as [d'|] eqn:E.
  - exists d'. pose proof (map_get_elem _ _ _ E) as Hin. split; [|split].
    + apply list_elem_of_fmap. by exists (eventKey d, d').
    + assert (Forall (λ kv, eventKey kv.2 = kv.1) (map_of es)) as Hf.
      { apply map_of_invariant. subst es. by apply Forall_fmap, Forall_true. }
      by eapply Forall_forall in Hf; [|exact Hin].
    + by rewrite <-map_get_of.
  - exfalso. rewrite map_get_of in E. apply map_get_None in E. apply E.
    rewrite fmap_reverse, elem_of_reverse. subst es.
    rewrite <-list_fmap_compose. apply list_elem_of_fmap. by exists d.
Qed.

Lemma hydrate_plan_NoDup h b : NoDup (eventKey <$> hydrate_plan h b).
Proof.
  unfold hydrate_plan. rewrite slice_last_fmap. apply slice_last_NoDup.
  rewrite js_sort_perm. apply unique_keys_NoDup.
Qed.

Lemma hydrate_plan_length h b : (length (hydrate_plan h b) ≤ MAX_MESSAGES)%nat.
Proof. apply slice_last_le. Qed.

#[export] Instance later_consistent : Consistent later (λ d, eventTimestamp d ≠ NaN).
Proof.
  split.
  - intros x y Hx Hy. unfold later. rewrite !positive_nsub_nlt by done. apply nlt_asym.
  - intros x y z Hx Hy Hz. unfold later. rewrite !positive_nsub_nlt by done.
    intros. by eapply nlt_neg_trans; [exact Hy|..].
Qed.

(** ** The list of messages *)

Definition messages_ok (c : Conn) : Prop :=
  good_list (sequence c) (messages c) ∧ Forall (good_update (sequence c)) (queue c).

Lemma run_updates_good q c :
  good_list (sequence c) (messages c) → Forall (good_update (sequence c)) q →
  good_list (sequence (foldl run_update c q)) (messages (foldl run_update c q)).
Proof.
  revert c. induction q as [|u q IH]; intros c Hc Hq; simpl; [done|].
  apply Forall_cons in Hq as [Hu Hq]. apply IH.
  - destruct u; simpl in *; [done|by apply good_list_append].
  - eapply Forall_impl; [done|]. intros. eapply good_update_mono; [|done].
    destruct u; simpl; lia.
Qed.

Lemma Forall_snoc {A} (P : A → Prop) l x : Forall P l → P x → Forall P (l ++ [x]).
Proof. intros. apply Forall_app. by repeat constructor. Qed.

Lemma apply_messages_ok c a : messages_ok c → messages_ok (apply c a).
Proof.
  intros [Hg Hq]. unfold messages_ok. destruct a; simpl;
    unfold onopen, onmessage, onclose, onerror, hydrateHistory, scheduleReconnect, connect,
      run_effect, connect, scheduleReconnect; repeat case_match; simpl; try done.
  - split; [done|]. by apply Forall_snoc.
  - split.
    + eapply good_list_mono; [|done]. lia.
    + apply Forall_snoc; [|apply number_from_good, hydrate_plan_length].
      eapply Forall_impl; [done|]. intros. eapply good_update_mono; [|done]. lia.
  - split; [done|]. apply Forall_snoc; [done|]. apply good_list_nil.
  - split; [by apply run_updates_good|constructor].
Qed.

(** ** No event twice *)

(** The raw list once the queue has run, before truncation. *)
Fixpoint view (M : list string) (q : list update) : list string :=
  match q with
  | [] => M
  | USet X :: q => view (data <$> X) q
  | UAppend d :: q => view (M ++ [d]) q
  end.

(** Whoever sets the list after an append only clears it. *)
Fixpoint late_sets_empty (appended : bool) (q : list update) : Prop :=
  match q with
  | [] => True
  | USet X :: q => (appended = true → X = []) ∧ late_sets_empty appended q
  | UAppend _ :: q => late_sets_empty true q
  end.

Definition no_append (q : list update) : Prop :=
  Forall (λ u, match u with USet _ => True | UAppend _ => False end) q.

Lemma view_snoc M q u :
  view M (q ++ [u]) = match u with USet X => data <$> X | UAppend d => view M q ++ [d] end.
Proof. revert M. induction q as [|[X|e] q IH]; intros M; simpl; [by destruct u|done..]. Qed.

Lemma late_sets_snoc b q u :
  late_sets_empty b q →
  match u with USet X => X = [] ∨ (b = false ∧ no_append q) | UAppend _ => True end →
  late_sets_empty b (q ++ [u]).
Proof.
  revert b. induction q as [|[X|e] q IH]; intros b Hb Hu; simpl in *.
  - destruct u; simpl; [|done]. split; [|done]. intros ->. by destruct Hu as [?|[? _]].
  - destruct Hb as [? Hb]. split; [done|]. apply IH; [done|].
    destruct u; [|done]. destruct Hu as [?|[? Hn]]; [by left|right].
    by apply Forall_cons in Hn as [_ ?].
  - apply IH; [done|]. destruct u; [|done]. destruct Hu as [?|[? Hn]]; [by left|].
    by apply Forall_cons in Hn as [[] _].
Qed.

Lemma keys_data l : keys l = eventKey <$> (data <$> l).
Proof. unfold keys. by rewrite <-list_fmap_compose. Qed.

Lemma run_updates_suffix q c M :
  data <$> messages c `suffix_of` M →
  data <$> messages (foldl run_update c q) `suffix_of` view M q.
Proof.
  revert c M. induction q as [|[X|d] q IH]; intros c M Hs; simpl; [done|by apply IH|].
  apply IH. simpl. rewrite slice_last_fmap, fmap_app.
  etrans; [apply slice_last_suffix|]. simpl. by apply suffix_app.
Qed.

Lemma run_updates_seen q c :
  late_sets_empty true q → (∀ k, k ∈ keys (messages c) → k ∈ seenEventKeys c) →
  ∀ k, k ∈ keys (messages (foldl run_update c q)) → k ∈ seenEventKeys (foldl run_update c q).
Proof.
  revert c. induction q as [|[X|d] q IH]; intros c Hl Hk; simpl in *; [done|..].
  - destruct Hl as [Hx Hl]. apply IH; [done|]. rewrite (Hx eq_refl). simpl. set_solver.
  - apply IH; [done|]. simpl. intros k. rewrite elem_of_list_to_set. done.
Qed.

Lemma run_updates_seen_first q c :
  late_sets_empty false q →
  (∀ k, k ∈ eventKey <$> view (data <$> messages c) q → k ∈ seenEventKeys c) →
  ∀ k, k ∈ keys (messages (foldl run_update c q)) → k ∈ seenEventKeys (foldl run_update c q).
Proof.
  revert c. induction q as [|[X|d] q IH]; intros c Hl Hk; simpl in *.
  - intros k. rewrite keys_data. apply Hk.
  - destruct Hl as [_ Hl]. by apply IH.
  - apply run_updates_seen; [done|]. simpl. intros k. by rewrite elem_of_list_to_set.
Qed.

Definition dedup_ok (c : Conn) : Prop :=
  NoDup (eventKey <$> view (data <$> messages c) (queue c)) ∧
  (∀ k, k ∈ eventKey <$> view (data <$> messages c) (queue c) → k ∈ seenEventKeys c) ∧
  late_sets_empty false (queue c) ∧
  (hydrated c = false → no_append (queue c)) ∧
  Forall (λ lc, lc ≤ lifecycle c) (inflight c) ∧
  (hydrated c = true → lifecycle c ∉ inflight c) ∧
  NoDup (keys (messages c)).

Lemma dedup_initial : dedup_ok initial.
Proof.
  unfold dedup_ok; simpl. split; [constructor|]. split; [by intros k ?%elem_of_nil|].
  repeat split; try done; constructor.
Qed.

Lemma flush_dedup c : dedup_ok c → dedup_ok (flush c).
Proof.
  intros (Hn & Hk & Hl & Ha & Hi & Hh & Hm). pose proof (flush_same c) as Hs.
  unfold same_conn in Hs. destruct Hs as (_&_&_&_&_&Hhy&_&Hlc).
  assert (inflight (flush c) = inflight c) as Hin.
  { unfold flush; simpl. generalize (queue c). intros q. clear. revert c.
    induction q as [|u q IH]; intros c; simpl; [done|]. rewrite IH. by destruct u. }
  assert (NoDup (keys (messages (foldl run_update c (queue c))))) as Hnd.
  { rewrite keys_data. destruct (run_updates_suffix (queue c) c (data <$> messages c)) as [k E];
      [done|]. rewrite E, fmap_app in Hn. by apply NoDup_app in Hn as (_&_&?). }
  unfold dedup_ok. rewrite Hhy, Hlc, Hin. unfold flush; simpl. rewrite <-keys_data.
  split; [done|]. split; [by apply run_updates_seen_first|].
  repeat split; try done. by constructor.
Qed.

Lemma enqueue_dedup u c :
  dedup_ok c → u = USet [] → dedup_ok (enqueue u c).
Proof.
  intros (Hn & Hk & Hl & Ha & Hi & Hh & Hm) ->. unfold dedup_ok; simpl. rewrite view_snoc. simpl.
  split; [constructor|]. split; [by intros k ?%elem_of_nil|].
  split; [apply late_sets_snoc; [done|by left]|].
  split; [intros; apply Forall_snoc; [by apply Ha|done]|by repeat split].
Qed.

(** A change that leaves the list, its queue and the seen keys alone. *)
Lemma dedup_same c c' :
  messages c' = messages c → queue c' = queue c → seenEventKeys c' = seenEventKeys c →
  hydrated c' = hydrated c → inflight c' = inflight c → lifecycle c' = lifecycle c →
  dedup_ok c → dedup_ok c'.
Proof. unfold dedup_ok. by intros -> -> -> -> -> ->. Qed.

Lemma Forall_filter_keep {A} (P Q : A → Prop) `{!∀ x, Decision (Q x)} l :
  Forall P l → Forall P (filter Q l).
Proof. rewrite !Forall_forall. intros Hall x [_ ?]%list_elem_of_filter. auto. Qed.

Lemma hydrate_dedup lc h c :
  lc ∈ inflight c → dedup_ok c →
  dedup_ok (hydrateHistory lc h (set_inflight (filter (λ x, x ≠ lc) (inflight c)) c)).
Proof.
  intros Hlc (Hn & Hk & Hl & Ha & Hi & Hh & Hm). unfold hydrateHistory. simpl.
  assert (Forall (λ l, l ≤ lifecycle c) (filter (λ x, x ≠ lc) (inflight c))) as Hf
    by by apply Forall_filter_keep.
  destruct (negb (mounted c) || negb (lc =? lifecycle c)) eqn:E.
  { unfold dedup_ok; simpl. repeat split; try done.
    intros Hy [_ ?]%list_elem_of_filter. by apply Hh. }
  bool_to_prop. apply Z.eqb_eq in H0 as ->.
  destruct (hydrated c) eqn:Hy; [by destruct (Hh eq_refl)|].
  unfold dedup_ok; simpl. rewrite view_snoc, number_from_data.
  split; [apply hydrate_plan_NoDup|].
  split; [intros k; by rewrite elem_of_list_to_set|].
  repeat split; try done.
  - apply late_sets_snoc; auto.
  - intros _ [? ?]%list_elem_of_filter. done.
Qed.

Lemma onmessage_dedup d c : dedup_ok c → dedup_ok (onmessage d c).
Proof.
  intros Hd. unfold onmessage. destruct (negb (mounted c)); [done|].
  destruct (hydrated c) eqn:Hy; simpl; [|by apply (dedup_same c)].
  case_decide as Hin; [done|]. destruct Hd as (Hn & Hk & Hl & Ha & Hi & Hh & Hm).
  unfold dedup_ok; simpl. rewrite view_snoc, fmap_app. simpl.
  repeat split; try done.
  - apply NoDup_app. split; [done|]. split; [|apply NoDup_singleton].
    intros k Hk1 Hk2. apply list_elem_of_singleton in Hk2 as ->. apply Hin, Hk, Hk1.
  - intros k [Hk1|Hk2]%elem_of_app.
    + apply elem_of_union_l. by apply Hk.
    + apply elem_of_union_r, elem_of_singleton. by apply list_elem_of_singleton in Hk2.
  - by apply late_sets_snoc.
  - by rewrite Hy.
Qed.

Lemma apply_dedup c a : dedup_ok c → enabled c a → dedup_ok (apply c a).
Proof.
  intros Hd He. destruct a as [ok| | |d| | |ok|lc tok r| |]; simpl in He |- *.
  - unfold run_effect, connect, scheduleReconnect; simpl.
    destruct He as [_ Hy]. destruct Hd as (Hn & Hk & Hl & Ha & Hi & Hh & Hm).
    assert (Forall (λ l, l ≤ lifecycle c + 1) (inflight c ++ [lifecycle c + 1])).
    { apply Forall_snoc; [|lia]. eapply Forall_impl; [done|]. simpl. lia. }
    destruct ok; unfold dedup_ok; simpl; repeat split; try done; by rewrite Hy.
  - destruct Hd as (Hn & Hk & Hl & Ha & Hi & Hh & Hm). unfold dedup_ok; simpl.
    repeat split; try done.
    + eapply Forall_impl; [done|]. simpl. lia.
    + intros _ Hin. eapply Forall_forall in Hi; [|done]. simpl in Hi. lia.
  - unfold onopen. case_match; [done|]. by apply (dedup_same c).
  - by apply onmessage_dedup.
  - unfold onclose, scheduleReconnect; simpl. case_match; [done|]. by apply (dedup_same c).
  - unfold onerror. case_match; [done|]. by apply (dedup_same c).
  - unfold connect, scheduleReconnect; simpl.
    destruct ok; repeat case_match; by apply (dedup_same c).
  - by apply hydrate_dedup.
  - by apply enqueue_dedup.
  - by apply flush_dedup.
Qed.

Lemma reachable_conn_ok c : reachable c → conn_ok c.
Proof.
  induction 1; [|by apply apply_conn_ok]. unfold conn_ok; simpl.
  split; [by exists O|]. naive_solver.
Qed.

Lemma reachable_messages_ok c : reachable c → messages_ok c.
Proof.
  induction 1; [|by apply apply_messages_ok]. split; [apply good_list_nil|constructor].
Qed.

Lemma reachable_dedup c : reachable c → dedup_ok c.
Proof. induction 1; [apply dedup_initial|by apply apply_dedup]. Qed.

#[export] Hint Resolve reachable_conn_ok reachable_messages_ok reachable_dedup : console.

(** ** Properties *)

(** The provider never reports the demo mode. *)
Lemma status_is_live c : reachable c → status c ≠ mock.
Proof.
  induction 1 as [|c a Hc IH Ha]; [done|]. destruct (flush_same c) as (Fs & _).
  destruct a; try done; simpl apply; [..|by rewrite Fs];
    unfold apply, onopen, onmessage, onclose, onerror, hydrateHistory, connect, scheduleReconnect; simpl;
    repeat (case_match; simpl); try done. by destruct ok.
Qed.

(** C4: in every state the provider can reach there is one connection at a time:
    a socket excludes a pending reconnect, every reconnect delay is one of
    min(1000 * 2^n, 30000), nothing is pending once the provider is unmounted, and
    "connected" is only shown over a socket. *)
Theorem one_connection c : reachable c → conn_ok c.
Proof. apply reachable_conn_ok. Qed.

(** C3: in every reachable state the message list holds at most 2000 entries and
    their ids strictly increase, so a page that remembers the last id it consumed
    sees every later message once. *)
Theorem messages_bounded_increasing c :
  reachable c → (length (messages c) ≤ 2000)%nat ∧ StronglySorted Z.lt (ids (messages c)).
Proof. intros H. destruct (reachable_messages_ok c H) as [(Hl & Hs & _) _]. by split. Qed.

(** C1: no two listed messages ever describe the same event: reconnects, replayed
    history and messages buffered before hydration are never listed twice. *)
Theorem no_event_twice c : reachable c → NoDup (keys (messages c)).
Proof. intros H. by destruct (reachable_dedup c H) as (_&_&_&_&_&_&?). Qed.

Lemma slice_last_split {A} n (l : list A) : l = take (length l - n) l ++ slice_last n l.
Proof. symmetry. apply take_drop. Qed.

Definition plan_sorted (h b : list string) : list string := js_sort later (unique (h ++ b)).

Lemma plan_sorted_ok h b :
  Forall (λ d, eventTimestamp d ≠ NaN) (h ++ b) → sorted_by later (plan_sorted h b).
Proof.
  intros Hn. apply (js_sort_sorted later (λ d, eventTimestamp d ≠ NaN)).
  apply Forall_forall. intros d Hd%elem_of_unique. by eapply Forall_forall in Hn.
Qed.

(** C5: what hydration shows.  When no timestamp is NaN, the list made of the
    stored history and of the messages buffered meanwhile is sorted by timestamp,
    holds only given messages, one per key, at most 2000, and a given message is
    missing only when the last message with its key is not later than every
    message shown. *)
Theorem hydrate_plan_spec h b :
  Forall (λ d, eventTimestamp d ≠ NaN) (h ++ b) →
  let plan := hydrate_plan h b in
  sorted_by later plan ∧ NoDup (eventKey <$> plan) ∧ (length plan ≤ 2000)%nat ∧
  (∀ d, d ∈ plan → d ∈ h ++ b) ∧
  (∀ d, d ∈ h ++ b → ∃ d', eventKey d' = eventKey d ∧ d' ∈ unique (h ++ b) ∧
     (d' ∈ plan ∨ (length plan = 2000%nat ∧ ∀ e, e ∈ plan → later d' e = false))).
Proof.
  intros Hn plan. pose proof (plan_sorted_ok h b Hn) as Hs.
  pose proof (slice_last_split MAX_MESSAGES (plan_sorted h b)) as Hsp.
  split; [by apply slice_last_sorted|]. split; [apply hydrate_plan_NoDup|].
  split; [apply hydrate_plan_length|]. split.
  { intros d Hd%slice_last_elem%elem_of_js_sort. by apply elem_of_unique. }
  intros d Hd. destruct (unique_last d _ Hd) as (d' & Hu & Hk & _).
  exists d'. split; [done|]. split; [done|].
  assert (d' ∈ plan_sorted h b) as Hin by by apply elem_of_js_sort.
  rewrite Hsp in Hin. apply elem_of_app in Hin as [Hin|Hin]; [right|by left]. split.
  - unfold plan, hydrate_plan. rewrite slice_last_length. fold (plan_sorted h b).
    apply list_elem_of_lookup in Hin as [i Hi]. apply lookup_lt_Some in Hi.
    rewrite length_take in Hi. change 2000%nat with MAX_MESSAGES.
    revert Hi. generalize (length (plan_sorted h b)) MAX_MESSAGES. lia.
  - intros e He. unfold sorted_by in Hs. rewrite Hsp in Hs.
    exact (StronglySorted_app_1_elem_of _ _ _ _ _ Hs Hin He).
Qed.

(** The updates read nothing of the state but the list and the counter. *)
Lemma run_updates_list q c c' :
  messages c = messages c' → sequence c = sequence c' →
  messages (foldl run_update c q) = messages (foldl run_update c' q) ∧
  sequence (foldl run_update c q) = sequence (foldl run_update c' q).
Proof.
  revert c c'. induction q as [|u q IH]; intros c c' Hm Hs; simpl; [done|].
  apply IH; destruct u; simpl; congruence.
Qed.

(** What a flush makes of a live message: one whose key was not seen is the last
    of the list under a fresh id, the oldest entries falling out beyond 2000; one
    whose key was seen changes nothing. *)
Lemma message_flushed c d :
  mounted c = true → hydrated c = true →
  messages (flush (onmessage d c)) =
    if decide (eventKey d ∈ seenEventKeys c) then messages (flush c)
    else slice_last 2000 (messages (flush c) ++ [mkMsg (sequence (flush c) + 1) d]).
Proof.
  intros Hm Hh. unfold onmessage. rewrite Hm, Hh. simpl. case_decide; [done|].
  unfold flush, enqueue; simpl. rewrite foldl_app. simpl.
  match goal with |- context [foldl run_update (set_queue ?q ?c1) ?q1] =>
    destruct (run_updates_list q1 (set_queue q c1) c) as [-> ->]; done
  end.
Qed.

(** One failed attempt to reconnect: the timer fires, and either the socket closes
    again or its constructor throws. *)
Definition retry (c : Conn) (ok : bool) : Conn :=
  let c := apply c (TimerFires ok) in if ok then apply c Closed else c.

Lemma retry_timer n c ok :
  mounted c = true → backoff c = delay n →
  let c' := retry c ok in mounted c' = true ∧ timer c' = Some (delay n) ∧ backoff c' = delay (S n).
Proof.
  intros Hm Hb. unfold retry, apply, connect, onclose, scheduleReconnect.
  destruct ok; simpl; rewrite Hm; simpl; rewrite Hm; simpl; rewrite Hb, delay_S; done.
Qed.

Lemma retries_timer n c oks :
  mounted c = true → backoff c = delay (S n) → timer c = Some (delay n) →
  timer (foldl retry c oks) = Some (delay (n + length oks)%nat).
Proof.
  revert n c. induction oks as [|ok oks IH]; intros n c Hm Hb Ht; simpl.
  - by rewrite Nat.add_0_r.
  - destruct (retry_timer (S n) c ok Hm Hb) as (?&?&?).
    rewrite (IH (S n)) by done. do 2 f_equal. lia.
Qed.

(** C7: the reconnect schedule.  When an open connection is lost, and n attempts
    to restore it fail one after another, the next one is due after
    min(1000 * 2^n, 30000) milliseconds, whatever way each attempt failed. *)
Theorem backoff_schedule c oks :
  mounted c = true →
  timer (foldl retry (apply (apply c Opened) Closed) oks) =
    Some (Z.min (1000 * 2 ^ Z.of_nat (length oks)) 30000).
Proof.
  intros Hm. rewrite (retries_timer 0); [done|..];
    simpl; unfold onopen, onclose, scheduleReconnect; rewrite Hm; simpl; by rewrite ?Hm.
Qed.

Definition is_mount (a : action) : bool := match a with Mount _ => true | _ => false end.

Definition quiet (c : Conn) : Prop := mounted c = false ∧ ws c = false ∧ timer c = None.

Lemma apply_quiet c a : quiet c → is_mount a = false → quiet (apply c a).
Proof.
  intros (Hm & Hw & Ht) Ha. destruct (flush_same c) as (_&Fw&_&Ft&Fm&_).
  destruct a; try done; [..|by unfold quiet; simpl apply; rewrite Fw, Ft, Fm];
    unfold apply, onopen, onmessage, onclose, onerror, hydrateHistory, connect; simpl;
    rewrite Hm; unfold quiet; simpl; auto.
Qed.

(** After the cleanup nothing comes back: whatever callbacks still fire, until
    the effect runs again there is no socket, no reconnect timer, and no history
    or live message is added to the queue. *)
Lemma unmount_is_final c acts :
  Forall (λ a, is_mount a = false) acts →
  quiet (foldl apply (cleanup c) acts) ∧
  ∀ u, u ∈ queue (foldl apply (cleanup c) acts) → u = USet [] ∨ u ∈ queue c.
Proof.
  intros Ha. induction acts as [|a acts IH] using rev_ind; simpl; [split; [done|auto]|].
  apply Forall_app in Ha as [Ha [Hl _]%Forall_cons]. destruct (IH Ha) as [Hq Hu].
  rewrite foldl_app. simpl. split; [by apply apply_quiet|].
  destruct Hq as (Hm & Hw & Ht). destruct a; simpl; try done;
    unfold onopen, onmessage, onclose, onerror, hydrateHistory, connect; simpl;
    rewrite ?Hm; simpl; try done.
  - intros u [?|?%list_elem_of_singleton]%elem_of_app; auto.
  - by intros u ?%elem_of_nil.
Qed.

(** ** Witnesses *)

(** Mounted, opened, answered with no history, one message delivered. *)
Definition sample_line : string := jtext "{'eventType':'tcp_send','eventId':'ev-1'}".
Definition sample_actions : list action :=
  [Mount true; Opened; HistoryDone 1 None FetchFails; Message sample_line; Flush].
Definition sample_conn : Conn := foldl apply initial sample_actions.

Lemma sample_reachable : reachable sample_conn.
Proof.
  unfold sample_conn, sample_actions. cbn [foldl].
  repeat (apply reach_step; [|vm_compute; try tauto; auto; try set_solver]). constructor.
Qed.

Lemma one_connection_witness : reachable sample_conn ∧ conn_ok sample_conn.
Proof. split; [apply sample_reachable|]. apply (one_connection sample_conn), sample_reachable. Defined.

Lemma messages_bounded_increasing_witness :
  messages sample_conn = [mkMsg 1 sample_line] ∧ StronglySorted Z.lt (ids (messages sample_conn)).
Proof.
  split; [vm_compute; reflexivity|].
  apply (messages_bounded_increasing sample_conn sample_reachable).
Defined.

(** The same message again after a reconnect. *)
Definition repeated_conn : Conn :=
  foldl apply sample_conn [Closed; TimerFires true; Opened; Message sample_line; Flush].

Lemma repeated_reachable : reachable repeated_conn.
Proof.
  unfold repeated_conn. cbn [foldl].
  do 5 (apply reach_step; [|vm_compute; eauto]). apply sample_reachable.
Qed.

Lemma no_event_twice_witness :
  messages repeated_conn = [mkMsg 1 sample_line] ∧ NoDup (keys (messages repeated_conn)).
Proof.
  split; [vm_compute; reflexivity|]. apply (no_event_twice repeated_conn repeated_reachable).
Defined.

Definition line_at (t : string) : string := jtext ("{'timestampNs':" +:+ t +:+ ",'pid':1}").

Lemma hydrate_plan_spec_witness :
  hydrate_plan [line_at "30"; line_at "10"] [line_at "20"; line_at "10"] =
    [line_at "10"; line_at "20"; line_at "30"] ∧
  sorted_by later (hydrate_plan [line_at "30"; line_at "10"] [line_at "20"; line_at "10"]).
Proof.
  split; [vm_compute; reflexivity|].
  apply (hydrate_plan_spec [line_at "30"; line_at "10"] [line_at "20"; line_at "10"]).
  repeat constructor; vm_compute; discriminate.
Defined.

Lemma backoff_schedule_witness :
  timer (foldl retry (apply (apply sample_conn Opened) Closed) [true; false; true]) = Some 8000.
Proof.
  rewrite (backoff_schedule sample_conn [true; false; true]) by (vm_compute; reflexivity).
  vm_compute; reflexivity.
Defined.

Lemma unmount_is_final_witness :
  quiet (foldl apply (cleanup sample_conn) [Message "{}"; Errored; Clear; Flush]).
Proof.
  apply (unmount_is_final sample_conn [Message "{}"; Errored; Clear; Flush]).
  repeat constructor.
Defined.

(** ** Distinct events that share a key

    [eventKey] leaves the event id out and keeps the timestamp as a double: two
    events of the server a nanosecond apart, equal in their other fields, have one
    key, and only the first is listed. *)
Definition first_text : string := jtext
  "{'eventId':'evt-1','eventType':'sys_write','pid':4821,'timestampNs':1778207233000000001}".
Definition second_text : string := jtext
  "{'eventId':'evt-2','eventType':'sys_write','pid':4821,'timestampNs':1778207233000000002}".

(** The ten fields of either key, and the key itself. *)
Definition shared_fields : list jsval := Eval vm_compute in
  default [] (event ← json_parse first_text; mapM (λ ks, pick event ks (JStr "")) key_fields).

Definition shared_key : string := default "" (join_values ":" shared_fields).

Lemma eventKey_fields d vs k :
  (event ← json_parse d; mapM (λ ks, pick event ks (JStr "")) key_fields) = Some vs →
  join_values ":" vs = Some k → eventKey d = k.
Proof.
  unfold eventKey. destruct (json_parse d) as [v|]; [|done]. simpl. intros -> Hk. simpl. by rewrite Hk.
Qed.

Lemma eventKey_shared d : d = first_text ∨ d = second_text → eventKey d = shared_key.
Proof.
  intros Hd. apply (eventKey_fields d shared_fields).
  - destruct Hd as [-> | ->]; vm_compute; reflexivity.
  - unfold shared_key. assert (is_Some (join_values ":" shared_fields)) as [k ->]; [|done].
    apply join_values_is_Some. unfold shared_fields.
    repeat (apply Forall_cons; split; [eexists; reflexivity|]). apply Forall_nil_2.
Qed.

Example distinct_events_share_key c :
  mounted c = true → hydrated c = true → eventKey first_text ∈ seenEventKeys c →
  first_text ≠ second_text ∧ onmessage second_text c = c.
Proof.
  intros Hm Hh Hs. split; [by vm_compute|]. unfold onmessage. rewrite Hm, Hh. cbn [negb].
  rewrite decide_True; [done|]. by rewrite eventKey_shared in Hs |- * by auto.
Qed.
