(* ===== verification/EventsApi.v ===== *)
(** * api/handlers/events.go: the event history

    The other end of [hydrateHistory]: the handler of /api/events behind the
    token check of api/auth/interceptor.go.  The store it queries and the JSON Web
    Token library are parameters ([EventStore], [Jwt]).  The theorems say that a
    record reads the same from the history as from the socket: it has the same
    key, so it is listed once, and it is decoded the same way; and that the provider
    lists the newest records the store holds, oldest first, one for each key. *)

From S2P Require Import Prelude JsNumber JsString Json JsonRoundtrip Events WireEvent Connection.
Open Scope Z_scope.

Definition defaultEventLimit : Z := 500.
Definition maxEventLimit : Z := 2000.

(** The struct the handler encodes: its fields in order, as JSON.parse reads them. *)
Definition eventWire (event : KernelEventProto) : jsval :=
  JObj [("eventId", JStr (EventId event));
        ("timestampNs", JNum (of_Z (TimestampNs event)));
        ("pid", JNum (of_Z (Pid event)));
        ("tid", JNum (of_Z (Tid event)));
        ("cpu", JNum (of_Z (Cpu event)));
        ("eventType", JStr (EventType' event));
        ("transactionId", JStr (TransactionId event));
        ("serviceName", JStr (ServiceName event));
        ("traceId", JStr (TraceId event));
        ("spanId", JStr (SpanId event));
        ("durationNs", JNum (of_Z (DurationNs event)))].

(** ** The query *)

(** What [ch.Query] and the loop over its rows meet: the query fails, or each row
    scans or does not, and [rows.Err] may report that the rows ended early. *)
Inductive rows := QueryFails | Rows (scans : list (option KernelEventProto)) (err : bool).

(** The handler's query, by its limit. *)
Class EventStore := query : Z → rows.

(** [ORDER BY timestamp_ns DESC LIMIT n] on a table: [newest] is one order the
    store may answer in. *)
Definition newest_first (p q : KernelEventProto) : Prop := TimestampNs q ≤ TimestampNs p.

Class Answers (store : EventStore) (table newest : list KernelEventProto) := {
  newest_perm : newest ≡ₚ table;
  newest_sorted : StronglySorted newest_first newest;
  answered n : 0 ≤ n → query (EventStore := store) n = Rows (Some <$> take (Z.to_nat n) newest) false
}.

(** ** The handler *)

(** [strconv.Atoi]: an optional sign, digits, and 64 bits. *)
Definition signed (s : string) : bool * string :=
  match s with String "-" t => (true, t) | String "+" t => (false, t) | _ => (false, s) end.

Definition atoi (s : string) : option Z :=
  let '(neg, t) := signed s in
  let '(n, cnt, rest) := scan_digits 0 0 t in
  let z := if neg then - n else n in
  if (cnt =? 0) || negb (bool_decide (rest = "")) then None
  else if (- 2 ^ 63 <=? z) && (z <? 2 ^ 63) then Some z else None.

(** The limit asked for; [None] is a bad request. *)
Definition limit_of (raw : string) : option Z :=
  if decide (raw = "") then Some defaultEventLimit
  else
    match atoi raw with
    | None => None
    | Some parsed =>
        if parsed <? 1 then None
        else if maxEventLimit <? parsed then Some maxEventLimit else Some parsed
    end.

(** The swaps that turn the newest-first rows round, on the slice. *)
Fixpoint swap_loop {A} (fuel : nat) (events : list A) (left right : nat) : list A :=
  match fuel with
  | O => events
  | S fuel =>
      if (left <? right)%nat then
        match events !! left, events !! right with
        | Some a, Some b => swap_loop fuel (<[left := b]> (<[right := a]> events)) (S left) (right - 1)
        | _, _ => events
        end
      else events
  end.

Definition turn_round {A} (events : list A) : list A :=
  swap_loop (length events) events 0 (length events - 1).

(** Whether the method is GET, the Authorization header, the query parameters. *)
Record http_request := mkRequest {
  is_get : bool; authorization : string; params : list (string * string)
}.

Inductive response := Json (v : jsval) | HttpError (code : Z) (text : string).

(** [r.URL.Query().Get(k)]: the first value, or nothing. *)
Definition query_get (r : http_request) (k : string) : string :=
  default "" (snd <$> (p ← list_find (λ kv, kv.1 = k) (params r); Some p.2)).

Definition ServeHTTP (ch : option EventStore) (r : http_request) : response :=
  if negb (is_get r) then HttpError 405 "method not allowed"
  else
    match ch with
    | None => HttpError 503 "clickhouse is not configured"
    | Some store =>
        match limit_of (query_get r "limit") with
        | None => HttpError 400 "limit must be a positive integer"
        | Some limit =>
            match query (EventStore := store) limit with
            | QueryFails => HttpError 500 "event history query failed"
            | Rows scans err =>
                match mapM (λ s, s) scans with
                | None => HttpError 500 "event history scan failed"
                | Some events =>
                    if err : bool then HttpError 500 "event history query failed"
                    else Json (JObj [("events", JArr (eventWire <$> turn_round events))])
                end
            end
        end
    end.

(** ** The token check *)

(** [jwt.Parse] with the secret, HS256 and a required expiration. *)
Class Jwt := parse_ok : string → string → bool.

Definition trim_bearer (raw : string) : string :=
  String.substring 7 (String.length raw - 7) raw.

Definition ValidAuthorization `{Jwt} (raw apiToken jwtSecret : string) : bool :=
  if negb (starts_with raw "Bearer ") then false
  else
    let tokenStr := trim_bearer raw in
    bool_decide (tokenStr = apiToken) || parse_ok jwtSecret tokenStr.

Definition HTTPMiddleware `{Jwt} (apiToken jwtSecret : string) (next : http_request → response)
    (r : http_request) : response :=
  if negb (ValidAuthorization (authorization r) apiToken jwtSecret) then HttpError 401 "unauthorized"
  else next r.

(** The check of /ws: a browser cannot set the header of a socket. *)
Definition ValidWebSocketRequest `{Jwt} (raw access_token apiToken jwtSecret : string) : bool :=
  if ValidAuthorization raw apiToken jwtSecret then true
  else negb (bool_decide (access_token = "")) &&
    ValidAuthorization ("Bearer " +:+ access_token) apiToken jwtSecret.

(** ** The request of the provider *)

(** [fetch] in [hydrateHistory]. *)
Definition history_request (token : string) : http_request :=
  mkRequest true ("Bearer " +:+ token) [("limit", dec_of_nat MAX_MESSAGES)].

Definition outcome_of (r : response) : fetch_outcome :=
  match r with Json v => FetchOk (Some v) | HttpError _ _ => FetchNotOk end.

(** What the provider gets from the server for its token. *)
Definition fetch_history `{Jwt} (ch : option EventStore) (apiToken jwtSecret token : string) : fetch_outcome :=
  outcome_of (HTTPMiddleware apiToken jwtSecret (ServeHTTP ch) (history_request token)).

(** ** The slice is turned round *)

Lemma swap_loop_length {A} fuel (l : list A) i j : length (swap_loop fuel l i j) = length l.
Proof.
  revert l i j. induction fuel as [|fuel IH]; intros l i j; [done|]. simpl.
  destruct (i <? j)%nat; [|done]. destruct (l !! i), (l !! j); try done. by rewrite IH, !length_insert.
Qed.

(** What is between the ends is mirrored, the rest stays. *)
Lemma swap_loop_lookup {A} fuel (l : list A) i j k :
  (j < length l)%nat → (j < i + 2 * fuel)%nat →
  swap_loop fuel l i j !! k = if decide (i ≤ k ≤ j)%nat then l !! (i + j - k)%nat else l !! k.
Proof.
  revert l i j. induction fuel as [|fuel IH]; intros l i j Hj Hf; simpl.
  - rewrite decide_False by lia. done.
  - destruct (Nat.ltb_spec i j).
    + destruct (lookup_lt_is_Some_2 l i ltac:(lia)) as [a Ha], (lookup_lt_is_Some_2 l j Hj) as [b Hb].
      rewrite Ha, Hb, IH by (rewrite ?length_insert; lia).
      destruct (decide (S i ≤ k ≤ j - 1)%nat), (decide (i ≤ k ≤ j)%nat); try lia.
      * rewrite !list_lookup_insert_ne by lia. f_equal. lia.
      * assert (k = i ∨ k = j) as [->| ->] by lia.
        -- rewrite list_lookup_insert_eq by (rewrite length_insert; lia). rewrite <-Hb. f_equal. lia.
        -- rewrite list_lookup_insert_ne, list_lookup_insert_eq by lia. rewrite <-Ha. f_equal. lia.
      * by rewrite !list_lookup_insert_ne by lia.
    + case_decide; [|done]. f_equal. lia.
Qed.

Lemma turn_round_reverse {A} (l : list A) : turn_round l = reverse l.
Proof.
  unfold turn_round. apply list_eq. intros k. destruct l as [|a l]; [done|].
  set (n := length (a :: l)). assert (n ≠ 0)%nat by done.
  rewrite swap_loop_lookup by (fold n; lia). case_decide.
  - rewrite reverse_lookup by (fold n; lia). f_equal. fold n. lia.
  - rewrite !lookup_ge_None_2; [done|rewrite length_reverse; fold n; lia|fold n; lia].
Qed.

(** ** Texts of records *)

(** A record as the protocol buffers carry it: counters in the ranges of their Go
    types, strings of well-formed UTF-8. *)
Definition record_ok (p : KernelEventProto) : Prop :=
  proto_ok p ∧
  Forall (λ s, utf8_ok s = true)
    [EventId p; EventType' p; TransactionId p; ServiceName p; TraceId p; SpanId p].

(** The message a stored record becomes. *)
Definition history_text (p : KernelEventProto) : string := default "" (stringify (eventWire p)).

(** A message that carries a record: live, any text that parses to what
    [kernelEventWire] sends; or the text of the stored one. *)
Definition carries (p : KernelEventProto) (d : string) : Prop :=
  json_parse d = Some (kernelEventWire p) ∨ d = history_text p.

Lemma eventWire_encodes p : ∃ o, eventWire p = JObj o ∧ encodes o p.
Proof. eexists. split; [done|]. unfold encodes. by split_and!. Qed.

(** The members of a record, whatever their keys and their order. *)
Definition record_values (p : KernelEventProto) : list jsval :=
  (JNum ∘ of_Z <$> [TimestampNs p; DurationNs p; Pid p; Tid p; Cpu p]) ++
  (JStr <$> [EventId p; EventType' p; TransactionId p; ServiceName p; TraceId p; SpanId p]).

Lemma record_values_primitive p v : record_ok p → v ∈ record_values p → primitive v.
Proof.
  intros ((Hts & Hd & Hp & Ht & Hc) & Hs) [Hv|Hv]%elem_of_app.
  - apply list_elem_of_fmap in Hv as (z & -> & Hz). exists z. split; [done|]. revert z Hz.
    apply Forall_forall. repeat (apply Forall_cons; split; [lia|]). by apply Forall_nil.
  - apply list_elem_of_fmap in Hv as (s & -> & Hin). rewrite Forall_forall in Hs. by apply Hs.
Qed.

Lemma record_object p o :
  record_ok p → o.*2 ⊆ record_values p →
  Forall (λ k, utf8_ok k = true ∧ index_key k = None) o.*1 → NoDup o.*1 →
  let t := default "" (stringify (JObj o)) in
  stringify (JObj o) = Some t ∧ json_parse t = Some (JObj o).
Proof.
  intros Hp Hv Hk Hn. destruct (json_flat_roundtrip o) as (t & Ht & Hparse); [|done|].
  - rewrite Forall_fmap in Hk. rewrite Forall_forall in Hk |- *. intros kv Hkv.
    destruct (Hk kv Hkv) as [Ha Hi]. split_and!; [done|done|].
    apply (record_values_primitive p); [done|]. by apply Hv, list_elem_of_fmap_2.
  - by rewrite Ht.
Qed.

#[local] Ltac flat_record p :=
  apply (record_object p); cbn;
  [done | set_solver | repeat (apply Forall_cons; split; [done|]); by apply Forall_nil
  | by apply (bool_decide_unpack _)].

Lemma history_text_parses p :
  record_ok p → stringify (eventWire p) = Some (history_text p) ∧
  json_parse (history_text p) = Some (eventWire p).
Proof. intros Hp. flat_record p. Qed.

(** The live message reads back the same way. *)
Lemma live_text_parses p :
  record_ok p → json_parse (default "" (stringify (kernelEventWire p))) = Some (kernelEventWire p).
Proof. intros Hp. flat_record p. Qed.

(** The values [eventKey] joins. *)
Definition key_values (p : KernelEventProto) : list jsval :=
  [JNum (of_Z (TimestampNs p)); JStr (EventType' p); JNum (of_Z (Pid p)); JNum (of_Z (Tid p));
   JNum (of_Z (Cpu p)); JStr (TransactionId p); JStr (ServiceName p); JStr (TraceId p);
   JStr (SpanId p); JNum (of_Z (DurationNs p))].

Definition record_key (p : KernelEventProto) : string := default "" (join_values ":" (key_values p)).

Lemma key_joins p : join_values ":" (key_values p) = Some (record_key p).
Proof. unfold record_key. by destruct (join_values_is_Some ":" (key_values p)) as [k ->]; [repeat constructor|]. Qed.

Lemma eventKey_parsed d v p :
  v = kernelEventWire p ∨ v = eventWire p → json_parse d = Some v →
  eventKey d = record_key p ∧ eventTimestamp d = of_Z (TimestampNs p).
Proof.
  intros Hv Hd. unfold eventKey, eventTimestamp. rewrite Hd. cbn [mbind option_bind].
  assert (mapM (λ ks, pick v ks (JStr "")) key_fields = Some (key_values p)) as ->
    by by destruct Hv as [->| ->].
  cbn [mbind option_bind]. rewrite key_joins. split; [done|]. by destruct Hv as [->| ->].
Qed.

Lemma carries_key p d : record_ok p → carries p d →
  eventKey d = record_key p ∧ eventTimestamp d = of_Z (TimestampNs p).
Proof.
  intros Hp [Hd| ->]; [eapply eventKey_parsed; [by left|done]|].
  eapply eventKey_parsed; [by right|]. by apply history_text_parses.
Qed.

(** ** What hydration lists *)

Lemma later_of_Z d1 d2 a b :
  eventTimestamp d1 = of_Z a → eventTimestamp d2 = of_Z b → a ≤ b → later d1 d2 = false.
Proof.
  intros H1 H2 Hab. unfold later. rewrite H1, H2, positive_nsub_nlt by apply of_Z_not_nan.
  rewrite nlt_nle by apply of_Z_not_nan. by rewrite of_Z_mono.
Qed.

(** An entry of the map of [hydrateHistory] under the key of its record. *)
Definition filed (p : KernelEventProto) (kv : string * string) : Prop :=
  kv.1 = record_key p ∧ carries p kv.2.

Lemma filed_set ps m p d :
  NoDup (record_key <$> ps) → Forall2 filed ps m → p ∈ ps → carries p d →
  Forall2 filed ps (map_set (record_key p) d m).
Proof.
  intros Hn Hf Hp Hd. induction Hf as [|q [k v] ps m [Hk Hv] Hf IH]; [by apply elem_of_nil in Hp|].
  cbn [fst snd] in *. subst k. apply NoDup_cons in Hn as [Hq Hn]. cbn [map_set]. case_decide as Hkq.
  - constructor; [|done]. split; [done|]. cbn [snd].
    apply elem_of_cons in Hp as [->|Hp]; [done|]. exfalso. apply Hq. rewrite <-Hkq. by apply list_elem_of_fmap_2.
  - apply elem_of_cons in Hp as [->|Hp]; [done|]. constructor; [done|]. by apply IH.
Qed.

Lemma history_keys ps : Forall record_ok ps → eventKey <$> (history_text <$> ps) = record_key <$> ps.
Proof.
  intros Hok. rewrite <-list_fmap_compose. apply list_fmap_ext. intros i p Hp.
  apply carries_key; [|by right]. rewrite Forall_forall in Hok. apply Hok. by eapply list_elem_of_lookup_2.
Qed.

Lemma filed_unique ps buffered :
  Forall record_ok ps → NoDup (record_key <$> ps) →
  Forall (λ d, ∃ p, p ∈ ps ∧ carries p d) buffered →
  Forall2 carries ps (unique ((history_text <$> ps) ++ buffered)).
Proof.
  intros Hok Hn Hb. unfold unique. set (entry := λ d : string, (eventKey d, d)).
  enough (Forall2 filed ps (map_of (entry <$> ((history_text <$> ps) ++ buffered)))) as Hf.
  { apply Forall2_fmap_r. eapply Forall2_impl; [exact Hf|]. by intros p kv [_ ?]. }
  induction buffered as [|d buffered IH] using rev_ind.
  - rewrite app_nil_r, <-list_fmap_compose.
    assert ((entry ∘ history_text <$> ps).*1 = record_key <$> ps) as Hk.
    { rewrite <-(history_keys ps Hok). clear. induction ps as [|p ps IH]; [done|].
      rewrite !fmap_cons, IH. unfold compose, entry. cbn [fst]. done. }
    rewrite map_of_id by by rewrite Hk. clear Hk Hn Hb. induction Hok as [|p ps Hp Hok IH]; [constructor|].
    constructor; [|exact IH]. split; [|by right]. by apply carries_key; [|right].
  - apply Forall_app in Hb as [Hb Hd]. apply Forall_cons in Hd as [(p & Hp & Hd) _].
    rewrite app_assoc, fmap_app. change (entry <$> [d]) with [entry d]. rewrite map_of_snoc.
    rewrite Forall_forall in Hok. destruct (carries_key p d (Hok p Hp) Hd) as [Hkey _].
    cbn [fst snd entry]. rewrite Hkey. apply filed_set; [done|by apply IH|done..].
Qed.

Lemma hydrate_plan_records ps buffered :
  Forall record_ok ps → NoDup (record_key <$> ps) →
  StronglySorted (λ p q, TimestampNs p ≤ TimestampNs q) ps → (length ps ≤ MAX_MESSAGES)%nat →
  Forall (λ d, ∃ p, p ∈ ps ∧ carries p d) buffered →
  Forall2 carries ps (hydrate_plan (history_text <$> ps) buffered).
Proof.
  intros Hok Hn Hs Hl Hb. pose proof (filed_unique ps buffered Hok Hn Hb) as Hf.
  unfold hydrate_plan. set (l := unique _) in *. clearbody l.
  rewrite js_sort_id; [rewrite slice_last_all; [done|by rewrite <-(Forall2_length _ _ _ Hf)]|].
  clear Hb Hn Hl. induction Hf as [|p d ps l Hpd Hf IH]; [constructor|].
  apply Forall_cons in Hok as [Hp Hok]. apply StronglySorted_inv in Hs as [Hs Hle].
  constructor; [by apply IH|]. clear IH Hs.
  induction Hf as [|q d' ps l Hqd Hf IH]; [constructor|].
  apply Forall_cons in Hok as [Hq Hok]. apply Forall_cons in Hle as [Hpq Hle].
  constructor; [|by apply IH].
  exact (later_of_Z d d' _ _ (proj2 (carries_key p d Hp Hpd)) (proj2 (carries_key q d' Hq Hqd)) Hpq).
Qed.

(** When its keys are no more than the list holds, a plan drops none. *)
Lemma unique_keys l k : k ∈ eventKey <$> unique l ↔ k ∈ eventKey <$> l.
Proof.
  rewrite !list_elem_of_fmap. split; intros (d & -> & Hd).
  - apply elem_of_unique in Hd. by exists d.
  - destruct (unique_last d l Hd) as (d' & Hd' & Hk & _). by exists d'.
Qed.

Lemma hydrate_plan_keys h b :
  (size (list_to_set (eventKey <$> (h ++ b)) : gset string) ≤ MAX_MESSAGES)%nat →
  ∀ k, k ∈ eventKey <$> hydrate_plan h b ↔ k ∈ eventKey <$> (h ++ b).
Proof.
  intros Hsz k. unfold hydrate_plan. rewrite slice_last_all.
  - rewrite js_sort_perm. apply unique_keys.
  - rewrite js_sort_perm, <-(length_fmap eventKey), <-(size_list_to_set (C := gset string)) by apply unique_keys_NoDup.
    etrans; [|exact Hsz]. apply Nat.eq_le_incl. f_equal. apply set_eq. intros i.
    by rewrite !elem_of_list_to_set, unique_keys.
Qed.

(** ** The server's answer *)

Lemma atoi_dec z : 0 ≤ z < 2 ^ 63 → atoi (dec_of_Z z) = Some z.
Proof.
  intros Hz. destruct (dec_value z ltac:(lia)) as (d & -> & Hv & Hd).
  destruct (first_digit d (normal_cons d Hd)) as (c & t & Hs & Hc & _).
  pose proof (scan_uint d 0 0 "") as Hscan. rewrite app_nil_s, Hv in Hscan.
  assert (0 < uint_length d) as Hl.
  { pose proof (normal_cons d Hd). pose proof uint_length_nonneg as H0.
    destruct d; cbn [uint_length]; try done; match goal with |- 0 < 1 + uint_length ?l => pose proof (H0 l); lia end. }
  unfold atoi. rewrite Hs in *.
  assert (signed (String c t) = (false, String c t)) as -> by by destruct c as [[] [] [] [] [] [] [] []].
  rewrite Hscan. cbn [scan_digits]. destruct (Z.eqb_spec (0 + uint_length d) 0); [lia|].
  cbn [orb]. rewrite bool_decide_true by done. cbn [negb].
  by destruct (Z.leb_spec (- 2 ^ 63) z), (Z.ltb_spec z (2 ^ 63)); try lia.
Qed.

(** A positive limit is asked for as it is, up to 2000. *)
Lemma limit_of_dec z : 1 ≤ z < 2 ^ 63 → limit_of (dec_of_Z z) = Some (Z.min z maxEventLimit).
Proof.
  intros Hz. unfold limit_of. rewrite decide_False, atoi_dec by (try lia; intros E;
    destruct (dec_value z ltac:(lia)) as (d & Hd & _ & Hn); rewrite E in Hd;
    by destruct d; [apply normal_cons in Hn|..]).
  destruct (Z.ltb_spec z 1); [lia|]. destruct (Z.ltb_spec maxEventLimit z); f_equal; lia.
Qed.

Lemma bearer_token `{Jwt} token apiToken jwtSecret :
  ValidAuthorization ("Bearer " +:+ token) apiToken jwtSecret =
  bool_decide (token = apiToken) || parse_ok jwtSecret token.
Proof.
  unfold ValidAuthorization, trim_bearer. rewrite starts_with_app. cbn [negb].
  change 7%nat with (String.length "Bearer "). rewrite substring_app, substring_all; [done|].
  rewrite length_string_app. lia.
Qed.

Section history.
Context `{Jwt}.

(** The server takes the token: it is the configured one, or a valid JWT. *)
Definition accepted (apiToken jwtSecret token : string) : Prop :=
  token ≠ "" ∧ (token = apiToken ∨ parse_ok jwtSecret token = true).

(** The socket and the history take the same tokens. *)
Lemma socket_accepted apiToken jwtSecret token :
  ValidWebSocketRequest "" token apiToken jwtSecret = true ↔ accepted apiToken jwtSecret token.
Proof.
  unfold ValidWebSocketRequest, accepted. rewrite bearer_token. cbn [ValidAuthorization starts_with negb].
  rewrite andb_true_iff, orb_true_iff, negb_true_iff, bool_decide_eq_false, bool_decide_eq_true. done.
Qed.

Lemma fetch_history_answer (store : EventStore) apiToken jwtSecret token :
  fetch_history (Some store) apiToken jwtSecret token =
  if bool_decide (token = apiToken) || parse_ok jwtSecret token then
    outcome_of (match query (EventStore := store) maxEventLimit with
      | QueryFails => HttpError 500 "event history query failed"
      | Rows scans err =>
          match mapM (λ s, s) scans with
          | None => HttpError 500 "event history scan failed"
          | Some events =>
              if err : bool then HttpError 500 "event history query failed"
              else Json (JObj [("events", JArr (eventWire <$> turn_round events))])
          end
      end)
  else FetchNotOk.
Proof.
  unfold fetch_history, HTTPMiddleware. cbn [authorization history_request].
  rewrite bearer_token. destruct (_ || _); [|done]. cbn [negb]. unfold ServeHTTP.
  assert (limit_of (query_get (history_request token) "limit") = Some maxEventLimit) as -> by done. done.
Qed.

(** The newest records of the store, oldest first. *)
Definition newest_records (newest : list KernelEventProto) : list KernelEventProto :=
  reverse (take MAX_MESSAGES newest).

Lemma historical_records store table newest apiToken jwtSecret token :
  Answers store table newest → Forall record_ok table → accepted apiToken jwtSecret token →
  historical (Some token) (fetch_history (Some store) apiToken jwtSecret token) =
  history_text <$> newest_records newest.
Proof.
  intros Hst Hok [Hne Hacc]. rewrite fetch_history_answer.
  assert (bool_decide (token = apiToken) || parse_ok jwtSecret token = true) as ->.
  { destruct Hacc as [->| ->]; [by rewrite bool_decide_true|by rewrite orb_true_r]. }
  rewrite (answered maxEventLimit) by done.
  rewrite (proj2 (mapM_Some (λ s, s) (Some <$> _) (take (Z.to_nat maxEventLimit) newest)))
    by (apply Forall2_fmap_l, Forall_Forall2_diag, Forall_true; done).
  rewrite turn_round_reverse. cbn [outcome_of historical]. rewrite decide_False by done.
  change (get (JObj [("events", ?v)]) "events") with (Some v). cbv iota.
  change (Z.to_nat maxEventLimit) with MAX_MESSAGES. fold (newest_records newest).
  rewrite <-list_fmap_compose. apply list_fmap_ext. intros i p Hp. unfold compose.
  assert (p ∈ table) as Hin.
  { rewrite <-newest_perm. apply list_elem_of_lookup_2 in Hp. unfold newest_records in Hp.
    rewrite elem_of_reverse in Hp. by eapply elem_of_take in Hp as (? & ?%list_elem_of_lookup_2 & _). }
  rewrite Forall_forall in Hok. by destruct (history_text_parses p (Hok p Hin)) as [-> _].
Qed.

Lemma newest_records_sorted store table newest :
  Answers store table newest →
  StronglySorted (λ p q, TimestampNs p ≤ TimestampNs q) (newest_records newest).
Proof.
  intros Hst. pose proof newest_sorted as Hs. unfold newest_records.
  rewrite <-(take_drop MAX_MESSAGES newest) in Hs. apply StronglySorted_app_1_l in Hs.
  induction Hs as [|p l Hs IH Hle]; [constructor|]. rewrite reverse_cons.
  apply StronglySorted_snoc; [done|]. apply Forall_reverse. exact Hle.
Qed.

(** The request ends, and React applies what it queued. *)
Lemma hydrated_messages c lc h :
  mounted c = true → lc = lifecycle c →
  data <$> messages (flush (hydrateHistory lc h c)) = hydrate_plan h (bufferedLive c).
Proof.
  intros Hm ->. unfold hydrateHistory. rewrite Hm, Z.eqb_refl. cbn [negb orb]. unfold flush.
  cbn [queue]. rewrite foldl_app. cbn [foldl run_update messages set_queue]. apply number_from_data.
Qed.

Lemma newest_records_ok table newest :
  newest ≡ₚ table → Forall record_ok table → Forall record_ok (newest_records newest).
Proof. intros Hp Hok. apply Forall_reverse, Forall_take. by rewrite Hp. Qed.

Lemma newest_records_length newest : (length (newest_records newest) ≤ MAX_MESSAGES)%nat.
Proof. unfold newest_records. rewrite length_reverse, length_take. lia. Qed.

Lemma records_timed ps : Forall record_ok ps → Forall (λ d, eventTimestamp d ≠ NaN) (history_text <$> ps).
Proof.
  intros Hok. apply Forall_fmap. eapply Forall_impl; [exact Hok|]. intros p Hp. simpl.
  destruct (carries_key p _ Hp (or_intror eq_refl)) as [_ ->]. apply of_Z_not_nan.
Qed.

(** C6: what the console lists once the history request is over, when the server
    accepts the token and its store, whose records have well-formed strings and
    counters of the Go types' ranges, answers the query.  Among the newest 2000
    records of the store and the live messages that came while the request was
    under way, records with one key count as one: no key is listed twice.  Every
    message listed carries one of those records or is one of those live messages;
    they go from the oldest to the newest, provided the live messages have a
    timestamp; and every key is listed if there are at most 2000 of them.  In
    particular, when the keys of the newest records differ and the live messages
    are copies of them, exactly the newest 2000 records are listed, oldest first,
    one message each. *)
Theorem history_listed store table newest apiToken jwtSecret token c :
  Answers store table newest → Forall record_ok table →
  accepted apiToken jwtSecret token → mounted c = true →
  let records := newest_records newest in
  let live := bufferedLive c in
  let listed := messages (flush (apply c (HistoryDone (lifecycle c) (Some token)
    (fetch_history (Some store) apiToken jwtSecret token)))) in
  NoDup (keys listed) ∧
  Forall (λ m, (∃ p, p ∈ records ∧ carries p (data m)) ∨ data m ∈ live) listed ∧
  (Forall (λ d, eventTimestamp d ≠ NaN) live → sorted_by later (data <$> listed)) ∧
  ((size (list_to_set ((record_key <$> records) ++ (eventKey <$> live)) : gset string) ≤ 2000)%nat →
    ∀ k, k ∈ keys listed ↔ k ∈ record_key <$> records ∨ k ∈ eventKey <$> live) ∧
  (NoDup (record_key <$> records) → Forall (λ d, ∃ p, p ∈ records ∧ carries p d) live →
    Forall2 (λ p m, carries p (data m)) records listed).
Proof.
  intros Hst Hok Hacc Hm records live listed.
  pose proof (newest_records_ok table newest newest_perm Hok) as Hrec. fold records in Hrec.
  assert (data <$> listed = hydrate_plan (history_text <$> records) live) as Hl.
  { subst listed. cbn [apply]. rewrite (historical_records store table newest) by done. by apply hydrated_messages. }
  assert (keys listed = eventKey <$> hydrate_plan (history_text <$> records) live) as Hk
    by (rewrite <-Hl, <-list_fmap_compose; done).
  split_and!.
  - rewrite Hk. apply hydrate_plan_NoDup.
  - apply (Forall_fmap data (λ d, (∃ p, p ∈ records ∧ carries p d) ∨ d ∈ live)). rewrite Hl.
    apply Forall_forall. intros d [Hd|Hd]%slice_last_elem%elem_of_js_sort%elem_of_unique%elem_of_app; [left|by right].
    apply list_elem_of_fmap in Hd as (p & -> & Hp). exists p. split; [done|by right].
  - intros Ht. rewrite Hl. apply slice_last_sorted, plan_sorted_ok, Forall_app. split; [by apply records_timed|done].
  - intros Hsz k. rewrite Hk, hydrate_plan_keys by by rewrite fmap_app, history_keys.
    by rewrite fmap_app, history_keys, elem_of_app.
  - intros Hn Hb. rewrite <-(Forall2_fmap_r data carries), Hl.
    apply hydrate_plan_records; [done|done|by eapply newest_records_sorted|apply newest_records_length|done].
Qed.

(** Without the history the live stream goes on.  When the server rejects the
    token, has no store, or the query or one of its rows fails, the answer is an
    error status, and hydration lists the messages that came meanwhile and nothing
    else. *)
Lemma history_refused ch apiToken jwtSecret token c :
  (∀ store, ch = Some store →
     match query (EventStore := store) maxEventLimit with
     | QueryFails => True | Rows scans err => None ∈ scans ∨ err = true
     end) ∨ (token ≠ apiToken ∧ parse_ok jwtSecret token = false) →
  mounted c = true →
  let r := fetch_history ch apiToken jwtSecret token in
  r = FetchNotOk ∧
  data <$> messages (flush (apply c (HistoryDone (lifecycle c) (Some token) r))) =
    hydrate_plan [] (bufferedLive c).
Proof.
  intros Hf Hm r. assert (r = FetchNotOk) as ->.
  - subst r. destruct ch as [store|].
    + rewrite fetch_history_answer. destruct (_ || _) eqn:Ea; [|done].
      destruct Hf as [Hf|[Hne Hp]]; [|by rewrite bool_decide_false, Hp in Ea].
      specialize (Hf store eq_refl). destruct (query _) as [|scans err]; [done|].
      destruct (mapM _ scans) eqn:Em; [|done]. destruct Hf as [Hf| ->]; [|done].
      apply mapM_Some in Em. apply list_elem_of_lookup in Hf as [i Hi].
      by destruct (Forall2_lookup_l _ _ _ _ _ Em Hi) as (p & _ & ?).
    + unfold fetch_history, HTTPMiddleware. by destruct (negb _).
  - split; [done|]. exact (hydrated_messages (set_inflight _ c) (lifecycle c) [] Hm eq_refl).
Qed.
End history.

(** ** The history and the stream agree *)

(** C2: a record of the event store reaches the console once, whichever way it
    comes.  For any record with well-formed strings and counters of the Go types'
    ranges, in every reachable state two listed messages that carry the same record,
    as the live stream encodes it or as the stored history does, are the same
    message. *)
Theorem record_listed_once c p m1 m2 :
  reachable c → record_ok p → m1 ∈ messages c → m2 ∈ messages c →
  carries p (data m1) → carries p (data m2) → m1 = m2.
Proof.
  intros Hc Hp H1 H2 Hd1 Hd2. destruct (reachable_dedup c Hc) as (_&_&_&_&_&_&Hn).
  apply list_elem_of_lookup in H1 as [i Hi], H2 as [j Hj].
  assert (∀ k m, messages c !! k = Some m → keys (messages c) !! k = Some (eventKey (data m))) as Hk
    by (intros k m Hm; unfold keys; by rewrite list_lookup_fmap, Hm).
  assert (i = j) as <-; [|congruence]. eapply NoDup_lookup; [exact Hn|by apply Hk|].
  rewrite (Hk j m2 Hj). f_equal.
  by rewrite (proj1 (carries_key p _ Hp Hd1)), (proj1 (carries_key p _ Hp Hd2)).
Qed.

(** C16: the text of a stored record says what the live message says.  For any record
    with well-formed strings and counters of the Go types' ranges, it reads back as
    the object the server sent, under the same key and at the same time as any live
    text of the record, and [mapWireEvent] makes of it exactly what it makes of the
    live one: the same event, or the same refusal when the type is unknown or the
    timestamp is 0.  64-bit timestamps and durations above 2^53 are included, though
    they were printed with the shortest digits that read back. *)
Theorem stored_as_live `{Host} p fb :
  record_ok p →
  json_parse (history_text p) = Some (eventWire p) ∧
  mapWireEvent (eventWire p) fb = outcome_of_proto p ∧
  mapWireEvent (kernelEventWire p) fb = outcome_of_proto p ∧
  ∀ d, json_parse d = Some (kernelEventWire p) →
    eventKey d = eventKey (history_text p) ∧ eventTimestamp d = eventTimestamp (history_text p).
Proof.
  intros Hp. split; [by apply history_text_parses|]. split_and!.
  - destruct (eventWire_encodes p) as (o & -> & Ho). destruct Hp as [Hp _]. by apply mapWireEvent_encoded.
  - destruct Hp as [Hp _]. by apply mapWireEvent_live.
  - intros d Hd. destruct (carries_key p d Hp (or_introl Hd)) as [-> ->].
    by destruct (carries_key p (history_text p) Hp (or_intror eq_refl)) as [-> ->].
Qed.

(** ** Witnesses *)

#[local] Existing Instance utc.

Definition open_jwt : Jwt := λ secret token, bool_decide (token = "jwt-of-" +:+ secret).

Definition first_record : KernelEventProto :=
  mkProto "evt-1" 1000 7 "tcp_send" "" "db" "" 0 7 1 "".
Definition second_record : KernelEventProto :=
  mkProto "evt-2" 2000 7 "tcp_recv" "" "db" "" 0 7 1 "".

(** The live message of [second_record]. *)
Definition live_text : string := jtext
  ("{'cpu':1,'durationNs':0,'eventId':'evt-2','eventType':'tcp_recv','pid':7,'serviceName':'db'," +:+
   "'spanId':'','tid':7,'timestampNs':2000,'traceId':'','transactionId':''}").

Definition two_rows : EventStore :=
  λ n, Rows (Some <$> take (Z.to_nat n) [second_record; first_record]) false.

Lemma two_rows_answer : Answers two_rows [first_record; second_record] [second_record; first_record].
Proof.
  split; [by apply Permutation_swap| |done].
  repeat constructor. unfold newest_first. simpl. lia.
Qed.

Lemma two_records_ok : Forall record_ok [first_record; second_record].
Proof. repeat (constructor; [split; [unfold proto_ok; cbn; lia|repeat constructor]|]). constructor. Qed.

Lemma live_text_carries : carries second_record live_text.
Proof. left. vm_compute. reflexivity. Qed.

(** The live message arrives while the history is asked for. *)
Definition hydrating : Conn := foldl apply initial [Mount true; Opened; Message live_text].

Lemma history_listed_witness :
  Forall2 (λ p m, carries p (data m)) [first_record; second_record]
    (messages (flush (apply hydrating (HistoryDone (lifecycle hydrating) (Some "api")
      (fetch_history (H := open_jwt) (Some two_rows) "api" "secret" "api"))))).
Proof.
  destruct (history_listed (H := open_jwt) two_rows [first_record; second_record]
    [second_record; first_record] "api" "secret" "api" hydrating two_rows_answer two_records_ok)
    as (_ & _ & _ & _ & Hexact).
  - split; [done|by left].
  - reflexivity.
  - apply Hexact.
    + apply (bool_decide_unpack _). vm_compute. reflexivity.
    + apply Forall_cons. split; [|by apply Forall_nil]. exists second_record.
      split; [right; left|exact live_text_carries].
Defined.

Lemma history_refused_witness :
  fetch_history (H := open_jwt) None "api" "secret" "api" = FetchNotOk ∧
  data <$> messages (flush (apply hydrating (HistoryDone (lifecycle hydrating) (Some "api")
    (fetch_history (H := open_jwt) None "api" "secret" "api")))) = hydrate_plan [] [live_text].
Proof.
  apply (history_refused (H := open_jwt) None "api" "secret" "api" hydrating); [by left|reflexivity].
Defined.

Definition listed : Conn :=
  foldl apply initial [Mount true; Opened; Message live_text; HistoryDone 1 None FetchFails; Flush].

Lemma record_listed_once_witness :
  ∃ m, m ∈ messages listed ∧ ∀ m', m' ∈ messages listed → carries second_record (data m') → m' = m.
Proof.
  exists (mkMsg 1 live_text). assert (messages listed = [mkMsg 1 live_text]) as Hl by (vm_compute; reflexivity).
  assert (mkMsg 1 live_text ∈ messages listed) as Hm by (rewrite Hl; left). split; [exact Hm|].
  intros m' Hm' Hd. apply (record_listed_once listed second_record m' (mkMsg 1 live_text)).
  - unfold listed. cbn [foldl]. do 5 (apply reach_step; [|first [by split|done|vm_compute; left]]). apply reach_initial.
  - exact (proj1 (Forall_cons_1 _ _ _ (proj2 (Forall_cons_1 _ _ _ two_records_ok)))).
  - exact Hm'.
  - exact Hm.
  - exact Hd.
  - exact live_text_carries.
Defined.

Lemma stored_as_live_witness :
  2 ^ 53 < TimestampNs sample_proto ∧
  json_parse (history_text sample_proto) = Some (eventWire sample_proto) ∧
  mapWireEvent (eventWire sample_proto) 1 = Return (event_of_proto sys_write sample_proto).
Proof.
  split; [reflexivity|].
  destruct (stored_as_live sample_proto 1) as (H1 & H2 & _); [|split; [exact H1|exact H2]].
  split; [unfold proto_ok; cbn; lia|repeat constructor].
Defined.
