(* ===== verification/Hub.v ===== *)
(** * api/stream/hub.go and the /ws handler of api/main.go: the live stream's server

    Every socket has a goroutine that subscribes a channel of 256 events, writes
    what it receives and unsubscribes when it is done; [Broadcast] goes through the
    subscribed channels under the read lock and passes over the full ones.  The
    goroutines interleave: [hub_step] is one atomic action of one of them, a
    visit of one channel by one call of [Broadcast] or a critical section under
    the write lock, which waits for the calls in progress.  [offered], [since] and
    [started] only record what happened, for the theorems. *)

From S2P Require Import Prelude.

(** [make(chan, 256)]. *)
Definition CHANNEL_CAP : nat := 256.

Section hub.
Context {E : Type}.
Implicit Types (e : E) (ch : nat).

(** The goroutine of a socket: it serves, has returned, has removed its channel
    from the map, has closed it. *)
Inductive phase := Serving | Leaving | Removed | Closed.

Record Chan := mkChan {
  buffer : list E;              (* sent and not received yet *)
  written : list E;             (* written to the socket, oldest first *)
  at_phase : phase;
  offered : list (E * nat);     (* each event [Broadcast] tried, with the length of the buffer then *)
  since : nat                   (* how many broadcasts had begun when it subscribed *)
}.

Record Hub := mkHub {
  subscribers : gset nat;
  readers : list (E * gset nat);   (* calls of [Broadcast] in progress: the channels left to visit *)
  chans : gmap nat Chan;
  started : list E;                (* the events whose broadcast has begun *)
  panicked : bool
}.

Definition NewHub : Hub := mkHub ∅ [] ∅ [] false.

Definition set_chan ch (c : Chan) (h : Hub) : Hub :=
  mkHub (subscribers h) (readers h) (<[ch := c]> (chans h)) (started h) (panicked h).

Definition set_phase (p : phase) (c : Chan) : Chan :=
  mkChan (buffer c) (written c) p (offered c) (since c).

Definition panic (h : Hub) : Hub :=
  mkHub (subscribers h) (readers h) (chans h) (started h) true.

(** [select { case ch <- event: ... default: }]; sending on a closed channel panics. *)
Definition try_send e ch (h : Hub) : Hub :=
  match chans h !! ch with
  | None => h
  | Some c =>
      match at_phase c with
      | Closed => panic h
      | p =>
          let n := length (buffer c) in
          let b := if (n <? CHANNEL_CAP)%nat then buffer c ++ [e] else buffer c in
          set_chan ch (mkChan b (written c) p (offered c ++ [(e, n)]) (since c)) h
      end
  end.

Inductive hub_step :=
  | Subscribe ch                 (* lock, add a new channel, unlock *)
  | Broadcast e                  (* take the read lock *)
  | Visit (i ch : nat)           (* an iteration of the loop of the [i]th call *)
  | Return (i : nat)             (* the loop is over: release the read lock *)
  | Write ch (ok : bool)         (* receive and [WriteJSON]; the goroutine returns on an error *)
  | Done ch                      (* the request's context is done *)
  | Remove ch                    (* [Unsubscribe]: lock, delete, unlock *)
  | Close ch.                    (* [Unsubscribe]: close *)

(** Only [serial] runs wait for a broadcast to return before the next begins, as
    the one consumer of the topic does. *)
Definition hub_enabled (serial : bool) (h : Hub) (s : hub_step) : Prop :=
  match s with
  | Subscribe ch => readers h = [] ∧ chans h !! ch = None
  | Broadcast _ => serial = true → readers h = []
  | Visit i ch => ∃ e rest, readers h !! i = Some (e, rest) ∧ ch ∈ rest
  | Return i => ∃ e, readers h !! i = Some (e, ∅)
  | Write ch _ => ∃ c, chans h !! ch = Some c ∧ at_phase c = Serving ∧ buffer c ≠ []
  | Done ch => ∃ c, chans h !! ch = Some c ∧ at_phase c = Serving
  | Remove ch => readers h = [] ∧ ∃ c, chans h !! ch = Some c ∧ at_phase c = Leaving
  | Close ch => ∃ c, chans h !! ch = Some c ∧ at_phase c = Removed
  end.

Definition hub_apply (h : Hub) (s : hub_step) : Hub :=
  match s with
  | Subscribe ch =>
      mkHub ({[ch]} ∪ subscribers h) (readers h)
        (<[ch := mkChan [] [] Serving [] (length (started h))]> (chans h)) (started h) (panicked h)
  | Broadcast e =>
      mkHub (subscribers h) (readers h ++ [(e, subscribers h)]) (chans h) (started h ++ [e]) (panicked h)
  | Visit i ch =>
      match readers h !! i with
      | Some (e, rest) =>
          let h := try_send e ch h in
          mkHub (subscribers h) (<[i := (e, rest ∖ {[ch]})]> (readers h)) (chans h) (started h) (panicked h)
      | None => h
      end
  | Return i => mkHub (subscribers h) (delete i (readers h)) (chans h) (started h) (panicked h)
  | Write ch ok =>
      match chans h !! ch with
      | Some c =>
          match buffer c with
          | e :: b =>
              set_chan ch (mkChan b (if ok then written c ++ [e] else written c)
                (if ok then at_phase c else Leaving) (offered c) (since c)) h
          | [] => h
          end
      | None => h
      end
  | Done ch => match chans h !! ch with Some c => set_chan ch (set_phase Leaving c) h | None => h end
  | Remove ch =>
      match chans h !! ch with
      | Some c =>
          mkHub (subscribers h ∖ {[ch]}) (readers h) (<[ch := set_phase Removed c]> (chans h))
            (started h) (panicked h)
      | None => h
      end
  | Close ch =>
      match chans h !! ch with
      | Some c => match at_phase c with Closed => panic h | _ => set_chan ch (set_phase Closed c) h end
      | None => h
      end
  end.

Inductive hub_reachable (serial : bool) : Hub → Prop :=
  | hub_new : hub_reachable serial NewHub
  | hub_next h s : hub_reachable serial h → hub_enabled serial h s → hub_reachable serial (hub_apply h s).

(** ** No panic *)

Definition live_phase (p : phase) : bool := match p with Serving | Leaving => true | _ => false end.

(** The channels of the map are those of the goroutines that have not removed
    theirs, and a broadcast only visits channels of the map. *)
Record hub_ok (h : Hub) : Prop := {
  ok_panic : panicked h = false;
  ok_subs ch : ch ∈ subscribers h ↔ ∃ c, chans h !! ch = Some c ∧ live_phase (at_phase c) = true;
  ok_readers : Forall (λ r, r.2 ⊆ subscribers h) (readers h);
  ok_buffers : map_Forall (λ _ c, (length (buffer c) ≤ CHANNEL_CAP)%nat) (chans h);
  ok_since : map_Forall (λ _ c, (since c ≤ length (started h))%nat) (chans h)
}.

Lemma set_chan_ok ch c c' h :
  hub_ok h → chans h !! ch = Some c → live_phase (at_phase c') = live_phase (at_phase c) →
  (length (buffer c') ≤ CHANNEL_CAP)%nat → since c' = since c → hub_ok (set_chan ch c' h).
Proof.
  intros [Hp Hs Hr Hb Hn] Hc Hl Hlen Hsince. split; simpl; [done| |done|..].
  - intros ch'. rewrite Hs. destruct (decide (ch' = ch)) as [->|Hne].
    + rewrite lookup_insert_eq, Hc. split; intros (d & [= <-] & Hd); eexists; (split; [done|]); congruence.
    + by rewrite lookup_insert_ne.
  - by apply map_Forall_insert_2.
  - apply map_Forall_insert_2; [|done]. rewrite Hsince. by apply (Hn ch).
Qed.

Lemma try_send_ok e ch h : hub_ok h → ch ∈ subscribers h → hub_ok (try_send e ch h).
Proof.
  intros Hok Hch. pose proof Hok as [_ Hs _ Hb _]. apply Hs in Hch as (c & Hc & Hl).
  specialize (Hb ch c Hc). unfold try_send. rewrite Hc.
  assert (length (if (length (buffer c) <? CHANNEL_CAP)%nat then buffer c ++ [e] else buffer c) ≤ CHANNEL_CAP)%nat.
  { destruct (Nat.ltb_spec (length (buffer c)) CHANNEL_CAP); [rewrite length_app; simpl; lia|done]. }
  destruct (at_phase c) eqn:Eph; [..|done];
    (eapply set_chan_ok; [done|exact Hc|by rewrite Eph|done|done]).
Qed.

Lemma try_send_frame e ch h :
  subscribers (try_send e ch h) = subscribers h ∧ readers (try_send e ch h) = readers h ∧
  started (try_send e ch h) = started h.
Proof. unfold try_send. by repeat case_match. Qed.

(** Updates that leave the channels alone. *)
Lemma frame_ok h rs l : hub_ok h →
  Forall (λ r, r.2 ⊆ subscribers h) rs → (length (started h) ≤ length l)%nat →
  hub_ok (mkHub (subscribers h) rs (chans h) l (panicked h)).
Proof.
  intros [Hp Hs Hr Hb Hn] Hrs Hl. split; simpl; try done.
  intros ch c Hc. specialize (Hn ch c Hc). simpl in Hn. lia.
Qed.

Lemma hub_step_ok serial h s : hub_ok h → hub_enabled serial h s → hub_ok (hub_apply h s).
Proof.
  intros Hok He. pose proof Hok as [Hp Hs Hr Hb Hn].
  destruct s as [ch|e|i ch|i|ch ok|ch|ch|ch]; simpl in He |- *.
  - destruct He as [Hrs Hc]. split; simpl; [done| |by rewrite Hrs|apply map_Forall_insert_2; [simpl; lia|done]..].
    intros ch'. rewrite elem_of_union, elem_of_singleton, Hs. destruct (decide (ch' = ch)) as [->|Hne].
    + rewrite lookup_insert_eq. naive_solver.
    + rewrite lookup_insert_ne by done. naive_solver.
  - apply frame_ok; [done| |rewrite length_app; lia]. by apply Forall_app_2, Forall_singleton.
  - destruct He as (e & rest & Hi & Hch). rewrite Hi.
    assert (rest ⊆ subscribers h) as Hsub by exact (Forall_lookup_1 _ _ _ _ Hr Hi).
    pose proof (try_send_ok e ch h Hok ltac:(set_solver)) as Hok'.
    destruct (try_send_frame e ch h) as (Hs' & Hr' & Hst').
    apply frame_ok; [done| |done].
    rewrite Hs', Hr'. apply Forall_insert; [done|]. simpl. set_solver.
  - apply frame_ok; [done|by apply Forall_delete|done].
  - destruct He as (c & Hc & Hph & Hne). rewrite Hc. destruct (buffer c) as [|e b] eqn:Eb; [done|].
    specialize (Hb ch c Hc). simpl in Hb. rewrite Eb in Hb. simpl in Hb.
    eapply set_chan_ok; [done|exact Hc|rewrite Hph; by destruct ok|simpl; lia|done].
  - destruct He as (c & Hc & Hph). rewrite Hc.
    eapply set_chan_ok; [done|exact Hc|by rewrite Hph|exact (Hb ch c Hc)|done].
  - destruct He as (Hrs & c & Hc & Hph). rewrite Hc. split; simpl; [done| |by rewrite Hrs|..].
    + intros ch'. rewrite elem_of_difference, elem_of_singleton, Hs. destruct (decide (ch' = ch)) as [->|Hne].
      * rewrite lookup_insert_eq. split; [by intros [_ []]|]. by intros (? & [= <-] & ?).
      * rewrite lookup_insert_ne by done. naive_solver.
    + apply map_Forall_insert_2; [exact (Hb ch c Hc)|done].
    + apply map_Forall_insert_2; [exact (Hn ch c Hc)|done].
  - destruct He as (c & Hc & Hph). rewrite Hc, Hph.
    eapply set_chan_ok; [done|exact Hc|by rewrite Hph|exact (Hb ch c Hc)|done].
Qed.

Lemma hub_reachable_ok serial h : hub_reachable serial h → hub_ok h.
Proof.
  induction 1 as [|h s _ IH He]; [|by eapply hub_step_ok].
  split; simpl; try done. intros ch. rewrite lookup_empty. set_solver.
Qed.

(** C13: no interleaving of subscriptions, broadcasts, writes and disconnections
    makes a goroutine of the stream send on a closed channel or close one twice, and
    no channel holds more than its 256 events: a broadcast only visits channels of
    the map, and a channel is closed after it left the map. *)
Theorem hub_never_panics serial h ch c :
  hub_reachable serial h → chans h !! ch = Some c →
  panicked h = false ∧ (length (buffer c) ≤ CHANNEL_CAP)%nat ∧
  (at_phase c = Closed → ch ∉ subscribers h ∧ Forall (λ r, ch ∉ r.2) (readers h)).
Proof.
  intros Hh Hc. destruct (hub_reachable_ok serial h Hh) as [Hp Hs Hr Hb _].
  split_and!; [done|exact (Hb ch c Hc)|]. intros Hcl.
  assert (ch ∉ subscribers h) as Hns.
  { rewrite Hs. intros (d & Hd & Hl). simplify_eq. by rewrite Hcl in Hl. }
  split; [done|]. eapply Forall_impl; [exact Hr|]. set_solver.
Qed.

(** ** Delivery *)

(** The broadcasts in progress that have not come to a channel yet. *)
Definition waiting ch (rs : list (E * gset nat)) : list E := (filter (λ r, ch ∈ r.2) rs).*1.

(** The events a channel took: those offered while it had room. *)
Definition taken (l : list (E * nat)) : list E := (filter (λ o, (o.2 < CHANNEL_CAP)%nat) l).*1.

Lemma waiting_app ch rs rs' : waiting ch (rs ++ rs') = waiting ch rs ++ waiting ch rs'.
Proof. unfold waiting. by rewrite filter_app, fmap_app. Qed.

Lemma waiting_cons ch e rest rs :
  waiting ch ((e, rest) :: rs) = (if decide (ch ∈ rest) then [e] else []) ++ waiting ch rs.
Proof. unfold waiting. rewrite filter_cons. simpl. by case_decide. Qed.

Lemma waiting_split ch rs i e rest :
  rs !! i = Some (e, rest) →
  waiting ch rs =
    waiting ch (take i rs) ++ (if decide (ch ∈ rest) then [e] else []) ++ waiting ch (drop (S i) rs).
Proof.
  intros Hi. rewrite <-(take_drop_middle rs i (e, rest) Hi) at 1. by rewrite waiting_app, waiting_cons.
Qed.

Lemma waiting_insert ch rs i r e rest :
  rs !! i = Some r →
  waiting ch (<[i := (e, rest)]> rs) =
    waiting ch (take i rs) ++ (if decide (ch ∈ rest) then [e] else []) ++ waiting ch (drop (S i) rs).
Proof.
  intros Hi. by rewrite insert_take_drop, waiting_app, waiting_cons by by eapply lookup_lt_Some.
Qed.

(** A visit takes the event off the list of its channel and no other. *)
Lemma waiting_visit ch rs i e rest :
  rs !! i = Some (e, rest) → ch ∈ rest →
  waiting ch rs = waiting ch (take i rs) ++ e :: waiting ch (drop (S i) rs) ∧
  waiting ch (<[i := (e, rest ∖ {[ch]})]> rs) = waiting ch (take i rs) ++ waiting ch (drop (S i) rs).
Proof.
  intros Hi Hch. rewrite (waiting_split ch rs i e rest Hi), (waiting_insert _ _ _ _ _ _ Hi).
  split; case_decide; done || set_solver.
Qed.

Lemma waiting_other ch ch' rs i e rest :
  rs !! i = Some (e, rest) → ch' ≠ ch → waiting ch' (<[i := (e, rest ∖ {[ch]})]> rs) = waiting ch' rs.
Proof.
  intros Hi Hne. rewrite (waiting_split ch' rs i e rest Hi), (waiting_insert _ _ _ _ _ _ Hi).
  repeat case_decide; done || set_solver.
Qed.

Lemma waiting_return ch rs i e : rs !! i = Some (e, ∅) → waiting ch (delete i rs) = waiting ch rs.
Proof.
  intros Hi. rewrite (waiting_split ch rs i e ∅ Hi), delete_take_drop, waiting_app.
  case_decide; [set_solver|done].
Qed.

(** In the order of the broadcasts when they do not overlap, in some order else. *)
Definition same_events (serial : bool) (l k : list E) : Prop := if serial then l = k else l ≡ₚ k.

Record chan_log (serial : bool) (h : Hub) ch (c : Chan) : Prop := {
  log_offered : live_phase (at_phase c) = true →
    same_events serial ((offered c).*1 ++ waiting ch (readers h)) (drop (since c) (started h));
  log_written : written c `prefix_of` taken (offered c);
  log_serving : at_phase c = Serving → written c ++ buffer c = taken (offered c)
}.

Definition hub_log (serial : bool) (h : Hub) : Prop :=
  (serial = true → (length (readers h) ≤ 1)%nat) ∧ map_Forall (chan_log serial h) (chans h).

Lemma taken_snoc l e n :
  taken (l ++ [(e, n)]) = taken l ++ if (n <? CHANNEL_CAP)%nat then [e] else [].
Proof.
  unfold taken. rewrite filter_app, fmap_app, filter_cons, filter_nil. simpl. f_equal.
  destruct (Nat.ltb_spec n CHANNEL_CAP); case_decide; done || lia.
Qed.

Lemma same_events_visit serial o w1 w2 e d :
  (serial = true → w1 = []) → same_events serial (o ++ w1 ++ e :: w2) d →
  same_events serial ((o ++ [e]) ++ w1 ++ w2) d.
Proof.
  unfold same_events. destruct serial; intros Hw <-.
  - rewrite (Hw eq_refl). by rewrite <-app_assoc.
  - rewrite <-app_assoc. apply Permutation_app_head, (Permutation_middle w1 w2 e).
Qed.

Lemma same_events_snoc serial l k e : same_events serial l k → same_events serial (l ++ [e]) (k ++ [e]).
Proof. unfold same_events. destruct serial; by intros ->. Qed.

Lemma chan_log_frame serial h h' ch c :
  waiting ch (readers h') = waiting ch (readers h) → started h' = started h →
  chan_log serial h ch c → chan_log serial h' ch c.
Proof. intros Hw Hs [Ho Hp He]. split; [by rewrite Hw, Hs|done..]. Qed.

(** The log of a channel whose entry changed, the others being as they were. *)
Lemma hub_log_set serial h h' ch c' :
  chans h' = <[ch := c']> (chans h) → started h' = started h →
  (∀ ch', ch' ≠ ch → waiting ch' (readers h') = waiting ch' (readers h)) →
  map_Forall (chan_log serial h) (chans h) → chan_log serial h' ch c' →
  map_Forall (chan_log serial h') (chans h').
Proof.
  intros Hc Hs Hw Hall Hlog. rewrite Hc. intros ch' d Hd.
  destruct (decide (ch' = ch)) as [->|Hne].
  - rewrite lookup_insert_eq in Hd. by simplify_eq.
  - rewrite lookup_insert_ne in Hd by done. eapply chan_log_frame; [by apply Hw|done|by apply Hall].
Qed.

Lemma prefix_taken_snoc (w : list E) l e n : w `prefix_of` taken l → w `prefix_of` taken (l ++ [(e, n)]).
Proof. intros [k Hk]. rewrite taken_snoc, Hk, <-app_assoc. by eexists. Qed.

(** A visit is recorded by the channel, in the order of the visits. *)
Lemma visit_log serial h i ch e rest :
  hub_ok h → hub_log serial h → readers h !! i = Some (e, rest) → ch ∈ rest →
  hub_log serial (hub_apply h (Visit i ch)).
Proof.
  intros Hok [Hser Hall] Hi Hch. simpl. rewrite Hi.
  destruct (try_send_frame e ch h) as (Hs & Hr & Hst).
  split; simpl; [by rewrite Hr, length_insert|].
  pose proof (Forall_lookup_1 _ _ _ _ (ok_readers h Hok) Hi) as Hsub. simpl in Hsub.
  destruct (proj1 (ok_subs h Hok ch) ltac:(set_solver)) as (c & Hc & Hl).
  destruct (Hall ch c Hc) as [Ho Hp Hse]. specialize (Ho Hl).
  destruct (waiting_visit ch (readers h) i e rest Hi Hch) as [Hw Hw'].
  set (n := length (buffer c)).
  set (c' := mkChan (if (n <? CHANNEL_CAP)%nat then buffer c ++ [e] else buffer c) (written c)
    (at_phase c) (offered c ++ [(e, n)]) (since c)).
  assert (chans (try_send e ch h) = <[ch := c']> (chans h)) as Hcs.
  { unfold try_send. rewrite Hc. subst c'. by destruct (at_phase c). }
  eapply (hub_log_set serial h (mkHub _ _ _ _ _) ch c'); simpl; [exact Hcs|exact Hst| |done|].
  - intros ch' Hne. rewrite Hr. by apply waiting_other.
  - split; simpl.
    + intros _. rewrite Hr, Hst, Hw', fmap_app. simpl. eapply same_events_visit; [|by rewrite <-Hw].
      intros ->. specialize (Hser eq_refl). apply lookup_lt_Some in Hi as Hlt.
      by replace i with 0%nat by lia.
    + by apply prefix_taken_snoc.
    + intros Hph. rewrite taken_snoc, <-(Hse Hph). fold n.
      destruct (n <? CHANNEL_CAP)%nat; [by rewrite app_assoc|by rewrite app_nil_r].
Qed.

Lemma hub_step_log serial h s :
  hub_ok h → hub_log serial h → hub_enabled serial h s → hub_log serial (hub_apply h s).
Proof.
  intros Hok Hlog He. destruct s as [ch|e|i ch|i|ch ok|ch|ch|ch].
  3: { destruct He as (e & rest & Hi & Hch). by eapply visit_log. }
  all: destruct Hlog as [Hser Hall]; simpl in He |- *.
  - destruct He as [Hrs Hc]. split; simpl; [done|].
    eapply (hub_log_set serial h (mkHub _ _ _ _ _) ch); [done..|]. rewrite Hrs.
    split; simpl; [intros _|by apply prefix_nil|done].
    rewrite drop_all. by destruct serial.
  - split; simpl.
    { intros Hs. by rewrite (He Hs). }
    intros ch c Hc. destruct (Hall ch c Hc) as [Ho Hp Hse]. split; simpl; [|done..]. intros Hl.
    assert (ch ∈ subscribers h) as Hsub by (apply (ok_subs h Hok); eauto).
    rewrite waiting_app, waiting_cons, decide_True by done. change (waiting ch []) with (@nil E).
    rewrite app_nil_r, app_assoc, drop_app_le by exact (ok_since h Hok ch c Hc).
    by apply same_events_snoc, Ho.
  - destruct He as [e Hi]. split; simpl.
    + intros Hs. rewrite length_delete by by eapply mk_is_Some. specialize (Hser Hs). lia.
    + intros ch c Hc. eapply chan_log_frame; [by eapply waiting_return|done|by apply Hall].
  - destruct He as (c & Hc & Hph & Hne). rewrite Hc. destruct (buffer c) as [|e b] eqn:Eb; [done|].
    destruct (Hall ch c Hc) as [Ho Hp Hse]. split; [done|].
    eapply (hub_log_set serial h (set_chan _ _ _) ch); [done..|]. split; simpl; [|destruct ok..].
    + intros _. apply Ho. by rewrite Hph.
    + rewrite <-(Hse Hph), Eb. exists b. by rewrite <-app_assoc.
    + done.
    + intros _. rewrite <-(Hse Hph), Eb. by rewrite <-app_assoc.
    + done.
  - destruct He as (c & Hc & Hph). rewrite Hc. destruct (Hall ch c Hc) as [Ho Hp Hse]. split; [done|].
    eapply (hub_log_set serial h (set_chan _ _ _) ch); [done..|].
    split; simpl; [intros _; apply Ho; by rewrite Hph|done|done].
  - destruct He as (Hrs & c & Hc & Hph). rewrite Hc. destruct (Hall ch c Hc) as [Ho Hp Hse]. split; [done|].
    eapply (hub_log_set serial h (mkHub _ _ _ _ _) ch); [done..|]. by split.
  - destruct He as (c & Hc & Hph). rewrite Hc, Hph. destruct (Hall ch c Hc) as [Ho Hp Hse]. split; [done|].
    eapply (hub_log_set serial h (set_chan _ _ _) ch); [done..|]. by split.
Qed.

Lemma hub_reachable_log serial h : hub_reachable serial h → hub_log serial h.
Proof.
  induction 1 as [|h s Hr IH He]; [split; simpl; [lia|by apply map_Forall_empty]|].
  apply hub_step_log; [by eapply hub_reachable_ok|done|done].
Qed.

(** C14: what a socket is sent.  Every event whose broadcast began after the socket
    subscribed is offered to it exactly once, or waits for a broadcast in progress
    to come by; an event is passed over only while 256 others wait for the socket;
    what was taken is written without gap or repetition in the order it was offered,
    which is the order of the broadcasts when they do not overlap. *)
Theorem hub_delivers serial h ch c :
  hub_reachable serial h → chans h !! ch = Some c → at_phase c = Serving →
  same_events serial ((offered c).*1 ++ waiting ch (readers h)) (drop (since c) (started h)) ∧
  written c ++ buffer c = (filter (λ o, (o.2 < 256)%nat) (offered c)).*1.
Proof.
  intros Hh Hc Hph. destruct (hub_reachable_log serial h Hh) as [_ Hall].
  destruct (Hall ch c Hc) as [Ho _ Hs]. split; [apply Ho; by rewrite Hph|by apply Hs].
Qed.
End hub.

Arguments Hub : clear implicits.
Arguments Chan : clear implicits.
Arguments hub_step : clear implicits.

(** ** Witnesses *)

(** Two calls of [Broadcast] overlap: the later one comes first to the channel. *)
Definition overlapping : list (hub_step nat) :=
  [Subscribe 0; Broadcast 1; Broadcast 2; Visit 1 0; Visit 0 0; Write 0 true].

Definition overlapped : Hub nat := foldl hub_apply NewHub overlapping.

Lemma overlapped_reachable : hub_reachable false overlapped.
Proof.
  unfold overlapped, overlapping. cbn [foldl].
  apply hub_next; [|eexists; split_and!; [vm_compute; reflexivity|done|done]].
  apply hub_next; [|eexists _, _; split; [vm_compute; reflexivity|vm_compute; reflexivity]].
  apply hub_next; [|eexists _, _; split; [vm_compute; reflexivity|vm_compute; reflexivity]].
  do 2 (apply hub_next; [|done]). apply hub_next; [apply hub_new|done].
Qed.

Definition socket_of (h : Hub nat) (ch : nat) : Chan nat :=
  default (mkChan [] [] Closed [] 0) (chans h !! ch).

Lemma hub_never_panics_witness :
  chans overlapped !! 0%nat = Some (socket_of overlapped 0) ∧ panicked overlapped = false.
Proof.
  assert (chans overlapped !! 0%nat = Some (socket_of overlapped 0)) as Hc by (vm_compute; reflexivity).
  split; [exact Hc|].
  destruct (hub_never_panics false overlapped 0 (socket_of overlapped 0) overlapped_reachable Hc) as [H _].
  exact H.
Defined.

Lemma hub_delivers_witness :
  written (socket_of overlapped 0) = [2]%nat ∧ buffer (socket_of overlapped 0) = [1]%nat ∧
  started overlapped = [1; 2]%nat ∧
  written (socket_of overlapped 0) ++ buffer (socket_of overlapped 0) =
    (filter (λ o, (o.2 < 256)%nat) (offered (socket_of overlapped 0))).*1.
Proof.
  split_and!; [reflexivity..|].
  apply (hub_delivers false overlapped 0 (socket_of overlapped 0) overlapped_reachable); reflexivity.
Defined.
