(* ===== verification/Pipeline.v ===== *)
(** * From a broadcast to the list: the hub, a socket and the provider

    [Pipe] runs the server's [Hub] and the console's [Connection] together: what
    the goroutine of one socket writes travels in order and arrives as a message.
    The provider is followed while it is hydrated and its list is neither cleared
    nor full; what it lists is then what [take_in] makes of the messages that
    arrived, and the events broadcast are listed in their order, once for each key. *)

From S2P Require Import Prelude JsNumber JsString Json JsonRoundtrip Events WireEvent Connection EventsApi Hub.
Open Scope Z_scope.

(** ** The text of a live message *)

(** [conn.WriteJSON] on the map of [kernelEventWire]: encoding/json. *)
Class WireEncoder := text_of : KernelEventProto → string.

Class WireEncoderLaws `{WireEncoder} :=
  text_parses p : record_ok p → json_parse (text_of p) = Some (kernelEventWire p).

(** An encoder: the keys sorted, no spaces. *)
#[export] Instance compact : WireEncoder := λ p, default "" (stringify (kernelEventWire p)).

(** ** What a provider that only listens lists *)

(** A message is added unless one with its key is listed. *)
Definition take_in (l : list string) (d : string) : list string :=
  if decide (eventKey d ∈ eventKey <$> l) then l else l ++ [d].

(** Hydrated, its updates queued by [onmessage] alone, its keys those of the list. *)
Record listens (l : list string) (c : Conn) : Prop := {
  listens_mounted : mounted c = true;
  listens_hydrated : hydrated c = true;
  listens_queue : ∃ ds, queue c = UAppend <$> ds ∧ l = (data <$> messages c) ++ ds;
  listens_seen : seenEventKeys c = list_to_set (eventKey <$> l);
  listens_room : (length l ≤ MAX_MESSAGES)%nat
}.

(** The callbacks that neither end the provider nor replace its list. *)
Definition quiet (a : action) : bool :=
  match a with Opened | Connection.Closed | Errored | TimerFires _ | Flush => true | _ => false end.

Lemma run_appends c ds :
  (length ((data <$> messages c) ++ ds) ≤ MAX_MESSAGES)%nat →
  seenEventKeys c = list_to_set (eventKey <$> (data <$> messages c)) ∨ ds ≠ [] →
  let c' := foldl run_update c (UAppend <$> ds) in
  data <$> messages c' = (data <$> messages c) ++ ds ∧
  seenEventKeys c' = list_to_set (eventKey <$> (data <$> messages c')).
Proof.
  revert c. induction ds as [|d ds IH]; intros c Hl Hs; cbn [fmap list_fmap foldl].
  { rewrite app_nil_r. split; [done|]. by destruct Hs. }
  assert (slice_last MAX_MESSAGES (messages c ++ [mkMsg (sequence c + 1) d]) =
    messages c ++ [mkMsg (sequence c + 1) d]) as Hsl.
  { apply slice_last_all. rewrite !length_app, length_fmap in *. simpl in *. lia. }
  destruct (IH (run_update c (UAppend d))) as [Hd Hk].
  - cbn [run_update messages]. rewrite Hsl, fmap_app. cbn [fmap list_fmap data].
    by rewrite <-app_assoc.
  - left. cbn [run_update messages seenEventKeys]. by rewrite <-list_fmap_compose.
  - split; [|exact Hk]. rewrite Hd. cbn [run_update messages].
    by rewrite Hsl, fmap_app, <-app_assoc.
Qed.

Lemma listens_flushed l c : listens l c → data <$> messages (flush c) = l.
Proof.
  intros [Hm Hh (ds & Hq & Hl) Hs Hr]. unfold flush. rewrite Hq. cbn [messages set_queue].
  destruct ds as [|d ds]; [by rewrite app_nil_r in Hl; subst|].
  destruct (run_appends c (d :: ds)) as [-> _]; [by rewrite <-Hl|by right|done].
Qed.

Lemma listens_flush l c : listens l c → listens l (flush c).
Proof.
  intros Hc. pose proof (listens_flushed l c Hc) as Hd. pose proof (flush_same c) as Hsame.
  unfold same_conn in Hsame. destruct Hsame as (_ & _ & _ & _ & Hm & Hh & _).
  destruct Hc as [Hcm Hch (ds & Hq & Hl) Hs Hr].
  split; [by rewrite Hm|by rewrite Hh|exists []; by rewrite app_nil_r, Hd| |done].
  rewrite <-Hd. unfold flush. rewrite Hq. cbn [seenEventKeys messages set_queue].
  destruct ds as [|d ds]; [by rewrite app_nil_r in Hl; subst|].
  destruct (run_appends c (d :: ds)) as [_ ->]; [by rewrite <-Hl|by right|done].
Qed.

Lemma listens_message l c d :
  listens l c → (length l < MAX_MESSAGES)%nat → listens (take_in l d) (onmessage d c).
Proof.
  intros Hc Hroom. pose proof Hc as [Hm Hh (ds & Hq & Hl) Hs Hr].
  unfold onmessage, take_in. rewrite Hm, Hh, Hs. cbn [negb].
  destruct (decide (eventKey d ∈ eventKey <$> l)) as [Hin|Hout].
  - by rewrite decide_True by (by apply elem_of_list_to_set).
  - rewrite decide_False by (by rewrite elem_of_list_to_set). split; cbn; [done|done|exists (ds ++ [d])|..].
    + rewrite Hq, fmap_app, Hl, <-app_assoc. done.
    + rewrite fmap_app, list_to_set_app_L. cbn. by rewrite (right_id_L ∅ (∪)).
    + rewrite length_app. cbn. lia.
Qed.

(** What leaves the list, its queue and its keys alone. *)
Lemma listens_same l c c' :
  mounted c' = mounted c → hydrated c' = hydrated c → queue c' = queue c →
  messages c' = messages c → seenEventKeys c' = seenEventKeys c → listens l c → listens l c'.
Proof.
  intros Hm Hh Hq Hms Hs [? ? (ds & Hds & Hl) ? ?].
  split; [by rewrite Hm|by rewrite Hh|exists ds; by rewrite Hq, Hms|by rewrite Hs|done].
Qed.

Lemma listens_quiet l c a : quiet a = true → listens l c → listens l (apply c a).
Proof.
  intros Ha Hc. destruct a; try done; [..|by apply listens_flush];
    (eapply listens_same; [..|exact Hc]; pose proof (listens_mounted l c Hc) as Hm;
     unfold apply, onopen, onclose, onerror, connect, scheduleReconnect; simpl;
     rewrite ?Hm; simpl; repeat (case_match; simpl); congruence || done).
Qed.

(** Right after hydration the provider listens. *)
Lemma run_sets_seen c q : no_append q → seenEventKeys (foldl run_update c q) = seenEventKeys c.
Proof.
  intros Hq. revert c. induction Hq as [|[X|d] q Hu Hq IH]; intros c; [done| |done].
  cbn [foldl]. by rewrite IH.
Qed.

Lemma hydrated_listens lc h c :
  dedup_ok c → mounted c = true → hydrated c = false → lc = lifecycle c →
  listens (hydrate_plan h (bufferedLive c)) (flush (hydrateHistory lc h c)).
Proof.
  intros (_ & _ & _ & Hna & _) Hm Hh Hlc. pose proof (hydrated_messages c lc h Hm Hlc) as Hd. subst lc.
  set (c1 := hydrateHistory (lifecycle c) h c) in *. pose proof (flush_same c1) as Hsame.
  unfold same_conn in Hsame. destruct Hsame as (_ & _ & _ & _ & Hmf & Hhf & _).
  assert (mounted c1 = true ∧ hydrated c1 = true ∧ no_append (queue c1) ∧
    seenEventKeys c1 = list_to_set (eventKey <$> hydrate_plan h (bufferedLive c))) as (Hm1 & Hh1 & Hq1 & Hs1).
  { subst c1. unfold hydrateHistory. rewrite Hm, Z.eqb_refl. cbn. split_and!; try done.
    apply Forall_snoc; [by apply Hna|done]. }
  split.
  - by rewrite Hmf.
  - by rewrite Hhf.
  - exists []. by rewrite app_nil_r, Hd.
  - unfold flush. cbn [seenEventKeys set_queue]. by rewrite run_sets_seen.
  - apply hydrate_plan_length.
Qed.

(** ** Hub, socket and provider *)

Section pipe.
Context `{WireEncoderLaws} (serial : bool) (ch : nat).

Record Pipe := mkPipe {
  server : Hub KernelEventProto;
  net : list string;            (* written to the socket, not arrived yet *)
  arrived : list string;        (* what [onmessage] got, oldest first *)
  provider : Conn
}.

Inductive pipe_step := AtServer (s : hub_step KernelEventProto) | Arrive | AtPage (a : action).

(** What a step of the server puts on the wire. *)
Definition sent (h : Hub KernelEventProto) (s : hub_step KernelEventProto) : list string :=
  match s with
  | Write ch' true =>
      if decide (ch' = ch) then
        match chans h !! ch with
        | Some c => match buffer c with e :: _ => [text_of e] | [] => [] end
        | None => []
        end
      else []
  | _ => []
  end.

Definition pipe_enabled (p : Pipe) (s : pipe_step) : Prop :=
  match s with
  | AtServer s => hub_enabled serial (server p) s
  | Arrive => net p ≠ []
  | AtPage a => quiet a = true ∧ enabled (provider p) a
  end.

Definition pipe_apply (p : Pipe) (s : pipe_step) : Pipe :=
  match s with
  | AtServer s => mkPipe (hub_apply (server p) s) (net p ++ sent (server p) s) (arrived p) (provider p)
  | Arrive =>
      match net p with
      | d :: ds => mkPipe (server p) ds (arrived p ++ [d]) (onmessage d (provider p))
      | [] => p
      end
  | AtPage a => mkPipe (server p) (net p) (arrived p) (apply (provider p) a)
  end.

(** The socket has just subscribed, and the provider lists [l0]. *)
Inductive pipe_reachable (l0 : list string) : Pipe → Prop :=
  | pipe_open h c :
      hub_reachable serial h → hub_enabled serial h (Subscribe ch) → listens l0 c →
      pipe_reachable l0 (mkPipe (hub_apply h (Subscribe ch)) [] [] c)
  | pipe_next p s : pipe_reachable l0 p → pipe_enabled p s → pipe_reachable l0 (pipe_apply p s).

(** ** The socket loses nothing and keeps the order *)

Lemma hub_apply_written (h : Hub KernelEventProto) s c :
  hub_enabled serial h s → chans h !! ch = Some c →
  ∃ c', chans (hub_apply h s) !! ch = Some c' ∧ (text_of <$> written c') = (text_of <$> written c) ++ sent h s.
Proof.
  intros He Hc.
  assert (∀ c', written c' = written c → ∃ d, Some c' = Some d ∧
    (text_of <$> written d) = (text_of <$> written c) ++ []) as Hsame.
  { intros c' Hw. exists c'. by rewrite Hw, app_nil_r. }
  destruct s as [ch'|e|i ch'|i|ch' ok|ch'|ch'|ch']; cbn [hub_apply sent]; simpl in He.
  - destruct He as [_ Hnone]. cbn [chans]. rewrite lookup_insert_ne by congruence. rewrite Hc. by apply Hsame.
  - cbn [chans]. rewrite Hc. by apply Hsame.
  - destruct He as (e & rest & Hi & Hch). rewrite Hi. cbn [chans]. unfold try_send.
    destruct (chans h !! ch') as [c'|] eqn:E; [|rewrite Hc; by apply Hsame].
    destruct (decide (ch' = ch)) as [->|Hne].
    + rewrite Hc in E. injection E as <-. destruct (at_phase c); cbn [chans set_chan panic];
        rewrite ?lookup_insert_eq, ?Hc; by apply Hsame.
    + destruct (at_phase c'); cbn [chans set_chan panic]; rewrite ?lookup_insert_ne, ?Hc by done; by apply Hsame.
  - cbn [chans]. rewrite Hc. by apply Hsame.
  - destruct He as (c' & Hc' & Hph & Hne). rewrite Hc'. destruct (buffer c') as [|e b] eqn:Eb; [done|].
    cbn [chans set_chan]. destruct (decide (ch' = ch)) as [->|Hne'].
    + rewrite Hc in Hc'. injection Hc' as <-. rewrite lookup_insert_eq. destruct ok; [|by apply Hsame].
      rewrite Hc, Eb. eexists. split; [done|]. cbn [written]. by rewrite fmap_app.
    + rewrite lookup_insert_ne, Hc by done. destruct ok; by apply Hsame.
  - destruct He as (c' & Hc' & _). rewrite Hc'. cbn [chans set_chan]. destruct (decide (ch' = ch)) as [->|Hne].
    + rewrite Hc in Hc'. injection Hc' as <-. rewrite lookup_insert_eq. by apply Hsame.
    + rewrite lookup_insert_ne, Hc by done. by apply Hsame.
  - destruct He as (_ & c' & Hc' & _). rewrite Hc'. cbn [chans]. destruct (decide (ch' = ch)) as [->|Hne].
    + rewrite Hc in Hc'. injection Hc' as <-. rewrite lookup_insert_eq. by apply Hsame.
    + rewrite lookup_insert_ne, Hc by done. by apply Hsame.
  - destruct He as (c' & Hc' & Hph). rewrite Hc', Hph. cbn [chans set_chan]. destruct (decide (ch' = ch)) as [->|Hne].
    + rewrite Hc in Hc'. injection Hc' as <-. rewrite lookup_insert_eq. by apply Hsame.
    + rewrite lookup_insert_ne, Hc by done. by apply Hsame.
Qed.

Lemma pipe_hub l0 p : pipe_reachable l0 p → hub_reachable serial (server p).
Proof.
  induction 1 as [h c Hh He _|p s _ IH He]; [by apply hub_next|].
  destruct s; simpl in *; [by apply hub_next| |done]. by destruct (net p).
Qed.

(** What was written has arrived or is on the way, in order. *)
Lemma pipe_transit l0 p :
  pipe_reachable l0 p →
  ∃ c, chans (server p) !! ch = Some c ∧ arrived p ++ net p = text_of <$> written c.
Proof.
  induction 1 as [h c Hh He _|p s Hp (c & Hc & Ht) He].
  { eexists. split; [by apply lookup_insert_eq|done]. }
  destruct s as [s| |a]; simpl in He |- *; [| |by eauto].
  - destruct (hub_apply_written (server p) s c He Hc) as (c' & Hc' & Hw).
    exists c'. by rewrite Hc', Hw, <-Ht, app_assoc.
  - destruct (net p) as [|d ds] eqn:En; [done|]. exists c. simpl. by rewrite <-Ht, <-app_assoc.
Qed.

Lemma take_in_length l d : (length (take_in l d) ≤ S (length l))%nat.
Proof. unfold take_in. case_decide; rewrite ?length_app; simpl; lia. Qed.

Lemma take_all_length l ds : (length (foldl take_in l ds) ≤ length l + length ds)%nat.
Proof.
  revert l. induction ds as [|d ds IH]; intros l; simpl; [lia|].
  pose proof (IH (take_in l d)). pose proof (take_in_length l d). lia.
Qed.

(** The list, while it has room, is what [take_in] makes of what arrived. *)
Lemma pipe_listens l0 p :
  pipe_reachable l0 p → (length l0 + length (arrived p) ≤ MAX_MESSAGES)%nat →
  listens (foldl take_in l0 (arrived p)) (provider p).
Proof.
  induction 1 as [h c Hh He Hl|p s Hp IH He]; intros Hroom; [done|].
  destruct s as [s| |a]; simpl in He, Hroom |- *; [by apply IH| |].
  - destruct (net p) as [|d ds]; [done|]. simpl in *. rewrite length_app in Hroom. simpl in Hroom.
    rewrite foldl_app. simpl. apply listens_message; [apply IH; lia|].
    pose proof (take_all_length l0 (arrived p)). lia.
  - destruct He as [Hq _]. apply listens_quiet; [done|by apply IH].
Qed.

Lemma take_all_fresh l ds :
  NoDup ((eventKey <$> l) ++ (eventKey <$> ds)) → foldl take_in l ds = l ++ ds.
Proof.
  revert l. induction ds as [|d ds IH]; intros l Hn; simpl; [by rewrite app_nil_r|].
  rewrite fmap_cons in Hn. unfold take_in at 2. rewrite decide_False.
  - rewrite IH; [by rewrite <-app_assoc|]. by rewrite fmap_app, <-app_assoc.
  - apply NoDup_app in Hn as (_ & Hd & _). intros Hin. apply (Hd _ Hin). left.
Qed.

Lemma taken_all (l : list (KernelEventProto * nat)) :
  Forall (λ o, (o.2 < CHANNEL_CAP)%nat) l → taken l = l.*1.
Proof. intros Hl. unfold taken. rewrite Forall_forall in Hl. by rewrite filter_all. Qed.

Lemma taken_sublist (l : list (KernelEventProto * nat)) : taken l `sublist_of` l.*1.
Proof. unfold taken. apply fmap_sublist, sublist_filter. Qed.

Lemma text_keys ps : Forall record_ok ps → eventKey <$> (text_of <$> ps) = record_key <$> ps.
Proof.
  induction 1 as [|p ps Hp Hps IH]; [done|]. rewrite !fmap_cons, IH. f_equal.
  apply carries_key; [done|]. left. by apply text_parses.
Qed.

(** C12: from the broadcast to the list.  The provider is hydrated and listens to
    one socket: it is not unmounted, its list is not cleared and no second history
    arrives; and the list has room, within its 2000 entries, for every event
    broadcast since the socket subscribed.  Once everything has drained - no
    broadcast is on its way to the socket, its channel is empty, every message
    arrived - and React has run the queue, the list is the one it began with,
    followed by the events the channel took, in their order, one message each, less
    those whose key was listed already.  It is all of them when the keys of their
    records, with well-formed strings and counters in range, all differ.
    When the socket was never 256 events behind, the channel took all the events
    broadcast since it subscribed, in the order of the broadcasts when those do not
    overlap. *)
Theorem stream_listed l0 p c :
  pipe_reachable l0 p → chans (server p) !! ch = Some c → at_phase c = Serving →
  let new := drop (since c) (started (server p)) in
  let listed := data <$> messages (flush (provider p)) in
  let texts := text_of <$> taken (offered c) in
  waiting ch (readers (server p)) = [] → buffer c = [] → net p = [] →
  (length l0 + length new ≤ MAX_MESSAGES)%nat →
  listed = foldl (λ l d, if decide (eventKey d ∈ eventKey <$> l) then l else l ++ [d]) l0 texts ∧
  (Forall record_ok (taken (offered c)) →
   NoDup ((eventKey <$> l0) ++ (record_key <$> taken (offered c))) → listed = l0 ++ texts) ∧
  (Forall (λ o, (o.2 < CHANNEL_CAP)%nat) (offered c) → same_events serial (taken (offered c)) new).
Proof.
  intros Hp Hc Hph new listed texts Hw Hb Hn Hroom.
  destruct (hub_reachable_log serial _ (pipe_hub l0 p Hp)) as [_ Hlog].
  destruct (Hlog ch c Hc) as [Ho _ Hs]. specialize (Ho ltac:(by rewrite Hph)). specialize (Hs Hph).
  rewrite Hw, app_nil_r in Ho. rewrite Hb, app_nil_r in Hs. fold new in Ho.
  destruct (pipe_transit l0 p Hp) as (c' & Hc' & Ht). rewrite Hc in Hc'. injection Hc' as <-.
  rewrite Hn, app_nil_r, Hs in Ht. fold texts in Ht.
  assert ((offered c).*1 ≡ₚ new) as Hperm by (unfold same_events in Ho; destruct serial; by rewrite Ho).
  assert (length (arrived p) ≤ length new)%nat as Hlen.
  { rewrite Ht. unfold texts. rewrite length_fmap, <-(Permutation_length Hperm).
    apply sublist_length, taken_sublist. }
  assert (listed = foldl take_in l0 texts) as ->.
  { subst listed. by rewrite (listens_flushed _ _ (pipe_listens l0 p Hp ltac:(lia))), Ht. }
  split_and!; [done| |intros Hall; by rewrite taken_all].
  intros Hok Hnd. apply take_all_fresh. subst texts. by rewrite text_keys.
Qed.
End pipe.

Arguments pipe_step : clear implicits.

(** ** Witnesses *)

#[export] Instance compact_laws : WireEncoderLaws (H := compact).
Proof. exact live_text_parses. Qed.

(** One event is broadcast to a socket that just opened. *)
Definition listening : Conn :=
  foldl apply initial [Mount true; Opened; HistoryDone 1 None FetchFails; Flush].

Lemma listening_listens : listens [] listening.
Proof. split; [reflexivity|reflexivity|by exists []|reflexivity|cbn; lia]. Qed.

Definition opened : Pipe := mkPipe (hub_apply NewHub (Subscribe 0%nat)) [] [] listening.

Definition drained : Pipe :=
  foldl (pipe_apply (H := compact) 0) opened
    [AtServer (Broadcast first_record); AtServer (Visit 0 0); AtServer (Return 0);
     AtServer (Write 0 true); Arrive].

Lemma drained_reachable : pipe_reachable (H := compact) true 0 [] drained.
Proof.
  unfold drained. cbn [foldl].
  apply pipe_next; [|done].
  apply pipe_next; [|eexists; split_and!; [vm_compute; reflexivity|done|done]].
  apply pipe_next; [|eexists; vm_compute; reflexivity].
  apply pipe_next; [|eexists _, _; split; vm_compute; reflexivity].
  apply pipe_next; [|done].
  apply pipe_open; [apply hub_new|done|apply listening_listens].
Qed.

Definition its_socket : Chan KernelEventProto :=
  default (mkChan [] [] Hub.Closed [] 0) (chans (server drained) !! 0%nat).

Lemma stream_listed_witness :
  taken (offered its_socket) = [first_record] ∧
  data <$> messages (flush (provider drained)) = [] ++ (text_of (WireEncoder := compact) <$> [first_record]).
Proof.
  assert (taken (offered its_socket) = [first_record]) as Ht by reflexivity. split; [exact Ht|].
  rewrite <-Ht.
  apply (stream_listed (H := compact) (H0 := compact_laws) true 0 [] drained its_socket drained_reachable);
    [reflexivity..| | |].
  - apply Nat.leb_le. reflexivity.
  - rewrite Ht. apply Forall_cons. split; [exact (proj1 (Forall_cons_1 _ _ _ two_records_ok))|by apply Forall_nil].
  - rewrite Ht. apply NoDup_singleton.
Defined.
