(* ===== verification/CausalApi.v ===== *)
(** * lib/api.ts: the causal chain of a transaction

    [fetchCausalChain] asks the server for a transaction's stored events and the
    causal edges between them, and builds the console's own records from whatever
    JSON comes back.  How the request ends is [fetch_outcome]; the promise is
    rejected where a step throws. *)

From S2P Require Import Prelude JsNumber JsString Json Events WireEvent Auth Connection.
Open Scope Z_scope.

Record CausalEdge := mkCausalEdge {
  edge_id : string;
  fromEventId : string;
  toEventId : string;
  causeType : string;
  latencyNs : num;
  edge_transactionId : string;
  edge_serviceName : string
}.

(** ** The request *)

(** [encodeURIComponent]: letters, digits and -_.!~*'() stay, every other byte
    of the UTF-8 form becomes %XX; a lone surrogate throws. *)
Definition unreserved (c : ascii) : bool :=
  is_digit c || in_range 65 90 c || in_range 97 122 c ||
  bool_decide (byte_of c ∈ [45; 95; 46; 33; 126; 42; 39; 40; 41]).

Definition hex_upper (z : Z) : ascii := if z <? 10 then chr (48 + z) else chr (55 + z).

Fixpoint percent_encode (s : string) : string :=
  match s with
  | "" => ""
  | String c t =>
      if unreserved c then String c (percent_encode t)
      else String "%" (String (hex_upper (byte_of c / 16))
                        (String (hex_upper (byte_of c mod 16)) (percent_encode t)))
  end.

(** A surrogate left in the code units once the pairs are read. *)
Fixpoint lone_surrogate (l : list Z) : bool :=
  match l with
  | [] => false
  | u :: l' =>
      if is_high u then
        match l' with v :: l'' => if is_low v then lone_surrogate l'' else true | [] => true end
      else is_low u || lone_surrogate l'
  end.

Definition encodeURIComponent (s : string) : result string :=
  if lone_surrogate (to_u16 s) then Throw "URI malformed" else Return (percent_encode s).

Definition causal_chain_url (transactionId : string) : result string :=
  encoded ← encodeURIComponent transactionId;
  Return ("/api/transactions/" +:+ encoded +:+ "/causal-chain").

(** [fetchJSON]: a refused request throws, as does a body that is not JSON. *)
Definition fetchJSON (r : fetch_outcome) : result jsval :=
  match r with
  | FetchFails => Throw "Failed to fetch"
  | FetchNotOk => Throw "status"
  | FetchOk body => or_throw body
  end.

(** ** The answer *)

(** [(data.k ?? [])], whose [map] only an array has; [data] itself may be null. *)
Definition array_of (data : jsval) (k : string) : result (list jsval) :=
  v ← or_throw (get data k);
  match v with
  | JUndef | JNull => Return []
  | JArr l => Return l
  | _ => Throw "map is not a function"
  end.

Definition edge_of (index : nat) (edge : jsval) : result CausalEdge :=
  let field k := or_throw (get edge k) in
  from ← field "fromEventId"; to ← field "toEventId"; cause ← field "causeType";
  latency ← field "latencyNs"; transaction ← field "transactionId"; service ← field "serviceName";
  id_from ← string_of (from <??> JStr "from");
  id_to ← string_of (to <??> JStr "to");
  id_cause ← string_of (cause <??> JStr (dec_of_nat index));
  from' ← string_of (from <??> JStr "");
  to' ← string_of (to <??> JStr "");
  cause' ← string_of (cause <??> JStr "CAUSE");
  latency' ← number_of (latency <??> JNum (Fin 0));
  transaction' ← string_of (transaction <??> JStr "");
  service' ← string_of (service <??> JStr "");
  Return (mkCausalEdge (id_from +:+ "->" +:+ id_to +:+ ":" +:+ id_cause) from' to' cause' latency'
            transaction' service').

(** [l.map(f)] where [f] may throw. *)
Fixpoint map_throwing {A B} (f : nat → A → result B) (i : nat) (l : list A) : result (list B) :=
  match l with
  | [] => Return []
  | a :: l' => b ← f i a; bs ← map_throwing f (S i) l'; Return (b :: bs)
  end.

Definition chain_of `{Host} (data : jsval) : result (list KernelEvent * list CausalEdge) :=
  rawNodes ← array_of data "nodes";
  nodes ← map_throwing (λ i node, mapWireEvent node (Z.of_nat i)) 0 rawNodes;
  rawEdges ← array_of data "edges";
  edges ← map_throwing edge_of 0 rawEdges;
  Return (nodes, edges).

(** [r] is how the request for [causal_chain_url transactionId] ends. *)
Definition fetchCausalChain `{Host} (transactionId : string) (r : fetch_outcome) :
    result (list KernelEvent * list CausalEdge) :=
  _ ← causal_chain_url transactionId;
  data ← fetchJSON r;
  chain_of data.

(** ** What an accepted chain satisfies *)

Lemma map_throwing_Return {A B} (f : nat → A → result B) i l bs :
  map_throwing f i l = Return bs ↔
  length bs = length l ∧ ∀ j a, l !! j = Some a → ∃ b, bs !! j = Some b ∧ f (i + j)%nat a = Return b.
Proof.
  revert i bs. induction l as [|a l IH]; intros i bs; simpl.
  - split; [by intros [= <-]|]. intros [Hl _]. by destruct bs.
  - split.
    + intros H. destruct (f i a) as [|b] eqn:Ef; [done|]. simpl in H.
      destruct (map_throwing f (S i) l) as [|bs'] eqn:Em; [done|]. injection H as <-.
      apply IH in Em as [Hl Hj]. split; [simpl; by rewrite Hl|]. intros [|j] a' Ha; simpl in *.
      * injection Ha as <-. rewrite Nat.add_0_r. by exists b.
      * replace (i + S j)%nat with (S i + j)%nat by lia. by apply Hj.
    + intros [Hl Hj]. destruct bs as [|b bs]; [done|]. injection Hl as Hl.
      destruct (Hj 0%nat a eq_refl) as (b' & [= <-] & Ef). rewrite Nat.add_0_r in Ef.
      rewrite Ef. simpl. rewrite (proj2 (IH (S i) bs)); [done|]. split; [done|].
      intros j a' Ha. destruct (Hj (S j) a' Ha) as (c & ? & Hc). exists c. split; [done|].
      rewrite <-Hc. f_equal. lia.
Qed.

(** ** What the server sends *)

Record CausalEdgeProto := mkEdgeProto {
  FromEventId : string; ToEventId : string; CauseType : string; LatencyNs : Z;
  EdgeTransactionId : string; EdgeServiceName : string
}.

(** [causalEdgeToWire] and the body of [serveCausalChain]
    (api/handlers/causal_http.go). *)
Definition causalEdgeToWire (e : CausalEdgeProto) : jsval :=
  JObj [("fromEventId", JStr (FromEventId e)); ("toEventId", JStr (ToEventId e));
        ("causeType", JStr (CauseType e)); ("latencyNs", JNum (of_Z (LatencyNs e)));
        ("transactionId", JStr (EdgeTransactionId e)); ("serviceName", JStr (EdgeServiceName e))].

Definition serveCausalChain (nodes : list KernelEventProto) (edges : list CausalEdgeProto) : jsval :=
  JObj [("nodes", JArr (kernelEventToWire <$> nodes)); ("edges", JArr (causalEdgeToWire <$> edges))].

(** The edge a server record stands for. *)
Definition edge_of_proto (e : CausalEdgeProto) : CausalEdge :=
  mkCausalEdge (FromEventId e +:+ "->" +:+ ToEventId e +:+ ":" +:+ CauseType e)
    (FromEventId e) (ToEventId e) (CauseType e) (of_Z (LatencyNs e)) (EdgeTransactionId e)
    (EdgeServiceName e).

Lemma edge_of_wire i e : edge_of i (causalEdgeToWire e) = Return (edge_of_proto e).
Proof. done. Qed.

Lemma map_throwing_fmap {A B C} (f : nat → B → result C) (g : A → B) (h : A → C) i l :
  (∀ j a, a ∈ l → f j (g a) = Return (h a)) → map_throwing f i (g <$> l) = Return (h <$> l).
Proof.
  revert i. induction l as [|a l IH]; intros i Hf; [done|]. rewrite !fmap_cons. cbn [map_throwing].
  rewrite Hf by (by left). cbn [mbind result_bind]. rewrite IH by (intros; apply Hf; by right). done.
Qed.

Section chain.
Context `{Host}.

(** The nodes of a served chain, one after the other. *)
Lemma served_nodes tx ps es :
  lone_surrogate (to_u16 tx) = false → Forall proto_ok ps →
  fetchCausalChain tx (FetchOk (Some (serveCausalChain ps es))) =
  (evts ← map_throwing (λ _ p, outcome_of_proto p) 0 ps; Return (evts, edge_of_proto <$> es)).
Proof.
  intros Htx Hps. unfold fetchCausalChain, causal_chain_url, encodeURIComponent. rewrite Htx.
  cbn [mbind result_bind]. unfold chain_of. cbn [fetchJSON or_throw mbind result_bind].
  change (array_of (serveCausalChain ps es) "nodes") with (Return (kernelEventToWire <$> ps)).
  change (array_of (serveCausalChain ps es) "edges") with (Return (causalEdgeToWire <$> es)).
  cbn [mbind result_bind].
  rewrite (map_throwing_fmap _ causalEdgeToWire edge_of_proto) by (intros; apply edge_of_wire).
  enough (∀ k, map_throwing (λ i raw, mapWireEvent raw (Z.of_nat i)) k (kernelEventToWire <$> ps) =
    map_throwing (λ _ p, outcome_of_proto p) k ps) as -> by done.
  induction Hps as [|p ps Hp Hps IH]; intros k; [done|]. rewrite fmap_cons. cbn [map_throwing].
  destruct (kernelEventToWire_encodes p) as (o & -> & Ho). by rewrite (mapWireEvent_encoded o p), IH.
Qed.

(** What the server serves is what the client gets. *)
Lemma served_chain tx ps es evts :
  lone_surrogate (to_u16 tx) = false → Forall proto_ok ps →
  Forall2 (λ p e, outcome_of_proto p = Return e) ps evts →
  fetchCausalChain tx (FetchOk (Some (serveCausalChain ps es))) = Return (evts, edge_of_proto <$> es).
Proof.
  intros Htx Hok Hps. rewrite served_nodes by done.
  rewrite (proj2 (map_throwing_Return _ _ _ evts)); [done|]. split; [symmetry; by eapply Forall2_length|].
  intros j p Hp. destruct (Forall2_lookup_l _ _ _ _ _ Hps Hp) as (e & He & Hd). by exists e.
Qed.

(** C26: the stored chain of a transaction on its trip to the console, the counters
    of its events in the ranges of their Go types and its identifier fit for a path
    segment.  When every stored event has a known type and a timestamp other than
    0, the fetched chain is the events the records stand for and the edges with the
    same endpoints, cause and latency.  One event of unknown type or of timestamp 0
    makes the whole fetch throw; so does a request that fails, is refused or is
    answered by something else than JSON. *)
Theorem causal_chain_roundtrip tx ps es :
  lone_surrogate (to_u16 tx) = false → Forall proto_ok ps →
  let r := FetchOk (Some (serveCausalChain ps es)) in
  (∀ evts,
    Forall2 (λ p e, ∃ t, type_of_name (EventType' p) = Some t ∧ TimestampNs p ≠ 0 ∧ e = event_of_proto t p)
      ps evts →
    fetchCausalChain tx r = Return (evts, edge_of_proto <$> es)) ∧
  (∀ p, p ∈ ps → type_of_name (EventType' p) = None ∨ TimestampNs p = 0 →
    ∃ msg, fetchCausalChain tx r = Throw msg) ∧
  (∀ r', r' = FetchFails ∨ r' = FetchNotOk ∨ r' = FetchOk None →
     ∃ msg, fetchCausalChain tx r' = Throw msg).
Proof.
  intros Htx Hok r. split_and!.
  - intros evts Hps. apply served_chain; [done..|]. eapply Forall2_impl; [exact Hps|].
    intros p e (t & Ht & Hts & ->). by apply outcome_known.
  - intros p [j Hp]%list_elem_of_lookup Hbad. unfold r. rewrite served_nodes by done.
    destruct (map_throwing _ 0 ps) as [msg|evts] eqn:Em; [by exists msg|exfalso].
    apply map_throwing_Return in Em as [_ Hj]. destruct (Hj j p Hp) as (e & _ & He).
    unfold outcome_of_proto in He. destruct Hbad as [Hbad|Hbad]; rewrite Hbad in He; [done|].
    by destruct (type_of_name _).
  - unfold fetchCausalChain, causal_chain_url, encodeURIComponent. rewrite Htx.
    intros r' [->|[->| ->]]; by eexists.
Qed.
End chain.

(** ** Witness *)

Definition sample_edge : CausalEdgeProto := mkEdgeProto "ev-1" "ev-2" "IO_WAIT" 250000 "tx-1" "db".

Lemma sample_proto_ok : Forall proto_ok [sample_proto].
Proof. repeat constructor; simpl; lia. Qed.

Lemma causal_chain_roundtrip_witness :
  ∃ evts, (@fetchCausalChain utc "tx-1"
    (FetchOk (Some (serveCausalChain [sample_proto] [sample_edge])))) =
    Return (evts, [edge_of_proto sample_edge]) ∧ id <$> evts = [EventId sample_proto].
Proof.
  exists [@event_of_proto utc sys_write sample_proto]. split; [|reflexivity].
  refine (proj1 (@causal_chain_roundtrip utc "tx-1" [sample_proto] [sample_edge] _ sample_proto_ok) _ _);
    [reflexivity|].
  constructor; [|constructor]. exists sys_write. split; [reflexivity|]. split; [discriminate|reflexivity].
Defined.
