(* ===== verification/DebugAnalysis.v ===== *)
(** * lib/debugAnalysis.ts: the explanation panel of the graph page

    [analyzeDebugGraph] condenses the events and edges on screen into a summary:
    a status, the slowest event, the dominating cause, a line of evidence each
    and the next step; on a cause spelt like a member of Object.prototype it throws.
    [explainEvent] is the sentence shown for one event. *)

From S2P Require Import Prelude JsNumber JsString Json Events WireEvent.
Open Scope Z_scope.

Record DebugEdge := mkDebugEdge {
  sourceId : string;
  targetId : string;
  latencyMs : num;
  causeType : option string
}.

#[export] Instance DebugEdge_eq_dec : EqDecision DebugEdge.
Proof. solve_decision. Defined.

Inductive DebugStatus := nominal | degraded | critical.

#[export] Instance DebugStatus_eq_dec : EqDecision DebugStatus.
Proof. solve_decision. Defined.

Record DebugSummary := mkSummary {
  ds_status : DebugStatus;
  title : string;
  primaryCause : string;
  impact : string;
  evidence : list string;
  nextStep : string;
  slowestEvent : option KernelEvent;
  transactionId : string;
  services : list string;
  pids : list num
}.

Definition TYPE_DOMAIN (t : EventType) : string :=
  match t with
  | tcp_send => "network send" | tcp_recv => "network receive"
  | tcp_retransmit => "network retransmit" | sys_write => "write syscall"
  | sys_read => "read syscall" | sched_switch => "scheduler"
  | page_fault => "memory fault" | block_io => "disk I/O"
  end.

Definition CAUSE_LABELS : list (string * string) :=
  [("DISK_TO_SYSCALL", "disk wait feeding a syscall");
   ("READ_TO_WRITE", "read-to-write dependency");
   ("WRITE_TO_READ", "write-to-read dependency");
   ("CROSS_THREAD_READ_TO_WRITE", "cross-thread read/write handoff");
   ("CROSS_THREAD_WRITE_TO_READ", "cross-thread write/read handoff");
   ("SCHED_DELAY", "scheduler delay");
   ("CPU_CONTENTION", "CPU contention");
   ("CROSS_THREAD_CPU_CONTENTION", "cross-thread CPU contention");
   ("MEMORY_PRESSURE", "memory pressure");
   ("TCP_RTT", "network round trip");
   ("CROSS_THREAD_TCP_RTT", "cross-thread network delay");
   ("SEQUENTIAL", "sequential ordering")].

Definition durationScore (event : KernelEvent) : num := default (Fin 0) (durationUs event).

(** [s || "kernel"]. *)
Definition or_kernel (s : string) : string := if decide (s = "") then "kernel" else s.

Definition eventLabel (event : KernelEvent) : string :=
  type_name (type event) +:+ " on " +:+ or_kernel (service event) +:+
  " pid=" +:+ num_to_string (pid event).

(** The members every object literal inherits: indexing [CAUSE_LABELS] by one of
    these names finds a function (for __proto__ the prototype itself). *)
Definition OBJECT_PROTOTYPE : list string :=
  ["constructor"; "__defineGetter__"; "__defineSetter__"; "hasOwnProperty"; "__lookupGetter__";
   "__lookupSetter__"; "isPrototypeOf"; "propertyIsEnumerable"; "toString"; "valueOf"; "__proto__";
   "toLocaleString"].

(** What the index yields, declared a string by the source. *)
Inductive cause_label := Label (text : string) | Inherited (member : string).

Definition summarizeCause (causeType : option string) : cause_label :=
  match causeType with
  | None => Label "local live timing"
  | Some c =>
      if decide (c = "") then Label "local live timing" else
      match map_get c CAUSE_LABELS with
      | Some text => Label text
      | None => if decide (c ∈ OBJECT_PROTOTYPE) then Inherited c
                else Label (replace_all "_" " " (to_lower c))
      end
  end.

(** A label in a template literal.  The text of an inherited member is never
    shown: [nextStepFor] throws on it before the summary is built. *)
Definition in_template (cause : cause_label) : string :=
  match cause with
  | Label text => text
  | Inherited member => if decide (member = "__proto__") then "[object Object]"
                        else "function " +:+ member +:+ "() { [native code] }"
  end.

(** [events.some((event) => event.type === t)]. *)
Definition some_type (events : list KernelEvent) (t : EventType) : bool :=
  existsb (λ e, bool_decide (type e = t)) events.

Definition inferCauseFromEvents (events : list KernelEvent) : string :=
  if some_type events block_io then "disk I/O wait"
  else if some_type events sched_switch then "scheduler delay"
  else if some_type events page_fault then "memory pressure"
  else if some_type events tcp_retransmit then "network retransmit"
  else if existsb (λ e, bool_decide (type e = tcp_recv) || bool_decide (type e = tcp_send)) events
  then "network timing"
  else "syscall latency".

(** Neither a function nor Object.prototype has a method [includes]. *)
Definition nextStepFor (label : cause_label) (slowest : option KernelEvent) : result string :=
  match label with
  | Inherited _ => Throw "TypeError: cause.includes is not a function"
  | Label cause => Return (
  if includes cause "disk" then
    "Inspect block_io before the slow syscall and compare sector/op/latency."
  else if includes cause "scheduler" || includes cause "CPU" then
    "Inspect sched_switch events around the slow pid/tid for preemption or CPU contention."
  else if includes cause "memory" then
    "Inspect page_fault events before the slow read/write path."
  else if includes cause "network" then
    "Inspect tcp_recv/tcp_send timing and retransmits for the same transaction."
  else match slowest with
       | Some e => "Inspect " +:+ type_name (type e) +:+ " around pid " +:+
                   num_to_string (pid e) +:+ ", then follow adjacent edges."
       | None => "Generate or select a transaction with edges, then inspect the slowest event."
       end)
  end.

(** [event.durationUs !== null && event.durationUs > limit]. *)
Definition slower_than (limit : Z) (event : KernelEvent) : bool :=
  match durationUs event with Some d => nlt (of_Z limit) d | None => false end.

Definition explainEvent (event : KernelEvent) : string :=
  let domain := TYPE_DOMAIN (type event) in
  if slower_than 5000000 event then
    domain +:+ " took " +:+ fmtDur (durationUs event) +:+
    ", which is unusually high and should be treated as the first suspect."
  else if slower_than 500000 event then
    domain +:+ " is slow at " +:+ fmtDur (durationUs event) +:+
    " and may explain user-visible latency."
  else match type event with
  | sched_switch => "Scheduler activity can explain why a thread stopped running before work resumed."
  | page_fault => "Page faults can point to memory pressure or cold memory access before a syscall continues."
  | block_io => "Block I/O can explain read/write stalls when it appears before syscall latency."
  | _ => domain +:+ " event. Use nearby events and causal edges to decide whether it is cause or consequence."
  end.

(** [[...new Set(l)]]: first occurrences, in order. *)
Definition set_of {A} `{EqDecision A} (l : list A) : list A :=
  (map_of ((λ x, (x, ())) <$> l)).*1.

(** The comparator (a, b) => durationScore(b) - durationScore(a). *)
Definition by_duration (a b : KernelEvent) : bool :=
  positive (nsub (durationScore b) (durationScore a)).

Definition slowest_of (events : list KernelEvent) : option KernelEvent :=
  head (js_sort by_duration events).

Definition slowEvents (events : list KernelEvent) : list KernelEvent :=
  js_sort by_duration (filter (λ e, slower_than 500000 e = true) events).

Definition explicitCauses (edges : list DebugEdge) : list string :=
  omap (λ e, c ← causeType e; if decide (c = "") then None else Some c) edges.

Definition causeCounts (causes : list string) : list (string * Z) :=
  foldl (λ m c, map_set c (default 0 (map_get c m) + 1) m) [] causes.

(** The comparator (a, b) => b[1] - a[1]. *)
Definition by_count (a b : string * Z) : bool := a.2 <? b.2.

Definition topCause (edges : list DebugEdge) : option string :=
  fst <$> head (js_sort by_count (causeCounts (explicitCauses edges))).

Definition transaction_of (events : list KernelEvent) : string :=
  default "" (head (omap (λ e, t ← map_get "transaction_id" (meta e);
                               if decide (t = "") then None else Some t) events)).

Definition plural (n : Z) : string := if n =? 1 then "" else "s".

(** [slowestEvent && (slowestEvent.durationUs ?? 0) > limit]. *)
Definition slowest_exceeds (limit : Z) (events : list KernelEvent) : bool :=
  match slowest_of events with Some e => nlt (of_Z limit) (durationScore e) | None => false end.

Definition analyze_status (events : list KernelEvent) (edges : list DebugEdge) : DebugStatus :=
  if slowest_exceeds 5000000 events then critical
  else if (0 <? Z.of_nat (length (slowEvents events))) || (0 <? Z.of_nat (length edges))
  then degraded else nominal.

Definition all_evidence (events : list KernelEvent) (edges : list DebugEdge) : list string :=
  let services := take 6 (set_of ((λ e, or_kernel (service e)) <$> events)) in
  let slow := Z.of_nat (length (slowEvents events)) in
  let n_edges := Z.of_nat (length edges) in
  match slowest_of events with
  | Some e => ["Slowest event: " +:+ eventLabel e +:+ " at " +:+ fmtDur (durationUs e) +:+ "."]
  | None => []
  end ++
  match topCause edges with
  | Some c =>
      let n := default 0 (map_get c (causeCounts (explicitCauses edges))) in
      ["Top causal edge: " +:+ in_template (summarizeCause (Some c)) +:+ " (" +:+ dec_of_Z n +:+ " edge" +:+
       plural n +:+ ")."]
  | None =>
      if 0 <? n_edges then
        [dec_of_Z n_edges +:+ " local timing edge" +:+ plural n_edges +:+ " connect nearby events."]
      else []
  end ++
  match services with
  | [] => []
  | _ => ["Services involved: " +:+ join ", " services +:+ "."]
  end ++
  (if 1 <? slow then [dec_of_Z slow +:+ " events exceed 500ms."] else []).

Definition primary_label (events : list KernelEvent) (edges : list DebugEdge) : cause_label :=
  match topCause edges with
  | Some c => summarizeCause (Some c)
  | None => Label (inferCauseFromEvents events)
  end.

Definition analyzeDebugGraph (events : list KernelEvent) (edges : list DebugEdge) : result DebugSummary :=
  let slowestEvent := slowest_of events in
  let services := take 6 (set_of ((λ e, or_kernel (service e)) <$> events)) in
  let primaryCause := primary_label events edges in
  let status := analyze_status events edges in
  nextStep ← nextStepFor primaryCause slowestEvent;
  Return {| ds_status := status;
     title := match status with
              | critical => "Critical latency path"
              | degraded => "Potential latency path"
              | nominal => "No clear bottleneck yet"
              end;
     primaryCause := in_template primaryCause;      (* a text: [nextStepFor] has returned *)
     impact := match slowestEvent with
               | Some e => eventLabel e +:+ " is the current impact point."
               | None => "Not enough events to identify an impact point."
               end;
     evidence := take 4 (all_evidence events edges);
     nextStep := nextStep;
     slowestEvent := slowestEvent;
     transactionId := transaction_of events;
     services := services;
     pids := take 8 (set_of (pid <$> events)) |}.

(** ** The comparators are consistent *)

(** A duration that is not NaN, as every accepted event has. *)
Definition scored (e : KernelEvent) : Prop := not_nan (durationScore e).

Lemma wf_scored e : wf_event e → scored e.
Proof.
  intros (_ & _ & Hd). unfold scored, durationScore, wf_duration in *.
  destruct (durationUs e) as [[]|]; simpl in *; try done.
Qed.

#[export] Instance by_duration_consistent : Consistent by_duration scored.
Proof.
  split.
  - intros x y Hx Hy. unfold by_duration. rewrite !positive_nsub_nlt by done. apply nlt_asym.
  - intros x y z Hx Hy Hz. unfold by_duration. rewrite !positive_nsub_nlt by done.
    intros. by eapply nlt_neg_trans; [exact Hy|..].
Qed.

#[export] Instance by_count_consistent : Consistent by_count (λ _, True).
Proof. split; unfold by_count; intros *; rewrite ?Z.ltb_lt, ?Z.ltb_ge; lia. Qed.

(** ** Sets and counts *)

Lemma foldl_map_set_keys {A} `{EqDecision A} (l : list A) (m : list (A * ())) x :
  x ∈ (foldl (λ m kv, map_set kv.1 kv.2 m) m ((λ x, (x, ())) <$> l)).*1 ↔ x ∈ m.*1 ∨ x ∈ l.
Proof.
  revert m. induction l as [|y l IH]; intros m; simpl.
  - rewrite elem_of_nil. tauto.
  - rewrite IH, map_set_keys, elem_of_cons. tauto.
Qed.

Lemma elem_of_set_of {A} `{EqDecision A} (l : list A) x : x ∈ set_of l ↔ x ∈ l.
Proof. unfold set_of, map_of. rewrite foldl_map_set_keys. simpl. set_solver. Qed.

Lemma set_of_NoDup {A} `{EqDecision A} (l : list A) : NoDup (set_of l).
Proof. apply map_of_NoDup. Qed.

Definition occurrences (c : string) (l : list string) : Z := Z.of_nat (length (filter (λ d, d = c) l)).

Lemma occurrences_none (c : string) l : c ∉ l → filter (λ d, d = c) l = [].
Proof.
  induction l as [|d l IH]; [done|]. rewrite not_elem_of_cons, filter_cons. intros [Hd Hl].
  rewrite decide_False by congruence. auto.
Qed.

Lemma causeCounts_get l c :
  map_get c (causeCounts l) = if decide (c ∈ l) then Some (occurrences c l) else None.
Proof.
  unfold causeCounts. induction l as [|d l IH] using rev_ind; simpl; [done|].
  rewrite foldl_app. simpl. rewrite map_get_set, IH. unfold occurrences.
  rewrite filter_app, length_app, filter_cons, filter_nil.
  destruct (decide (c = d)) as [<-|Hne].
  - rewrite decide_True by set_solver. rewrite decide_True by done. rewrite IH. f_equal.
    destruct (decide (c ∈ l)) as [Hin|Hout]; simpl; [unfold occurrences; lia|].
    by rewrite occurrences_none.
  - rewrite (decide_False (P := d = c)) by congruence. simpl.
    rewrite Nat.add_0_r. repeat case_decide; set_solver.
Qed.

Lemma causeCounts_NoDup l : NoDup (causeCounts l).*1.
Proof.
  unfold causeCounts. induction l as [|d l IH] using rev_ind; simpl; [constructor|].
  rewrite foldl_app. simpl. by apply map_set_NoDup.
Qed.

Lemma slowest_of_spec events :
  Forall scored events →
  match slowest_of events with
  | None => events = []
  | Some e => first_least by_duration events e
  end.
Proof. apply (js_sort_head by_duration scored). Qed.

Lemma first_least_elem {A} (gt : A → A → bool) l x : first_least gt l x → x ∈ l.
Proof. intros (l1 & l2 & -> & _). set_solver. Qed.

(** The least element bounds them all. *)
Lemma first_least_all {A} (gt : A → A → bool) (P : A → Prop) `{!Consistent gt P} l x y :
  Forall P l → first_least gt l x → y ∈ l → y = x ∨ gt x y = false.
Proof.
  rewrite Forall_forall. intros HP (l1 & l2 & -> & H1 & H2). rewrite Forall_forall in H1, H2.
  intros [Hy|[->|Hy]%elem_of_cons]%elem_of_app; [right|by left|right; auto].
  apply (gt_asym gt); [apply HP; set_solver..|auto].
Qed.

Lemma elem_of_slowEvents events e :
  e ∈ slowEvents events ↔ e ∈ events ∧ slower_than 500000 e = true.
Proof. unfold slowEvents. rewrite elem_of_js_sort, list_elem_of_filter. tauto. Qed.

Lemma slower_than_score limit e :
  0 ≤ limit → slower_than limit e = nlt (of_Z limit) (durationScore e).
Proof.
  intros. unfold slower_than, durationScore. destruct (durationUs e); [done|]. simpl.
  pose proof (of_Z_mono 0 limit ltac:(done)) as Hm. rewrite (of_Z_exact 0) in Hm by done.
  change (Fin (0 * one)) with (Fin 0) in Hm.
  destruct (nlt (of_Z limit) (Fin 0)) eqn:E; [|done].
  pose proof (nlt_le_trans _ _ _ E Hm) as Hx. by rewrite nlt_irrefl in Hx.
Qed.

Lemma length_pos_exists {A} (l : list A) : 0 < Z.of_nat (length l) ↔ ∃ x, x ∈ l.
Proof.
  split.
  - destruct l as [|x l]; simpl; [lia|]. intros _. exists x. by left.
  - intros [x Hx]. destruct l; [by apply elem_of_nil in Hx|]. simpl. lia.
Qed.

Lemma length_pos_ne {A} (l : list A) : 0 < Z.of_nat (length l) ↔ l ≠ [].
Proof. destruct l; simpl; [split; [lia|done]|split; [done|lia]]. Qed.

(** ** Properties *)

(** The most frequent cause, if there is one, is not the name of an inherited
    member. *)
Definition labelled (edges : list DebugEdge) : Prop :=
  match topCause edges with Some c => c ∉ OBJECT_PROTOTYPE | None => True end.

#[export] Instance labelled_dec edges : Decision (labelled edges).
Proof. unfold labelled. destruct (topCause edges); apply _. Defined.

(** The label of a cause that is not inherited. *)
Definition label_of (c : string) : string :=
  default (replace_all "_" " " (to_lower c)) (map_get c CAUSE_LABELS).

Lemma summarizeCause_Some c :
  c ≠ "" → summarizeCause (Some c) = if decide (c ∈ OBJECT_PROTOTYPE) then Inherited c else Label (label_of c).
Proof.
  intros Hc. unfold summarizeCause, label_of. rewrite decide_False by done.
  case_decide as Hin; [|by destruct (map_get c CAUSE_LABELS)].
  assert (map_get c CAUSE_LABELS = None) as ->; [|done].
  unfold OBJECT_PROTOTYPE in Hin.
  repeat (apply elem_of_cons in Hin as [->|Hin]; [reflexivity|]). by apply elem_of_nil in Hin.
Qed.

Lemma elem_of_explicitCauses c edges :
  c ∈ explicitCauses edges ↔ c ≠ "" ∧ ∃ e, e ∈ edges ∧ causeType e = Some c.
Proof.
  unfold explicitCauses. rewrite list_elem_of_omap. split.
  - intros (e & He & Hc). destruct (causeType e) as [d|] eqn:E; simpl in Hc; [|done].
    case_decide; simplify_eq. eauto.
  - intros (Hne & e & He & Hc). exists e. split; [done|]. rewrite Hc. simpl. by rewrite decide_False.
Qed.

Lemma explicitCauses_ne c edges : c ∈ explicitCauses edges → c ≠ "".
Proof. by intros [? _]%elem_of_explicitCauses. Qed.

Lemma topCause_ne c edges : topCause edges = Some c → c ∈ explicitCauses edges.
Proof.
  unfold topCause. pose proof (js_sort_head by_count (λ _, True) (causeCounts (explicitCauses edges))
    ltac:(by apply Forall_true)) as Hh.
  destruct (head _) as [[d n]|]; [|done]. intros [= ->]. apply first_least_elem in Hh.
  apply elem_map_get in Hh; [|apply causeCounts_NoDup]. rewrite causeCounts_get in Hh. by case_decide.
Qed.

Lemma elem_of_causeCounts l c n : (c, n) ∈ causeCounts l ↔ c ∈ l ∧ n = occurrences c l.
Proof.
  split.
  - intros Hin%elem_map_get; [|apply causeCounts_NoDup]. rewrite causeCounts_get in Hin.
    case_decide; naive_solver.
  - intros [Hc ->]. apply map_get_elem. rewrite causeCounts_get. by rewrite decide_True.
Qed.

Lemma topCause_most edges c d :
  topCause edges = Some c → d ∈ explicitCauses edges →
  occurrences d (explicitCauses edges) ≤ occurrences c (explicitCauses edges).
Proof.
  unfold topCause. set (l := explicitCauses edges). intros Hc Hd.
  pose proof (js_sort_head by_count (λ _, True) (causeCounts l) ltac:(by apply Forall_true)) as Hh.
  destruct (head _) as [[c' n]|]; [|done]. simplify_eq/=.
  pose proof (first_least_elem _ _ _ Hh) as Hin. apply elem_of_causeCounts in Hin as [_ ->].
  assert ((d, occurrences d l) ∈ causeCounts l) as Hin by by apply elem_of_causeCounts.
  destruct (first_least_all by_count (λ _, True) _ _ _ ltac:(by apply Forall_true) Hh Hin)
    as [[= -> _]|Hle]; [done|]. unfold by_count in Hle; simpl in Hle. by apply Z.ltb_ge in Hle.
Qed.

Lemma topCause_none edges : topCause edges = None → explicitCauses edges = [].
Proof.
  unfold topCause. set (l := explicitCauses edges). intros Hc.
  pose proof (js_sort_head by_count (λ _, True) (causeCounts l) ltac:(by apply Forall_true)) as Hh.
  destruct (head _); [done|]. destruct l as [|c l]; [done|]. exfalso.
  assert ((c, occurrences c (c :: l)) ∈ causeCounts (c :: l)) as Hin
    by (apply elem_of_causeCounts; split; [by left|done]).
  rewrite Hh in Hin. by apply elem_of_nil in Hin.
Qed.

(** The analysis returns exactly on labelled edges, and throws on the others. *)
Lemma analyze_labelled events edges : labelled edges ↔ ∃ s, analyzeDebugGraph events edges = Return s.
Proof.
  unfold labelled, analyzeDebugGraph, primary_label. destruct (topCause edges) as [c|] eqn:Ec.
  - rewrite summarizeCause_Some by (by eapply explicitCauses_ne, topCause_ne).
    case_decide; split; [done|by intros [? [=]]|by eexists|done].
  - split; [by eexists|done].
Qed.

Lemma analyze_throws events edges :
  ¬ labelled edges → analyzeDebugGraph events edges = Throw "TypeError: cause.includes is not a function".
Proof.
  unfold labelled, analyzeDebugGraph, primary_label. destruct (topCause edges) as [c|] eqn:Ec; [|done].
  rewrite summarizeCause_Some by (by eapply explicitCauses_ne, topCause_ne). by case_decide.
Qed.

(** Edges that name no cause can always be analysed. *)
Lemma labelled_uncaused edges : Forall (λ e, causeType e = None) edges → labelled edges.
Proof.
  intros Hu. unfold labelled. destruct (topCause edges) as [c|] eqn:Ec; [|done].
  apply topCause_ne, elem_of_explicitCauses in Ec as (_ & e & He & Hc).
  rewrite Forall_forall in Hu. rewrite (Hu e He) in Hc. done.
Qed.

(** What a summary holds when there is one. *)
Lemma analyze_fields events edges s :
  analyzeDebugGraph events edges = Return s →
  ds_status s = analyze_status events edges ∧
  primaryCause s = in_template (primary_label events edges) ∧
  evidence s = take 4 (all_evidence events edges) ∧
  slowestEvent s = slowest_of events ∧
  services s = take 6 (set_of ((λ e, or_kernel (service e)) <$> events)) ∧
  pids s = take 8 (set_of (pid <$> events)).
Proof. unfold analyzeDebugGraph. intros (t & _ & [= <-])%bind_Return. done. Qed.

Section analysis.
Variable events : list KernelEvent.
Variable edges : list DebugEdge.
Hypothesis scored_all : Forall scored events.

(** Some event is slower than a limit exactly when the slowest is. *)
Lemma slowest_over limit :
  0 ≤ limit →
  (∃ e, e ∈ events ∧ slower_than limit e = true) ↔ slowest_exceeds limit events = true.
Proof.
  intros Hl. pose proof (slowest_of_spec events scored_all) as Hs. unfold slowest_exceeds.
  destruct (slowest_of events) as [m|]; [|subst; set_solver]. split.
  - intros (e & He & Hs'). rewrite slower_than_score in Hs' by done.
    destruct (first_least_all by_duration scored _ _ _ scored_all Hs He) as [->|Hle]; [done|].
    unfold by_duration in Hle. rewrite Forall_forall in scored_all.
    rewrite positive_nsub_nlt in Hle; [|by apply scored_all|].
    + destruct (nlt (of_Z limit) (durationScore m)) eqn:E; [done|].
      rewrite (nlt_neg_trans _ (durationScore m) _ (scored_all m (first_least_elem _ _ _ Hs)) E Hle)
        in Hs'. done.
    + apply scored_all. by eapply first_least_elem.
  - intros Hm. exists m. split; [by eapply first_least_elem|]. by rewrite slower_than_score.
Qed.

(** The slowest event of the summary is the first event, in the order given,
    of maximal duration (a null duration counts as 0); there is none only when
    there are no events. *)
Theorem slowest_event_spec s :
  analyzeDebugGraph events edges = Return s →
  match slowestEvent s with
  | None => events = []
  | Some e =>
      ∃ l1 l2, events = l1 ++ e :: l2 ∧
        Forall (λ y, nlt (durationScore y) (durationScore e) = true) l1 ∧
        Forall (λ y, nlt (durationScore e) (durationScore y) = false) l2
  end.
Proof.
  intros (_ & _ & _ & -> & _)%analyze_fields. pose proof (slowest_of_spec events scored_all) as Hs.
  destruct (slowest_of events) as [e|]; [|done].
  destruct Hs as (l1 & l2 & -> & H1 & H2). exists l1, l2. split; [done|].
  apply Forall_app in scored_all as [HP1 [HPe HP2]%Forall_cons]. unfold by_duration in *.
  split; [revert H1|revert H2]; rewrite !Forall_forall in *; intros Hg y Hy; specialize (Hg y Hy);
    rewrite positive_nsub_nlt in Hg by first [exact HPe|by apply HP1|by apply HP2]; done.
Qed.

(** The status of the summary.  It is critical exactly when some event took
    more than 5 s; otherwise degraded exactly when some event took more than
    0.5 s or there is an edge; otherwise nominal. *)
Theorem status_spec s :
  analyzeDebugGraph events edges = Return s →
  let over limit := ∃ e, e ∈ events ∧ slower_than limit e = true in
  let status := ds_status s in
  (status = critical ↔ over 5000000) ∧
  (status = degraded ↔ ¬ over 5000000 ∧ (over 500000 ∨ edges ≠ [])) ∧
  (status = nominal ↔ ¬ over 5000000 ∧ ¬ over 500000 ∧ edges = []).
Proof.
  intros (Es & _)%analyze_fields over status. pose proof (slowest_over 5000000 ltac:(done)) as Hc. fold (over 5000000) in Hc.
  assert (0 < Z.of_nat (length (slowEvents events)) ↔ over 500000) as Hs.
  { rewrite length_pos_exists. subst over. simpl. by setoid_rewrite elem_of_slowEvents. }
  pose proof (length_pos_ne edges) as He.
  subst status. rewrite Es. unfold analyze_status.
  clearbody over. destruct (slowest_exceeds 5000000 events).
  - split_and!; naive_solver.
  - assert (¬ over 5000000) by (by rewrite Hc).
    destruct (_ || _) eqn:E2.
    + apply orb_true_iff in E2. rewrite !Z.ltb_lt, Hs, He in E2.
      assert (¬ over 500000 ∧ edges = [] → False) by naive_solver. split_and!; naive_solver.
    + bool_to_prop. rewrite Z.ltb_ge in *.
      assert (¬ over 500000) by (rewrite <-Hs; lia).
      assert (edges = []) by (destruct edges; simpl in *; [done|lia]).
      split_and!; naive_solver.
Qed.
End analysis.

(** C40: the primary cause.  When some edge names a cause, the one decided on
    occurs on the largest number of edges, and the summary names it by its label;
    the exception is a cause spelt like a member of Object.prototype, for which
    the analysis throws and there is no summary.  When no edge names a cause there
    is a summary, and its cause is inferred from the types of the events alone. *)
Theorem primary_cause_spec events edges :
  let causes := explicitCauses edges in
  match topCause edges with
  | Some c =>
      c ∈ causes ∧ (∀ d, d ∈ causes → occurrences d causes ≤ occurrences c causes) ∧
      if decide (c ∈ OBJECT_PROTOTYPE)
      then analyzeDebugGraph events edges = Throw "TypeError: cause.includes is not a function"
      else ∃ s, analyzeDebugGraph events edges = Return s ∧ primaryCause s = label_of c
  | None =>
      causes = [] ∧
      ∃ s, analyzeDebugGraph events edges = Return s ∧ primaryCause s = inferCauseFromEvents events
  end.
Proof.
  simpl. assert (∀ l, labelled edges → primary_label events edges = Label l →
    ∃ s, analyzeDebugGraph events edges = Return s ∧ primaryCause s = l) as Hret.
  { intros l [s Hs]%(analyze_labelled events) El. exists s. split; [done|].
    apply analyze_fields in Hs as (_ & -> & _). by rewrite El. }
  pose proof (analyze_throws events edges) as Hthrow. unfold labelled, primary_label in *.
  destruct (topCause edges) as [c|] eqn:Ec.
  - pose proof (topCause_ne _ _ Ec) as Hc. pose proof (explicitCauses_ne _ _ Hc) as Hne.
    split; [done|]. split; [intros d; by apply topCause_most|].
    rewrite (summarizeCause_Some c Hne) in Hret. case_decide; [by apply Hthrow; intros []|by apply Hret].
  - split; [by apply topCause_none|by apply Hret].
Qed.

(** The kinds of events a next step can point to. *)
Definition step_for (cause : string) : option (list EventType) :=
  if bool_decide (cause ∈ ["DISK_TO_SYSCALL"]) then Some [block_io]
  else if bool_decide (cause ∈ ["SCHED_DELAY"; "CPU_CONTENTION"; "CROSS_THREAD_CPU_CONTENTION"])
  then Some [sched_switch]
  else if bool_decide (cause ∈ ["MEMORY_PRESSURE"]) then Some [page_fault]
  else if bool_decide (cause ∈ ["TCP_RTT"; "CROSS_THREAD_TCP_RTT"]) then Some [tcp_recv; tcp_send]
  else None.

(** Evaluate the tests of [nextStepFor] on a closed cause. *)
Ltac eval_step :=
  unfold nextStepFor;
  repeat match goal with
  | |- context [includes ?s ?p] =>
      let b := eval vm_compute in (includes s p) in
      lazymatch b with true => idtac | false => idtac end;
      change (includes s p) with b
  | |- context [step_for ?c] => let o := eval vm_compute in (step_for c) in change (step_for c) with o
  end; cbn [orb].

(** For every cause the engine names, the next step tells to inspect the
    event type behind that cause: disk, scheduler, memory and network causes name
    their events, and for the others the step names the slowest event. *)
Theorem next_step_names_cause c slowest :
  c ∈ CAUSE_LABELS.*1 →
  ∃ step, nextStepFor (summarizeCause (Some c)) slowest = Return step ∧
  match step_for c with
  | Some ts => ∀ t, t ∈ ts → includes step (type_name t) = true
  | None => nextStepFor (Label "") slowest = Return step
  end.
Proof.
  intros Hc. simpl in Hc.
  repeat (apply elem_of_cons in Hc as [->|Hc]; [eval_step; eexists; split; [reflexivity|]|]);
    [..|by apply elem_of_nil in Hc]; try reflexivity; intros t Ht;
    repeat (apply elem_of_cons in Ht as [->|Ht]; [vm_compute; reflexivity|]); by apply elem_of_nil in Ht.
Qed.

Lemma take_NoDup {A} n (l : list A) : NoDup l → NoDup (take n l).
Proof. intros H. rewrite <-(take_drop n l) in H. by apply NoDup_app in H as (? & _). Qed.

Lemma take_elem {A} n (l : list A) x : x ∈ take n l → x ∈ l.
Proof. intros H. rewrite <-(take_drop n l). apply elem_of_app. by left. Qed.

(** The panel stays bounded and repeats nothing: at most six distinct
    services, eight distinct pids, all of given events, and the cut to four lines
    of evidence never drops one. *)
Theorem summary_bounded events edges s :
  analyzeDebugGraph events edges = Return s →
  (length (services s) ≤ 6)%nat ∧ NoDup (services s) ∧
  (length (pids s) ≤ 8)%nat ∧ NoDup (pids s) ∧
  (∀ x, x ∈ services s → ∃ e, e ∈ events ∧ x = or_kernel (service e)) ∧
  (∀ p, p ∈ pids s → ∃ e, e ∈ events ∧ p = pid e) ∧
  evidence s = all_evidence events edges.
Proof.
  intros (_ & _ & -> & _ & -> & ->)%analyze_fields. split_and!.
  - rewrite length_take. lia.
  - apply take_NoDup, set_of_NoDup.
  - rewrite length_take. lia.
  - apply take_NoDup, set_of_NoDup.
  - intros x Hx%take_elem. rewrite elem_of_set_of, list_elem_of_fmap in Hx.
    destruct Hx as (e & -> & He). by exists e.
  - intros x Hx%take_elem. rewrite elem_of_set_of, list_elem_of_fmap in Hx.
    destruct Hx as (e & -> & He). by exists e.
  - apply take_ge. unfold all_evidence. rewrite !length_app. repeat case_match; simpl; lia.
Qed.

(** ** Witnesses *)

Definition sample_events : list KernelEvent :=
  [sample_event "a" 1000 sys_write 7 "api-worker" (Some 900000);
   sample_event "b" 2000 block_io 7 "" (Some 6000000);
   sample_event "c" 3000 tcp_send 8 "api-worker" (Some 6000000)].

Definition sample_edges : list DebugEdge :=
  [mkDebugEdge "a" "b" (of_Z 1) (Some "SEQUENTIAL"); mkDebugEdge "b" "c" (of_Z 1) (Some "DISK_TO_SYSCALL");
   mkDebugEdge "a" "c" (of_Z 1) (Some "DISK_TO_SYSCALL"); mkDebugEdge "a" "c" (of_Z 1) None].

Lemma sample_scored : Forall scored sample_events.
Proof. repeat constructor; vm_compute; discriminate. Qed.

Lemma slowest_event_spec_witness :
  ∃ s, analyzeDebugGraph sample_events sample_edges = Return s ∧
    id <$> slowestEvent s = Some "b" ∧
    match slowestEvent s with
    | None => sample_events = []
    | Some e =>
        ∃ l1 l2, sample_events = l1 ++ e :: l2 ∧
          Forall (λ y, nlt (durationScore y) (durationScore e) = true) l1 ∧
          Forall (λ y, nlt (durationScore e) (durationScore y) = false) l2
    end.
Proof.
  eexists. split; [vm_compute; reflexivity|]. split; [vm_compute; reflexivity|].
  apply (slowest_event_spec sample_events sample_edges sample_scored). vm_compute. reflexivity.
Defined.

Lemma status_spec_witness :
  ∃ s, analyzeDebugGraph sample_events sample_edges = Return s ∧ ds_status s = critical.
Proof.
  eexists. split; [vm_compute; reflexivity|].
  eapply (status_spec sample_events sample_edges sample_scored); [vm_compute; reflexivity|].
  exists (sample_event "b" 2000 block_io 7 "" (Some 6000000)).
  split; [right; left|vm_compute; reflexivity].
Defined.

Example sample_cause :
  primaryCause <$> analyzeDebugGraph sample_events sample_edges = Return "disk wait feeding a syscall".
Proof. vm_compute. reflexivity. Qed.

(** One edge whose cause is the name of an inherited member is enough. *)
Example inherited_cause :
  analyzeDebugGraph sample_events [mkDebugEdge "a" "b" (of_Z 1) (Some "constructor")]
  = Throw "TypeError: cause.includes is not a function".
Proof. vm_compute. reflexivity. Qed.

Lemma next_step_names_cause_witness :
  ∃ step, nextStepFor (summarizeCause (Some "SCHED_DELAY")) None = Return step ∧
    includes step (type_name sched_switch) = true.
Proof.
  destruct (next_step_names_cause "SCHED_DELAY" None) as (step & Hs & Ht).
  - vm_compute. repeat (left || right).
  - exists step. split; [exact Hs|]. apply Ht. left.
Defined.

Lemma summary_bounded_witness :
  ∃ s, analyzeDebugGraph sample_events sample_edges = Return s ∧ (length (services s) ≤ 6)%nat.
Proof.
  eexists. split; [vm_compute; reflexivity|].
  eapply (summary_bounded sample_events sample_edges). vm_compute. reflexivity.
Defined.
