(* ===== verification/Graph.v ===== *)
(** * pages/Graph.tsx: the graph computations

    The pure part of the graph page: classification of an event, edges inferred
    from timing, the sanitizer every graph goes through, the layout with its
    fallback, and the set of nodes on a causal path.  Two things come from
    outside: [Collation], the locale's string order, and [Dagre], the layout
    library. *)

From S2P Require Import Prelude JsNumber JsString Json Events WireEvent DebugAnalysis.
Open Scope Z_scope.

(** dagre on the ids and the edges of a graph: [None] when it throws, otherwise
    the position it gives an id, if any. *)
Class Dagre := dagre_layout :
  list string → list (string * string) → option (string → option (num * num)).

Inductive NodeLayer := domain | kernel | application.

#[export] Instance NodeLayer_eq_dec : EqDecision NodeLayer.
Proof. solve_decision. Defined.

Inductive Severity := normal | elevated | critical.

Record GraphNode := mkNode {
  node_id : string;
  event : KernelEvent;
  layer : NodeLayer;
  severity : Severity;
  x : num;
  y : num
}.

(** A drawn edge; its data fields are those of [DebugEdge]. *)
Record GraphEdge := mkEdge {
  edge_id : string;
  source : string;
  target : string;
  edge_data :> DebugEdge
}.

Definition KERNEL_TYPES : list EventType := [page_fault; sched_switch].
Definition DOMAIN_SERVICES : list string :=
  ["api-worker"; "checkout-service"; "auth-service"; "database-writer"].

Definition MAX_NODES : nat := 40.
Definition NODE_W : Z := 140.
Definition NODE_H : Z := 52.
Definition CAUSAL_WINDOW_NS : Z := 5000000.

Definition EMPTY_SUMMARY : DebugSummary := {|
  ds_status := nominal;
  title := "Awaiting evidence";
  primaryCause := "unknown";
  impact := "No events have been promoted into the graph yet.";
  evidence := [];
  nextStep := "Generate a transaction or keep the probe running until related events appear.";
  slowestEvent := None;
  transactionId := "";
  services := [];
  pids := []
|}.

Definition getLayer (evt : KernelEvent) : NodeLayer :=
  if bool_decide (type evt ∈ KERNEL_TYPES) then kernel
  else if bool_decide (service evt ∈ DOMAIN_SERVICES) then domain
  else application.

Definition getSeverity (evt : KernelEvent) : Severity :=
  match durationUs evt with
  | None => normal
  | Some d =>
      if nlt (of_Z 800000) d then critical
      else if nlt (of_Z 200000) d then elevated
      else normal
  end.

Definition shouldPromote (evt : KernelEvent) : bool :=
  if bool_decide (type evt ∈ KERNEL_TYPES) then true
  else if isSlow (durationUs evt) then true
  else if bool_decide (service evt ∈ DOMAIN_SERVICES) &&
          match durationUs evt with Some d => nlt (of_Z 200000) d | None => false end then true
  else true.

(** The node a promoted event becomes. *)
Definition node_of (evt : KernelEvent) : GraphNode :=
  mkNode (id evt) evt (getLayer evt) (getSeverity evt) (Fin 0) (Fin 0).

(** ** Edges inferred from timing *)

Definition ts_diff (a b : GraphNode) : num :=
  nsub (timestampNs (event a)) (timestampNs (event b)).

Definition by_time (a b : GraphNode) : bool := positive (ts_diff a b).

Definition linked (src tgt : GraphNode) : bool :=
  bool_decide (service (event src) = service (event tgt)) ||
  neqb (pid (event src)) (pid (event tgt)) ||
  (bool_decide (layer src = kernel) && negb (bool_decide (layer tgt = kernel))) ||
  (bool_decide (layer src = application) && bool_decide (layer tgt = domain)).

Definition has_edge (edges : list GraphEdge) (s t : string) : bool :=
  existsb (λ e : GraphEdge, bool_decide (sourceId e = s) && bool_decide (targetId e = t)) edges.

Definition too_late (src tgt : GraphNode) : bool :=
  nlt (of_Z CAUSAL_WINDOW_NS) (ts_diff tgt src).

Definition inferred_edge (src tgt : GraphNode) : GraphEdge :=
  let s := node_id src in let t := node_id tgt in
  mkEdge (s +:+ "->" +:+ t) s t
    (mkDebugEdge s t (ndiv (ts_diff tgt src) (of_Z 1000000)) None).

(** The inner loop over [j], with its [break]. *)
Fixpoint infer_from (src : GraphNode) (rest : list GraphNode) (edges : list GraphEdge) :
    list GraphEdge :=
  match rest with
  | [] => edges
  | tgt :: rest' =>
      if too_late src tgt then edges else
      infer_from src rest'
        (if linked src tgt && negb (has_edge edges (node_id src) (node_id tgt))
         then edges ++ [inferred_edge src tgt] else edges)
  end.

Fixpoint infer_all (sorted : list GraphNode) (edges : list GraphEdge) : list GraphEdge :=
  match sorted with
  | [] => edges
  | src :: rest => infer_all rest (infer_from src rest edges)
  end.

Definition inferEdges (nodes : list GraphNode) : list GraphEdge :=
  infer_all (js_sort by_time nodes) [].

(** ** The sanitizer *)

Definition uniqueNodes (nodes : list GraphNode) : list (string * GraphNode) :=
  map_of ((λ n, (node_id n, n)) <$> nodes).

Definition pointsForward `{Collation} (source target : GraphNode) : bool :=
  let sourceOrder := ts_diff source target in
  nlt sourceOrder (Fin 0) ||
  (neqb sourceOrder (Fin 0) && (localeCompare (node_id source) (node_id target) <? 0)).

(** One pass of the loop over the edges. *)
Definition sanitize_edge `{Collation} (nodesById : list (string * GraphNode))
    (uniqueEdges : list (string * GraphEdge)) (edge : GraphEdge) : list (string * GraphEdge) :=
  match map_get (sourceId edge) nodesById, map_get (targetId edge) nodesById with
  | Some source, Some target =>
      if bool_decide (node_id source = node_id target) then uniqueEdges
      else if negb (pointsForward source target) then uniqueEdges
      else
        let key := node_id source +:+ "->" +:+ node_id target in
        match map_get key uniqueEdges with
        | Some _ => uniqueEdges
        | None => map_set key (mkEdge key (Graph.source edge) (Graph.target edge) edge) uniqueEdges
        end
  | _, _ => uniqueEdges
  end.

Definition sanitizeGraph `{Collation} (nodes : list GraphNode) (edges : list GraphEdge) :
    list GraphNode * list GraphEdge :=
  let unique := uniqueNodes nodes in
  let nodesById := map_of ((λ n, (node_id n, n)) <$> unique.*2) in
  (unique.*2, (foldl (sanitize_edge nodesById) [] edges).*2).

(** ** Layout *)

(** The comparator of [fallbackLayout]: [||] moves on from 0 and NaN. *)
Definition by_time_then_id `{Collation} (a b : GraphNode) : bool :=
  let d := ts_diff a b in
  if is_nan d || neqb d (Fin 0) then 0 <? localeCompare (node_id a) (node_id b)
  else positive d.

Definition with_position (px py : num) (n : GraphNode) : GraphNode :=
  mkNode (node_id n) (event n) (layer n) (severity n) px py.

(** [Math.max(1, Math.ceil(Math.sqrt(n)))]. *)
Definition grid_columns (n : Z) : Z := Z.max 1 (Z.sqrt_up n).

Definition place (columns : Z) (index : nat) (n : GraphNode) : GraphNode :=
  let i := Z.of_nat index in
  with_position (of_Z (90 + (i mod columns) * (NODE_W + 90)))
                (of_Z (70 + (i / columns) * (NODE_H + 90))) n.

Definition fallbackLayout `{Collation} (nodes : list GraphNode) : list GraphNode :=
  let sorted := js_sort by_time_then_id nodes in
  imap (place (grid_columns (Z.of_nat (length sorted)))) sorted.

Definition at_finite (n : GraphNode) : bool := is_finite (x n) && is_finite (y n).

Definition layoutDAG `{Collation} `{Dagre} (nodes : list GraphNode) (edges : list GraphEdge) :
    list GraphNode :=
  match dagre_layout (node_id <$> nodes) ((λ e : GraphEdge, (sourceId e, targetId e)) <$> edges) with
  | None => fallbackLayout nodes
  | Some position =>
      let laidOut := (λ n, match position (node_id n) with
                           | None => n
                           | Some (px, py) => with_position px py n
                           end) <$> nodes in
      if forallb at_finite laidOut then laidOut else fallbackLayout nodes
  end.

(** ** Paths *)

(** The inner loop of a search: the ids next to [cur] that are new are added to
    the set and to the queue. *)
Definition visit (next : GraphEdge → string * string) (cur : string)
    (st : list string * list string) (e : GraphEdge) : list string * list string :=
  let '(seen, queue) := st in
  if bool_decide ((next e).1 = cur) && negb (bool_decide ((next e).2 ∈ seen))
  then (seen ++ [(next e).2], queue ++ [(next e).2]) else (seen, queue).

(** The outer loop; [None] when the fuel runs out. *)
Fixpoint search (next : GraphEdge → string * string) (edges : list GraphEdge) (fuel : nat)
    (seen queue : list string) : option (list string) :=
  match queue with
  | [] => Some seen
  | cur :: queue' =>
      match fuel with
      | O => None
      | S fuel =>
          let '(seen', queue'') := foldl (visit next cur) (seen, queue') edges in
          search next edges fuel seen' queue''
      end
  end.

Definition backward (e : GraphEdge) : string * string := (targetId e, sourceId e).
Definition forward (e : GraphEdge) : string * string := (sourceId e, targetId e).

(** One pass per id that is queued: the start and each id an edge adds. *)
Definition getPathIds (nodeId : string) (edges : list GraphEdge) : option (list string) :=
  ancestors ← search backward edges (S (length edges)) [] [nodeId];
  descendants ← search forward edges (S (length edges)) [] [nodeId];
  Some (set_of (ancestors ++ [nodeId] ++ descendants)).

(** ** Inferred edges: the loop with its break computes every pair *)

Definition timed (n : GraphNode) : Prop := is_finite (timestampNs (event n)) = true.

Lemma timed_Fin n : timed n → ∃ m, timestampNs (event n) = Fin m.
Proof. unfold timed. destruct (timestampNs (event n)); naive_solver. Qed.

#[export] Instance by_time_consistent : Consistent by_time timed.
Proof.
  split; unfold by_time, ts_diff.
  - intros a b [m ->]%timed_Fin [k ->]%timed_Fin. rewrite !positive_nsub, !Z.ltb_lt, Z.ltb_ge. lia.
  - intros a b c [m ->]%timed_Fin [k ->]%timed_Fin [l ->]%timed_Fin.
    rewrite !positive_nsub, !Z.ltb_ge. lia.
Qed.

(** Past the window once, past the window for every later node. *)
Lemma too_late_mono src u v :
  timed src → timed u → timed v → by_time u v = false → too_late src u = true → too_late src v = true.
Proof.
  intros [m Hm]%timed_Fin [k Hk]%timed_Fin [l Hl]%timed_Fin. unfold by_time, too_late, ts_diff.
  rewrite Hm, Hk, Hl, positive_nsub, Z.ltb_ge. intros Hkl Hlate.
  eapply nlt_le_trans; [exact Hlate|]. by apply nsub_mono.
Qed.

Lemma has_edge_spec edges s t :
  has_edge edges s t = true ↔ ∃ e : GraphEdge, e ∈ edges ∧ sourceId e = s ∧ targetId e = t.
Proof.
  unfold has_edge. rewrite existsb_exists. split.
  - intros (e & He & Hb). bool_to_prop. exists e. by rewrite list_elem_of_In.
  - intros (e & He & <- & <-). exists e. rewrite <-list_elem_of_In.
    split; [done|]. by rewrite !bool_decide_eq_true_2.
Qed.

Lemma has_edge_snoc edges e s t :
  has_edge (edges ++ [e]) s t = true ↔
  has_edge edges s t = true ∨ (sourceId e = s ∧ targetId e = t).
Proof.
  rewrite !has_edge_spec. setoid_rewrite elem_of_app. setoid_rewrite list_elem_of_singleton.
  naive_solver.
Qed.

(** [src] is followed by a related node [t] within the window. *)
Definition follows (src : GraphNode) (rest : list GraphNode) (t : string) : Prop :=
  ∃ tgt, tgt ∈ rest ∧ node_id tgt = t ∧ linked src tgt = true ∧ too_late src tgt = false.

Lemma follows_cons src u rest t :
  follows src (u :: rest) t ↔
  (node_id u = t ∧ linked src u = true ∧ too_late src u = false) ∨ follows src rest t.
Proof.
  unfold follows. split.
  - intros (v & [->|Hv]%elem_of_cons & Hv'); [by left|right; by exists v].
  - intros [Hu|(v & Hv & Hv')]; [exists u|exists v]; (split; [|done]); by constructor.
Qed.

Lemma infer_from_has src rest edges s t :
  timed src → Forall timed rest → sorted_by by_time rest →
  has_edge (infer_from src rest edges) s t = true ↔
  has_edge edges s t = true ∨ (node_id src = s ∧ follows src rest t).
Proof.
  intros Hsrc. revert edges. induction rest as [|u rest IH]; intros edges Hf Hs; simpl.
  { split; [by left|]. by intros [?|(_ & v & Hv%elem_of_nil & _)]. }
  apply Forall_cons in Hf as [Hu Hf]. apply StronglySorted_inv in Hs as [Hs Hall].
  destruct (too_late src u) eqn:El.
  - split; [by left|]. intros [?|(_ & v & Hv & _ & _ & Hl)]; [done|]. exfalso.
    assert (too_late src v = true); [|congruence].
    apply elem_of_cons in Hv as [->|Hv]; [done|]. rewrite Forall_forall in Hall, Hf.
    eapply too_late_mono; [done|exact Hu|by apply Hf|by apply Hall|done].
  - rewrite IH, follows_cons, El by done. destruct (linked src u); simpl; [|intuition congruence].
    destruct (has_edge edges (node_id src) (node_id u)) eqn:Eh; simpl.
    + split; [tauto|]. intros [?|(<- & [(<- & _)|?])]; auto.
    + rewrite has_edge_snoc. simpl. tauto.
Qed.

(** The pairs the all-pairs reference would link. *)
Definition in_window (sorted : list GraphNode) (s t : string) : Prop :=
  ∃ l1 u l2 v l3, sorted = l1 ++ u :: l2 ++ v :: l3 ∧ node_id u = s ∧ node_id v = t ∧
    linked u v = true ∧ too_late u v = false.

Lemma in_window_cons u l s t :
  in_window (u :: l) s t ↔ (node_id u = s ∧ follows u l t) ∨ in_window l s t.
Proof.
  split.
  - intros (l1 & u' & l2 & v & l3 & Hl & Hs & Ht & Hk).
    destruct l1 as [|w l1]; injection Hl as -> ->.
    + left. split; [assumption|]. exists v.
      split; [apply elem_of_app; right; by left|]. split; assumption.
    + right. exists l1, u', l2, v, l3. split; [reflexivity|].
      split; [assumption|]. split; assumption.
  - intros [(Hs & v & Hv & Ht & Hk & Hw)|(l1 & u' & l2 & v & l3 & -> & H)];
      [apply list_elem_of_split in Hv as (l2 & l3 & ->)|].
    + exists [], u, l2, v, l3. split; [reflexivity|]. split_and!; assumption.
    + exists (u :: l1), u', l2, v, l3. split; [reflexivity|assumption].
Qed.

Lemma infer_all_has sorted edges s t :
  Forall timed sorted → sorted_by by_time sorted →
  has_edge (infer_all sorted edges) s t = true ↔ has_edge edges s t = true ∨ in_window sorted s t.
Proof.
  revert edges. induction sorted as [|u l IH]; intros edges Hf Hs; simpl.
  - split; [by left|]. intros [?|([] & ? & ? & ? & ? & ? & _)]; done.
  - apply Forall_cons in Hf as [Hu Hf]. apply StronglySorted_inv in Hs as [Hs _].
    rewrite IH, infer_from_has, in_window_cons by done. tauto.
Qed.

Definition edge_pair (e : GraphEdge) : string * string := (sourceId e, targetId e).

Lemma has_edge_pair edges s t : has_edge edges s t = true ↔ (s, t) ∈ edge_pair <$> edges.
Proof.
  rewrite has_edge_spec, list_elem_of_fmap. unfold edge_pair. split.
  - intros (e & He & <- & <-). by exists e.
  - intros (e & [= -> ->] & He). by exists e.
Qed.

Lemma infer_from_invariant (P : GraphEdge → Prop) src rest edges :
  (∀ tgt, tgt ∈ rest → too_late src tgt = false → P (inferred_edge src tgt)) →
  Forall P edges ∧ NoDup (edge_pair <$> edges) →
  Forall P (infer_from src rest edges) ∧ NoDup (edge_pair <$> infer_from src rest edges).
Proof.
  revert edges. induction rest as [|u rest IH]; intros edges HP [He Hn]; simpl; [done|].
  destruct (too_late src u) eqn:El; [done|].
  apply IH; [intros; apply HP; [by right|done]|].
  destruct (linked src u && _) eqn:E; [|done]. bool_to_prop. split.
  - apply Forall_app. split; [done|]. constructor; [|done]. apply HP; [by left|done].
  - rewrite fmap_app. apply NoDup_app. split; [done|]. split; [|apply NoDup_singleton].
    intros p Hp ->%list_elem_of_singleton. unfold edge_pair in Hp at 1; simpl in Hp.
    apply has_edge_pair in Hp. congruence.
Qed.

(** An inferred edge, and what it is inferred from. *)
Definition justified (nodes : list GraphNode) (e : GraphEdge) : Prop :=
  ∃ u v, u ∈ nodes ∧ v ∈ nodes ∧ e = inferred_edge u v ∧ by_time u v = false ∧
         too_late u v = false.

Lemma infer_all_invariant nodes sorted edges :
  (∀ n, n ∈ sorted → n ∈ nodes) → sorted_by by_time sorted →
  Forall (justified nodes) edges ∧ NoDup (edge_pair <$> edges) →
  Forall (justified nodes) (infer_all sorted edges) ∧ NoDup (edge_pair <$> infer_all sorted edges).
Proof.
  revert edges. induction sorted as [|u l IH]; intros edges Hin Hs He; simpl; [done|].
  apply StronglySorted_inv in Hs as [Hs Hall]. rewrite Forall_forall in Hall.
  apply IH; [intros; apply Hin; by right|done|]. apply infer_from_invariant; [|done].
  intros v Hv Hl. exists u, v. split_and!; [apply Hin; by left|apply Hin; by right|done|by apply Hall|done].
Qed.

(** C21: [inferEdges] stops scanning at the first node past the causal window, and
    still finds what comparing all pairs would: there is an edge from s to t
    exactly when two related nodes of these ids follow each other in time order
    within 5 ms.  No pair has two edges, and every edge carries the latency of the
    nodes it joins and goes forward in time. *)
Theorem inferEdges_spec nodes :
  Forall timed nodes →
  (∀ s t, (s, t) ∈ edge_pair <$> inferEdges nodes ↔ in_window (js_sort by_time nodes) s t) ∧
  NoDup (edge_pair <$> inferEdges nodes) ∧
  Forall (justified nodes) (inferEdges nodes).
Proof.
  intros Hf. pose proof (js_sort_sorted by_time timed nodes Hf) as Hs. unfold inferEdges. split.
  - intros s t. rewrite <-has_edge_pair, infer_all_has by (by rewrite ?js_sort_perm).
    simpl. naive_solver.
  - destruct (infer_all_invariant nodes (js_sort by_time nodes) []) as [??];
      [intros n; by rewrite elem_of_js_sort|done| |done].
    split; constructor.
Qed.

(** ** The sanitizer *)

Lemma uniqueNodes_keys nodes : Forall (λ kv, node_id kv.2 = kv.1 ∧ kv.2 ∈ nodes) (uniqueNodes nodes).
Proof. apply map_of_invariant, Forall_fmap, Forall_forall. done. Qed.

Lemma uniqueNodes_ids nodes : node_id <$> (uniqueNodes nodes).*2 = (uniqueNodes nodes).*1.
Proof.
  pose proof (uniqueNodes_keys nodes) as H. induction H as [|[k n] l [Hk _] _ IH]; [done|].
  by apply (f_equal2 cons).
Qed.

Lemma uniqueNodes_NoDup nodes : NoDup (node_id <$> (uniqueNodes nodes).*2).
Proof. rewrite uniqueNodes_ids. apply map_of_NoDup. Qed.

Lemma map_of_keys {K V} `{EqDecision K} (l : list (K * V)) k : k ∈ (map_of l).*1 ↔ k ∈ l.*1.
Proof.
  induction l as [|[k0 v0] l IH] using rev_ind; [done|].
  rewrite map_of_snoc, map_set_keys, IH, fmap_app, elem_of_app. simpl.
  rewrite list_elem_of_singleton. tauto.
Qed.

(** The table of nodes by id. *)
Definition by_id (ns : list GraphNode) : list (string * GraphNode) :=
  map_of ((λ n, (node_id n, n)) <$> ns).

Lemma by_id_get ns k n : NoDup (node_id <$> ns) → map_get k (by_id ns) = Some n ↔ n ∈ ns ∧ node_id n = k.
Proof.
  intros Hn. unfold by_id. rewrite map_get_of. set (es := (λ n, (node_id n, n)) <$> ns).
  assert (NoDup (reverse es).*1) as Hr.
  { rewrite fmap_reverse, reverse_Permutation. subst es. by rewrite <-list_fmap_compose. }
  split.
  - intros He%map_get_elem. rewrite elem_of_reverse in He.
    apply list_elem_of_fmap in He as (m & [= -> ->] & ?). done.
  - intros [Hin <-]. apply elem_map_get; [done|]. apply elem_of_reverse, list_elem_of_fmap. by exists n.
Qed.

Section sanitizer.
Context `{Collation}.

(** An edge the sanitizer lets through. *)
Definition admissible (ns : list GraphNode) (e : GraphEdge) : Prop :=
  ∃ s t, s ∈ ns ∧ t ∈ ns ∧ node_id s = sourceId e ∧ node_id t = targetId e ∧
    node_id s ≠ node_id t ∧ pointsForward s t = true.

Definition edge_key (e : GraphEdge) : string := sourceId e +:+ "->" +:+ targetId e.

Definition clean (ns : list GraphNode) (edges : list GraphEdge) (kv : string * GraphEdge) : Prop :=
  kv.1 = edge_key kv.2 ∧ edge_id kv.2 = kv.1 ∧ admissible ns kv.2 ∧
  ∃ e, e ∈ edges ∧ edge_data e = edge_data kv.2.

Lemma sanitize_edge_cases ns m e :
  NoDup (node_id <$> ns) →
  (sanitize_edge (by_id ns) m e = m ∧ (admissible ns e → edge_key e ∈ m.*1)) ∨
  (admissible ns e ∧ edge_key e ∉ m.*1 ∧
   sanitize_edge (by_id ns) m e =
     map_set (edge_key e) (mkEdge (edge_key e) (source e) (target e) e) m).
Proof.
  intros Hn. unfold sanitize_edge.
  destruct (map_get (sourceId e) (by_id ns)) as [s|] eqn:Es; [|left; split; [done|]].
  2:{ intros (s & t & Hs & _ & Hse & _). rewrite (proj2 (by_id_get ns _ s Hn)) in Es; done. }
  destruct (map_get (targetId e) (by_id ns)) as [t|] eqn:Et; [|left; split; [done|]].
  2:{ intros (s' & t & _ & Ht & _ & Hte & _). rewrite (proj2 (by_id_get ns _ t Hn)) in Et; done. }
  assert (admissible ns e ↔ node_id s ≠ node_id t ∧ pointsForward s t = true) as Hadm.
  { apply by_id_get in Es as [Hs Hse], Et as [Ht Hte]; [|done..]. split; [|intros []; by exists s, t].
    intros (s' & t' & Hs' & Ht' & Hse' & Hte' & Hne & Hp).
    assert (map_get (sourceId e) (by_id ns) = Some s') as E1 by by apply by_id_get.
    assert (map_get (targetId e) (by_id ns) = Some t') as E2 by by apply by_id_get.
    rewrite (proj2 (by_id_get ns _ s Hn)) in E1 by done.
    rewrite (proj2 (by_id_get ns _ t Hn)) in E2 by done. by simplify_eq. }
  apply by_id_get in Es as [Hs Hse], Et as [Ht Hte]; [|done..].
  case_bool_decide as Hne; [left; split; [done|]; rewrite Hadm; by intros []|].
  destruct (pointsForward s t) eqn:Ep; simpl;
    [|left; split; [done|]; rewrite Hadm; by intros []].
  rewrite Hse, Hte. fold (edge_key e).
  destruct (map_get (edge_key e) m) as [e0|] eqn:Em.
  - left. split; [done|]. intros _. apply map_get_elem in Em. apply list_elem_of_fmap.
    by exists (edge_key e, e0).
  - right. split; [by apply Hadm|]. split; [by apply map_get_None|done].
Qed.

Lemma sanitize_edges ns edges :
  NoDup (node_id <$> ns) →
  let m := foldl (sanitize_edge (by_id ns)) [] edges in
  NoDup m.*1 ∧ Forall (clean ns edges) m ∧
  (∀ e, e ∈ edges → admissible ns e → edge_key e ∈ m.*1).
Proof.
  intros Hn. induction edges as [|e edges IH] using rev_ind; simpl.
  { split_and!; [constructor|done|by intros e ?%elem_of_nil]. }
  rewrite foldl_app. simpl. destruct IH as (Hm & Hc & Hall).
  assert (Forall (clean ns (edges ++ [e])) (foldl (sanitize_edge (by_id ns)) [] edges)) as Hc'.
  { eapply Forall_impl; [done|]. intros kv (?&?&?&e0&He0&?). split_and!; [done..|].
    exists e0. rewrite elem_of_app. auto. }
  destruct (sanitize_edge_cases ns (foldl (sanitize_edge (by_id ns)) [] edges) e Hn)
    as [[-> Hk]|(Ha & Hk & ->)].
  - split_and!; [done..|]. intros e' [?| ->]%elem_of_snoc; auto.
  - split_and!; [by apply map_set_NoDup| |].
    + apply Forall_forall. intros kv [->|Hkv]%map_set_elem; [|by eapply Forall_forall in Hc'].
      split_and!; [done..|]. exists e. split; [|done]. apply elem_of_app. right. by left.
    + intros e' [He'| ->]%elem_of_snoc Ha'; rewrite map_set_keys; auto.
Qed.

Lemma sanitizeGraph_eq nodes edges :
  sanitizeGraph nodes edges =
  ((uniqueNodes nodes).*2, (foldl (sanitize_edge (by_id (uniqueNodes nodes).*2)) [] edges).*2).
Proof. reflexivity. Qed.

Lemma sanitize_edge_ids ns edges :
  NoDup (node_id <$> ns) →
  edge_id <$> (foldl (sanitize_edge (by_id ns)) [] edges).*2 =
  (foldl (sanitize_edge (by_id ns)) [] edges).*1.
Proof.
  intros Hn. destruct (sanitize_edges ns edges Hn) as (_ & Hc & _).
  induction Hc as [|[k e] m (_ & He & _) _ IH]; [done|]. by apply (f_equal2 cons).
Qed.

Lemma sanitized_nodes nodes edges :
  NoDup (node_id <$> (sanitizeGraph nodes edges).1) ∧
  (∀ n, n ∈ (sanitizeGraph nodes edges).1 → n ∈ nodes) ∧
  (∀ i, i ∈ node_id <$> nodes → i ∈ node_id <$> (sanitizeGraph nodes edges).1).
Proof.
  rewrite sanitizeGraph_eq. split_and!; [apply uniqueNodes_NoDup|..].
  - intros n ([k n'] & -> & Hin)%list_elem_of_fmap.
    pose proof (uniqueNodes_keys nodes) as Hk. rewrite Forall_forall in Hk. by apply Hk in Hin as [_ ?].
  - intros i Hi. cbn [fst]. rewrite uniqueNodes_ids. unfold uniqueNodes. rewrite map_of_keys.
    rewrite <-list_fmap_compose. exact Hi.
Qed.

(** Of the nodes with one id the last is kept. *)
Lemma sanitized_last nodes n edges : n ∈ (sanitizeGraph (nodes ++ [n]) edges).1.
Proof.
  rewrite sanitizeGraph_eq. cbn [fst]. apply list_elem_of_fmap. exists (node_id n, n). split; [done|].
  apply map_get_elem. unfold uniqueNodes. rewrite fmap_app.
  change ((λ n, (node_id n, n)) <$> [n]) with [(node_id n, n)]. by rewrite map_of_snoc, map_get_set, decide_True.
Qed.

Lemma sanitized_edges nodes edges :
  Forall (λ e, edge_id e = edge_key e ∧ admissible (sanitizeGraph nodes edges).1 e ∧
               ∃ e0, e0 ∈ edges ∧ edge_data e0 = edge_data e) (sanitizeGraph nodes edges).2.
Proof.
  rewrite sanitizeGraph_eq. destruct (sanitize_edges _ edges (uniqueNodes_NoDup nodes)) as (_ & Hc & _).
  apply Forall_forall. intros e ([k e'] & -> & Hin)%list_elem_of_fmap.
  rewrite Forall_forall in Hc. apply Hc in Hin as (Hk & He & ?). simpl in *. by rewrite He, Hk.
Qed.

(** C20: what [sanitizeGraph] guarantees of any input, whichever of the two
    sources it comes from.  Node ids become unique and none is lost; the id of an
    edge is its key, and is unique; both ends of every edge are nodes of the
    graph and differ, and the edge points forward in (time, id) order; its data
    is that of a given edge; and every given edge that meets these conditions
    is still there under its key. *)
Theorem sanitizeGraph_spec nodes edges :
  let '(ns, es) := sanitizeGraph nodes edges in
  NoDup (node_id <$> ns) ∧ (∀ n, n ∈ ns → n ∈ nodes) ∧
  (∀ i, i ∈ node_id <$> nodes → i ∈ node_id <$> ns) ∧
  NoDup (edge_id <$> es) ∧
  Forall (λ e, edge_id e = edge_key e ∧ admissible ns e ∧
               ∃ e0, e0 ∈ edges ∧ edge_data e0 = edge_data e) es ∧
  (∀ e, e ∈ edges → admissible ns e → edge_key e ∈ edge_id <$> es).
Proof.
  pose proof (sanitized_nodes nodes edges) as (H1 & H2 & H3).
  pose proof (sanitized_edges nodes edges) as He. rewrite sanitizeGraph_eq in *.
  destruct (sanitize_edges _ edges (uniqueNodes_NoDup nodes)) as (Hm & _ & Ha).
  rewrite sanitize_edge_ids by apply uniqueNodes_NoDup. by split_and!.
Qed.
End sanitizer.

(** ** Cleaned graphs have no cycle *)

(** An edge leads from [a] to [b]. *)
Definition edge_rel (edges : list GraphEdge) (a b : string) : Prop :=
  ∃ e : GraphEdge, e ∈ edges ∧ sourceId e = a ∧ targetId e = b.

Section acyclic.
Context `{CollationLaws}.

Lemma locale_trans_lt a b c : localeCompare a b < 0 → localeCompare b c < 0 → localeCompare a c < 0.
Proof.
  intros Hab Hbc. destruct (Z.lt_ge_cases (localeCompare a c) 0) as [|Hge]; [done|]. exfalso.
  assert (localeCompare c a ≤ 0) as Hca.
  { apply Z.nlt_ge. rewrite <-locale_antisym. lia. }
  assert (localeCompare b a ≤ 0) as Hba by (apply (locale_trans _ c); lia).
  apply locale_antisym in Hab. lia.
Qed.

Lemma locale_irrefl a : ¬ localeCompare a a < 0.
Proof. intros Ha. pose proof Ha as Ha'. apply locale_antisym in Ha'. lia. Qed.

Lemma pointsForward_spec s t :
  timed s → timed t →
  ∃ m k, timestampNs (event s) = Fin m ∧ timestampNs (event t) = Fin k ∧
    (pointsForward s t = true ↔ m < k ∨ (m = k ∧ localeCompare (node_id s) (node_id t) < 0)).
Proof.
  intros [m Hm]%timed_Fin [k Hk]%timed_Fin. exists m, k. split; [done|]. split; [done|].
  unfold pointsForward, ts_diff. rewrite Hm, Hk, nlt_nsub, neqb_nsub.
  rewrite orb_true_iff, andb_true_iff, !Z.ltb_lt, Z.eqb_eq. done.
Qed.

Lemma pointsForward_irrefl s : timed s → pointsForward s s = false.
Proof.
  intros Hs. destruct (pointsForward_spec s s Hs Hs) as (m & k & E1 & E2 & Hp).
  rewrite E1 in E2. injection E2 as <-. destruct (pointsForward s s); [|done].
  destruct (proj1 Hp eq_refl) as [?|[_ Hl]]; [lia|]. by apply locale_irrefl in Hl.
Qed.

Lemma pointsForward_trans s t u :
  timed s → timed t → timed u →
  pointsForward s t = true → pointsForward t u = true → pointsForward s u = true.
Proof.
  intros Hs Ht Hu. destruct (pointsForward_spec s t Hs Ht) as (m & k & E1 & E2 & ->).
  destruct (pointsForward_spec t u Ht Hu) as (k' & l & E3 & E4 & ->).
  destruct (pointsForward_spec s u Hs Hu) as (m' & l' & E5 & E6 & ->).
  rewrite E2 in E3. rewrite E1 in E5. rewrite E4 in E6. simplify_eq.
  intros [?|[-> ?]] [?|[-> ?]]; [left; lia..|]. right. split; [done|]. by eapply locale_trans_lt.
Qed.

(** The nodes at the two ends of a path are in order. *)
Lemma path_forward ns es :
  NoDup (node_id <$> ns) → Forall timed ns → Forall (admissible ns) es →
  ∀ a b, tc (edge_rel es) a b →
  ∃ s t, s ∈ ns ∧ t ∈ ns ∧ node_id s = a ∧ node_id t = b ∧ pointsForward s t = true.
Proof.
  rewrite !Forall_forall. intros Hn Ht Ha a b. induction 1 as [a b (e & He & <- & <-)|a b c (e & He & <- & <-) _ IH].
  - destruct (Ha e He) as (s & t & ? & ? & ? & ? & _ & ?). by exists s, t.
  - destruct (Ha e He) as (s & t & Hs & Ht1 & ? & Hte & _ & Hp).
    destruct IH as (t' & u & Ht' & Hu & Hte' & Hue & Hp').
    assert (t' = t) as -> by (eapply NoDup_fmap_elem; [exact Hn|done..|congruence]).
    exists s, u. split_and!; [done..|].
    apply (pointsForward_trans s t u); auto.
Qed.

(** Edges that all point forward close no cycle. *)
Lemma forward_acyclic ns es a :
  NoDup (node_id <$> ns) → Forall timed ns → Forall (admissible ns) es → ¬ tc (edge_rel es) a a.
Proof.
  intros Hn Ht He Hc. destruct (path_forward ns es Hn Ht He a a Hc) as (s & t & Hs & Hte & Hsa & Hta & Hp).
  assert (t = s) as -> by (eapply NoDup_fmap_elem; [exact Hn|done..|congruence]).
  rewrite Forall_forall in Ht. rewrite pointsForward_irrefl in Hp by auto. done.
Qed.

Lemma sanitized_timed nodes edges : Forall timed nodes → Forall timed (sanitizeGraph nodes edges).1.
Proof.
  rewrite !Forall_forall. intros Ht n Hn. destruct (sanitized_nodes nodes edges) as (_ & Hin & _). auto.
Qed.

Lemma sanitized_admissible nodes edges :
  Forall (admissible (sanitizeGraph nodes edges).1) (sanitizeGraph nodes edges).2.
Proof. eapply Forall_impl; [apply sanitized_edges|]. by intros e (_ & ? & _). Qed.

(** C19: the graph that is drawn has no cycle.  For any nodes with finite
    timestamps and any edges, no path of the sanitized graph leads from an id
    back to itself, whatever the collation of the locale. *)
Theorem sanitized_acyclic nodes edges a :
  Forall timed nodes → ¬ tc (edge_rel (sanitizeGraph nodes edges).2) a a.
Proof.
  intros Ht. apply (forward_acyclic (sanitizeGraph nodes edges).1);
    [apply sanitized_nodes|by apply sanitized_timed|apply sanitized_admissible].
Qed.
End acyclic.

(** ** Path search *)

Section search.
Variable next : GraphEdge → string * string.
Variable edges : list GraphEdge.

Definition step (a b : string) : Prop := ∃ e, e ∈ edges ∧ next e = (a, b).

Lemma visit_all cur es seen queue :
  ∃ new, foldl (visit next cur) (seen, queue) es = (seen ++ new, queue ++ new) ∧
    (NoDup seen → NoDup (seen ++ new)) ∧
    ∀ b, b ∈ new ↔ b ∉ seen ∧ ∃ e, e ∈ es ∧ next e = (cur, b).
Proof.
  revert seen queue. induction es as [|e es IH]; intros seen queue; simpl.
  { exists []. rewrite !app_nil_r. split_and!; [done..|]. intros b. rewrite elem_of_nil.
    split; [done|]. by intros [_ (e & He%elem_of_nil & _)]. }
  destruct (bool_decide ((next e).1 = cur) && negb (bool_decide ((next e).2 ∈ seen))) eqn:E.
  - bool_to_prop. destruct (IH (seen ++ [(next e).2]) (queue ++ [(next e).2])) as (new & -> & Hn & Hb).
    exists ((next e).2 :: new). rewrite <-!app_assoc. split_and!; [done| |].
    + intros Hs. rewrite <-app_assoc in Hn. apply Hn, NoDup_snoc; done.
    + intros b. rewrite elem_of_cons, Hb, elem_of_snoc. split.
      * intros [->|[Hs (e' & He' & Hne)]].
        -- split; [done|]. exists e. rewrite elem_of_cons. split; [by left|].
           by destruct (next e); simplify_eq/=.
        -- split; [tauto|]. exists e'. rewrite elem_of_cons. auto.
      * intros [Hs (e' & [->|He']%elem_of_cons & Hne)]; [left; by rewrite Hne|].
        destruct (decide (b = (next e).2)); [by left|right]. split; [tauto|eauto].
  - destruct (IH seen queue) as (new & -> & Hn & Hb). exists new. split_and!; [done..|].
    intros b. rewrite Hb. split; intros [Hs (e' & He' & Hne)]; (split; [done|]).
    + exists e'. rewrite elem_of_cons. auto.
    + apply elem_of_cons in He' as [->|He']; [|eauto]. rewrite Hne in E. simpl in E.
      rewrite bool_decide_eq_true_2, bool_decide_eq_false_2 in E by done. done.
Qed.

(** The ids reached so far, those still to expand among them. *)
Definition search_ok (start : string) (seen queue : list string) : Prop :=
  NoDup seen ∧ (∀ b, b ∈ seen → tc step start b) ∧
  (∀ b, b ∈ queue → b = start ∨ b ∈ seen) ∧
  (∀ a b, a = start ∨ a ∈ seen → step a b → a ∈ queue ∨ b ∈ seen).

Lemma step_targets b : (∃ a, step a b) → b ∈ (λ e, (next e).2) <$> edges.
Proof. intros (a & e & He & Hn). apply list_elem_of_fmap. exists e. by rewrite Hn. Qed.

Lemma search_ok_length start seen queue :
  search_ok start seen queue → (length seen ≤ length edges)%nat.
Proof.
  intros (Hn & Ht & _). rewrite <-(length_fmap (λ e, (next e).2) edges).
  apply submseteq_length, NoDup_submseteq; [done|]. intros b Hb. apply step_targets.
  apply Ht in Hb. clear -Hb. induction Hb; eauto.
Qed.

Lemma search_ok_visit start seen cur queue seen' queue' :
  search_ok start seen (cur :: queue) →
  foldl (visit next cur) (seen, queue) edges = (seen', queue') →
  search_ok start seen' queue' ∧
  (length queue' + length seen = length queue + length seen')%nat.
Proof.
  intros (Hn & Ht & Hq & Hc) Hv.
  destruct (visit_all cur edges seen queue) as (new & Hv' & Hnew & Hb).
  rewrite Hv in Hv'. simplify_eq. split; [|rewrite !length_app; lia].
  assert (∀ b, b ∈ new → tc step start b) as Htn.
  { intros b (_ & Hs)%Hb. destruct (Hq cur ltac:(by left)) as [->|Hcur]; [by apply tc_once|].
    by eapply tc_r; [apply Ht|]. }
  split_and!; [by apply Hnew| | |].
  - intros b [?|?]%elem_of_app; auto.
  - intros b Hb'. rewrite elem_of_app. apply elem_of_app in Hb' as [Hb'|?]; [|auto].
    destruct (Hq b ltac:(by right)); auto.
  - intros a b Ha Hs. rewrite !elem_of_app. destruct (decide (a = cur)) as [->|Hne].
    + right. destruct (decide (b ∈ seen)); [by left|right]. apply Hb. split; [done|exact Hs].
    + assert (a ∈ new ∨ a = start ∨ a ∈ seen) as [?|Ha'] by (rewrite elem_of_app in Ha; tauto); [auto|].
      destruct (Hc a b Ha' Hs) as [[?|?]%elem_of_cons|?]; auto. done.
Qed.

Lemma search_reaches start fuel seen queue :
  search_ok start seen queue →
  (length queue + length edges ≤ fuel + length seen)%nat →
  ∃ l, search next edges fuel seen queue = Some l ∧ NoDup l ∧ ∀ b, b ∈ l ↔ tc step start b.
Proof.
  revert seen queue. induction fuel as [|fuel IH]; intros seen [|cur queue] Hok Hf; simpl in *.
  2: { pose proof (search_ok_length _ _ _ Hok). lia. }
  1,2: exists seen; destruct Hok as (Hn & Ht & _ & Hc); split_and!; [done..|];
    intros b; split; [apply Ht|]; intros Hb; revert b Hb;
    apply tc_ind_r; [intros b Hs|intros a b _ Hs Ha];
    [destruct (Hc start b (or_introl eq_refl) Hs) as [?%elem_of_nil|?]
    |destruct (Hc a b (or_intror Ha) Hs) as [?%elem_of_nil|?]]; done.
  destruct (foldl _ _ _) as [seen' queue'] eqn:E.
  destruct (search_ok_visit _ _ _ _ _ _ Hok E) as [Hok' Hlen]. apply IH; [done|]. lia.
Qed.

Lemma search_start start :
  ∃ l, search next edges (S (length edges)) [] [start] = Some l ∧ NoDup l ∧
       ∀ b, b ∈ l ↔ tc step start b.
Proof.
  apply search_reaches; [|simpl; lia]. split_and!.
  - constructor.
  - by intros b ?%elem_of_nil.
  - intros b ->%list_elem_of_singleton. by left.
  - intros a b [->|?%elem_of_nil] _; [left; by left|done].
Qed.
End search.

Lemma tc_forward edges a b : tc (step forward edges) a b ↔ tc (edge_rel edges) a b.
Proof.
  unfold step, edge_rel, forward. split; apply tc_mono; clear.
  - intros a b (e & He & [= <- <-]). by exists e.
  - intros a b (e & He & <- & <-). by exists e.
Qed.

Lemma tc_backward edges a b : tc (step backward edges) a b ↔ tc (edge_rel edges) b a.
Proof.
  unfold step, edge_rel, backward. split; apply tc_flip; clear.
  - intros a b (e & He & [= <- <-]). by exists e.
  - intros a b (e & He & <- & <-). by exists e.
Qed.

(** The path of a node: itself, its ancestors and its descendants. *)
Definition on_path_of (edges : list GraphEdge) (n m : string) : Prop :=
  rtc (edge_rel edges) m n ∨ rtc (edge_rel edges) n m.

Lemma getPathIds_path n edges :
  ∃ ids, getPathIds n edges = Some ids ∧ NoDup ids ∧ ∀ m, m ∈ ids ↔ on_path_of edges n m.
Proof.
  unfold getPathIds, on_path_of.
  destruct (search_start backward edges n) as (up & -> & _ & Hup).
  destruct (search_start forward edges n) as (down & -> & _ & Hdown).
  eexists. split; [done|]. split; [apply set_of_NoDup|]. intros m.
  rewrite elem_of_set_of, !elem_of_app, list_elem_of_singleton, Hup, Hdown.
  rewrite tc_backward, tc_forward, !rtc_tc. intuition congruence.
Qed.

(** C22: both searches of [getPathIds] end, after at most one pass over the edges
    per edge and one more, cycles included, and the result is the causal path of
    the node: the node itself, its ancestors and its descendants, each once. *)
Theorem getPathIds_spec n edges :
  ∃ ids, getPathIds n edges = Some ids ∧ NoDup ids ∧
    ∀ m, m ∈ ids ↔ rtc (edge_rel edges) m n ∨ rtc (edge_rel edges) n m.
Proof. apply getPathIds_path. Qed.

(** ** Layout *)

(** A node up to its position. *)
Definition placed_as (n : GraphNode) : string * KernelEvent := (node_id n, event n).

Section layout.
Context `{Collation}.
Implicit Types nodes : list GraphNode.

Definition small (nodes : list GraphNode) : Prop := Z.of_nat (length nodes) ≤ 2 ^ 32.

Lemma grid_columns_bounds n : 0 ≤ n → 1 ≤ grid_columns n ≤ n + 1.
Proof. intros. unfold grid_columns. pose proof (Z.sqrt_up_le_lin n ltac:(done)). lia. Qed.

Lemma fallback_lookup nodes i a :
  fallbackLayout nodes !! i = Some a →
  ∃ n, js_sort by_time_then_id nodes !! i = Some n ∧
    a = place (grid_columns (Z.of_nat (length nodes))) i n ∧ Z.of_nat i < Z.of_nat (length nodes).
Proof.
  unfold fallbackLayout. rewrite js_sort_length. intros (n & Hn & ->)%list_lookup_imap_Some.
  exists n. split; [done|]. split; [done|]. apply lookup_lt_Some in Hn.
  rewrite js_sort_length in Hn. lia.
Qed.

Lemma place_finite nodes i n :
  small nodes → Z.of_nat i < Z.of_nat (length nodes) →
  at_finite (place (grid_columns (Z.of_nat (length nodes))) i n) = true.
Proof.
  unfold small. intros Hs Hi. pose proof (grid_columns_bounds (Z.of_nat (length nodes)) ltac:(lia)).
  unfold place, at_finite. simpl. set (c := grid_columns _) in *.
  pose proof (Z.mod_pos_bound (Z.of_nat i) c ltac:(lia)).
  pose proof (Z.div_pos (Z.of_nat i) c ltac:(lia) ltac:(lia)).
  pose proof (Z.div_le_upper_bound (Z.of_nat i) c (Z.of_nat i) ltac:(lia) ltac:(nia)).
  unfold NODE_W, NODE_H. by rewrite !of_Z_finite by lia.
Qed.

Lemma fallback_placed nodes : placed_as <$> fallbackLayout nodes ≡ₚ placed_as <$> nodes.
Proof.
  unfold fallbackLayout. rewrite fmap_imap.
  transitivity (placed_as <$> js_sort by_time_then_id nodes); [|by rewrite js_sort_perm].
  rewrite <-imap_const. erewrite imap_ext; [done|]. done.
Qed.

Lemma fallback_finite nodes : small nodes → Forall (λ n, at_finite n = true) (fallbackLayout nodes).
Proof.
  intros Hs. apply Forall_lookup. intros i a (n & _ & -> & Hi)%fallback_lookup.
  by apply place_finite.
Qed.

(** The fallback layout keeps every node, with its event, and no two of the
    boxes drawn (140 by 52) overlap: their centres are further apart than a box
    is wide, or further apart than it is high. *)
Theorem fallbackLayout_spec nodes :
  placed_as <$> fallbackLayout nodes ≡ₚ placed_as <$> nodes ∧
  ∀ i j a b, fallbackLayout nodes !! i = Some a → fallbackLayout nodes !! j = Some b → i ≠ j →
    ∃ xa ya xb yb, x a = of_Z xa ∧ y a = of_Z ya ∧ x b = of_Z xb ∧ y b = of_Z yb ∧
      (NODE_W < Z.abs (xa - xb) ∨ NODE_H < Z.abs (ya - yb)).
Proof.
  split; [apply fallback_placed|].
  intros i j a b (n & _ & -> & Hi)%fallback_lookup (m & _ & -> & Hj)%fallback_lookup Hij.
  pose proof (grid_columns_bounds (Z.of_nat (length nodes)) ltac:(lia)).
  unfold place; simpl. set (c := grid_columns _) in *.
  do 4 eexists. split_and!; [reflexivity..|]. unfold NODE_W, NODE_H.
  pose proof (Z.div_mod (Z.of_nat i) c ltac:(lia)) as Ei.
  pose proof (Z.div_mod (Z.of_nat j) c ltac:(lia)) as Ej.
  destruct (Z.eq_dec (Z.of_nat i / c) (Z.of_nat j / c)) as [E|E]; [left|right; lia].
  rewrite E in Ei. lia.
Qed.

Lemma layoutDAG_placed `{Dagre} nodes edges :
  placed_as <$> layoutDAG nodes edges ≡ₚ placed_as <$> nodes.
Proof.
  unfold layoutDAG. destruct (dagre_layout _ _) as [pos|]; [|apply fallback_placed].
  destruct (forallb _ _) eqn:E; [|apply fallback_placed].
  rewrite <-list_fmap_compose. erewrite list_fmap_ext; [reflexivity|]. intros i n _. simpl.
  destruct (pos (node_id n)) as [[]|]; reflexivity.
Qed.

Lemma layoutDAG_finite `{Dagre} nodes edges :
  small nodes → Forall (λ n, at_finite n = true) (layoutDAG nodes edges).
Proof.
  intros Hs. unfold layoutDAG. destruct (dagre_layout _ _) as [pos|]; [|by apply fallback_finite].
  destruct (forallb _ _) eqn:E; [|by apply fallback_finite].
  rewrite forallb_forall in E. apply Forall_forall. intros n Hn. by apply E, list_elem_of_In.
Qed.

(** C23: whatever dagre does - throw, leave a node out, or answer a position that
    is not a number - every node of the graph is laid out at finite coordinates
    and none is lost or gains another event. *)
Theorem layoutDAG_total `{Dagre} nodes edges :
  small nodes →
  Forall (λ n, at_finite n = true) (layoutDAG nodes edges) ∧
  placed_as <$> layoutDAG nodes edges ≡ₚ placed_as <$> nodes.
Proof. split; [by apply layoutDAG_finite|apply layoutDAG_placed]. Qed.
End layout.

(** ** Witnesses *)

Definition sample_nodes : list GraphNode :=
  node_of <$> [sample_event "c" 9000000 sys_read 7 "api-worker" None;
               sample_event "a" 1000 sys_write 7 "api-worker" (Some 900000);
               sample_event "b" 2000 block_io 7 "db" None;
               sample_event "a" 1500 tcp_send 9 "db" None].

Lemma sample_timed : Forall timed sample_nodes.
Proof. repeat constructor. Qed.

Lemma inferEdges_spec_witness :
  edge_pair <$> inferEdges sample_nodes = [("a", "b")] ∧
  NoDup (edge_pair <$> inferEdges sample_nodes).
Proof.
  split; [vm_compute; reflexivity|]. apply (inferEdges_spec sample_nodes sample_timed).
Defined.

(** Edges back in time and to unknown nodes next to a good one. *)
Definition sample_graph_edges : list GraphEdge :=
  [mkEdge "e1" "b" "a" (mkDebugEdge "b" "a" (of_Z 1) None);
   mkEdge "e2" "a" "b" (mkDebugEdge "a" "b" (of_Z 1) (Some "SEQUENTIAL"));
   mkEdge "e3" "a" "zz" (mkDebugEdge "a" "zz" (of_Z 1) None);
   mkEdge "e4" "b" "c" (mkDebugEdge "b" "c" (of_Z 1) None)].

Example sample_sanitized :
  let '(ns, es) := sanitizeGraph (H := code_order) sample_nodes sample_graph_edges in
  node_id <$> ns = ["c"; "a"; "b"] ∧ edge_id <$> es = ["a->b"; "b->c"].
Proof. vm_compute. by split. Qed.

Lemma sanitized_acyclic_witness :
  ¬ tc (edge_rel (sanitizeGraph (H := code_order) sample_nodes sample_graph_edges).2) "a" "a".
Proof.
  apply (@sanitized_acyclic code_order code_order_laws sample_nodes sample_graph_edges "a" sample_timed).
Defined.

(** A cyclic graph: the search still ends. *)
Example sample_path :
  getPathIds "b" (mkEdge "" "" "" (mkDebugEdge "b" "a" (of_Z 1) None) :: sample_graph_edges) =
  Some ["a"; "b"; "c"; "zz"].
Proof. vm_compute. reflexivity. Qed.

(** dagre answering a position for one node and NaN for another. *)
Definition nan_dagre : Dagre :=
  λ _ _, Some (λ i, if decide (i = "a") then Some (of_Z 5, NaN) else None).

Lemma layoutDAG_total_witness :
  Forall (λ n, at_finite n = true) (@layoutDAG code_order nan_dagre sample_nodes []).
Proof.
  apply (@layoutDAG_total code_order nan_dagre sample_nodes []). vm_compute. discriminate.
Defined.
