(* ===== verification/Feed.v ===== *)
(** * How a page reads the live messages

    Stream, Graph and Timeline consume the list of the provider with the same
    loop: the messages whose id is past the last one processed are decoded in
    order, malformed ones are skipped, and the id is remembered.  [World] runs
    that loop against the provider, in any interleaving with its callbacks. *)

From S2P Require Import Prelude JsNumber JsString Json Events WireEvent Connection.
Open Scope Z_scope.

Definition pending (processed : Z) (msgs : list ConnectionMessage) : list ConnectionMessage :=
  filter (λ m, processed < msg_id m) msgs.

(** [mapWireEvent(JSON.parse(message.data), message.id)]. *)
Definition decode `{Host} (m : ConnectionMessage) : result KernelEvent :=
  v ← match json_parse (data m) with Some v => Return v | None => Throw "SyntaxError" end;
  mapWireEvent v (msg_id m).

(** The events the loop keeps, its [catch] dropping the rest. *)
Definition decoded `{Host} (l : list ConnectionMessage) : list KernelEvent :=
  omap (λ m, to_option (decode m)) l.

(** [processedMessageRef] after the loop. *)
Definition last_processed (p : Z) (l : list ConnectionMessage) : Z := foldl (λ _ m, msg_id m) p l.

Lemma decoded_wf `{Host} l : Forall wf_event (decoded l).
Proof.
  apply Forall_forall. intros e (m & Hm & He)%list_elem_of_omap.
  apply to_option_Some in He. unfold decode in He. result_inv. by eapply mapWireEvent_wf.
Qed.

Lemma decoded_app `{Host} l k : decoded (l ++ k) = decoded l ++ decoded k.
Proof. apply omap_app. Qed.

Lemma last_processed_snoc p l m : last_processed p (l ++ [m]) = msg_id m.
Proof. unfold last_processed. by rewrite foldl_app. Qed.

Lemma elem_of_pending p msgs m : m ∈ pending p msgs ↔ p < msg_id m ∧ m ∈ msgs.
Proof. unfold pending. by rewrite list_elem_of_filter. Qed.

(** In a list in id order the loop ends on the highest id. *)
Lemma last_processed_bound p l :
  StronglySorted Z.lt (ids l) → Forall (λ i, p < i) (ids l) →
  p ≤ last_processed p l ∧ Forall (λ i, i ≤ last_processed p l) (ids l) ∧
  (last_processed p l = p ∨ last_processed p l ∈ ids l).
Proof.
  intros Hs Hp. destruct l as [|m l _] using rev_ind.
  { split_and!; [done|constructor|by left]. }
  unfold ids in *. rewrite last_processed_snoc, fmap_app in *. simpl in *.
  apply Forall_app in Hp as [_ [Hm _]%Forall_cons]. split_and!; [lia| |].
  - apply Forall_app. split; [|by repeat constructor].
    apply Forall_forall. intros i Hi.
    assert (i < msg_id m); [|lia]. eapply (StronglySorted_app_1_elem_of _ _ _ _ _ Hs); [done|by left].
  - right. apply elem_of_app. right. by left.
Qed.

Lemma StronglySorted_filter_ids p l :
  StronglySorted Z.lt (ids l) → StronglySorted Z.lt (ids (pending p l)).
Proof.
  unfold ids, pending. induction l as [|m l IH]; simpl; [done|].
  intros [Hs Hf]%StronglySorted_inv. rewrite filter_cons. case_decide; simpl; [|by apply IH].
  constructor; [by apply IH|]. rewrite Forall_forall in *.
  intros i (m' & -> & [_ Hm']%list_elem_of_filter)%list_elem_of_fmap.
  by apply Hf, list_elem_of_fmap_2.
Qed.

Lemma pending_past p l : Forall (λ i, p < i) (ids (pending p l)).
Proof. apply Forall_forall. intros i (m & -> & [? _]%elem_of_pending)%list_elem_of_fmap. done. Qed.

(** ** A page against the provider *)

Record World := mkWorld {
  conn : Conn;
  processed : Z;
  consumed : list ConnectionMessage   (* everything the loop has gone through *)
}.

(** One run of the effect. *)
Definition pass (w : World) : World :=
  let l := pending (processed w) (messages (conn w)) in
  mkWorld (conn w) (last_processed (processed w) l) (consumed w ++ l).

Inductive world_reachable : World → Prop :=
  | world_initial c : reachable c → world_reachable (mkWorld c 0 [])
  | world_conn w a : world_reachable w → enabled (conn w) a →
      world_reachable (mkWorld (apply (conn w) a) (processed w) (consumed w))
  | world_pass w : world_reachable w → world_reachable (pass w).

(** ** The provider numbers messages after everything listed before *)

Definition fresh_update (p : Z) (u : update) : Prop :=
  match u with USet X => Forall (λ i, p < i) (ids X) | UAppend _ => True end.

Lemma run_updates_new p q c :
  Forall (fresh_update p) q → p ≤ sequence c →
  ∀ m, m ∈ messages (foldl run_update c q) → m ∈ messages c ∨ p < msg_id m.
Proof.
  revert c. induction q as [|u q IH]; intros c Hq Hs m Hm; simpl in *; [by left|].
  apply Forall_cons in Hq as [Hu Hq]. destruct u as [X|d]; simpl in *.
  - apply IH in Hm; [|done..]. simpl in Hm. destruct Hm as [Hm|?]; [right|by right].
    rewrite Forall_forall in Hu. apply Hu. by apply list_elem_of_fmap_2.
  - apply IH in Hm; simpl in *; [|done|lia]. destruct Hm as [Hm|?]; [|by right].
    apply slice_last_elem in Hm. apply elem_of_snoc in Hm as [?| ->]; [by left|right]. simpl. lia.
Qed.

Lemma apply_sequence c a : sequence c ≤ sequence (apply c a).
Proof.
  destruct a; simpl;
    unfold onopen, onmessage, onclose, onerror, hydrateHistory, run_effect, connect,
      scheduleReconnect; repeat case_match; simpl; try lia.
  assert (∀ q c', sequence c' ≤ sequence (foldl run_update c' q)) as Hq; [|apply Hq].
  induction q as [|u q IH]; intros c'; simpl; [lia|].
  specialize (IH (run_update c' u)). destruct u; simpl in *; lia.
Qed.

(** Only [Flush] changes the list. *)
Lemma apply_messages c a :
  messages (apply c a) = messages c ∨ (a = Flush ∧ apply c a = flush c).
Proof.
  destruct a; simpl; auto;
    unfold onopen, onmessage, onclose, onerror, hydrateHistory, run_effect, connect,
      scheduleReconnect; repeat case_match; simpl; auto.
Qed.

(** What an action queues is numbered past everything drawn before. *)
Lemma apply_fresh p c a :
  p ≤ sequence c → Forall (fresh_update p) (queue c) → Forall (fresh_update p) (queue (apply c a)).
Proof.
  intros Hp Hq. destruct a; simpl;
    unfold onopen, onmessage, onclose, onerror, hydrateHistory, run_effect, connect,
      scheduleReconnect, clearMessages, enqueue; repeat case_match; simpl; try done;
    apply Forall_snoc; try done; simpl; [|constructor].
  eapply Forall_impl; [apply number_from_ids|]. simpl. lia.
Qed.

(** While a numbered list is queued, nothing is listed yet. *)
Definition unlisted (c : Conn) : Prop :=
  (hydrated c = false → messages c = [] ∧ Forall (λ u, u = USet []) (queue c)) ∧
  (∀ X, USet X ∈ queue c → X ≠ [] → messages c = []).

Lemma run_updates_empty q c :
  Forall (λ u, u = USet []) q → messages c = [] → messages (foldl run_update c q) = [].
Proof.
  revert c. induction q as [|u q IH]; intros c Hq Hc; simpl; [done|].
  apply Forall_cons in Hq as [-> Hq]. by apply IH.
Qed.

Lemma flush_hydrated c : hydrated (flush c) = hydrated c.
Proof. by destruct (flush_same c) as (_&_&_&_&_&?&_). Qed.

Lemma apply_unlisted c a : dedup_ok c → enabled c a → unlisted c → unlisted (apply c a).
Proof.
  intros Hd He [H1 H2]. destruct a as [ok| | |d| | |ok|lc tok r| |]; simpl in *;
    unfold onopen, onmessage, onclose, onerror, run_effect, connect, scheduleReconnect;
    repeat case_match; unfold unlisted; simpl in *; try done.
  - split; [intros Hh; rewrite Hh in *; done|].
    intros X [?| ?]%elem_of_snoc; [by apply H2|done].
  - unfold hydrateHistory. destruct (negb (mounted _) || _) eqn:E; simpl; [done|].
    apply orb_false_iff in E as [_ El%negb_false_iff%Z.eqb_eq]. simpl in El. subst lc. destruct Hd as (_&_&_&_&_&Hh&_).
    destruct (hydrated c) eqn:Hy; [by destruct (Hh eq_refl)|]. destruct (H1 eq_refl) as [Hm Hq].
    split; [done|]. by intros.
  - split.
    + intros Hh. destruct (H1 Hh). split; [done|]. by apply Forall_snoc.
    + intros X [?|[= ->]]%elem_of_snoc; [by apply H2|done].
  - pose proof (flush_hydrated c) as E. simpl in E. rewrite E. split.
    + intros Hh. destruct (H1 Hh). split; [by apply run_updates_empty|constructor].
    + by intros X ?%elem_of_nil.
Qed.

Lemma reachable_unlisted c : reachable c → unlisted c.
Proof.
  induction 1; [|apply apply_unlisted; eauto with console].
  split; [by repeat constructor|by intros X ?%elem_of_nil].
Qed.

(** ** The invariant of the pair *)

Definition world_ok (w : World) : Prop :=
  reachable (conn w) ∧
  StronglySorted Z.lt (ids (consumed w)) ∧ Forall (λ i, i ≤ processed w) (ids (consumed w)) ∧
  processed w ≤ sequence (conn w) ∧
  Forall (fresh_update (processed w)) (queue (conn w)) ∧
  (∀ m, m ∈ messages (conn w) → msg_id m ≤ processed w → m ∈ consumed w).

Lemma world_ok_apply w a :
  world_ok w → enabled (conn w) a →
  world_ok (mkWorld (apply (conn w) a) (processed w) (consumed w)).
Proof.
  intros (Hr & Hs & Hc & Hp & Hq & Hm) He. split_and!; simpl; try done.
  - by constructor.
  - etrans; [exact Hp|apply apply_sequence].
  - by apply apply_fresh.
  - intros m Hin Hid. destruct (apply_messages (conn w) a) as [E|[-> E]].
    + rewrite E in Hin. auto.
    + rewrite E in Hin. destruct (run_updates_new _ _ _ Hq Hp m Hin) as [?|?]; [auto|lia].
Qed.

Lemma world_ok_pass w : world_ok w → world_ok (pass w).
Proof.
  intros (Hr & Hs & Hc & Hp & Hq & Hm).
  destruct (reachable_messages_ok _ Hr) as [(_ & Hsort & Hbound) _].
  set (l := pending (processed w) (messages (conn w))).
  destruct (last_processed_bound (processed w) l) as (Hle & Hall & Hlast);
    [by apply StronglySorted_filter_ids|apply pending_past|].
  split_and!; simpl; fold l.
  - done.
  - unfold ids. rewrite fmap_app. apply StronglySorted_app_2; [|done|by apply StronglySorted_filter_ids].
    intros i j Hi Hj. rewrite Forall_forall in Hc. apply Hc in Hi.
    pose proof (pending_past (processed w) (messages (conn w))) as Hf. rewrite Forall_forall in Hf.
    apply Hf in Hj. lia.
  - unfold ids. rewrite fmap_app. apply Forall_app. split; [|done].
    eapply Forall_impl; [exact Hc|]. simpl. lia.
  - destruct Hlast as [->|Hin]; [done|]. apply list_elem_of_fmap in Hin as (m & -> & [_ Hin]%elem_of_pending).
    rewrite Forall_forall in Hbound. apply Hbound. by apply list_elem_of_fmap_2.
  - destruct (reachable_unlisted _ Hr) as [_ Hu]. apply Forall_forall. intros u Hu'.
    rewrite Forall_forall in Hq. specialize (Hq u Hu'). destruct u as [[|m X]|d]; [constructor| |done].
    assert (l = []) as -> by (unfold l; by rewrite (Hu _ Hu')). done.
  - intros m Hin Hid. apply elem_of_app. destruct (Z.lt_ge_cases (processed w) (msg_id m)); [right|left; auto].
    by apply elem_of_pending.
Qed.

Lemma reachable_fresh c :
  reachable c → 0 ≤ sequence c ∧ Forall (fresh_update 0) (queue c) ∧ ∀ m, m ∈ messages c → 0 < msg_id m.
Proof.
  induction 1 as [|c a Hr (Hs & Hq & Hm) He]; simpl.
  { split_and!; [done|constructor|by intros m ?%elem_of_nil]. }
  split_and!.
  - etrans; [exact Hs|apply apply_sequence].
  - by apply apply_fresh.
  - intros m Hin. destruct (apply_messages c a) as [E|[-> E]]; rewrite E in Hin; [auto|].
    destruct (run_updates_new _ _ _ Hq Hs m Hin); auto.
Qed.

Lemma world_reachable_ok w : world_reachable w → world_ok w.
Proof.
  induction 1 as [c Hr|w a _ IH He|w _ IH]; [|by apply world_ok_apply|by apply world_ok_pass].
  destruct (reachable_fresh c Hr) as (Hs & Hq & Hm). split_and!; simpl; try done; [constructor..|].
  intros m Hin Hid. apply Hm in Hin. lia.
Qed.

(** C8: a page that joins at any moment, and whose loop runs at any moments,
    interleaved in any order with the socket, the history, reconnects and clears,
    goes through no message twice and in the order of their ids; and after each
    run it has gone through everything the provider lists. *)
Theorem consumed_exactly_once w :
  world_reachable w →
  StronglySorted Z.lt (ids (consumed (pass w))) ∧
  ∀ m, m ∈ messages (conn w) → m ∈ consumed (pass w).
Proof.
  intros Hw. apply world_pass, world_reachable_ok in Hw as (Hr & Hs & _ & _ & _ & Hm).
  split; [done|]. intros m Hin. destruct (Z.lt_ge_cases (processed w) (msg_id m)) as [Hlt|Hge].
  - simpl. apply elem_of_app. right. by apply elem_of_pending.
  - apply Hm; [done|]. simpl. etrans; [exact Hge|].
    destruct (reachable_messages_ok _ Hr) as [(_ & Hsort & _) _].
    apply last_processed_bound; [by apply StronglySorted_filter_ids|apply pending_past].
Qed.

(** ** Witness *)

Lemma consumed_exactly_once_witness :
  consumed (pass (mkWorld repeated_conn 0 [])) = [mkMsg 1 sample_line] ∧
  StronglySorted Z.lt (ids (consumed (pass (mkWorld repeated_conn 0 [])))).
Proof.
  split; [vm_compute; reflexivity|].
  apply (consumed_exactly_once (mkWorld repeated_conn 0 [])), world_initial, repeated_reachable.
Defined.
