(* ===== verification/View.v ===== *)
(** * What a component renders

    A rendered tree over the actions of a page, with its text, attributes, handlers
    and icons.  The attribute "style" names the entries of the page's style table
    that apply ([Styles] has the tables), "className" the classes; a property given
    in place is an attribute of its own name. *)

From S2P Require Import Prelude JsNumber JsString Events.
Open Scope Z_scope.

Inductive view (A : Type) : Type :=
  | Text (s : string)
  | Elem (tag : string) (attrs : list (string * string)) (on : list (string * A)) (kids : list (view A)).
Arguments Text {A} s.
Arguments Elem {A} tag attrs on kids.

(** [<div style={s.k}>...</div>] and [<span style={s.k}>...</span>]. *)
Notation sdiv k := (Elem "div" (cons (pair "style" k) nil) nil).

(** [{cond && ...}]. *)
Definition when {A} (b : bool) (l : list (view A)) : list (view A) := if b then l else [].

(** The actions the elements of a tree can fire; a disabled button fires none. *)
Fixpoint fires {A} (v : view A) : list A :=
  match v with
  | Text _ => []
  | Elem _ attrs on kids =>
      (if decide (("disabled", "true") ∈ attrs) then [] else on.*2) ++
      (fix go (l : list (view A)) := match l with [] => [] | k :: l => fires k ++ go l end) kids
  end.

(** The text of a tree, in order. *)
Fixpoint texts {A} (v : view A) : list string :=
  match v with
  | Text s => [s]
  | Elem _ _ _ kids =>
      (fix go (l : list (view A)) := match l with [] => [] | k :: l => texts k ++ go l end) kids
  end.

(** The elements of a tree that carry an attribute. *)
Fixpoint select {A} (attr : string * string) (v : view A) : list (view A) :=
  match v with
  | Text _ => []
  | Elem _ attrs _ kids =>
      (if decide (attr ∈ attrs) then [v] else []) ++
      (fix go (l : list (view A)) := match l with [] => [] | k :: l => select attr k ++ go l end) kids
  end.

Definition all_of {A B} (f : view A → list B) (l : list (view A)) : list B := concat (f <$> l).

Lemma fires_Elem {A} tag attrs on (kids : list (view A)) :
  fires (Elem tag attrs on kids) =
  (if decide (("disabled", "true") ∈ attrs) then [] else on.*2) ++ all_of fires kids.
Proof. simpl. f_equal. unfold all_of. induction kids; f_equal/=; auto. Qed.

Lemma texts_Elem {A} tag attrs on (kids : list (view A)) :
  texts (Elem tag attrs on kids) = all_of texts kids.
Proof. simpl. unfold all_of. induction kids; f_equal/=; auto. Qed.

Lemma select_Elem {A} a tag attrs on (kids : list (view A)) :
  select a (Elem tag attrs on kids) =
  (if decide (a ∈ attrs) then [Elem tag attrs on kids] else []) ++ all_of (select a) kids.
Proof. simpl. f_equal. unfold all_of. induction kids; f_equal/=; auto. Qed.

Lemma all_of_app {A B} (f : view A → list B) l k : all_of f (l ++ k) = all_of f l ++ all_of f k.
Proof. unfold all_of. by rewrite fmap_app, concat_app. Qed.

Lemma all_of_fmap {A B C} (f : view A → list B) (g : C → view A) l :
  all_of f (g <$> l) = concat ((λ c, f (g c)) <$> l).
Proof. unfold all_of. by rewrite <-list_fmap_compose. Qed.

Lemma all_of_cons {A B} (f : view A → list B) v l : all_of f (v :: l) = f v ++ all_of f l.
Proof. done. Qed.

Lemma all_of_nil {A B} (f : view A → list B) : all_of f [] = [].
Proof. done. Qed.

Lemma elem_of_all {A B C} (f : view A → list B) (g : C → view A) l b :
  b ∈ all_of f (g <$> l) ↔ ∃ c, c ∈ l ∧ b ∈ f (g c).
Proof.
  induction l as [|c l IH].
  - split; [by intros ?%elem_of_nil|by intros (? & ?%elem_of_nil & _)].
  - rewrite fmap_cons, all_of_cons, elem_of_app, IH. setoid_rewrite elem_of_cons. naive_solver.
Qed.

(** Without handlers of its own an element fires what its children fire. *)
Lemma fires_quiet {A} tag attrs (kids : list (view A)) :
  fires (Elem tag attrs [] kids) = all_of fires kids.
Proof. rewrite fires_Elem. by case_decide. Qed.

Lemma fires_Text {A} s : fires (@Text A s) = [].
Proof. done. Qed.

(** An element without attributes is enabled. *)
Lemma fires_plain {A} tag on (kids : list (view A)) :
  fires (Elem tag [] on kids) = on.*2 ++ all_of fires kids.
Proof. rewrite fires_Elem, decide_False; [done|]. by intros ?%elem_of_nil. Qed.

Lemma fires_styled {A} tag v on (kids : list (view A)) :
  fires (Elem tag [("style", v)] on kids) = on.*2 ++ all_of fires kids.
Proof. rewrite fires_Elem, decide_False; [done|]. by intros [=]%list_elem_of_singleton. Qed.

(** An element that only shows text. *)
Definition span {A} (attrs : list (string * string)) (s : string) : view A :=
  Elem "span" attrs [] [Text s].

Notation sspan k := (span (cons (pair "style" k) nil)).

(** components/ui/KV.tsx. *)
Definition KV {A} (k v : string) (accent : bool) : list (view A) :=
  [span [("fontFamily", "var(--font-mono)"); ("fontSize", "0.6rem"); ("color", "var(--text-muted)");
         ("whiteSpace", "nowrap")] k;
   span [("fontFamily", "var(--font-mono)"); ("fontSize", "0.65rem");
         ("color", if accent then "var(--accent)" else "var(--text-secondary)"); ("wordBreak", "break-all");
         ("fontWeight", if accent then "700" else "400")] v].

Lemma fires_span {A} attrs s : fires (@span A attrs s) = [].
Proof. unfold span. by rewrite fires_quiet. Qed.

Lemma fires_KV {A} k v accent : all_of fires (@KV A k v accent) = [].
Proof. done. Qed.

Lemma fires_KVs {A} (l : list (string * string)) :
  all_of fires (concat ((λ kv, @KV A kv.1 kv.2 false) <$> l)) = [].
Proof. induction l as [|b l IH]; [done|]. rewrite fmap_cons. cbn [concat]. by rewrite all_of_app, IH. Qed.

Lemma fires_when {A} b (l : list (view A)) :
  all_of fires (when b l) = if b then all_of fires l else [].
Proof. by destruct b. Qed.

Create HintDb view.
#[export] Hint Rewrite @fires_quiet @fires_Text @fires_span @all_of_cons @all_of_nil @all_of_app
  @fires_plain @fires_styled @fires_KV @fires_KVs @fires_when @app_nil_r @app_nil_l : view.

(** What the pages ask of the user's locale: [Number.prototype.toLocaleString]. *)
Class Locale := toLocaleString : Z → string.

(** ** Names of styles and classes *)

(** An attribute names entries of the style table, or classes, that exist. *)
Definition attr_ok (names classes : list string) (a : string * string) : bool :=
  if decide (a.1 = "style") then forallb (λ w, bool_decide (w ∈ "" :: names)) (split_char " " a.2)
  else if decide (a.1 = "className") then forallb (λ w, bool_decide (w ∈ "" :: classes)) (split_char " " a.2)
  else true.

Fixpoint styled {A} (names classes : list string) (v : view A) : bool :=
  match v with
  | Text _ => true
  | Elem _ attrs _ kids =>
      forallb (attr_ok names classes) attrs &&
      (fix go (l : list (view A)) := match l with [] => true | k :: l => styled names classes k && go l end) kids
  end.

Definition all_styled {A} (names classes : list string) (l : list (view A)) : Prop :=
  Forall (λ v, styled names classes v = true) l.

Section styled.
Context {A : Type} (names classes : list string).
Implicit Types (v : view A) (l : list (view A)).

Lemma styled_Elem tag attrs on l :
  Forall (λ a, attr_ok names classes a = true) attrs → all_styled names classes l →
  styled names classes (Elem tag attrs on l) = true.
Proof.
  intros Ha Hl. simpl. rewrite (proj2 (forallb_forall _ _)); [|by apply List.Forall_forall].
  induction Hl as [|v l Hv Hl IH]; [done|]. simpl in *. by rewrite Hv.
Qed.

Lemma all_styled_cons v l :
  styled names classes v = true → all_styled names classes l → all_styled names classes (v :: l).
Proof. by constructor. Qed.

Lemma all_styled_app l k :
  all_styled names classes l → all_styled names classes k → all_styled names classes (l ++ k).
Proof. by apply Forall_app_2. Qed.

Lemma all_styled_when b l : all_styled names classes l → all_styled names classes (when b l).
Proof. destruct b; [done|constructor]. Qed.

Lemma all_styled_fmap {B} (f : B → view A) (l : list B) :
  (∀ b, styled names classes (f b) = true) → all_styled names classes (f <$> l).
Proof. intros Hf. by apply Forall_fmap, Forall_true. Qed.

Lemma all_styled_imap {B} (f : nat → B → view A) (l : list B) :
  (∀ i b, styled names classes (f i b) = true) → all_styled names classes (imap f l).
Proof.
  revert f. induction l as [|b l IH]; intros f Hf; simpl; [constructor|].
  constructor; [apply Hf|]. apply IH. intros. apply Hf.
Qed.

Lemma all_styled_concat {B} (f : B → list (view A)) (l : list B) :
  (∀ b, all_styled names classes (f b)) → all_styled names classes (concat (f <$> l)).
Proof. intros Hf. induction l as [|b l IH]; simpl; [constructor|]. by apply all_styled_app. Qed.
End styled.

(** An attribute that is neither. *)
Lemma attr_ok_other names classes k (x : string) :
  k ≠ "style" → k ≠ "className" → attr_ok names classes (k, x) = true.
Proof. intros. unfold attr_ok. by rewrite !decide_False. Qed.
