(* ===== verification/Icons.v ===== *)
(** * components/ui/icons.tsx: the icons

    Drawings without text and without handlers, which the pages put in their
    buttons next to a label or a title. *)

From S2P Require Import Prelude JsNumber JsString Events View.

(** The side of the square, and its shapes with their attributes. *)
Record drawing := mkDrawing { side : string; shapes : list (string * list (string * string)) }.

(** The <svg> element an icon renders. *)
Definition icon {A} (d : drawing) : view A :=
  Elem "svg"
    [("width", side d); ("height", side d); ("viewBox", "0 0 " +:+ side d +:+ " " +:+ side d); ("fill", "none")] []
    ((λ s, Elem s.1 s.2 [] []) <$> shapes d).

Definition PlayIcon : drawing := mkDrawing "10"
  [("path", [("d", "M2 1.5l6 3.5-6 3.5V1.5z"); ("fill", "currentColor")])].

Definition PauseIcon : drawing := mkDrawing "10"
  [("rect", [("x", "1.5"); ("y", "1"); ("width", "2.5"); ("height", "8"); ("rx", "0.5"); ("fill", "currentColor")]);
   ("rect", [("x", "6"); ("y", "1"); ("width", "2.5"); ("height", "8"); ("rx", "0.5"); ("fill", "currentColor")])].

Definition ClearIcon : drawing := mkDrawing "10"
  [("path", [("d", "M2 2l6 6M8 2l-6 6"); ("stroke", "currentColor"); ("strokeWidth", "1.3"); ("strokeLinecap", "round")])].

Definition CloseIcon : drawing := mkDrawing "10"
  [("path", [("d", "M2 2l6 6M8 2l-6 6"); ("stroke", "currentColor"); ("strokeWidth", "1.3"); ("strokeLinecap", "round")])].

Definition ResetIcon : drawing := mkDrawing "11"
  [("path", [("d", "M2 5.5A3.5 3.5 0 1 1 5.5 9"); ("stroke", "currentColor"); ("strokeWidth", "1.3"); ("strokeLinecap", "round")]);
   ("path", [("d", "M2 3v2.5h2.5"); ("stroke", "currentColor"); ("strokeWidth", "1.3"); ("strokeLinecap", "round"); ("strokeLinejoin", "round")])].

Definition StepBackIcon : drawing := mkDrawing "11"
  [("rect", [("x", "1.5"); ("y", "2"); ("width", "1.5"); ("height", "7"); ("rx", "0.5"); ("fill", "currentColor")]);
   ("path", [("d", "M9 2.5L4.5 5.5 9 8.5V2.5z"); ("fill", "currentColor")])].

Definition StepFwdIcon : drawing := mkDrawing "11"
  [("rect", [("x", "8"); ("y", "2"); ("width", "1.5"); ("height", "7"); ("rx", "0.5"); ("fill", "currentColor")]);
   ("path", [("d", "M2 2.5l4.5 3L2 8.5V2.5z"); ("fill", "currentColor")])].

Definition PassIcon : drawing := mkDrawing "11"
  [("path", [("d", "M2 5.5l2.5 2.5 4.5-5"); ("stroke", "currentColor"); ("strokeWidth", "1.5"); ("strokeLinecap", "round"); ("strokeLinejoin", "round")])].

Definition FailIcon : drawing := mkDrawing "11"
  [("path", [("d", "M2.5 2.5l6 6M8.5 2.5l-6 6"); ("stroke", "currentColor"); ("strokeWidth", "1.5"); ("strokeLinecap", "round")])].

Definition SunIcon : drawing := mkDrawing "14"
  [("circle", [("cx", "7"); ("cy", "7"); ("r", "2.8"); ("stroke", "currentColor"); ("strokeWidth", "1.2")]);
   ("path", [("d", "M7 1v1.5M7 11.5V13M1 7h1.5M11.5 7H13M2.93 2.93l1.06 1.06M10.01 10.01l1.06 1.06M2.93 11.07l1.06-1.06M10.01 3.99l1.06-1.06"); ("stroke", "currentColor"); ("strokeWidth", "1.2"); ("strokeLinecap", "round")])].

Definition MoonIcon : drawing := mkDrawing "14"
  [("path", [("d", "M11.5 9.2A5 5 0 014.8 2.5a5.5 5.5 0 106.7 6.7z"); ("stroke", "currentColor"); ("strokeWidth", "1.2"); ("strokeLinecap", "round"); ("strokeLinejoin", "round")])].

Definition LogoutIcon : drawing := mkDrawing "14"
  [("path", [("d", "M5.5 2H3a1 1 0 00-1 1v8a1 1 0 001 1h2.5"); ("stroke", "currentColor"); ("strokeWidth", "1.2"); ("strokeLinecap", "round"); ("strokeLinejoin", "round")]);
   ("path", [("d", "M9.5 9.5L12 7l-2.5-2.5M12 7H5.5"); ("stroke", "currentColor"); ("strokeWidth", "1.2"); ("strokeLinecap", "round"); ("strokeLinejoin", "round")])].

(** ** Icons show no text and react to nothing *)

Lemma fires_icon {A} d : fires (@icon A d) = [].
Proof.
  unfold icon. rewrite fires_quiet, all_of_fmap. induction (shapes d) as [|s l IH]; [done|].
  rewrite fmap_cons. cbn [concat]. by rewrite fires_quiet, IH.
Qed.

Lemma texts_icon {A} d : texts (@icon A d) = [].
Proof.
  unfold icon. rewrite texts_Elem, all_of_fmap. induction (shapes d) as [|s l IH]; [done|].
  rewrite fmap_cons. cbn [concat]. by rewrite texts_Elem, IH.
Qed.

#[export] Hint Rewrite @fires_icon @texts_icon : view.

(** The shapes carry attributes of their own only. *)
Definition icons : list drawing :=
  [PlayIcon; PauseIcon; ClearIcon; CloseIcon; ResetIcon; StepBackIcon; StepFwdIcon; PassIcon; FailIcon;
   SunIcon; MoonIcon; LogoutIcon].

Definition plain (d : drawing) : Prop :=
  Forall (λ s, Forall (λ a, a.1 ≠ "style" ∧ a.1 ≠ "className") s.2) (shapes d).

Lemma icons_plain : Forall plain icons.
Proof. repeat constructor; discriminate. Qed.

Lemma styled_icon {A} names classes d : plain d → styled names classes (@icon A d) = true.
Proof.
  intros Hd. apply styled_Elem.
  - repeat (constructor; [by apply attr_ok_other|]). constructor.
  - apply Forall_fmap. eapply Forall_impl; [exact Hd|]. intros s Hs.
    apply styled_Elem; [|constructor]. eapply Forall_impl; [exact Hs|]. intros [k x] [??]. by apply attr_ok_other.
Qed.
