(* ===== verification/GraphPage.v ===== *)
(** * pages/Graph.tsx: the graph page

    The state of the page around the algorithms of [Graph]: what it keeps, the
    effect that turns live messages into nodes, the delayed request for the
    causal chain of a transaction and its answers, selection, and what is drawn.

    One step is one callback run to completion, its state updates included.
    [drawn] is what the svg shows: d3's joins are keyed by id and set every
    attribute again, so after a call of [renderGraph] it is a function of the
    call's arguments.  Zooming and resizing are left out. *)

From S2P Require Import Prelude JsNumber JsString Json Events WireEvent Auth Connection CausalApi DebugAnalysis Graph Feed View Icons.
Open Scope Z_scope.

(** ** Drawing *)

Record drawn_edge := mkDrawnEdge {
  drawn_id : string; edge_on_path : bool; edge_dimmed : bool;
  dasharray : string; marker_end : string;
  x1 : num; y1 : num; x2 : num; y2 : num
}.

Record drawn_node := mkDrawnNode {
  datum : GraphNode; node_selected : bool; on_path : bool; dimmed : bool;
  bar_fill : string; type_text : string; detail_text : string; dur_text : string;
  transform : string
}.

Definition picture : Type := list drawn_edge * list drawn_node.

Definition relevantIds (edges : list GraphEdge) (selected : option GraphNode) : list string :=
  match selected with Some n => default [] (getPathIds (node_id n) edges) | None => [] end.

Definition find_node (nodes : list GraphNode) (i : string) : option GraphNode :=
  List.find (λ n, bool_decide (node_id n = i)) nodes.

(** [Math.sqrt(dx * dx + dy * dy) || 1]. *)
Definition distance_or_1 (dx dy : num) : num :=
  let d := nsqrt (nadd (nmul dx dx) (nmul dy dy)) in
  if is_nan d || neqb d (Fin 0) then of_Z 1 else d.

(** The end of an edge, on the outline of its target. *)
Definition edge_end (src tgt : GraphNode) : num * num :=
  let dx := nsub (x tgt) (x src) in
  let dy := nsub (y tgt) (y src) in
  let dist := distance_or_1 dx dy in
  (nsub (x tgt) (nmul (ndiv dx dist) (of_Z (NODE_W / 2 + 4))),
   nsub (y tgt) (nmul (ndiv dy dist) (of_Z (NODE_H / 2 + 4)))).

Definition draw_edge (nodes : list GraphNode) (selected : bool) (ids : list string) (d : GraphEdge) :
    drawn_edge :=
  let inside := bool_decide (sourceId d ∈ ids) && bool_decide (targetId d ∈ ids) in
  let src := find_node nodes (sourceId d) in
  let tgt := find_node nodes (targetId d) in
  let ends := match src, tgt with Some a, Some b => edge_end a b | _, _ => (Fin 0, Fin 0) end in
  {| drawn_id := edge_id d;
     edge_on_path := selected && inside;
     edge_dimmed := selected && negb inside;
     dasharray := if nlt (of_Z 50) (latencyMs d) then "4 3" else "none";
     marker_end := if selected && inside then "url(#arr-amber)" else "url(#arr-muted)";
     x1 := from_option x (Fin 0) src; y1 := from_option y (Fin 0) src;
     x2 := ends.1; y2 := ends.2 |}.

Definition draw_node (selected : option GraphNode) (ids : list string) (d : GraphNode) : drawn_node :=
  let inside := bool_decide (node_id d ∈ ids) in
  let some := match selected with Some _ => true | None => false end in
  let t := detail (event d) in
  {| datum := d;
     node_selected := match selected with Some n => bool_decide (node_id n = node_id d) | None => false end;
     on_path := some && inside;
     dimmed := some && negb inside;
     bar_fill := match severity d with
                 | Graph.critical => "#ef4444"
                 | elevated => "var(--accent)"
                 | normal => canvas (TYPE_COLORS (type (event d)))
                 end;
     type_text := TYPE_SHORT (type (event d));
     detail_text := if (26 <? js_length t)%nat then js_take 23 t +:+ "…" else t;
     dur_text := fmtDur (durationUs (event d));
     transform := "translate(" +:+ num_to_string (x d) +:+ "," +:+ num_to_string (y d) +:+ ")" |}.

Definition renderGraph (nodes : list GraphNode) (edges : list GraphEdge) (selected : option GraphNode) :
    picture :=
  let ids := relevantIds edges selected in
  let some := match selected with Some _ => true | None => false end in
  (draw_edge nodes some ids <$> edges, draw_node selected ids <$> nodes).

(** ** State *)

Inductive chain_status := Live | Loading | Api | Error.

Record Page := mkPage {
  nodes : list GraphNode;               (* [nodesRef] *)
  edges : list GraphEdge;               (* [edgesRef] *)
  selectedNode : option GraphNode;
  nodeCount : nat;
  edgeCount : nat;
  debugSummary : DebugSummary;
  chainState : string * chain_status;
  paused : bool;
  processedMessage : Z;
  requestedTransaction : string;
  fetchTimer : option string;           (* the transaction a pending timer will ask for *)
  inflight : list string;               (* the transactions whose request is pending *)
  drawn : picture
}.

Definition page_initial : Page :=
  mkPage [] [] None 0 0 EMPTY_SUMMARY ("", Live) false 0 "" None [] ([], []).

Definition with_chain (c : string * chain_status) (requested : string) (timer : option string)
    (pending : list string) (s : Page) : Page :=
  mkPage (nodes s) (edges s) (selectedNode s) (nodeCount s) (edgeCount s) (debugSummary s) c
    (paused s) (processedMessage s) requested timer pending (drawn s).

Definition set_processed (p : Z) (s : Page) : Page :=
  mkPage (nodes s) (edges s) (selectedNode s) (nodeCount s) (edgeCount s) (debugSummary s)
    (chainState s) (paused s) p (requestedTransaction s) (fetchTimer s) (inflight s) (drawn s).

(** [laid.find((n) => n.id === sel.id) ? sel : null]. *)
Definition keep_selected (laid : list GraphNode) (sel : option GraphNode) : option GraphNode :=
  sel ← sel; _ ← find_node laid (node_id sel); Some sel.

(** The analysis may throw: the two references and the two counters are set by
    then, and the exception is the caller's. *)
Definition applyGraph `{Collation} `{Dagre} (newNodes : list GraphNode) (newEdges : list GraphEdge)
    (selected : option GraphNode) (s : Page) : Page * result () :=
  let safe := sanitizeGraph newNodes newEdges in
  let laid := layoutDAG safe.1 safe.2 in
  let put next summary picture :=
    mkPage laid safe.2 next (length laid) (length safe.2) summary (chainState s) (paused s)
      (processedMessage s) (requestedTransaction s) (fetchTimer s) (inflight s) picture in
  match analyzeDebugGraph (event <$> laid) (edge_data <$> safe.2) with
  | Throw e => (put (selectedNode s) (debugSummary s) (drawn s), Throw e)
  | Return d =>
      let next := match selected with Some n => Some n | None => keep_selected laid (selectedNode s) end in
      (put next d (renderGraph laid safe.2 next), Return ())
  end.

(** The first part of [loadCausalChain]: a timer replaces the pending one. *)
Definition loadCausalChain (tx : string) (s : Page) : Page :=
  if bool_decide (tx = "") || bool_decide (requestedTransaction s = tx) then s
  else with_chain (tx, Loading) tx (Some tx) (inflight s) s.

(** The timer fires: the request goes out. *)
Definition start_fetch (s : Page) : Page :=
  match fetchTimer s with
  | Some tx => with_chain (chainState s) (requestedTransaction s) None (inflight s ++ [tx]) s
  | None => s
  end.

(** The edges of an answer between the nodes kept. *)
Definition answer_edges (visible : list GraphNode) (l : list CausalEdge) : list GraphEdge :=
  let ids := node_id <$> visible in
  (λ e, mkEdge (CausalApi.edge_id e) (fromEventId e) (toEventId e)
          (mkDebugEdge (fromEventId e) (toEventId e) (ndiv (latencyNs e) (of_Z 1000000))
             (Some (CausalApi.causeType e))))
  <$> filter (λ e, fromEventId e ∈ ids ∧ toEventId e ∈ ids) l.

(** Its answer: [then], or [catch]. *)
Definition chain_answered `{Host} `{Collation} `{Dagre} (tx : string) (r : fetch_outcome) (s : Page) :
    Page :=
  match fetchCausalChain tx r with
  | Throw _ => with_chain (tx, Error) "" (fetchTimer s) (inflight s) s
  | Return (evts, l) =>
      if (length evts <? 2)%nat || (length l =? 0)%nat
      then with_chain (tx, Live) "" (fetchTimer s) (inflight s) s
      else
        let visible := slice_last MAX_NODES (node_of <$> evts) in
        match applyGraph visible (answer_edges visible l) None s with
        | (s, Return _) => with_chain (tx, Api) (requestedTransaction s) (fetchTimer s) (inflight s) s
        | (s, Throw _) => with_chain (tx, Error) "" (fetchTimer s) (inflight s) s
        end
  end.

(** The last transaction named among new events; [""] is no transaction. *)
Definition latest_transaction (evts : list KernelEvent) : string :=
  foldl (λ latest e, let tx := default "" (map_get "transaction_id" (meta e)) in
                     if decide (tx = "") then latest else tx) "" evts.

(** [newNodes.length > MAX_NODES ? newNodes.slice(-MAX_NODES) : newNodes]. *)
Definition newest (l : list GraphNode) : list GraphNode :=
  if (MAX_NODES <? length l)%nat then slice_last MAX_NODES l else l.

(** The effect on [messages] and [paused].  Inferred edges name no cause, so that
    its call of [applyGraph] does not throw ([grown_returns]). *)
Definition consume `{Host} `{Collation} `{Dagre} (messages : list ConnectionMessage) (s : Page) : Page :=
  if paused s then s
  else
    let l := pending (processedMessage s) messages in
    let evts := decoded l in
    let newNodes := nodes s ++ (node_of <$> filter (λ e, shouldPromote e = true) evts) in
    let s := set_processed (last_processed (processedMessage s) l) s in
    let s := loadCausalChain (latest_transaction evts) s in
    if decide (length newNodes = length (nodes s)) then s
    else (applyGraph (newest newNodes) (inferEdges (newest newNodes)) None s).1.

(** A tick of the demo generator, which made [evt]. *)
Definition mock_tick `{Collation} `{Dagre} (status : ConnectionStatus) (evt : KernelEvent) (s : Page) : Page :=
  if negb (bool_decide (status = mock)) || paused s || negb (shouldPromote evt) then s
  else
    let newNodes := newest (nodes s ++ [node_of evt]) in
    (applyGraph newNodes (inferEdges newNodes) None s).1.

(** [setSelectedNode], and the effect that draws the selection. *)
Definition select_node (o : option GraphNode) (s : Page) : Page :=
  mkPage (nodes s) (edges s) o (nodeCount s) (edgeCount s) (debugSummary s) (chainState s)
    (paused s) (processedMessage s) (requestedTransaction s) (fetchTimer s) (inflight s)
    (match nodes s with [] => drawn s | _ => renderGraph (nodes s) (edges s) o end).

(** A click on a drawn node. *)
Definition node_click (d : GraphNode) (s : Page) : Page :=
  select_node (match selectedNode s with
               | Some prev => if decide (node_id prev = node_id d) then None else Some d
               | None => Some d
               end) s.

Definition clearGraph (s : Page) : Page :=
  mkPage [] [] None 0 0 EMPTY_SUMMARY ("", Live) (paused s) (processedMessage s) ""
    (fetchTimer s) (inflight s) ([], []).

Definition togglePause (s : Page) : Page :=
  mkPage (nodes s) (edges s) (selectedNode s) (nodeCount s) (edgeCount s) (debugSummary s)
    (chainState s) (negb (paused s)) (processedMessage s) (requestedTransaction s) (fetchTimer s)
    (inflight s) (drawn s).

Inductive page_action :=
  | TogglePause | ClearGraph | ClickNode (d : GraphNode) | Deselect
  | Messages (l : list ConnectionMessage) | MockTick (status : ConnectionStatus) (evt : KernelEvent)
  | TimerFires | Answer (tx : string) (r : fetch_outcome).

(** Only a drawn node can be clicked, and only a pending request answered; the
    demo generator makes well-formed events. *)
Definition page_enabled (s : Page) (a : page_action) : Prop :=
  match a with
  | ClickNode d => d ∈ datum <$> (drawn s).2
  | TimerFires => is_Some (fetchTimer s)
  | Answer tx _ => tx ∈ inflight s
  | MockTick _ evt => wf_event evt
  | _ => True
  end.

Fixpoint remove_first (t : string) (l : list string) : list string :=
  match l with [] => [] | u :: l' => if decide (u = t) then l' else u :: remove_first t l' end.

Definition page_apply `{Host} `{Collation} `{Dagre} (s : Page) (a : page_action) : Page :=
  match a with
  | TogglePause => togglePause s
  | ClearGraph => clearGraph s
  | ClickNode d => node_click d s
  | Deselect => select_node None s           (* the background, Escape, the panel's button *)
  | Messages l => consume l s
  | MockTick status evt => mock_tick status evt s
  | TimerFires => start_fetch s
  | Answer tx r =>
      chain_answered tx r
        (with_chain (chainState s) (requestedTransaction s) (fetchTimer s)
           (remove_first tx (inflight s)) s)
  end.

(** The effect's cleanup: leaving the page clears the timer. *)
Definition leave (s : Page) : Page :=
  with_chain (chainState s) (requestedTransaction s) None (inflight s) s.

(** ** Rendering *)

Definition layer_name (l : NodeLayer) : string :=
  match l with domain => "domain" | kernel => "kernel" | application => "application" end.

Definition severity_name (v : Severity) : string :=
  match v with normal => "normal" | elevated => "elevated" | Graph.critical => "critical" end.

Definition debug_status_name (t : DebugStatus) : string :=
  match t with nominal => "nominal" | degraded => "degraded" | DebugAnalysis.critical => "critical" end.

Definition chain_text (c : string * chain_status) : string :=
  match c.2 with
  | Api => "api chain " +:+ c.1
  | Loading => "loading chain " +:+ c.1
  | Error => "chain unavailable " +:+ c.1
  | Live => "live inference"
  end.

Definition StatPill (num : nat) (label : string) : view page_action :=
  Elem "div" [("display", "flex"); ("alignItems", "baseline"); ("gap", "0.3rem")] []
    [span [("fontFamily", "var(--font-mono)"); ("fontSize", "0.72rem"); ("fontWeight", "700");
           ("color", "var(--text-secondary)")] (dec_of_nat num);
     span [("fontSize", "0.58rem"); ("color", "var(--text-muted)"); ("fontWeight", "500")] label].

Definition DebugSummaryPanel (summary : DebugSummary) : view page_action :=
  let tone := match ds_status summary with
              | DebugAnalysis.critical => "var(--danger, #ef4444)"
              | degraded => "var(--accent)"
              | nominal => "var(--text-secondary)"
              end in
  Elem "aside" [("className", "debug-summary"); ("style", "summaryPanel")] []
    ([sdiv "summaryHeader"
       [span [("style", "summaryStatus"); ("color", tone)] (debug_status_name (ds_status summary));
        sspan "summaryTitle" (title summary)];
      sdiv "summaryCause" [Text (primaryCause summary)];
      sdiv "summaryImpact" [Text (impact summary)]] ++
     when (negb (length (evidence summary) =? 0)%nat)
       [sdiv "summaryEvidence" ((λ item, sdiv "summaryEvidenceItem" [Text item]) <$> evidence summary)] ++
     [sdiv "summaryNext" [Text (nextStep summary)]]).

Definition node_panel (n : GraphNode) : view page_action :=
  let e := event n in
  sdiv "detailPanel"
    [sdiv "detailHeader"
      [sspan "detailType" (type_name (type e)); sspan "detailSep" "·"; sspan "detailSvc" (service e);
       sspan "detailDur" (fmtDur (durationUs e));
       Elem "button" [("style", "closeBtn"); ("aria-label", "Close")] [("onClick", Deselect)] [icon CloseIcon]];
     sdiv "detailGrid"
      (KV "meaning" (explainEvent e) true ++ KV "pid" (num_to_string (pid e)) false ++
       KV "tid" (num_to_string (tid e)) false ++ KV "cpu" (num_to_string (cpu e)) false ++
       KV "timestamp" (timestamp e) false ++ KV "layer" (layer_name (layer n)) false ++
       KV "severity" (severity_name (severity n))
         (match severity n with normal => false | _ => true end) ++
       KV "detail" (detail e) false ++
       concat ((λ kv, KV kv.1 kv.2 false) <$> meta e))].

(** The end of an edge, in a color. *)
Definition mkMarker (id colorVar : string) : view page_action :=
  Elem "marker" [("id", id); ("viewBox", "0 0 10 10"); ("refX", "10"); ("refY", "5"); ("markerWidth", "6");
                 ("markerHeight", "6"); ("orient", "auto")] []
    [Elem "path" [("d", "M 0 0 L 10 5 L 0 10 z"); ("fill", colorVar)] [] []].

(** [classed]: the fixed class, and those that are on. *)
Definition classes (base : string) (l : list (string * bool)) : string :=
  foldl (λ (s : string) (c : string * bool), if c.2 then s +:+ " " +:+ c.1 else s) base l.

Definition edge_view (d : drawn_edge) : view page_action :=
  Elem "line"
    [("class", classes "edge" [("on-path", edge_on_path d); ("dimmed", edge_dimmed d)]);
     ("stroke-dasharray", dasharray d); ("marker-end", marker_end d);
     ("x1", num_to_string (x1 d)); ("y1", num_to_string (y1 d));
     ("x2", num_to_string (x2 d)); ("y2", num_to_string (y2 d))] [] [].

Definition node_text (class y size : string) (extra : list (string * string)) (s : string) : view page_action :=
  Elem "text" ([("class", class); ("text-anchor", "middle"); ("y", y); ("font-family", "var(--font-mono, monospace)");
                ("font-size", size)] ++ extra ++ [("pointer-events", "none")]) [] [Text s].

Definition node_view (d : drawn_node) : view page_action :=
  Elem "g"
    [("class", classes "node-g" [("selected", node_selected d); ("on-path", on_path d); ("dimmed", dimmed d)]);
     ("transform", transform d)] [("click", ClickNode (datum d))]
    [Elem "rect" [("class", "node-rect"); ("x", dec_of_Z (- (NODE_W / 2))); ("y", dec_of_Z (- (NODE_H / 2)));
                  ("width", dec_of_Z NODE_W); ("height", dec_of_Z NODE_H); ("rx", "0")] [] [];
     Elem "rect" [("class", "node-bar"); ("x", dec_of_Z (- (NODE_W / 2))); ("y", dec_of_Z (- (NODE_H / 2)));
                  ("width", dec_of_Z NODE_W); ("height", "4"); ("rx", "0"); ("fill", bar_fill d)] [] [];
     node_text "node-type" "-10" "9px" [("font-weight", "700")] (type_text d);
     node_text "node-detail" "6" "8px" [("font-weight", "400")] (detail_text d);
     node_text "node-dur" "19" "8px" [] (dur_text d)].

(** What d3 put in the svg, with the handlers it attached: a click outside the
    nodes clears the selection. *)
Definition svg_view (p : picture) : view page_action :=
  Elem "svg" [("style", "svg")] [("click", Deselect)]
    [Elem "defs" [] [] [mkMarker "arr-amber" "var(--accent)"; mkMarker "arr-muted" "var(--border)"];
     Elem "rect" [("class", "bg-rect")] [] [];
     Elem "g" [("class", "edges-group")] [] (edge_view <$> p.1);
     Elem "g" [("class", "nodes-group")] [] (node_view <$> p.2)].

Definition graph_toolbar (s : Page) : view page_action :=
  sdiv "toolbar"
    [sdiv "tlLeft"
      [StatPill (nodeCount s) "nodes"; StatPill (edgeCount s) "edges";
       sspan "chainState" (chain_text (chainState s))];
     sdiv "tlRight"
      [Elem "button" [("style", if paused s then "ctrlBtn ctrlBtnOn" else "ctrlBtn")] [("onClick", TogglePause)]
         [icon (if paused s then PlayIcon else PauseIcon); Text (if paused s then "resume" else "pause")];
       Elem "button" [("style", "ctrlBtn")] [("onClick", ClearGraph)] [icon ClearIcon; Text " clear"]]].

Definition GraphPage (s : Page) : view page_action :=
  sdiv "root"
    ([graph_toolbar s;
      sdiv "canvasWrapper"
       (sdiv "graphSurface"
          (svg_view (drawn s) ::
           when (nodeCount s =? 0)%nat [sdiv "emptyState" [sspan "emptyText" "awaiting promoted events"]]) ::
        when (0 <? nodeCount s)%nat [DebugSummaryPanel (debugSummary s)])] ++
     match selectedNode s with Some n => [node_panel n] | None => [] end).

(** ** The invariant *)

Section page.
Context `{Host} `{CollationLaws} `{Dagre}.

Inductive page_reachable : Page → Prop :=
  | page_start : page_reachable page_initial
  | page_act s a : page_reachable s → page_enabled s a → page_reachable (page_apply s a).

(** What holds of the graph shown. *)
Definition graph_ok (ns : list GraphNode) (es : list GraphEdge) : Prop :=
  (length ns ≤ MAX_NODES)%nat ∧ NoDup (node_id <$> ns) ∧
  Forall (λ n, wf_event (event n)) ns ∧ Forall (λ n, at_finite n = true) ns ∧
  Forall (admissible ns) es.

Definition summary_of (ns : list GraphNode) (es : list GraphEdge) : result DebugSummary :=
  match ns with [] => Return EMPTY_SUMMARY | _ => analyzeDebugGraph (event <$> ns) (edge_data <$> es) end.

(** What the screen shows of a graph. *)
Definition shown_ok (s : Page) : Prop :=
  summary_of (nodes s) (edges s) = Return (debugSummary s) ∧
  (∀ n, selectedNode s = Some n → node_id n ∈ node_id <$> nodes s) ∧
  drawn s = renderGraph (nodes s) (edges s) (selectedNode s).

(** An answer whose edges cannot be analysed is kept but not shown. *)
Definition page_ok (s : Page) : Prop :=
  graph_ok (nodes s) (edges s) ∧
  nodeCount s = length (nodes s) ∧ edgeCount s = length (edges s) ∧
  (labelled (edge_data <$> edges s) → shown_ok s).

Lemma empty_page_ok s :
  nodes s = [] → edges s = [] → nodeCount s = 0%nat → edgeCount s = 0%nat → selectedNode s = None →
  debugSummary s = EMPTY_SUMMARY → drawn s = ([], []) → page_ok s.
Proof.
  intros En Ee Hn He Hs Hd Hp. unfold page_ok, shown_ok, graph_ok, MAX_NODES.
  rewrite En, Ee, Hn, He, Hs, Hd, Hp.
  split_and!; first [done | apply Forall_nil_2 | simpl; lia | constructor].
Qed.

Lemma page_initial_ok : page_ok page_initial.
Proof. by apply empty_page_ok. Qed.

(** Admissibility looks at ids and events only. *)
Lemma admissible_placed ns ns' e :
  placed_as <$> ns' ≡ₚ placed_as <$> ns → admissible ns e → admissible ns' e.
Proof.
  intros Hp (s & t & Hs & Ht & Hse & Hte & Hne & Hf).
  assert (∀ n, n ∈ ns → ∃ n', n' ∈ ns' ∧ placed_as n' = placed_as n) as Hin.
  { intros n Hn. assert (placed_as n ∈ placed_as <$> ns') as (n' & ? & ?)%list_elem_of_fmap; [|by exists n'].
    rewrite Hp. by apply list_elem_of_fmap_2. }
  destruct (Hin s Hs) as (s' & ? & [= Es1 Es2]), (Hin t Ht) as (t' & ? & [= Et1 Et2]).
  exists s', t'. unfold pointsForward, ts_diff in *. rewrite Es1, Es2, Et1, Et2. by split_and!.
Qed.

Lemma wf_timed ns : Forall (λ n, wf_event (event n)) ns → Forall timed ns.
Proof. intros Hf. eapply Forall_impl; [exact Hf|]. by intros n (? & _). Qed.

Lemma find_node_Some ns i n : find_node ns i = Some n → n ∈ ns ∧ node_id n = i.
Proof.
  intros Hf. apply find_some in Hf as [Hin Hb]. apply bool_decide_eq_true in Hb.
  by rewrite list_elem_of_In.
Qed.

Lemma keep_selected_id ns sel n : keep_selected ns sel = Some n → node_id n ∈ node_id <$> ns.
Proof.
  unfold keep_selected. destruct sel as [m|]; [|done]. simpl.
  destruct (find_node ns (node_id m)) as [k|] eqn:E; [|done]. intros [= <-].
  apply find_node_Some in E as [? <-]. by apply list_elem_of_fmap_2.
Qed.

(** [applyGraph] keeps at most the nodes it is given. *)
Lemma sanitized_length ns es : (length (sanitizeGraph ns es).1 ≤ length ns)%nat.
Proof.
  destruct (sanitized_nodes ns es) as (Hn & Hin & _). rewrite <-(length_fmap node_id).
  etrans; [|apply Nat.eq_le_incl, (length_fmap node_id)].
  apply submseteq_length, NoDup_submseteq; [done|].
  intros i (n & -> & Hi)%list_elem_of_fmap. apply list_elem_of_fmap_2. auto.
Qed.

Lemma applyGraph_graph ns es :
  (length ns ≤ MAX_NODES)%nat → Forall (λ n, wf_event (event n)) ns →
  graph_ok (layoutDAG (sanitizeGraph ns es).1 (sanitizeGraph ns es).2) (sanitizeGraph ns es).2.
Proof.
  intros Hl Hw. pose proof (sanitized_length ns es) as Hl'.
  destruct (sanitized_nodes ns es) as (Hn & Hin & _). unfold MAX_NODES in *.
  pose proof (layoutDAG_placed (sanitizeGraph ns es).1 (sanitizeGraph ns es).2) as Hp.
  assert (small (sanitizeGraph ns es).1) as Hsm by (unfold small; lia).
  pose proof (layoutDAG_finite _ (sanitizeGraph ns es).2 Hsm) as Hf.
  pose proof (sanitized_admissible ns es) as Ha.
  set (laid := layoutDAG _ _) in *. unfold graph_ok. split_and!.
  - apply Permutation_length in Hp. rewrite !length_fmap in Hp. unfold MAX_NODES. lia.
  - apply (fmap_Permutation fst) in Hp. rewrite <-!list_fmap_compose in Hp.
    change (node_id <$> laid ≡ₚ node_id <$> (sanitizeGraph ns es).1) in Hp. by rewrite Hp.
  - apply (fmap_Permutation snd) in Hp. rewrite <-!list_fmap_compose in Hp.
    change (event <$> laid ≡ₚ event <$> (sanitizeGraph ns es).1) in Hp.
    rewrite <-(Forall_fmap event wf_event), Hp, Forall_fmap.
    rewrite Forall_forall in Hw |- *. intros n ?. simpl. auto.
  - done.
  - eapply Forall_impl; [exact Ha|]. intros e. by apply admissible_placed.
Qed.
Lemma laid_nonempty ns es :
  ns ≠ [] → layoutDAG (sanitizeGraph ns es).1 (sanitizeGraph ns es).2 ≠ [].
Proof.
  intros Hne Hnil. destruct ns as [|n ns]; [done|].
  destruct (sanitized_nodes (n :: ns) es) as (_ & _ & Hids).
  assert (node_id n ∈ node_id <$> (sanitizeGraph (n :: ns) es).1) as Hin by (apply Hids; left).
  pose proof (layoutDAG_placed (sanitizeGraph (n :: ns) es).1 (sanitizeGraph (n :: ns) es).2) as Hp.
  rewrite Hnil in Hp. apply Permutation_nil_l in Hp.
  destruct (sanitizeGraph (n :: ns) es).1; [by apply elem_of_nil in Hin|done].
Qed.

Lemma applyGraph_ok ns es s :
  (length ns ≤ MAX_NODES)%nat → Forall (λ n, wf_event (event n)) ns → ns ≠ [] →
  page_ok (applyGraph ns es None s).1.
Proof.
  intros Hl Hw Hne. pose proof (applyGraph_graph ns es Hl Hw) as Hg.
  pose proof (laid_nonempty ns es Hne) as Hlaid. unfold page_ok, shown_ok, applyGraph.
  set (laid := layoutDAG _ _) in *. set (kept := (sanitizeGraph ns es).2) in *.
  destruct (analyzeDebugGraph _ _) as [e|d] eqn:Ed;
    cbn [fst nodes edges nodeCount edgeCount debugSummary selectedNode drawn]; split_and!; try done.
  - intros [d Hd]%(analyze_labelled (event <$> laid)). by rewrite Ed in Hd.
  - intros _. split_and!; [by destruct laid| |done]. intros n. apply keep_selected_id.
Qed.

(** The fields [applyGraph] sets whether or not it throws. *)
Lemma applyGraph_kept ns es o s :
  let s' := (applyGraph ns es o s).1 in
  nodes s' = layoutDAG (sanitizeGraph ns es).1 (sanitizeGraph ns es).2 ∧
  edges s' = (sanitizeGraph ns es).2 ∧
  paused s' = paused s ∧ processedMessage s' = processedMessage s ∧
  fetchTimer s' = fetchTimer s ∧ inflight s' = inflight s.
Proof. unfold applyGraph. by destruct (analyzeDebugGraph _ _). Qed.

(** It returns exactly when the edges kept can be analysed. *)
Lemma applyGraph_returns ns es o s :
  labelled (edge_data <$> (sanitizeGraph ns es).2) ↔ (applyGraph ns es o s).2 = Return ().
Proof.
  rewrite (analyze_labelled (event <$> layoutDAG (sanitizeGraph ns es).1 (sanitizeGraph ns es).2)).
  unfold applyGraph. destruct (analyzeDebugGraph _ _) as [e|d]; split; [by intros [? [=]]|done|done|by eexists].
Qed.

Lemma inferred_uncaused ns : Forall (λ e : GraphEdge, causeType (edge_data e) = None) (inferEdges ns).
Proof.
  assert (∀ src rest es, Forall (λ e : GraphEdge, causeType (edge_data e) = None) es →
    Forall (λ e : GraphEdge, causeType (edge_data e) = None) (infer_from src rest es)) as Hfrom.
  { intros src rest. induction rest as [|t rest IH]; intros es Hes; simpl; [done|].
    destruct (too_late src t); [done|]. apply IH. case_match; [|done].
    apply Forall_app. split; [done|by apply Forall_singleton]. }
  unfold inferEdges. generalize (js_sort by_time ns) (Forall_nil_2 (λ e : GraphEdge, causeType (edge_data e) = None)).
  generalize (@nil GraphEdge). intros es l. revert es. induction l as [|n l IH]; intros es Hes; simpl; auto.
Qed.

(** The callers that infer their edges are never thrown at. *)
Lemma grown_returns ns ns' o s : (applyGraph ns (inferEdges ns') o s).2 = Return ().
Proof.
  apply applyGraph_returns, labelled_uncaused, Forall_fmap.
  eapply Forall_impl; [apply sanitized_edges|]. intros e (_ & _ & e0 & He0 & E). simpl. rewrite <-E.
  pose proof (inferred_uncaused ns') as Hu. rewrite Forall_forall in Hu. by apply Hu.
Qed.

Lemma with_chain_ok c r t l s : page_ok s → page_ok (with_chain c r t l s).
Proof. done. Qed.

Lemma newest_spec l : newest l = slice_last MAX_NODES l.
Proof.
  unfold newest. destruct (Nat.ltb_spec MAX_NODES (length l)); [done|]. by rewrite slice_last_all.
Qed.

Lemma newest_ne l : l ≠ [] → newest l ≠ [].
Proof.
  rewrite newest_spec. intros Hl Hn. apply (f_equal length) in Hn.
  rewrite slice_last_length in Hn. destruct l; [done|]. simpl in Hn. unfold MAX_NODES in Hn. lia.
Qed.

Lemma grow_ok l es s :
  l ≠ [] → Forall (λ n, wf_event (event n)) l → page_ok (applyGraph (newest l) es None s).1.
Proof.
  intros Hl Hw. apply applyGraph_ok; [..|by apply newest_ne]; rewrite newest_spec;
    [apply slice_last_le|by apply slice_last_Forall].
Qed.

Lemma nodes_of_wf evts : Forall wf_event evts → Forall (λ n, wf_event (event n)) (node_of <$> evts).
Proof. intros. by apply Forall_fmap. Qed.

Lemma page_ok_wf s : page_ok s → Forall (λ n, wf_event (event n)) (nodes s).
Proof. by intros ((_ & _ & ? & _) & _). Qed.

Lemma loadCausalChain_fields tx s :
  ∃ c r t, loadCausalChain tx s = with_chain c r t (inflight s) s.
Proof. unfold loadCausalChain. destruct (_ || _); [|by eauto]. destruct s. by eexists _, _, _. Qed.

Lemma page_consume_ok msgs s : page_ok s → page_ok (consume msgs s).
Proof.
  intros Hs. unfold consume. destruct (paused s); [done|].
  destruct (loadCausalChain_fields (latest_transaction (decoded (pending (processedMessage s) msgs)))
    (set_processed (last_processed (processedMessage s) (pending (processedMessage s) msgs)) s))
    as (c & r & t & ->).
  case_decide as Hlen; [done|]. apply grow_ok.
  - intros Hnil. apply Hlen. rewrite Hnil. apply app_nil in Hnil as [Hnil _].
    cbn [nodes with_chain set_processed]. by rewrite Hnil.
  - apply Forall_app. split; [by apply page_ok_wf|]. apply nodes_of_wf, Forall_filter, decoded_wf.
Qed.

Lemma page_mock_tick_ok status evt s : wf_event evt → page_ok s → page_ok (mock_tick status evt s).
Proof.
  intros He Hs. unfold mock_tick. destruct (_ || _ || _); [done|]. apply grow_ok.
  - by destruct (nodes s).
  - apply Forall_app. split; [by apply page_ok_wf|].
    apply Forall_cons. split; [done|apply Forall_nil_2].
Qed.

Lemma chain_events_wf tx r evts l : fetchCausalChain tx r = Return (evts, l) → Forall wf_event evts.
Proof.
  unfold fetchCausalChain, chain_of. intros Hf. result_inv. simplify_eq.
  match goal with H : map_throwing _ _ _ = Return evts |- _ => apply map_throwing_Return in H as [Hl Hj] end.
  apply Forall_lookup. intros j e He. pose proof (lookup_lt_Some _ _ _ He) as Hlt. rewrite Hl in Hlt.
  apply lookup_lt_is_Some in Hlt as [raw Hr]. destruct (Hj j raw Hr) as (e' & He' & Hm).
  simplify_eq. by eapply mapWireEvent_wf.
Qed.

Lemma chain_answered_ok tx r s : page_ok s → page_ok (chain_answered tx r s).
Proof.
  intros Hs. unfold chain_answered.
  destruct (fetchCausalChain tx r) as [|[evts l]] eqn:Ef; [done|].
  destruct (length evts <? 2)%nat eqn:Elen; [done|]. destruct (length l =? 0)%nat; [done|].
  cbn [orb]. assert (∀ g : Page * result (), page_ok g.1 → page_ok (match g with
    | (s, Return _) => with_chain (tx, Api) (requestedTransaction s) (fetchTimer s) (inflight s) s
    | (s, Throw _) => with_chain (tx, Error) "" (fetchTimer s) (inflight s) s end)) as Hg
    by by intros [? []].
  apply Hg, applyGraph_ok; [apply slice_last_le|..].
  - apply slice_last_Forall, nodes_of_wf. by eapply chain_events_wf.
  - rewrite <-newest_spec. apply newest_ne. apply Nat.ltb_ge in Elen. by destruct evts; [simpl in Elen; lia|].
Qed.

Lemma select_node_ok o s :
  page_ok s →
  (labelled (edge_data <$> edges s) → ∀ n, o = Some n → node_id n ∈ node_id <$> nodes s) →
  page_ok (select_node o s).
Proof.
  intros (Hg & Hn & He & Hsh) Ho. unfold page_ok, shown_ok, select_node.
  cbn [nodes edges nodeCount edgeCount debugSummary selectedNode drawn]. split_and!; try done.
  intros Hl. destruct (Hsh Hl) as (Hd & _ & Hdr). split_and!; [done|by apply Ho|].
  destruct (nodes s) as [|n ns] eqn:E; [|done]. rewrite Hdr.
  destruct Hg as (_ & _ & _ & _ & Ha). destruct (edges s) as [|e es]; [done|].
  apply Forall_inv in Ha as (x & _ & Hx & _). by apply elem_of_nil in Hx.
Qed.

Lemma renderGraph_data ns es o : datum <$> (renderGraph ns es o).2 = ns.
Proof. unfold renderGraph. cbn [snd]. rewrite <-list_fmap_compose. apply list_fmap_id. Qed.

Lemma page_apply_ok s a : page_ok s → page_enabled s a → page_ok (page_apply s a).
Proof.
  intros Hs. destruct a as [| |d| |l|status evt| |tx r]; simpl; intros Ha.
  - done.
  - by apply empty_page_ok.
  - apply select_node_ok; [done|]. intros Hl n Hn.
    assert (n = d) as -> by (destruct (selectedNode s); [case_decide|]; congruence).
    destruct Hs as (_ & _ & _ & Hsh). destruct (Hsh Hl) as (_ & _ & Hdr). rewrite Hdr, renderGraph_data in Ha.
    by apply list_elem_of_fmap_2.
  - by apply select_node_ok.
  - by apply page_consume_ok.
  - by apply page_mock_tick_ok.
  - unfold start_fetch. by destruct (fetchTimer s).
  - by apply chain_answered_ok.
Qed.

(** C24: whatever arrives and whatever the user does, in any order, the graph the
    page holds is consistent.  At most forty nodes are kept, with distinct ids and
    finite positions; every edge joins two of them and no path leads back to where
    it began; the two counters are those of this very graph.  What the screen shows
    is this graph too, as long as its edges can be analysed: the summary is that of
    the graph, the selected node, if any, is one of its nodes, and the picture is
    the graph as [renderGraph] draws it with that selection.  (Edges can be analysed
    unless their most frequent cause is spelt like a member of Object.prototype.) *)
Theorem graph_invariant s :
  page_reachable s →
  (length (nodes s) ≤ 40)%nat ∧ NoDup (node_id <$> nodes s) ∧
  Forall (λ n, at_finite n = true) (nodes s) ∧
  Forall (λ e : GraphEdge, sourceId e ∈ node_id <$> nodes s ∧ targetId e ∈ node_id <$> nodes s) (edges s) ∧
  (∀ i, ¬ tc (edge_rel (edges s)) i i) ∧
  nodeCount s = length (nodes s) ∧ edgeCount s = length (edges s) ∧
  (labelled (edge_data <$> edges s) →
    summary_of (nodes s) (edges s) = Return (debugSummary s) ∧
    (∀ n, selectedNode s = Some n → node_id n ∈ node_id <$> nodes s) ∧
    drawn s = renderGraph (nodes s) (edges s) (selectedNode s)).
Proof.
  intros Hs. assert (page_ok s) as ((Hl & Hn & Hw & Hf & Ha) & Hok).
  { induction Hs; auto using page_initial_ok, page_apply_ok. }
  split_and!; try done; try apply Hok.
  - eapply Forall_impl; [exact Ha|]. intros e (x & y & Hx & Hy & <- & <- & _).
    split; by apply list_elem_of_fmap_2.
  - intros i. apply (forward_acyclic (nodes s)); [done|by apply wf_timed|done].
Qed.

Lemma fires_texts {A B} (l : list B) (f : B → string) :
  all_of fires ((λ x, @Elem A "div" [("style", "summaryEvidenceItem")] [] [Text (f x)]) <$> l) = [].
Proof. by induction l. Qed.

Lemma fires_svg p a : a ∈ fires (svg_view p) → a = Deselect ∨ ∃ d, d ∈ p.2 ∧ a = ClickNode (datum d).
Proof.
  unfold svg_view. rewrite fires_Elem. autorewrite with view. rewrite !elem_of_app, !elem_of_all.
  intros [Ha|[(d & _ & Ha)|(d & Hd & Ha)]]; [left|by apply elem_of_nil in Ha|right].
  - by apply list_elem_of_singleton in Ha.
  - exists d. split; [done|]. by apply list_elem_of_singleton in Ha.
Qed.

Lemma fires_summary d : fires (DebugSummaryPanel d) = [].
Proof. unfold DebugSummaryPanel. autorewrite with view. rewrite fires_texts. by destruct (_ =? 0)%nat. Qed.

Lemma fires_node_panel n : fires (node_panel n) = [Deselect].
Proof. unfold node_panel. cbv zeta. autorewrite with view. done. Qed.

(** The page offers no action that its state does not allow, and always the two
    buttons of its toolbar. *)
Lemma page_offers s a : a ∈ fires (GraphPage s) → page_enabled s a.
Proof.
  unfold GraphPage, graph_toolbar. rewrite fires_quiet. autorewrite with view. rewrite fires_summary, !elem_of_app.
  intros [[[Ha|Ha]|[[Ha|Ha]|Ha]]|Ha].
  - apply list_elem_of_singleton in Ha as ->. done.
  - apply list_elem_of_singleton in Ha as ->. done.
  - apply fires_svg in Ha as [-> |(d & Hd & ->)]; [done|]. by apply list_elem_of_fmap_2.
  - destruct (_ =? 0)%nat; by apply elem_of_nil in Ha.
  - destruct (_ <? _)%nat; by apply elem_of_nil in Ha.
  - destruct (selectedNode s); [|by apply elem_of_nil in Ha].
    rewrite all_of_cons, fires_node_panel in Ha. by apply list_elem_of_singleton in Ha as ->.
Qed.

(** ** The answers of the server *)

Lemma answer_edges_spec visible l :
  Forall (λ e : GraphEdge, ∃ ce, ce ∈ l ∧
    edge_data e = mkDebugEdge (fromEventId ce) (toEventId ce) (ndiv (latencyNs ce) (of_Z 1000000))
                    (Some (CausalApi.causeType ce))) (answer_edges visible l).
Proof.
  unfold answer_edges. apply Forall_fmap, Forall_forall. intros ce [_ Hce]%list_elem_of_filter.
  by exists ce.
Qed.

Section answered.
Variables (evts : list KernelEvent) (l : list CausalEdge).

(** The graph an accepted answer leads to. *)
Let visible := slice_last MAX_NODES (node_of <$> evts).
Let g := sanitizeGraph visible (answer_edges visible l).

Lemma visible_events : visible = node_of <$> slice_last 40 evts.
Proof. unfold visible, slice_last. by rewrite fmap_drop, length_fmap. Qed.

Lemma answer_nodes :
  let ns := layoutDAG g.1 g.2 in
  (∀ i, i ∈ node_id <$> ns ↔ i ∈ id <$> slice_last 40 evts) ∧
  (∀ n, n ∈ ns → event n ∈ slice_last 40 evts).
Proof.
  pose proof (sanitized_nodes visible (answer_edges visible l)) as (_ & Hin & Hids). fold g in Hin, Hids.
  rewrite visible_events in Hin, Hids. pose proof (layoutDAG_placed g.1 g.2) as Hp.
  assert (∀ n, n ∈ layoutDAG g.1 g.2 → ∃ e, e ∈ slice_last 40 evts ∧ placed_as n = (id e, e)) as Hback.
  { intros n Hn. assert (placed_as n ∈ placed_as <$> g.1) as (m & Hm & Hg)%list_elem_of_fmap.
    { rewrite <-Hp. by apply list_elem_of_fmap_2. }
    apply Hin in Hg. apply list_elem_of_fmap in Hg as (e & -> & He). by exists e. }
  split.
  - intros i. split.
    + intros (n & -> & Hn)%list_elem_of_fmap. destruct (Hback n Hn) as (e & He & [= -> _]).
      by apply list_elem_of_fmap_2.
    + intros Hi. assert (i ∈ node_id <$> g.1) as Hi'.
      { apply Hids. rewrite <-list_fmap_compose. exact Hi. }
      apply (fmap_Permutation fst) in Hp. rewrite <-!list_fmap_compose in Hp.
      change (node_id <$> layoutDAG g.1 g.2 ≡ₚ node_id <$> g.1) in Hp. by rewrite Hp.
  - intros n Hn. destruct (Hback n Hn) as (e & He & [= _ ->]). done.
Qed.

Lemma answer_edges_kept :
  Forall (λ e : GraphEdge, ∃ ce, ce ∈ l ∧
    edge_data e = mkDebugEdge (fromEventId ce) (toEventId ce) (ndiv (latencyNs ce) (of_Z 1000000))
                    (Some (CausalApi.causeType ce))) g.2.
Proof.
  eapply Forall_impl; [apply sanitized_edges|]. intros e (_ & _ & e0 & He0 & <-).
  pose proof (answer_edges_spec visible l) as Ha. rewrite Forall_forall in Ha. by apply Ha.
Qed.

Lemma chain_answered_kept tx r s :
  fetchCausalChain tx r = Return (evts, l) → (2 ≤ length evts)%nat → l ≠ [] →
  let s' := chain_answered tx r s in
  nodes s' = layoutDAG g.1 g.2 ∧ edges s' = g.2 ∧
  if decide (labelled (edge_data <$> edges s'))
  then chainState s' = (tx, Api) ∧ drawn s' = renderGraph (nodes s') (edges s') (selectedNode s')
  else chainState s' = (tx, Error) ∧ requestedTransaction s' = "" ∧ drawn s' = drawn s ∧
       debugSummary s' = debugSummary s ∧ selectedNode s' = selectedNode s.
Proof.
  intros Hf Hlen Hl. unfold chain_answered. rewrite Hf, (proj2 (Nat.ltb_ge _ _) Hlen).
  assert ((length l =? 0)%nat = false) as -> by (apply Nat.eqb_neq; by destruct l).
  cbn [orb]. fold visible. unfold applyGraph. fold g.
  pose proof (analyze_labelled (event <$> layoutDAG g.1 g.2) (edge_data <$> g.2)) as Hlab.
  destruct (analyzeDebugGraph _ _) as [e|d]; cbn [edges with_chain]; split_and!; try done;
    case_decide as Hd; try done.
  - apply Hlab in Hd as [? [=]].
  - exfalso. apply Hd, Hlab. by eexists.
Qed.
End answered.

(** C25: an answer with two events and an edge or more is taken: the nodes become
    those of its newest forty events, and every edge is one of its causal edges,
    with the cause and latency the server gave.  Neither the pause button, nor
    what is shown, nor a newer transaction asked for meanwhile, makes any
    difference.  It is drawn and reported as the chain of the transaction when its
    edges can be analysed; when they cannot (their most frequent cause is spelt
    like a member of Object.prototype), the chain is reported unavailable, the
    transaction can be asked for again, and the picture, the summary and the
    selection stay those of the graph before. *)
Theorem chain_answer_spec tx r s evts l :
  fetchCausalChain tx r = Return (evts, l) → (2 ≤ length evts)%nat → l ≠ [] →
  let s' := chain_answered tx r s in
  (∀ i, i ∈ node_id <$> nodes s' ↔ i ∈ id <$> slice_last 40 evts) ∧
  (∀ n, n ∈ nodes s' → event n ∈ slice_last 40 evts) ∧
  Forall (λ e : GraphEdge, ∃ ce, ce ∈ l ∧
    edge_data e = mkDebugEdge (fromEventId ce) (toEventId ce) (ndiv (latencyNs ce) (of_Z 1000000))
                    (Some (CausalApi.causeType ce))) (edges s') ∧
  (∀ s2, nodes (chain_answered tx r s2) = nodes s' ∧ edges (chain_answered tx r s2) = edges s') ∧
  if decide (labelled (edge_data <$> edges s'))
  then chainState s' = (tx, Api) ∧ drawn s' = renderGraph (nodes s') (edges s') (selectedNode s')
  else chainState s' = (tx, Error) ∧ requestedTransaction s' = "" ∧ drawn s' = drawn s ∧
       debugSummary s' = debugSummary s ∧ selectedNode s' = selectedNode s.
Proof.
  intros Hf Hlen Hl s'. destruct (chain_answered_kept evts l tx r s Hf Hlen Hl) as (Hn & He & Hc).
  fold s' in Hn, He, Hc. pose proof (answer_nodes evts l) as Ha. cbv zeta in Ha. rewrite <-Hn in Ha.
  destruct Ha as (Hi & Hev). split_and!; [done|done| | |].
  - rewrite He. apply answer_edges_kept.
  - intros s2. destruct (chain_answered_kept evts l tx r s2 Hf Hlen Hl) as (-> & -> & _). by rewrite Hn, He.
  - case_decide; [by apply Hc|by apply Hc].
Qed.

(** A request that fails, and an answer too small to be a chain, leave the
    graph, the selection and the picture as they were, and the transaction can be
    asked for again: its next event starts a new timer. *)
Theorem chain_failure_retries tx r s :
  tx ≠ "" →
  match fetchCausalChain tx r with
  | Throw _ => True
  | Return (evts, l) => (length evts < 2)%nat ∨ l = []
  end →
  let s' := chain_answered tx r s in
  nodes s' = nodes s ∧ edges s' = edges s ∧ selectedNode s' = selectedNode s ∧ drawn s' = drawn s ∧
  (chainState s' = (tx, Error) ∨ chainState s' = (tx, Live)) ∧
  fetchTimer (loadCausalChain tx s') = Some tx ∧ chainState (loadCausalChain tx s') = (tx, Loading).
Proof.
  intros Htx Hr. assert (∃ st, chain_answered tx r s = with_chain (tx, st) "" (fetchTimer s) (inflight s) s ∧
    (st = Error ∨ st = Live)) as (st & Heq & Hst).
  { unfold chain_answered. destruct (fetchCausalChain tx r) as [|[evts l]]; [by eauto|].
    assert ((length evts <? 2)%nat || (length l =? 0)%nat = true) as ->; [|by eauto].
    destruct Hr as [Hr| ->]; [by rewrite (proj2 (Nat.ltb_lt _ _) Hr)|by rewrite orb_true_r]. }
  simpl. rewrite Heq. unfold loadCausalChain. cbn [requestedTransaction with_chain].
  rewrite (bool_decide_eq_false_2 (tx = "")), (bool_decide_eq_false_2 ("" = tx)) by congruence.
  split_and!; try done. by destruct Hst as [-> | ->]; [left|right].
Qed.

Lemma answer_keeps s tx r :
  fetchTimer (page_apply s (Answer tx r)) = fetchTimer s ∧
  inflight (page_apply s (Answer tx r)) = remove_first tx (inflight s).
Proof.
  unfold page_apply, chain_answered. destruct (fetchCausalChain tx r) as [|[evts l]]; [done|].
  destruct (_ || _); [done|]. unfold applyGraph. by destruct (analyzeDebugGraph _ _).
Qed.

(** Once the page is left only answers to requests under way can still come, and
    none of them makes another request. *)
Lemma left_asks_nothing s acts :
  Forall (λ a, ∃ tx r, a = Answer tx r) acts →
  let s' := foldl page_apply (leave s) acts in
  fetchTimer s' = None ∧ inflight s' ⊆+ inflight s.
Proof.
  intros Ha. change (inflight s) with (inflight (leave s)).
  assert (fetchTimer (leave s) = None) as Ht by done. revert Ht. generalize (leave s). clear s.
  induction Ha as [|a acts (tx & r & ->) Ha IH]; intros s Ht; [done|]. cbn [foldl].
  assert (∀ u l, remove_first u l ⊆+ l) as Hrm.
  { intros u l. induction l as [|v l IHl]; simpl; [done|]. case_decide; [by apply submseteq_cons|by apply submseteq_skip]. }
  destruct (IH (page_apply s (Answer tx r))) as [Ht' Hi]; [by rewrite (proj1 (answer_keeps s tx r))|].
  split; [exact Ht'|]. etrans; [exact Hi|]. rewrite (proj2 (answer_keeps s tx r)). apply Hrm.
Qed.
End page.

(** ** The selection *)

(** What selecting a node highlights.  A node is on the path exactly when it is
    the selected node, an ancestor or a descendant of it; an edge when both of its
    ends are; everything else is dimmed, and nothing is either without a
    selection. *)
Theorem highlight_spec ns es sel :
  let '(des, dns) := renderGraph ns es sel in
  Forall2 (λ n d, datum d = n ∧
    match sel with
    | None => on_path d = false ∧ dimmed d = false
    | Some m => (on_path d = true ↔ on_path_of es (node_id m) (node_id n)) ∧ dimmed d = negb (on_path d)
    end) ns dns ∧
  Forall2 (λ (e : GraphEdge) d, drawn_id d = edge_id e ∧
    match sel with
    | None => edge_on_path d = false ∧ edge_dimmed d = false
    | Some m => (edge_on_path d = true ↔ on_path_of es (node_id m) (sourceId e) ∧
                                         on_path_of es (node_id m) (targetId e)) ∧
                edge_dimmed d = negb (edge_on_path d)
    end) es des.
Proof.
  unfold renderGraph. split; apply Forall2_fmap_r, Forall_Forall2_diag, Forall_true.
  - intros n. split; [done|]. destruct sel as [m|]; [|done]. simpl.
    destruct (getPathIds_path (node_id m) es) as (ids & -> & _ & Hi). simpl.
    split; [|done]. rewrite bool_decide_eq_true. apply Hi.
  - intros e. split; [done|]. destruct sel as [m|]; [|done]. simpl.
    destruct (getPathIds_path (node_id m) es) as (ids & -> & _ & Hi). simpl.
    split; [|done]. rewrite andb_true_iff, !bool_decide_eq_true. by rewrite !Hi.
Qed.

(** ** Witnesses *)

Definition graph_messages : list ConnectionMessage :=
  [mkMsg 1 (jtext "{'timestampNs':1000,'eventType':'tcp_send','eventId':'a','transactionId':'tx-1'}");
   mkMsg 2 "not json";
   mkMsg 3 (jtext "{'timestampNs':2000,'eventType':'sys_read','eventId':'b'}")].

(** Two events arrive, and the timer of the transaction they name fires. *)
Definition sample_page : Page :=
  foldl (@page_apply utc code_order nan_dagre) page_initial [Messages graph_messages; TimerFires].

Lemma sample_page_reachable : @page_reachable utc code_order nan_dagre sample_page.
Proof.
  unfold sample_page. cbn [foldl]. apply page_act; [apply page_act; [apply page_start|done]|].
  cbn [page_enabled]. vm_compute. by eexists.
Qed.

Lemma graph_invariant_witness :
  node_id <$> nodes sample_page = ["a"; "b"] ∧ inflight sample_page = ["tx-1"] ∧
  (length (nodes sample_page) ≤ 40)%nat.
Proof.
  split; [vm_compute; reflexivity|]. split; [vm_compute; reflexivity|].
  destruct (@graph_invariant utc code_order code_order_laws nan_dagre sample_page sample_page_reachable)
    as [Hl _]. exact Hl.
Defined.

Definition chain_proto (i : string) (ts : Z) : KernelEventProto :=
  mkProto i ts 7 "tcp_send" "tx-1" "db" "" 0 7 1 "".

Definition sample_answer : fetch_outcome :=
  FetchOk (Some (serveCausalChain [chain_proto "c" 1000; chain_proto "d" 2000]
    [mkEdgeProto "c" "d" "IO_WAIT" 1000 "tx-1" "db"])).

(** Clearing the page cancels nothing: the answer that was on its way fills it
    again, even if the page was paused too. *)
Lemma chain_answer_spec_witness :
  let s := @chain_answered utc code_order nan_dagre "tx-1" sample_answer
             (togglePause (clearGraph sample_page)) in
  chainState s = ("tx-1", Api) ∧ (∀ i, i ∈ node_id <$> nodes s ↔ i ∈ ["c"; "d"]).
Proof.
  destruct (@chain_answer_spec utc code_order nan_dagre "tx-1" sample_answer
    (togglePause (clearGraph sample_page))
    [@event_of_proto utc tcp_send (chain_proto "c" 1000); @event_of_proto utc tcp_send (chain_proto "d" 2000)]
    [edge_of_proto (mkEdgeProto "c" "d" "IO_WAIT" 1000 "tx-1" "db")]) as (Hi & _ & _ & _ & Hc).
  - apply (@served_chain utc); [reflexivity|repeat constructor; simpl; lia|].
    repeat constructor; vm_compute; reflexivity.
  - simpl. lia.
  - discriminate.
  - revert Hc. case_decide as Hl; [|exfalso; apply Hl, (@bool_decide_unpack _ (labelled_dec _)); vm_compute; exact I].
    intros [Hc _]. split; [exact Hc|exact Hi].
Defined.

(** The same answer with a cause named constructor: its graph is kept, and nothing
    of it is shown. *)
Example inherited_answer :
  let s := @chain_answered utc code_order nan_dagre "tx-1"
             (FetchOk (Some (serveCausalChain [chain_proto "c" 1000; chain_proto "d" 2000]
               [mkEdgeProto "c" "d" "constructor" 1000 "tx-1" "db"]))) page_initial in
  chainState s = ("tx-1", Error) ∧ nodeCount s = 2%nat ∧ edgeCount s = 1%nat ∧ drawn s = ([], []).
Proof. vm_compute. done. Qed.

Lemma chain_failure_retries_witness :
  fetchTimer (loadCausalChain "tx-1"
    (@chain_answered utc code_order nan_dagre "tx-1" FetchNotOk sample_page)) = Some "tx-1".
Proof.
  destruct (@chain_failure_retries utc code_order nan_dagre "tx-1" FetchNotOk sample_page)
    as (_ & _ & _ & _ & _ & Ht & _); [discriminate|done|exact Ht].
Defined.
