(* ===== verification/StreamPage.v ===== *)
(** * pages/Stream.tsx: the event table

    The state of the page, its handlers and effects, and what it renders.  The
    demo generator's ticks are steps too, though the provider never reports the
    demo mode ([Connection.status_is_live]).  Scrolling the table is left out, its
    result [atBottom] being only read by that scrolling. *)

From S2P Require Import Prelude JsNumber JsString Json Events WireEvent Connection Feed View Icons.
Open Scope Z_scope.

Definition MAX_EVENTS : nat := 500.

Record Stream := mkStream {
  events : list KernelEvent;
  paused : bool;
  expandedId : option string;
  activeTypes : list EventType;       (* a Set, in insertion order *)
  eps : Z;
  processedMessage : Z;
  eventCount : Z
}.

Definition stream_initial : Stream := mkStream [] false None EVENT_TYPES 0 0 0.

Definition handleNewEvent (s : Stream) (evt : KernelEvent) : Stream :=
  let next := events s ++ [evt] in
  mkStream (if (MAX_EVENTS <? length next)%nat then drop (length next - MAX_EVENTS) next else next)
    (paused s) (expandedId s) (activeTypes s) (eps s) (processedMessage s) (eventCount s + 1).

(** One round of the loop over the pending messages. *)
Definition handle_message `{Host} (s : Stream) (m : ConnectionMessage) : Stream :=
  let s := match decode m with Return evt => handleNewEvent s evt | Throw _ => s end in
  mkStream (events s) (paused s) (expandedId s) (activeTypes s) (eps s) (msg_id m) (eventCount s).

(** The effect on [messages] and [paused]. *)
Definition consume `{Host} (messages : list ConnectionMessage) (s : Stream) : Stream :=
  if paused s then s
  else foldl handle_message s (pending (processedMessage s) messages).

Definition filtered (s : Stream) : list KernelEvent :=
  filter (λ e, type e ∈ activeTypes s) (events s).

Definition set_expanded (o : option string) (s : Stream) : Stream :=
  mkStream (events s) (paused s) o (activeTypes s) (eps s) (processedMessage s) (eventCount s).

(** The effect that closes a row that is no longer shown. *)
Definition close_hidden (s : Stream) : Stream :=
  match expandedId s with
  | Some i =>
      if bool_decide (i ≠ "") && negb (existsb (λ e, bool_decide (id e = i)) (filtered s))
      then set_expanded None s else s
  | None => s
  end.

(** [toggleType], also of the timeline: the last type stays. *)
Definition toggle_in (type : EventType) (prev : list EventType) : list EventType :=
  if decide (type ∈ prev) then
    if decide (length prev = 1%nat) then prev else filter (λ t, t ≠ type) prev
  else prev ++ [type].

Definition toggleType (type : EventType) (s : Stream) : Stream :=
  mkStream (events s) (paused s) (expandedId s) (toggle_in type (activeTypes s)) (eps s)
    (processedMessage s) (eventCount s).

Definition togglePause (s : Stream) : Stream :=
  mkStream (events s) (negb (paused s)) (expandedId s) (activeTypes s) (eps s)
    (processedMessage s) (eventCount s).

(** The page's own part of [clearEvents]; [clearMessages] is the provider's. *)
Definition clearEvents (s : Stream) : Stream :=
  mkStream [] (paused s) None (activeTypes s) (eps s) (processedMessage s) (eventCount s).

(** The interval of a second. *)
Definition eps_tick (s : Stream) : Stream :=
  mkStream (events s) (paused s) (expandedId s) (activeTypes s) (eventCount s) (processedMessage s) 0.

(** A tick of the demo generator, which made [evt]. *)
Definition mock_tick (status : ConnectionStatus) (evt : KernelEvent) (s : Stream) : Stream :=
  if negb (bool_decide (status = mock)) || paused s then s else handleNewEvent s evt.

Inductive stream_action :=
  | ToggleType (t : EventType) | TogglePause | ClearEvents | Expand (o : option string) | Second.

Definition stream_apply (s : Stream) (a : stream_action) : Stream :=
  match a with
  | ToggleType t => toggleType t s
  | TogglePause => togglePause s
  | ClearEvents => clearEvents s
  | Expand o => set_expanded o s
  | Second => eps_tick s
  end.

(** A commit: the effects see the list of the provider, and their updates are
    rendered, which runs the closing effect again. *)
Definition commit `{Host} (messages : list ConnectionMessage) (s : Stream) : Stream :=
  close_hidden (consume messages (close_hidden s)).

(** ** Rendering *)

(** The widths of the columns. *)
Definition COL_ts : string := "96px".
Definition COL_type : string := "108px".
Definition COL_pid : string := "52px".
Definition COL_cpu : string := "36px".
Definition COL_svc : string := "144px".
Definition COL_dur : string := "76px".

Definition Stat {A} (num label : string) (accent : bool) : view A :=
  Elem "div" [("display", "flex"); ("alignItems", "baseline"); ("gap", "0.35rem"); ("paddingRight", "1rem")] []
    [span [("fontFamily", "var(--font-mono)"); ("fontSize", "0.78rem"); ("fontWeight", "700");
           ("color", if accent then "var(--accent)" else "var(--text-secondary)");
           ("letterSpacing", "-0.01em")] num;
     span [("fontSize", "0.65rem"); ("color", "var(--text-muted)"); ("fontWeight", "500")] label].

Definition StatDiv {A} : view A :=
  Elem "div" [("width", "1px"); ("height", "12px"); ("backgroundColor", "var(--border-subtle)");
              ("marginRight", "1rem"); ("flexShrink", "0")] [] [].

Definition ExpandSection {A} (label : string) (children : list (view A)) : view A :=
  Elem "div" [("flex", "1"); ("display", "flex"); ("flexDirection", "column"); ("gap", "0.5rem");
              ("minWidth", "160px")] []
    [Elem "div" [("fontSize", "0.58rem"); ("fontWeight", "700"); ("letterSpacing", "0.14em");
                 ("textTransform", "uppercase"); ("color", "var(--accent)"); ("marginBottom", "0.125rem")] []
       [Text label];
     Elem "div" [("display", "grid"); ("gridTemplateColumns", "auto 1fr"); ("gap", "0.2rem 0.75rem");
                 ("alignItems", "baseline")] [] children].

(** A filter pill. *)
Definition pill (active : list EventType) (t : EventType) : view stream_action :=
  let on := bool_decide (t ∈ active) in
  let c := TYPE_COLORS t in
  let locked := on && bool_decide (length active = 1%nat) in
  Elem "button"
    ([("style", "pill");
      ("backgroundColor", if on then bg c else "transparent");
      ("color", if on then text c else "var(--text-muted)");
      ("borderColor", if on then border c else "var(--border-subtle)");
      ("opacity", if locked then "0.5" else "1");
      ("cursor", if locked then "not-allowed" else "pointer");
      ("disabled", if locked then "true" else "false")] ++
     (if locked then [("title", "At least one type must remain active")] else []))
    [("onClick", ToggleType t)] [Text (TYPE_LABELS t)].

Definition event_row (expanded : option string) (evt : KernelEvent) : view stream_action :=
  let open := bool_decide (expanded = Some (id evt)) in
  let slow := isSlow (durationUs evt) in
  let c := TYPE_COLORS (type evt) in
  Elem "div" [] [] (
    Elem "div"
      [("className", "stream-row " +:+ if open then "expanded" else "");
       ("borderLeft", if slow then "2px solid var(--accent)" else "2px solid transparent")]
      [("onClick", Expand (if open then None else Some (id evt)))]
      [span [("style", "td mono"); ("width", COL_ts); ("color", "var(--text-muted)"); ("fontSize", "0.68rem")]
         (timestamp evt);
       Elem "span" [("style", "td"); ("width", COL_type)] []
         [span [("style", "badge");
                ("backgroundColor", if slow then "var(--accent-dim)" else bg c);
                ("borderColor", if slow then "rgba(245,158,11,0.25)" else border c);
                ("color", if slow then "var(--accent)" else text c)] (TYPE_LABELS (type evt))];
       span [("style", "td mono"); ("width", COL_pid); ("color", "var(--text-muted)"); ("fontSize", "0.68rem")]
         (num_to_string (pid evt));
       span [("style", "td mono"); ("width", COL_cpu); ("color", "var(--text-muted)"); ("fontSize", "0.68rem")]
         (num_to_string (cpu evt));
       span [("style", "td mono"); ("width", COL_svc); ("color", "var(--text-secondary)"); ("fontSize", "0.7rem");
             ("overflow", "hidden"); ("textOverflow", "ellipsis"); ("whiteSpace", "nowrap")] (service evt);
       span [("style", "td"); ("flex", "1"); ("color", "var(--text-secondary)"); ("fontSize", "0.775rem");
             ("overflow", "hidden"); ("textOverflow", "ellipsis"); ("whiteSpace", "nowrap"); ("minWidth", "0")]
         (detail evt);
       span [("style", "td mono"); ("width", COL_dur); ("textAlign", "right"); ("fontSize", "0.68rem");
             ("color", if slow then "var(--accent)" else "var(--text-muted)");
             ("fontWeight", if slow then "600" else "400")] (fmtDur (durationUs evt))] ::
    when open
      [sdiv "expanded"
        [sdiv "expandedHeader"
          [sspan "expandedTitle" "event detail";
           Elem "button" [("style", "closeBtn"); ("aria-label", "Close detail")] [("onClick", Expand None)]
             [icon CloseIcon]];
         sdiv "expandedInner"
          [ExpandSection "event"
            (KV "type" (type_name (type evt)) false ++
             KV "pid" (num_to_string (pid evt)) false ++
             KV "tid" (num_to_string (tid evt)) false ++
             KV "cpu" (num_to_string (cpu evt)) false ++
             KV "timestamp" (timestamp evt) false ++
             KV "duration" (fmtDur (durationUs evt)) slow);
           sdiv "expandDiv" [];
           ExpandSection "context"
            (KV "service" (service evt) false ++ KV "detail" (detail evt) false);
           sdiv "expandDiv" [];
           ExpandSection "raw fields"
            (concat ((λ kv, KV kv.1 kv.2 false) <$> meta evt))]]]).

(** The filters and the controls. *)
Definition stream_toolbar (s : Stream) : view stream_action :=
  sdiv "toolbar"
    [sdiv "tlLeft" (sspan "filterLabel" "filter" :: (pill (activeTypes s) <$> EVENT_TYPES));
     sdiv "tlRight"
      [Elem "button" [("style", if paused s then "ctrlBtn ctrlBtnOn" else "ctrlBtn")]
         [("onClick", TogglePause)]
         [icon (if paused s then PlayIcon else PauseIcon); Text (if paused s then "resume" else "pause")];
       Elem "button" [("style", "ctrlBtn")] [("onClick", ClearEvents)] [icon ClearIcon; Text " clear"]]].

Definition stream_stats `{Locale} (s : Stream) : view stream_action :=
  sdiv "statsBar"
    ([Stat (toLocaleString (Z.of_nat (length (filtered s)))) "events" false; StatDiv;
      Stat (dec_of_Z (eps s)) "per sec" false; StatDiv;
      Stat (dec_of_nat (length (activeTypes s)) +:+ "/" +:+ dec_of_nat (length EVENT_TYPES))
        "types" false; StatDiv;
      Stat (if paused s then "paused" else "live") "stream" (paused s)] ++
     when (MAX_EVENTS - 20 <=? length (events s))%nat
      [StatDiv; Stat (dec_of_nat MAX_EVENTS +:+ " max") "buffer" true]).

(** The head of the table. *)
Definition stream_thead : view stream_action :=
  let th w label := span [("style", "th"); ("width", w)] label in
  sdiv "thead"
    [th COL_ts "timestamp"; th COL_type "type"; th COL_pid "pid"; th COL_cpu "cpu"; th COL_svc "service";
     span [("style", "th"); ("flex", "1")] "detail";
     span [("style", "th"); ("width", COL_dur); ("textAlign", "right")] "duration"].

Definition StreamPage `{Locale} (status : ConnectionStatus) (s : Stream) : view stream_action :=
  sdiv "root"
    [stream_toolbar s; stream_stats s; stream_thead;
     sdiv "tbody"
      (when (bool_decide (filtered s = []))
        [sdiv "empty"
          [Text (if decide (status = connected) then "waiting for kernel events"
                 else "event stream is disconnected")]] ++
       (event_row (expandedId s) <$> filtered s))].

(** ** The loop *)

Lemma handleNewEvent_events s e : events (handleNewEvent s e) = slice_last MAX_EVENTS (events s ++ [e]).
Proof.
  unfold handleNewEvent. simpl. destruct (Nat.ltb_spec MAX_EVENTS (length (events s ++ [e]))); [done|].
  by rewrite slice_last_all.
Qed.

Section stream.
Context `{Host}.

Lemma handle_message_eq s m :
  (length (events s) ≤ MAX_EVENTS)%nat →
  handle_message s m =
  mkStream (slice_last MAX_EVENTS (events s ++ decoded [m])) (paused s) (expandedId s)
    (activeTypes s) (eps s) (msg_id m) (eventCount s + Z.of_nat (length (decoded [m]))).
Proof.
  intros Hs. unfold handle_message, decoded. simpl. destruct (decode m) as [e|evt]; simpl.
  - rewrite app_nil_r, slice_last_all by done. by rewrite Z.add_0_r.
  - change (if (_ <? _)%nat then _ else _) with (events (handleNewEvent s evt)).
    by rewrite handleNewEvent_events.
Qed.

Lemma handle_messages l s :
  (length (events s) ≤ MAX_EVENTS)%nat →
  foldl handle_message s l =
  mkStream (slice_last MAX_EVENTS (events s ++ decoded l)) (paused s) (expandedId s)
    (activeTypes s) (eps s) (last_processed (processedMessage s) l)
    (eventCount s + Z.of_nat (length (decoded l))).
Proof.
  intros Hs. induction l as [|m l IH] using rev_ind; simpl.
  { rewrite app_nil_r, slice_last_all by done. rewrite Z.add_0_r. by destruct s. }
  rewrite foldl_app, IH. simpl foldl. rewrite handle_message_eq by apply slice_last_le.
  cbn [events paused expandedId activeTypes eps processedMessage eventCount].
  rewrite slice_last_app, decoded_app, last_processed_snoc, length_app, app_assoc.
  f_equal. lia.
Qed.

(** C32: what a run of the table's effect does.  Its loop, which decodes one message
    after the other and cuts the list after each, comes to the same as one append:
    paused, nothing; otherwise the events decoded from the messages past the last
    processed one are appended in order, the newest 500 kept and all of them counted
    for the rate, malformed messages are passed over, and the last message becomes
    the last processed.  The list is supposed to have no more than its 500 entries,
    as it always has. *)
Theorem consume_spec msgs s :
  (length (events s) ≤ MAX_EVENTS)%nat →
  let l := pending (processedMessage s) msgs in
  consume msgs s =
    if paused s then s
    else mkStream (slice_last 500 (events s ++ decoded l)) (paused s) (expandedId s)
           (activeTypes s) (eps s) (last_processed (processedMessage s) l)
           (eventCount s + Z.of_nat (length (decoded l))).
Proof.
  intros Hs. simpl. unfold consume. destruct (paused s) eqn:E; [done|].
  rewrite handle_messages by done. by rewrite E.
Qed.

(** ** The invariant *)

Definition stream_ok (s : Stream) : Prop :=
  (length (events s) ≤ MAX_EVENTS)%nat ∧ Forall wf_event (events s) ∧
  activeTypes s ≠ [] ∧ NoDup (activeTypes s).

(** An open row is one of the rows shown. *)
Definition expanded_shown (s : Stream) : Prop :=
  match expandedId s with
  | Some i => i = "" ∨ ∃ e, e ∈ filtered s ∧ id e = i
  | None => True
  end.

Lemma close_hidden_shown s : expanded_shown (close_hidden s).
Proof.
  unfold close_hidden, expanded_shown. destruct (expandedId s) as [i|] eqn:E; [|by rewrite E].
  destruct (_ && _) eqn:Eb; simpl; [done|]. rewrite E.
  apply andb_false_iff in Eb as [Eb|Eb].
  - left. apply bool_decide_eq_false in Eb. by apply dec_stable.
  - right. apply negb_false_iff, existsb_exists in Eb as (e & He & Hi).
    exists e. rewrite list_elem_of_In. split; [done|]. by apply bool_decide_eq_true in Hi.
Qed.

Lemma toggle_in_ok t l : l ≠ [] → NoDup l → toggle_in t l ≠ [] ∧ NoDup (toggle_in t l).
Proof.
  intros Hl Hn. unfold toggle_in. case_decide as Ht; [case_decide as H1|].
  - done.
  - split; [|by apply NoDup_filter]. intros Hf.
    assert (∀ x, x ∈ l → x = t) as Hall.
    { intros x Hx. destruct (decide (x = t)) as [|Hne]; [done|]. exfalso.
      assert (x ∈ filter (λ t', t' ≠ t) l) as Hin by by apply list_elem_of_filter.
      rewrite Hf in Hin. by apply elem_of_nil in Hin. }
    destruct l as [|a [|b l]]; [done..|]. apply NoDup_cons in Hn as [Hab _]. apply Hab.
    rewrite (Hall a), (Hall b) by (rewrite !elem_of_cons; auto). by left.
  - split; [by destruct l|]. by apply NoDup_snoc.
Qed.

Lemma close_hidden_fields s :
  events (close_hidden s) = events s ∧ activeTypes (close_hidden s) = activeTypes s.
Proof. unfold close_hidden. by repeat case_match. Qed.

Lemma stream_apply_ok s a : stream_ok s → stream_ok (stream_apply s a).
Proof.
  intros (Hl & Hw & Hn & Hd). destruct a; try done.
  - destruct (toggle_in_ok t (activeTypes s) Hn Hd). by split_and!.
  - split_and!; simpl; try done. lia.
Qed.

Lemma commit_ok msgs s : stream_ok s → stream_ok (commit msgs s).
Proof.
  intros (Hl & Hw & Hn & Hd). unfold commit.
  destruct (close_hidden_fields s) as [E1 E2].
  destruct (close_hidden_fields (consume msgs (close_hidden s))) as [E3 E4].
  unfold stream_ok. rewrite E3, E4. unfold consume. destruct (paused _); [by rewrite E1, E2|].
  rewrite handle_messages by (by rewrite E1). simpl. rewrite E1, E2. split_and!; try done.
  - apply slice_last_le.
  - apply slice_last_Forall, Forall_app. split; [done|]. apply decoded_wf.
Qed.

Lemma mock_tick_ok status evt s : wf_event evt → stream_ok s → stream_ok (mock_tick status evt s).
Proof.
  intros He (Hl & Hw & Hn & Hd). unfold mock_tick. destruct (_ || _); [done|].
  unfold stream_ok. rewrite handleNewEvent_events. split_and!; try done.
  - apply slice_last_le.
  - apply slice_last_Forall, Forall_app. split; [done|]. by apply Forall_singleton.
Qed.

Lemma stream_initial_ok : stream_ok stream_initial.
Proof. split_and!; simpl; [lia|constructor|done|apply EVENT_TYPES_NoDup]. Qed.

Inductive stream_reachable : Stream → Prop :=
  | stream_start msgs : stream_reachable (commit msgs stream_initial)
  | stream_act s a msgs :
      stream_reachable s → stream_reachable (commit msgs (stream_apply s a))
  | stream_mock s status evt msgs :
      stream_reachable s → wf_event evt → stream_reachable (commit msgs (mock_tick status evt s)).

Lemma stream_reachable_ok s : stream_reachable s → stream_ok s.
Proof. induction 1; auto using commit_ok, stream_apply_ok, mock_tick_ok, stream_initial_ok. Qed.

(** Whatever the user does and whatever arrives, the table holds at most 500
    events, all of them well-formed; at least one type stays active, none twice;
    and the row shown open, if any, is one of the rows that pass the filter. *)
Lemma stream_invariant s :
  stream_reachable s →
  (length (events s) ≤ 500)%nat ∧ Forall wf_event (events s) ∧
  activeTypes s ≠ [] ∧ NoDup (activeTypes s) ∧ expanded_shown s.
Proof.
  intros Hs. destruct (stream_reachable_ok s Hs) as (?&?&?&?). split_and!; try done.
  destruct Hs; apply close_hidden_shown.
Qed.
End stream.

(** ** What the page offers *)

Lemma toggle_in_changes t l : toggle_in t l ≠ l ↔ ¬ (t ∈ l ∧ length l = 1%nat).
Proof.
  unfold toggle_in. case_decide as Ht; [case_decide as H1|].
  - naive_solver.
  - split; [naive_solver|]. intros _ Hf. rewrite <-Hf in Ht.
    by apply list_elem_of_filter in Ht as [? _].
  - split; [naive_solver|]. intros _ Hf. apply (f_equal length) in Hf.
    rewrite length_app in Hf. simpl in Hf. lia.
Qed.

Lemma pill_fires active t :
  fires (pill active t) =
  if decide (t ∈ active ∧ length active = 1%nat) then [] else [ToggleType t].
Proof.
  unfold pill. rewrite fires_Elem. unfold all_of. simpl concat. rewrite app_nil_r.
  destruct (decide (t ∈ active ∧ _)) as [[Ht Hl]|Hn].
  - rewrite !bool_decide_eq_true_2 by done. cbn [andb]. rewrite decide_True; [done|].
    apply elem_of_app. left. do 6 right. left.
  - assert (bool_decide (t ∈ active) && bool_decide (length active = 1%nat) = false) as ->.
    { apply not_true_iff_false. intros Hb. bool_to_prop. tauto. }
    rewrite decide_False; [done|]. rewrite app_nil_r.
    intros Hin. repeat (apply elem_of_cons in Hin as [Hin|Hin]; [by simplify_eq|]).
    by apply elem_of_nil in Hin.
Qed.

(** Actions other than filter toggles. *)
Definition not_toggle (a : stream_action) : Prop := match a with ToggleType _ => False | _ => True end.

Lemma fires_ExpandSection {A} l (k : list (view A)) : fires (ExpandSection l k) = all_of fires k.
Proof. unfold ExpandSection. by autorewrite with view. Qed.

Lemma fires_Stat {A} n l b : fires (@Stat A n l b) = [].
Proof. unfold Stat. by autorewrite with view. Qed.

Lemma fires_StatDiv {A} : fires (@StatDiv A) = [].
Proof. done. Qed.

#[export] Hint Rewrite @fires_ExpandSection @fires_Stat @fires_StatDiv : view.

Lemma event_row_fires o e : Forall not_toggle (fires (event_row o e)).
Proof.
  unfold event_row. set (open := bool_decide _). clearbody open.
  rewrite fires_quiet, all_of_cons. apply Forall_app. split.
  - rewrite fires_Elem. apply Forall_app. split; [case_decide; by repeat constructor|].
    autorewrite with view. constructor.
  - destruct open; [|constructor]. simpl when. autorewrite with view.
    rewrite fires_Elem. apply Forall_app. split; [case_decide; by repeat constructor|constructor].
Qed.

Lemma pills_fire active t :
  ToggleType t ∈ all_of fires (pill active <$> EVENT_TYPES) ↔ ¬ (t ∈ active ∧ length active = 1%nat).
Proof.
  rewrite elem_of_all. split.
  - intros (t' & _ & Ht). rewrite pill_fires in Ht.
    case_decide as Hd; [by apply elem_of_nil in Ht|]. apply list_elem_of_singleton in Ht.
    by simplify_eq.
  - intros Hn. exists t. split; [apply EVENT_TYPES_complete|].
    rewrite pill_fires, decide_False by done. by left.
Qed.

Lemma rows_fire o l a : a ∈ all_of fires (event_row o <$> l) → not_toggle a.
Proof.
  intros (e & _ & Ha)%elem_of_all. pose proof (event_row_fires o e) as Hf.
  rewrite Forall_forall in Hf. by apply Hf.
Qed.

(** A filter pill can be pressed exactly when pressing it changes the filter:
    the last active type is locked, and the page offers no other way to reach an
    empty filter. *)
Theorem pills_offered `{Locale} status s t :
  ToggleType t ∈ fires (StreamPage status s) ↔ toggle_in t (activeTypes s) ≠ activeTypes s.
Proof.
  rewrite toggle_in_changes. unfold StreamPage, stream_toolbar, stream_stats, stream_thead. cbv zeta.
  autorewrite with view. rewrite !elem_of_app, pills_fire. split; [|by auto].
  intros [[?|Hb]|[Hb|[Hb|Hb]]]; [done|exfalso..].
  - by destruct Hb as [Hb|Hb]; apply list_elem_of_singleton in Hb.
  - case_match; by apply elem_of_nil in Hb.
  - case_match; by apply elem_of_nil in Hb.
  - by apply rows_fire in Hb.
Qed.

(** ** Witnesses *)

Definition sample_messages : list ConnectionMessage :=
  [mkMsg 1 (jtext "{'timestampNs':1000,'eventType':'tcp_send'}"); mkMsg 2 "not json";
   mkMsg 3 (jtext "{'timestampNs':5}");
   mkMsg 4 (jtext "{'timestampNs':2000,'eventType':'sys_write','eventId':'evt-1'}")].

Lemma consume_spec_witness :
  id <$> events (consume (H := utc) sample_messages stream_initial) = ["ws-1"; "evt-1"] ∧
  processedMessage (consume (H := utc) sample_messages stream_initial) = 4.
Proof.
  rewrite (consume_spec (H := utc) sample_messages stream_initial) by (simpl; lia).
  vm_compute. by split.
Defined.

Definition sample_stream : Stream :=
  commit (H := utc) sample_messages
    (stream_apply (commit (H := utc) sample_messages stream_initial) (Expand (Some "evt-1"))).

Lemma stream_invariant_witness :
  expandedId sample_stream = Some "evt-1" ∧ expanded_shown sample_stream.
Proof.
  split; [vm_compute; reflexivity|].
  destruct (stream_invariant (H := utc) sample_stream) as (_ & _ & _ & _ & Hx);
    [apply stream_act, stream_start|exact Hx].
Defined.
