(* ===== verification/Settings.v ===== *)
(** * pages/Settings.tsx: the settings page

    What the page stores and loads, its handlers and what it renders.  The
    settings are the untyped value the code handles: what was parsed from
    localStorage or answered by the server, spread over and updated by key. *)

From S2P Require Import Prelude JsNumber JsString Json JsonRoundtrip Events View Icons.
Open Scope Z_scope.

Definition object := list (string * jsval).

Definition DEFAULTS : object :=
  [("version", JNum (of_Z 1)); ("apiHost", JStr "localhost"); ("apiPort", JStr "8081");
   ("wsReconnect", JBool true); ("theme", JStr "dark"); ("timestampFormat", JStr "absolute");
   ("maxStreamEvents", JNum (of_Z 500)); ("maxGraphNodes", JNum (of_Z 40));
   ("retentionDays", JNum (of_Z 7)); ("autoExport", JBool false);
   ("exportPath", JStr "/var/log/kprobe/exports"); ("probeOverhead", JStr "standard")].

Definition STORAGE_KEY : string := "kprobe_settings".

(** The properties a spread [...v] copies. *)
Definition spread (v : jsval) : object :=
  match v with
  | JObj o => o
  | JArr l => imap (λ i x, (dec_of_nat i, x)) l
  | JStr s => imap (λ i u, (dec_of_nat i, JStr (of_u16 [u]))) (to_u16 s)
  | _ => []
  end.

(** [{ ...a, ...b }]. *)
Definition merge (a b : object) : object := foldl (λ m kv, map_set kv.1 kv.2 m) a b.

(** [parsed.version !== DEFAULTS.version], negated. *)
Definition same_version (v : jsval) : bool :=
  match v with JNum x => neqb x (of_Z 1) | _ => false end.

(** [raw] is what reading the storage gives: the text under [STORAGE_KEY], or
    null, or an exception. *)
Definition loadFromStorage (raw : result (option string)) : jsval :=
  match raw with
  | Return (Some text) =>
      if decide (text = "") then JObj DEFAULTS
      else match (parsed ← json_parse text; v ← get parsed "version"; Some (parsed, v)) with
           | Some (parsed, v) =>
               if same_version v then JObj (merge DEFAULTS (spread parsed)) else JObj DEFAULTS
           | None => JObj DEFAULTS
           end
  | _ => JObj DEFAULTS
  end.

(** What the storage holds after [saveToStorage]; [ok] is false when the quota is
    exceeded. *)
Definition saveToStorage (ok : bool) (s : jsval) (stored : option string) : option string :=
  if ok then Some (default "undefined" (stringify s)) else stored.

Definition SHORTCUTS : list (list string * string) :=
  [(["⌘"; "K"], "Search"); (["G"], "Go to Graph"); (["S"], "Go to Stream");
   (["T"], "Go to Timeline"); (["R"], "Go to Replay"); (["Space"], "Play / pause replay");
   (["←"], "Step back (replay)"); (["→"], "Step forward (replay)");
   (["Esc"], "Deselect / close panel"); (["scroll"], "Zoom timeline");
   (["⌘"; "shift"; "C"], "Clear current view")].

(** ** The page *)

Record SettingsState := mkSettings {
  settings : jsval;
  saved : bool;
  stored : option string;      (* localStorage under [STORAGE_KEY] *)
  saved_timers : nat;          (* pending timers that take the mark away *)
  data_theme : string          (* the attribute of the document *)
}.

Definition settings_initial (stored : option string) (theme : string) : SettingsState :=
  mkSettings (loadFromStorage (Return stored)) false stored 0 theme.

(** The effect's answer: whatever JSON the server sent; [None] when the request
    or the parsing fails. *)
Definition settings_fetched (ok : bool) (data : option jsval) (s : SettingsState) : SettingsState :=
  match data with
  | Some d => mkSettings d (saved s) (saveToStorage ok d (stored s)) (saved_timers s) (data_theme s)
  | None => s
  end.

(** [set(key, value)]. *)
Definition set_key (key : string) (value : jsval) (s : SettingsState) : SettingsState :=
  mkSettings (JObj (map_set key value (spread (settings s)))) false (stored s) (saved_timers s)
    (data_theme s).

(** [handleSave] up to the request, and once it is over, however it ended. *)
Definition handleSave (ok : bool) (s : SettingsState) : SettingsState :=
  mkSettings (settings s) (saved s) (saveToStorage ok (settings s) (stored s)) (saved_timers s)
    (data_theme s).

Definition save_done (s : SettingsState) : SettingsState :=
  mkSettings (settings s) true (stored s) (S (saved_timers s)) (data_theme s).

Definition saved_timer (s : SettingsState) : SettingsState :=
  mkSettings (settings s) false (stored s) (Nat.pred (saved_timers s)) (data_theme s).

Definition handleReset (s : SettingsState) : SettingsState :=
  mkSettings (JObj DEFAULTS) false None (saved_timers s) (data_theme s).

Definition isDirty (s : SettingsState) : bool :=
  negb (bool_decide (stringify (settings s) = stringify (JObj DEFAULTS))).

(** The theme buttons also set the attribute; [isDark] is the media query. *)
Definition set_theme (isDark : bool) (v : string) (s : SettingsState) : SettingsState :=
  let s := set_key "theme" (JStr v) s in
  mkSettings (settings s) (saved s) (stored s) (saved_timers s)
    (if decide (v = "system") then if isDark then "dark" else "light" else v).

Inductive settings_action :=
  | SetKey (key : string) (value : jsval) | SetTheme (v : string)
  | Save | Reset.

Inductive settings_event :=
  | User (a : settings_action) (isDark ok : bool)
  | Fetched (ok : bool) (data : option jsval)
  | SaveDone
  | SavedTimer.

Definition settings_apply (s : SettingsState) (e : settings_event) : SettingsState :=
  match e with
  | User (SetKey k v) _ _ => set_key k v s
  | User (SetTheme v) isDark _ => set_theme isDark v s
  | User Save _ ok => handleSave ok s
  | User Reset _ _ => handleReset s
  | Fetched ok data => settings_fetched ok data s
  | SaveDone => save_done s
  | SavedTimer => saved_timer s
  end.

(** ** Rendering *)

Definition getActiveHooks (mode : string) : list string :=
  let minimal := ["tcp_send"; "tcp_recv"; "sys_write"] in
  let standard := minimal ++ ["sys_read"; "sched_switch"; "page_fault"] in
  let verbose := standard ++ ["sys_open"; "sys_close"; "sys_mmap"; "tcp_connect"; "tcp_disconnect"] in
  if decide (mode = "minimal") then minimal
  else if decide (mode = "standard") then standard else verbose.

Definition overheadLabel (mode : string) : string :=
  if decide (mode = "minimal") then "< 0.5% CPU"
  else if decide (mode = "standard") then "0.5–1.5% CPU" else "1.5–3% CPU".

Definition overheadColor (mode : string) : string :=
  if decide (mode = "minimal") then "var(--text-muted)"
  else if decide (mode = "standard") then "var(--accent)" else "var(--text-primary)".

Definition page_view := view settings_action.

Definition SettingsSection (title subtitle : string) (children : list page_view) : page_view :=
  sdiv "section"
    [sdiv "sectionHead"
       (sspan "sectionTitle" title :: when (bool_decide (subtitle ≠ "")) [sspan "sectionSub" subtitle]);
     sdiv "sectionBody" children].

Definition Row (label sub : string) (children : list page_view) : page_view :=
  sdiv "row"
    [sdiv "rowMeta" (sspan "rowLabel" label :: when (bool_decide (sub ≠ "")) [sspan "rowSub" sub]);
     sdiv "rowControl" children].

Definition Divider : page_view := sdiv "divider" [].

Definition Toggle (value : bool) (onChange : bool → settings_action) : page_view :=
  let on := if value then "on" else "" in
  Elem "button" [("className", "settings-toggle " +:+ on)] [("onClick", onChange (negb value))]
    [Elem "div" [("className", "settings-toggle-thumb " +:+ on)] [] []].

(** The label of every option is its value. *)
Definition SegControl (options : list string) (value : string) (onChange : string → settings_action) :
    page_view :=
  sdiv "seg"
    ((λ opt, Elem "button" [("className", "settings-seg-btn " +:+ if decide (value = opt) then "on" else "")]
               [("onClick", onChange opt)] [Text opt]) <$> options).

Definition AboutRow (k v : string) (link : bool) : list page_view :=
  [sspan "aboutKey" k;
   if link then Elem "a" [("href", "https://" +:+ v); ("target", "_blank"); ("rel", "noreferrer");
                          ("style", "aboutLink")] [] [Text v]
   else sspan "aboutVal" v].

Definition CheckIcon : drawing := mkDrawing "11"
  [("path", [("d", "M2 5.5l2.5 2.5 4.5-5"); ("stroke", "currentColor"); ("strokeWidth", "1.5"); ("strokeLinecap", "square"); ("strokeLinejoin", "miter")])].

(** Reading the settings at their declared types. *)
Definition str (o : object) (k : string) : string :=
  match prop o k with JStr s => s | _ => "" end.
Definition flag (o : object) (k : string) : bool := truthy (prop o k).
Definition number (o : object) (k : string) : num :=
  match prop o k with JNum x => x | _ => NaN end.

(** A text field; the handler is that of an unchanged text. *)
Definition text_field (o : object) (key width : string) : page_view :=
  Elem "input" [("className", "settings-input"); ("width", width); ("value", str o key); ("spellCheck", "false")] [("onChange", SetKey key (JStr (str o key)))] [].

Definition range_field (o : object) (key : string) (min max step : Z) (shown : string) : page_view :=
  sdiv "numRow"
    [Elem "input" [("className", "settings-slider"); ("type", "range"); ("min", dec_of_Z min); ("max", dec_of_Z max); ("step", dec_of_Z step);
                   ("value", num_to_string (number o key))]
       [("onChange", SetKey key (JNum (number o key)))] [];
     sspan "numVal" shown].

Definition header (dirty isSaved : bool) : page_view :=
  sdiv "header"
    [Elem "div" [] []
       [sdiv "headerTitle" [Text "settings"];
        sdiv "headerSub" [Text "console configuration · local fallback enabled"]];
     sdiv "headerActions"
       (when dirty [Elem "button" [("className", "settings-btn")] [("onClick", Reset)] [Text "reset to defaults"]] ++
        [Elem "button" [("className", "settings-btn " +:+ if isSaved then "success" else "primary")]
           [("onClick", Save)]
           (if isSaved then [icon CheckIcon; Text " saved"] else [Text "save changes"])])].

Definition connection_section (o : object) : page_view :=
  SettingsSection "connection" "API server and WebSocket configuration"
    [Row "API host" "Go gRPC/WebSocket server address" [text_field o "apiHost" "180px"];
     Row "API port" "HTTP/WebSocket default: 8081" [text_field o "apiPort" "80px"];
     Row "WebSocket URL" "Derived from host and port"
       [sspan "derived" ("ws://" +:+ str o "apiHost" +:+ ":" +:+ str o "apiPort" +:+ "/ws")];
     Row "Auto-reconnect" "Reconnect with exponential backoff on disconnect"
       [Toggle (flag o "wsReconnect") (λ v, SetKey "wsReconnect" (JBool v))]].

Definition display_section `{Locale} (o : object) : page_view :=
  SettingsSection "display" "Visual preferences for the console"
    [Row "Theme" "Interface colour scheme"
       [SegControl ["dark"; "light"; "system"] (str o "theme") SetTheme];
     Row "Timestamp format" "How event timestamps are displayed"
       [SegControl ["absolute"; "relative"; "nanosecond"] (str o "timestampFormat")
          (λ v, SetKey "timestampFormat" (JStr v))];
     Row "Max stream events" "Buffer size for the live event stream"
       [range_field o "maxStreamEvents" 100 2000 100
          (match number o "maxStreamEvents" with Fin m => toLocaleString (m / one) | x => num_to_string x end)];
     Row "Max graph nodes" "Node limit for the causal graph view"
       [range_field o "maxGraphNodes" 10 200 10 (num_to_string (number o "maxGraphNodes"))]].

Definition data_section (o : object) : page_view :=
  SettingsSection "data" "Event retention and export settings"
    ([Row "Retention window" "How long raw events are kept in ClickHouse"
        [range_field o "retentionDays" 1 90 1 (num_to_string (number o "retentionDays") +:+ "d")];
      Row "Auto-export incidents" "Write incident snapshots to disk on detection"
        [Toggle (flag o "autoExport") (λ v, SetKey "autoExport" (JBool v))]] ++
     when (flag o "autoExport")
       [Row "Export path" "Directory for incident snapshot files" [text_field o "exportPath" "260px"]]).

Definition overhead_section (o : object) : page_view :=
  let mode := str o "probeOverhead" in
  SettingsSection "probe overhead" "eBPF capture verbosity — affects CPU usage on monitored nodes"
    [Row "Capture mode" "Controls which kernel hooks are active"
       [SegControl ["minimal"; "standard"; "verbose"] mode (λ v, SetKey "probeOverhead" (JStr v))];
     Row "Active hooks" "Kernel tracepoints enabled at current mode" 
       [sdiv "hookList" (span [("style", "hookBadge")] <$> getActiveHooks mode)];
     Row "Estimated overhead" "Approximate CPU overhead per node"
       [span [("style", "derived"); ("color", overheadColor mode)] (overheadLabel mode)]].

Definition shortcuts_section : page_view :=
  SettingsSection "keyboard shortcuts" "Global hotkeys — active across all views"
    [sdiv "shortcutGrid"
      ((λ sc : list string * string,
          sdiv "shortcutRow"
            [sspan "shortcutLabel" sc.2;
             sdiv "shortcutKeys" ((λ k, Elem "kbd" [("style", "kbd")] [] [Text k]) <$> sc.1)])
       <$> SHORTCUTS)].

Definition about_section : page_view :=
  SettingsSection "about" ""
    [sdiv "aboutGrid"
      (AboutRow "version" "0.1.0-dev" false ++ AboutRow "build" "phase-4-console" false ++
       AboutRow "go version" "1.24.1" false ++ AboutRow "rust" "1.77 (aya)" false ++
       AboutRow "node" "20.x" false ++ AboutRow "repository" "github.com/YHQZ1/kprobe" true)].

(** The page on settings of the declared type. *)
Definition SettingsPage `{Locale} (s : SettingsState) : page_view :=
  let o := spread (settings s) in
  sdiv "root"
    [header (isDirty s) (saved s);
     sdiv "body"
      [connection_section o; Divider; display_section o; Divider; data_section o; Divider;
       overhead_section o; Divider; shortcuts_section; Divider; about_section;
       Elem "div" [("height", "3rem")] [] []]].

(** ** Loading *)

Definition setting_keys : list string := DEFAULTS.*1.

Lemma setting_keys_ok : Forall (λ k, utf8_ok k = true ∧ index_key k = None) setting_keys ∧ NoDup setting_keys.
Proof. split; [by repeat constructor|by apply (bool_decide_unpack _)]. Qed.

(** Settings of the declared shape: every key, in order, with a primitive value,
    and the current version. *)
Definition well_shaped (v : jsval) : Prop :=
  ∃ o, v = JObj o ∧ o.*1 = setting_keys ∧ Forall primitive o.*2 ∧ prop o "version" = JNum (of_Z 1).

Lemma map_set_at (p : object) k (v v' : jsval) s :
  k ∉ p.*1 → map_set k v (p ++ (k, v') :: s) = p ++ (k, v) :: s.
Proof.
  induction p as [|[k0 v0] p IH]; simpl; [by rewrite decide_True|].
  rewrite not_elem_of_cons. intros [Hk Hp]. rewrite decide_False by done. by rewrite IH.
Qed.

Lemma merge_same_keys (a b : object) : a.*1 = b.*1 → NoDup b.*1 → merge a b = b.
Proof.
  unfold merge. intros Hk Hn.
  assert (∀ p a b, a.*1 = b.*1 → NoDup (p.*1 ++ b.*1) →
    foldl (λ m (kv : string * jsval), map_set kv.1 kv.2 m) (p ++ a) b = p ++ b) as Hgen.
  { clear. intros p a b. revert p a. induction b as [|[k v] b IH]; intros p [|[k' v'] a] Hk Hn; try done.
    injection Hk as -> Hk. cbn [foldl fst snd].
    apply NoDup_app in Hn as Hn'. destruct Hn' as (_ & Hd & _).
    rewrite map_set_at by (intros Hin; apply (Hd _ Hin); left).
    change (p ++ (k, v) :: a) with (p ++ [(k, v)] ++ a). rewrite app_assoc.
    rewrite IH; [by rewrite <-app_assoc|done|].
    by rewrite fmap_app, <-app_assoc. }
  by apply (Hgen [] a b).
Qed.

Lemma merge_keys (a b : object) k : k ∈ (merge a b).*1 ↔ k ∈ a.*1 ∨ k ∈ b.*1.
Proof.
  unfold merge. revert a. induction b as [|[k' v] b IH]; intros a; simpl; [by rewrite elem_of_nil; tauto|].
  rewrite IH, map_set_keys, elem_of_cons. tauto.
Qed.

Lemma save_parses o :
  o.*1 = setting_keys → Forall primitive o.*2 →
  ∃ t, stringify (JObj o) = Some t ∧ json_parse t = Some (JObj o).
Proof.
  intros Hk Hp. destruct setting_keys_ok as [Hkeys Hn]. apply json_flat_roundtrip; [|by rewrite Hk].
  rewrite Forall_fmap in Hp. apply Forall_forall. intros kv Hin.
  rewrite Forall_forall in Hkeys. rewrite Forall_forall in Hp. destruct (Hkeys kv.1) as [Ha Hi].
  { rewrite <-Hk. by apply list_elem_of_fmap_2. }
  split_and!; [done..|by apply Hp].
Qed.

Lemma load_save o :
  o.*1 = setting_keys → Forall primitive o.*2 → prop o "version" = JNum (of_Z 1) →
  ∃ t, stringify (JObj o) = Some t ∧ loadFromStorage (Return (Some t)) = JObj o.
Proof.
  intros Hk Hp Hv. destruct (save_parses o Hk Hp) as (t & Ht & Hparse).
  destruct setting_keys_ok as [_ Hn]. exists t. split; [done|]. cbn [loadFromStorage].
  destruct (decide (t = "")) as [->|]; [by vm_compute in Hparse|].
  rewrite Hparse. cbn [mbind option_bind get]. rewrite Hv. cbn [same_version].
  assert (neqb (of_Z 1) (of_Z 1) = true) as -> by reflexivity.
  cbn [spread]. by rewrite merge_same_keys by (rewrite Hk; done).
Qed.

Lemma DEFAULTS_shaped : well_shaped (JObj DEFAULTS).
Proof.
  exists DEFAULTS. split_and!; [done..| |done]. unfold DEFAULTS. cbn [fmap list_fmap snd].
  repeat (apply Forall_cons; split; [first [done|by eexists; split; [reflexivity|lia]]|]). apply Forall_nil_2.
Qed.

Lemma map_set_replace (o : object) k v : k ∈ o.*1 → (map_set k v o).*1 = o.*1.
Proof.
  induction o as [|[k0 v0] o IH]; simpl; [by intros ?%elem_of_nil|].
  rewrite elem_of_cons. intros Hk. case_decide; [by subst|]. simpl. f_equal. naive_solver.
Qed.

Lemma map_set_values (P : jsval → Prop) (o : object) k v : P v → Forall P o.*2 → Forall P (map_set k v o).*2.
Proof.
  intros Hv. induction o as [|[k0 v0] o IH]; simpl; intros Ho; [by apply Forall_singleton|].
  apply Forall_cons in Ho as [? ?]. case_decide; simpl; apply Forall_cons; auto.
Qed.

Lemma prop_set_ne (o : object) k k' v : k ≠ k' → prop (map_set k v o) k' = prop o k'.
Proof.
  intros Hk. unfold prop. f_equal. induction o as [|[k0 v0] o IH]; simpl; [by rewrite decide_False|].
  repeat (case_decide; simpl); try done; congruence.
Qed.

Lemma set_key_shaped k v s :
  well_shaped (settings s) → k ∈ setting_keys → k ≠ "version" → primitive v →
  well_shaped (settings (set_key k v s)).
Proof.
  intros (o & Ho & Hk & Hp & Hv) Hin Hne Hpv. unfold set_key. cbn [settings]. rewrite Ho. cbn [spread].
  exists (map_set k v o). split_and!; [done|..].
  - rewrite map_set_replace; [done|]. by rewrite Hk.
  - by apply map_set_values.
  - by rewrite prop_set_ne.
Qed.

(** What can happen to the page when the fields hold well-formed text and integers
    of 64 bits, and the server answers settings of the declared shape. *)
Definition expected (e : settings_event) : Prop :=
  match e with
  | User (SetKey k v) _ _ => k ∈ setting_keys ∧ k ≠ "version" ∧ primitive v
  | User (SetTheme v) _ _ => utf8_ok v = true
  | Fetched _ (Some d) => well_shaped d
  | _ => True
  end.

Lemma settings_apply_shaped s e :
  well_shaped (settings s) → expected e → well_shaped (settings (settings_apply s e)).
Proof.
  intros Hs. destruct e as [[k v|v| |] isDark ok|ok [d|]| |]; simpl; intros He; try done.
  - destruct He as (? & ? & ?). by apply set_key_shaped.
  - apply set_key_shaped; [done|by apply (bool_decide_unpack _)|done|done].
  - apply DEFAULTS_shaped.
Qed.

(** C29: saved settings are the settings loaded next time.  When what the page loaded
    at first has the declared shape (as an empty storage gives), then after any
    edits, theme changes, saves, resets and answers of the server, as long as the
    texts are well-formed and the server's answers have the declared shape, saving
    writes a text from which [loadFromStorage] gets exactly the settings shown. *)
Theorem settings_saved_are_loaded raw theme es :
  well_shaped (loadFromStorage (Return raw)) → Forall expected es →
  let s := foldl settings_apply (settings_initial raw theme) es in
  loadFromStorage (Return (stored (handleSave true s))) = settings s.
Proof.
  intros Hraw Hes. assert (∀ s0, well_shaped (settings s0) → well_shaped (settings (foldl settings_apply s0 es))) as Hf.
  { clear Hraw. induction Hes as [|e es He _ IH]; intros s0 Hs0; [done|].
    apply IH. by apply settings_apply_shaped. }
  destruct (Hf (settings_initial raw theme) Hraw) as (o & Ho & Hk & Hp & Hv). simpl. rewrite Ho.
  destruct (load_save o Hk Hp Hv) as (t & Ht & Hl). unfold saveToStorage. by rewrite Ht.
Qed.

(** Whatever the storage holds, the page starts.  A storage that throws, holds
    nothing or an empty text, text that is not JSON, null, or settings of another
    version give the defaults; anything else is laid over them, so every key is
    there and the version is the current one. *)
Theorem load_total raw :
  ∃ o, loadFromStorage raw = JObj o ∧ (∀ k, k ∈ setting_keys → k ∈ o.*1) ∧
    (o = DEFAULTS ∨ ∃ text parsed v, raw = Return (Some text) ∧ json_parse text = Some parsed ∧
       get parsed "version" = Some v ∧ same_version v = true ∧ o = merge DEFAULTS (spread parsed)).
Proof.
  destruct raw as [|[text|]]; [by exists DEFAULTS; auto| |by exists DEFAULTS; auto].
  cbn [loadFromStorage]. destruct (decide (text = "")); [by exists DEFAULTS; auto|].
  destruct (json_parse text) as [parsed|] eqn:Ep; [|by exists DEFAULTS; auto]. cbn [mbind option_bind].
  destruct (get parsed "version") as [v|] eqn:Ev; cbn [mbind option_bind]; [|by exists DEFAULTS; auto].
  destruct (same_version v) eqn:Es; [|by exists DEFAULTS; auto].
  eexists. split; [done|]. split; [|right; by exists text, parsed, v].
  intros k Hk. apply merge_keys. by left.
Qed.

(** ** Witness *)

Lemma settings_saved_are_loaded_witness :
  let s := foldl settings_apply (settings_initial None "dark")
             [User (SetKey "apiHost" (JStr "probe-1")) false true; User (SetTheme "light") false true] in
  prop (spread (settings s)) "apiHost" = JStr "probe-1" ∧
  loadFromStorage (Return (stored (handleSave true s))) = settings s.
Proof.
  split; [reflexivity|]. apply (settings_saved_are_loaded None "dark"); [exact DEFAULTS_shaped|].
  repeat (apply Forall_cons; split); [|done|apply Forall_nil_2].
  split; [by apply (bool_decide_unpack _)|by split].
Defined.
