(* ===== verification/SettingsServer.v ===== *)
(** * api/handlers/settings.go, and the settings page with it

    The server keeps one [Settings] struct, in memory, behind a lock: a request is
    one step.  The page's body is JSON.stringify of its settings, and what does not
    fit a mebibyte is refused.  [decode] is json.Decoder with DisallowUnknownFields
    on a body: a missing or null key leaves the
    zero value, a key matches in any case, and an int takes a number printed
    without fraction or exponent.  [Deployment] composes the page with the server,
    with the requests that are under way. *)

From S2P Require Import Prelude JsNumber JsString Json JsonRoundtrip Events View Settings.
Open Scope Z_scope.

Record ServerSettings := mkServer {
  Version : Z;
  APIHost : string;
  APIPort : string;
  WSReconnect : bool;
  Theme : string;
  TimestampFormat : string;
  MaxStreamEvents : Z;
  MaxGraphNodes : Z;
  RetentionDays : Z;
  AutoExport : bool;
  ExportPath : string;
  ProbeOverhead : string
}.

Definition zero_settings : ServerSettings := mkServer 0 "" "" false "" "" 0 0 0 false "" "".

Definition defaultSettings : ServerSettings :=
  mkServer 1 "localhost" "8081" true "dark" "absolute" 500 40 7 false "/var/log/kprobe/exports" "standard".

(** ** JSON *)

(** json.Encoder on the struct, as JSON.parse reads it. *)
Definition encode (s : ServerSettings) : object :=
  [("version", JNum (of_Z (Version s))); ("apiHost", JStr (APIHost s)); ("apiPort", JStr (APIPort s));
   ("wsReconnect", JBool (WSReconnect s)); ("theme", JStr (Theme s));
   ("timestampFormat", JStr (TimestampFormat s));
   ("maxStreamEvents", JNum (of_Z (MaxStreamEvents s)));
   ("maxGraphNodes", JNum (of_Z (MaxGraphNodes s)));
   ("retentionDays", JNum (of_Z (RetentionDays s))); ("autoExport", JBool (AutoExport s));
   ("exportPath", JStr (ExportPath s)); ("probeOverhead", JStr (ProbeOverhead s))].

Definition go_string (v : jsval) (old : string) : option string :=
  match v with JStr s => Some s | JNull => Some old | _ => None end.

Definition go_bool (v : jsval) (old : bool) : option bool :=
  match v with JBool b => Some b | JNull => Some old | _ => None end.

(** JSON.stringify prints an integral number below 10^21 in digits alone; an int
    has 64 bits. *)
Definition go_int (v : jsval) (old : Z) : option Z :=
  match v with
  | JNum (Fin m) =>
      if (m mod one =? 0) && (- 2 ^ 63 <=? m / one) && (m / one <? 2 ^ 63) then Some (m / one) else None
  | JNull => Some old
  | _ => None
  end.

(** The field of a key: the exact name, or the name in another case. *)
Definition field_of (key : string) : option string :=
  if decide (key ∈ DEFAULTS.*1) then Some key
  else p ← list_find (λ k, to_lower k = to_lower key) DEFAULTS.*1; Some p.2.

Definition decode_field (s : ServerSettings) (key : string) (v : jsval) : option ServerSettings :=
  let 'mkServer ver host port ws theme fmt maxs maxg ret auto path probe := s in
  match field_of key with
  | Some "version" => x ← go_int v ver; Some (mkServer x host port ws theme fmt maxs maxg ret auto path probe)
  | Some "apiHost" => x ← go_string v host; Some (mkServer ver x port ws theme fmt maxs maxg ret auto path probe)
  | Some "apiPort" => x ← go_string v port; Some (mkServer ver host x ws theme fmt maxs maxg ret auto path probe)
  | Some "wsReconnect" => x ← go_bool v ws; Some (mkServer ver host port x theme fmt maxs maxg ret auto path probe)
  | Some "theme" => x ← go_string v theme; Some (mkServer ver host port ws x fmt maxs maxg ret auto path probe)
  | Some "timestampFormat" =>
      x ← go_string v fmt; Some (mkServer ver host port ws theme x maxs maxg ret auto path probe)
  | Some "maxStreamEvents" =>
      x ← go_int v maxs; Some (mkServer ver host port ws theme fmt x maxg ret auto path probe)
  | Some "maxGraphNodes" =>
      x ← go_int v maxg; Some (mkServer ver host port ws theme fmt maxs x ret auto path probe)
  | Some "retentionDays" =>
      x ← go_int v ret; Some (mkServer ver host port ws theme fmt maxs maxg x auto path probe)
  | Some "autoExport" =>
      x ← go_bool v auto; Some (mkServer ver host port ws theme fmt maxs maxg ret x path probe)
  | Some "exportPath" =>
      x ← go_string v path; Some (mkServer ver host port ws theme fmt maxs maxg ret auto x probe)
  | Some "probeOverhead" =>
      x ← go_string v probe; Some (mkServer ver host port ws theme fmt maxs maxg ret auto path x)
  | _ => None       (* unknown field *)
  end.

(** null leaves the struct as it is. *)
Definition decode (v : jsval) : option ServerSettings :=
  match v with
  | JObj o => foldl (λ s kv, s ← s; decode_field s kv.1 kv.2) (Some zero_settings) o
  | JNull => Some zero_settings
  | _ => None
  end.

(** ** The handlers *)

Definition oneOf (value : string) (allowed : list string) : bool :=
  existsb (λ c, bool_decide (value = c)) allowed.

(** The error, or none. *)
Definition validateSettings (s : ServerSettings) : option string :=
  if negb (Version s =? Version defaultSettings) then Some "unsupported settings version"
  else if bool_decide (APIHost s = "") || bool_decide (APIPort s = "")
  then Some "apiHost and apiPort are required"
  else if negb (oneOf (Theme s) ["dark"; "light"; "system"]) then Some "invalid theme"
  else if negb (oneOf (TimestampFormat s) ["absolute"; "relative"; "nanosecond"])
  then Some "invalid timestampFormat"
  else if (MaxStreamEvents s <? 100) || (2000 <? MaxStreamEvents s)
  then Some "maxStreamEvents must be between 100 and 2000"
  else if (MaxGraphNodes s <? 10) || (500 <? MaxGraphNodes s)
  then Some "maxGraphNodes must be between 10 and 500"
  else if (RetentionDays s <? 1) || (365 <? RetentionDays s)
  then Some "retentionDays must be between 1 and 365"
  else if negb (oneOf (ProbeOverhead s) ["minimal"; "standard"; "verbose"]) then Some "invalid probeOverhead"
  else None.

(** The value of a body, read through [http.MaxBytesReader]: [None] when it is not
    one JSON value of at most a mebibyte. *)
Definition fits (body : string) : bool := Z.of_nat (String.length body) <=? 1048576.

Definition read_body (body : string) : option jsval := if fits body then json_parse body else None.

Inductive request := GET | PUT (body : option jsval) | POST | OPTIONS | OtherMethod.

(** The status, and the body: JSON, a text, or nothing. *)
Inductive response := Answer (status : Z) (v : jsval) | Refused (status : Z) (text : string) | Empty (status : Z).

Definition ServeHTTP (h : ServerSettings) (r : request) : ServerSettings * response :=
  match r with
  | OPTIONS => (h, Empty 204)
  | GET => (h, Answer 200 (JObj (encode h)))
  | PUT body =>
      match (v ← body; decode v) with
      | None => (h, Refused 400 "invalid settings payload")
      | Some updated =>
          match validateSettings updated with
          | Some err => (h, Refused 400 err)
          | None => (updated, Answer 200 (JObj (encode updated)))
          end
      end
  | _ => (h, Empty 405)
  end.

Definition ResetHandler (h : ServerSettings) (r : request) : ServerSettings * response :=
  match r with
  | OPTIONS => (h, Empty 204)
  | POST => (defaultSettings, Answer 200 (JObj (encode defaultSettings)))
  | _ => (h, Empty 405)
  end.

(** [res.json()]: a text that is no JSON, and an empty body, throw. *)
Definition json_of (r : response) : option jsval := match r with Answer _ v => Some v | _ => None end.

(** ** The page with the server *)

(** The requests of the page; the first carries its settings. *)
Inductive call := CPut (body : jsval) | CReset | CGet.

(** A request under way: which mount of the page sent it, and the answer once the
    server has taken it. *)
Record flight := mkFlight { sent_by : nat; what : call; answer : option response }.

Record Deployment := mkDeployment {
  client : SettingsState;
  mount : nat;
  server : ServerSettings;
  flights : list flight
}.

(** What a control of the page sends, its settings being [v]. *)
Definition asked (v : jsval) (a : settings_action) : list call :=
  match a with Save => [CPut v] | Reset => [CReset] | _ => [] end.

(** [JSON.stringify(settings)]. *)
Definition body_text (settings : jsval) : string := default "" (stringify settings).

Definition handle (h : ServerSettings) (c : call) : ServerSettings * response :=
  match c with
  | CPut body => ServeHTTP h (PUT (read_body (body_text body)))
  | CReset => ResetHandler h POST
  | CGet => ServeHTTP h GET
  end.

(** The continuation of a request, with its answer or after a failure.  That of a
    page that is gone still writes the storage. *)
Definition continue (current ok : bool) (c : call) (r : option response) (s : SettingsState) :
    SettingsState :=
  match c, r with
  | CPut _, _ => if current then settings_apply s SaveDone else s
  | CGet, Some a =>
      if current then settings_apply s (Fetched ok (json_of a))
      else match json_of a with
           | Some v => mkSettings (settings s) (saved s) (saveToStorage ok v (stored s)) (saved_timers s)
                         (data_theme s)
           | None => s
           end
  | _, _ => s
  end.

Inductive deployment_step :=
  | Press (a : settings_action) (isDark ok : bool)     (* a control of the page *)
  | Reload                                              (* the page is mounted again *)
  | Arrives (i : nat)                                   (* the server takes the i-th request *)
  | Delivered (i : nat) (ok : bool)                     (* its answer reaches the page *)
  | Fails (i : nat)                                     (* or does not *)
  | MarkFades.

Definition deployment_apply (d : Deployment) (e : deployment_step) : Deployment :=
  match e with
  | Press a isDark ok =>
      mkDeployment (settings_apply (client d) (User a isDark ok)) (mount d) (server d)
        (flights d ++ ((λ c, mkFlight (mount d) c None) <$> asked (settings (client d)) a))
  | Reload =>
      mkDeployment (settings_initial (stored (client d)) (data_theme (client d))) (S (mount d)) (server d)
        (flights d ++ [mkFlight (S (mount d)) CGet None])
  | Arrives i =>
      match flights d !! i with
      | Some (mkFlight n c None) =>
          let '(h, r) := handle (server d) c in
          mkDeployment (client d) (mount d) h (<[i := mkFlight n c (Some r)]> (flights d))
      | _ => d
      end
  | Delivered i ok =>
      match flights d !! i with
      | Some (mkFlight n c (Some r)) =>
          mkDeployment (continue (n =? mount d)%nat ok c (Some r) (client d)) (mount d) (server d)
            (delete i (flights d))
      | _ => d
      end
  | Fails i =>
      match flights d !! i with
      | Some (mkFlight n c _) =>
          mkDeployment (continue (n =? mount d)%nat true c None (client d)) (mount d) (server d)
            (delete i (flights d))
      | None => d
      end
  | MarkFades => mkDeployment (settings_apply (client d) SavedTimer) (mount d) (server d) (flights d)
  end.

(** What the controls of the page can set: text of the fields, well-formed; the
    toggles; the options of the segments; the steps of the sliders. *)
Definition offered (a : settings_action) : Prop :=
  match a with
  | SetKey k v =>
      (k ∈ ["apiHost"; "apiPort"; "exportPath"] ∧ ∃ t, v = JStr t ∧ utf8_ok t = true) ∨
      (k ∈ ["wsReconnect"; "autoExport"] ∧ ∃ b, v = JBool b) ∨
      (k = "timestampFormat" ∧ ∃ t, v = JStr t ∧ t ∈ ["absolute"; "relative"; "nanosecond"]) ∨
      (k = "probeOverhead" ∧ ∃ t, v = JStr t ∧ t ∈ ["minimal"; "standard"; "verbose"]) ∨
      (k = "maxStreamEvents" ∧ ∃ z, v = JNum (of_Z z) ∧ 100 ≤ z ≤ 2000) ∨
      (k = "maxGraphNodes" ∧ ∃ z, v = JNum (of_Z z) ∧ 10 ≤ z ≤ 200) ∨
      (k = "retentionDays" ∧ ∃ z, v = JNum (of_Z z) ∧ 1 ≤ z ≤ 90)
  | SetTheme v => v ∈ ["dark"; "light"; "system"]
  | Save | Reset => True
  end.

Definition step_offered (e : deployment_step) : Prop :=
  match e with Press a _ _ => offered a | _ => True end.

(** The server starts with its defaults; the page with an empty storage, or with
    what it loads of one it wrote before. *)
Inductive deployment_reachable : Deployment → Prop :=
  | deployment_start theme :
      deployment_reachable
        (mkDeployment (settings_initial None theme) 0 defaultSettings [mkFlight 0 CGet None])
  | deployment_next d e :
      deployment_reachable d → step_offered e → deployment_reachable (deployment_apply d e).

(** ** What the page can hold *)

(** Everything the server asks for but a host and a port. *)
Definition good (s : ServerSettings) : Prop :=
  Version s = 1 ∧ Theme s ∈ ["dark"; "light"; "system"] ∧
  TimestampFormat s ∈ ["absolute"; "relative"; "nanosecond"] ∧
  100 ≤ MaxStreamEvents s ≤ 2000 ∧ 10 ≤ MaxGraphNodes s ≤ 500 ∧ 1 ≤ RetentionDays s ≤ 365 ∧
  ProbeOverhead s ∈ ["minimal"; "standard"; "verbose"] ∧
  utf8_ok (APIHost s) = true ∧ utf8_ok (APIPort s) = true ∧ utf8_ok (ExportPath s) = true.

Lemma oneOf_spec v l : oneOf v l = true ↔ v ∈ l.
Proof.
  unfold oneOf. rewrite existsb_exists. setoid_rewrite <-list_elem_of_In.
  setoid_rewrite bool_decide_eq_true. naive_solver.
Qed.

Lemma validate_good s :
  good s →
  validateSettings s =
    if bool_decide (APIHost s = "") || bool_decide (APIPort s = "")
    then Some "apiHost and apiPort are required" else None.
Proof.
  intros (Hv & Ht & Hf & Hm & Hg & Hr & Hp & _). unfold validateSettings.
  apply oneOf_spec in Ht, Hf, Hp. rewrite Hv, Ht, Hf, Hp. simpl.
  destruct (_ || _); [done|].
  repeat match goal with |- context [?a <? ?b] => destruct (Z.ltb_spec a b); [lia|] end. done.
Qed.

Lemma go_int_of_Z z old : - 2 ^ 53 < z < 2 ^ 53 → go_int (JNum (of_Z z)) old = Some z.
Proof.
  intros Hz. rewrite of_Z_exact by lia. unfold go_int. pose proof one_pos.
  rewrite Z.mod_mul, Z.div_mul by lia. simpl.
  destruct (Z.leb_spec (- 2 ^ 63) z); [|lia]. destruct (Z.ltb_spec z (2 ^ 63)); [done|lia].
Qed.

(** Member by member. *)
Definition decode_members (s : option ServerSettings) (o : object) : option ServerSettings :=
  foldl (λ s kv, s ← s; decode_field s kv.1 kv.2) s o.

Lemma decode_member s k v o s' :
  decode_field s k v = Some s' → decode_members (Some s) ((k, v) :: o) = decode_members (Some s') o.
Proof. intros E. unfold decode_members. simpl. by rewrite E. Qed.

Lemma decode_encode s : good s → decode (JObj (encode s)) = Some s.
Proof.
  intros (Hv & _ & _ & Hm & Hg & Hr & _). destruct s. simpl in Hv, Hm, Hg, Hr.
  change (decode (JObj ?o)) with (decode_members (Some zero_settings) o).
  unfold encode, zero_settings. cbn [Version APIHost APIPort WSReconnect Theme TimestampFormat
    MaxStreamEvents MaxGraphNodes RetentionDays AutoExport ExportPath ProbeOverhead].
  repeat (erewrite decode_member;
    [|unfold decode_field;
      match goal with |- context [field_of ?k] => change (field_of k) with (Some k) end;
      cbv iota beta; rewrite ?go_int_of_Z by lia; reflexivity]).
  reflexivity.
Qed.

Definition settings_ok (v : jsval) : Prop := ∃ s, v = JObj (encode s) ∧ good s.

(** What the page wrote to its storage, if anything. *)
Definition stored_ok (st : option string) : Prop :=
  st = None ∨ ∃ t s, st = Some t ∧ good s ∧ stringify (JObj (encode s)) = Some t.

Lemma option_utf8 v l : v ∈ l → forallb utf8_ok l = true → utf8_ok v = true.
Proof. rewrite forallb_forall. intros Hv Hl. by apply Hl, list_elem_of_In. Qed.

Lemma small_primitive z : 0 ≤ z ≤ 2000 → primitive (JNum (of_Z z)).
Proof. intros Hz. simpl. exists z. split; [done|lia]. Qed.

Lemma encode_primitive s : good s → Forall primitive (encode s).*2.
Proof.
  intros (Hv & Ht & Hf & Hm & Hg & Hr & Hp & Ha & Hb & Hc). unfold encode. cbn [fmap list_fmap snd].
  repeat (apply Forall_cons; split;
    [first [done|by eapply option_utf8|apply small_primitive; lia]|]).
  apply Forall_nil_2.
Qed.

Lemma encode_loads s :
  good s → ∃ t, stringify (JObj (encode s)) = Some t ∧ loadFromStorage (Return (Some t)) = JObj (encode s).
Proof.
  intros Hs. apply load_save; [done|by apply encode_primitive|].
  destruct Hs as (Hv & _). unfold encode. rewrite Hv. reflexivity.
Qed.

(** What the server reads of the page's body. *)
Lemma read_settings s :
  good s → read_body (body_text (JObj (encode s))) =
    if fits (body_text (JObj (encode s))) then Some (JObj (encode s)) else None.
Proof.
  intros Hs. destruct (save_parses (encode s)) as (t & Ht & Hp); [done|by apply encode_primitive|].
  unfold body_text, read_body. rewrite Ht.
  change (default "" (Some t)) with t. by rewrite Hp.
Qed.

Lemma stored_loads st : stored_ok st → settings_ok (loadFromStorage (Return st)).
Proof.
  intros [->|(t & s & -> & Hs & Ht)].
  - exists defaultSettings. split; [reflexivity|]. split_and!; try done; by apply (bool_decide_unpack _).
  - exists s. split; [|done]. destruct (encode_loads s Hs) as (t' & Ht' & Hl). by simplify_eq.
Qed.

Lemma saved_ok ok v st : settings_ok v → stored_ok st → stored_ok (saveToStorage ok v st).
Proof.
  intros (s & -> & Hs) Hst. unfold saveToStorage. destruct ok; [|done].
  destruct (encode_loads s Hs) as (t & Ht & _). right. exists t, s. by rewrite Ht.
Qed.

Lemma default_good : good defaultSettings.
Proof. split_and!; try done; by apply (bool_decide_unpack _). Qed.

(** A control keeps the settings in the server's format. *)
Lemma set_key_good s k v :
  good s → offered (SetKey k v) → settings_ok (JObj (map_set k v (encode s))).
Proof.
  destruct s as [ver host port ws theme fmt maxs maxg ret auto path probe].
  intros (Hv & Ht & Hf & Hm & Hg & Hr & Hp & Ha & Hb & Hc) Ho. simpl in *.
  destruct Ho as [(Hk & t & -> & Hx)|[(Hk & b & ->)|[(-> & t & -> & Hx)|[(-> & t & -> & Hx)|
    [(-> & z & -> & Hz)|[(-> & z & -> & Hz)|(-> & z & -> & Hz)]]]]]].
  - apply elem_of_cons in Hk as [->|[->|[->|[]%elem_of_nil]%elem_of_cons]%elem_of_cons];
      [exists (mkServer ver t port ws theme fmt maxs maxg ret auto path probe)
      |exists (mkServer ver host t ws theme fmt maxs maxg ret auto path probe)
      |exists (mkServer ver host port ws theme fmt maxs maxg ret auto t probe)]; by split.
  - apply elem_of_cons in Hk as [->|[->|[]%elem_of_nil]%elem_of_cons];
      [exists (mkServer ver host port b theme fmt maxs maxg ret auto path probe)
      |exists (mkServer ver host port ws theme fmt maxs maxg ret b path probe)]; by split.
  - exists (mkServer ver host port ws theme t maxs maxg ret auto path probe). by split.
  - exists (mkServer ver host port ws theme fmt maxs maxg ret auto path t). by split.
  - exists (mkServer ver host port ws theme fmt z maxg ret auto path probe). split; [done|]. split_and!; simpl; done || lia.
  - exists (mkServer ver host port ws theme fmt maxs z ret auto path probe). split; [done|]. split_and!; simpl; done || lia.
  - exists (mkServer ver host port ws theme fmt maxs maxg z auto path probe). split; [done|]. split_and!; simpl; done || lia.
Qed.

Lemma set_theme_good s t :
  good s → offered (SetTheme t) → settings_ok (JObj (map_set "theme" (JStr t) (encode s))).
Proof.
  destruct s as [ver host port ws theme fmt maxs maxg ret auto path probe].
  intros (Hv & Ht & Hf & Hm & Hg & Hr & Hp & Ha & Hb & Hc) Ho.
  exists (mkServer ver host port ws t fmt maxs maxg ret auto path probe). by split.
Qed.

(** ** The invariant *)

(** A page asks with settings of its own, and the server answers with its own. *)
Definition flight_ok (f : flight) : Prop :=
  match what f, answer f with
  | CPut body, _ => settings_ok body
  | CGet, Some r => ∃ s, r = Answer 200 (JObj (encode s)) ∧ good s
  | _, _ => True
  end.

Definition server_ok (h : ServerSettings) : Prop := good h ∧ validateSettings h = None.

Definition deployment_ok (d : Deployment) : Prop :=
  settings_ok (settings (client d)) ∧ stored_ok (stored (client d)) ∧ server_ok (server d) ∧
  Forall flight_ok (flights d).

(** What the server does with settings of the page. *)
Lemma put_good h s :
  good s →
  handle h (CPut (JObj (encode s))) =
    if negb (fits (body_text (JObj (encode s)))) then (h, Refused 400 "invalid settings payload")
    else if bool_decide (APIHost s = "") || bool_decide (APIPort s = "")
    then (h, Refused 400 "apiHost and apiPort are required") else (s, Answer 200 (JObj (encode s))).
Proof.
  intros Hs. unfold handle, ServeHTTP. rewrite read_settings by done. destruct (fits _); [|done].
  cbn [mbind option_bind negb]. rewrite decode_encode, validate_good by done.
  by destruct (_ || _).
Qed.

Lemma handle_ok h c n :
  server_ok h → flight_ok (mkFlight n c None) →
  server_ok (handle h c).1 ∧ flight_ok (mkFlight n c (Some (handle h c).2)).
Proof.
  intros Hh Hc. destruct c as [body| |]; cbn [flight_ok what answer] in *.
  - split; [|done]. destruct Hc as (s & -> & Hs). rewrite put_good by done.
    pose proof (validate_good s Hs) as Ev. destruct (negb _); [done|]. destruct (_ || _); [done|]. by split.
  - split; [|done]. split; [apply default_good|done].
  - split; [done|]. exists h. split; [done|apply Hh].
Qed.

Lemma continue_ok current ok n c r s :
  settings_ok (settings s) ∧ stored_ok (stored s) → flight_ok (mkFlight n c r) →
  settings_ok (settings (continue current ok c r s)) ∧ stored_ok (stored (continue current ok c r s)).
Proof.
  intros [Hs Hst] Hf. destruct c as [body| |], r as [a|]; simpl in *; try (by destruct current); try done.
  destruct Hf as (h & -> & Hh). assert (settings_ok (JObj (encode h))) as He by by exists h.
  destruct current; simpl; (split; [done|by apply saved_ok]).
Qed.

Lemma press_ok s a isDark ok :
  settings_ok (settings s) → stored_ok (stored s) → offered a →
  settings_ok (settings (settings_apply s (User a isDark ok))) ∧
  stored_ok (stored (settings_apply s (User a isDark ok))).
Proof.
  intros Hs Hst Ha. pose proof Hs as (x & E & Hx). destruct a as [k v|v| |]; simpl; rewrite ?E; simpl.
  - split; [by apply set_key_good|done].
  - split; [by apply set_theme_good|done].
  - rewrite <-E. split; [done|by apply saved_ok].
  - split; [|by left]. exists defaultSettings. split; [reflexivity|apply default_good].
Qed.

Lemma deployment_apply_ok d e : deployment_ok d → step_offered e → deployment_ok (deployment_apply d e).
Proof.
  intros (Hs & Hst & Hh & Hf) He. destruct e as [a isDark ok| |i|i ok|i|]; simpl in *.
  - destruct (press_ok _ a isDark ok Hs Hst He). split_and!; try done. apply Forall_app. split; [done|].
    destruct a; simpl; repeat constructor; done.
  - split_and!; try done; [by apply stored_loads|]. apply Forall_app. split; [done|by repeat constructor].
  - destruct (flights d !! i) as [[n c [r|]]|] eqn:E; try by split_and!.
    rewrite Forall_lookup in Hf. destruct (handle_ok _ c n Hh (Hf _ _ E)) as [Hh' Hf'].
    destruct (handle (server d) c) as [h r]. split_and!; try done.
    apply Forall_insert; [by apply Forall_lookup|done].
  - destruct (flights d !! i) as [[n c [r|]]|] eqn:E; try by split_and!.
    pose proof (Forall_lookup_1 _ _ _ _ Hf E) as Hfi.
    destruct (continue_ok (n =? mount d)%nat ok n c (Some r) (client d)); try done.
    split_and!; try done. by apply Forall_delete.
  - destruct (flights d !! i) as [[n c r]|] eqn:E; try by split_and!.
    assert (flight_ok (mkFlight n c None)) as Hfi.
    { pose proof (Forall_lookup_1 _ _ _ _ Hf E) as Hfi. by destruct c. }
    destruct (continue_ok (n =? mount d)%nat true n c None (client d)); try done.
    split_and!; try done. by apply Forall_delete.
  - done.
Qed.

Lemma deployment_reachable_ok d : deployment_reachable d → deployment_ok d.
Proof.
  induction 1 as [theme|d e _ IH He]; [|by apply deployment_apply_ok].
  split_and!; [by apply (stored_loads None); left|by left|split; [apply default_good|done]|].
  by repeat constructor.
Qed.

(** C30: the page and the server agree on what settings are.  Whatever controls are
    used, the texts typed being well-formed, and in whatever order requests arrive,
    are answered, or are lost, the settings the server holds pass its own
    validation, and the settings of the page are ones it would take as they are,
    with two exceptions: it refuses them when their text is longer than a mebibyte,
    and when the host or the port is empty. *)
Theorem settings_contract d :
  deployment_reachable d →
  validateSettings (server d) = None ∧
  ∃ s, settings (client d) = JObj (encode s) ∧
    ∀ h, handle h (CPut (settings (client d))) =
           if 1048576 <? Z.of_nat (String.length (body_text (settings (client d))))
           then (h, Refused 400 "invalid settings payload")
           else if bool_decide (APIHost s = "") || bool_decide (APIPort s = "")
           then (h, Refused 400 "apiHost and apiPort are required")
           else (s, Answer 200 (settings (client d))).
Proof.
  intros ((s & E & Hs) & _ & [_ Hv] & _)%deployment_reachable_ok. split; [done|].
  exists s. split; [done|]. intros h. rewrite E, put_good by done. unfold fits. by rewrite <-Z.ltb_antisym.
Qed.

(** A request that is alone reaches the server, and its answer the page. *)
Lemma call_answered c n m s h :
  foldl deployment_apply (mkDeployment s m h [mkFlight n c None]) [Arrives 0; Delivered 0 true] =
  mkDeployment (continue (n =? m)%nat true c (Some (handle h c).2) s) m (handle h c).1 [].
Proof.
  cbn [foldl deployment_apply flights lookup list_lookup client mount server].
  by destruct (handle h c) as [h' r].
Qed.

Lemma step_once d e : foldl deployment_apply d [e] = deployment_apply d e.
Proof. done. Qed.

Definition save_and_reload (d : Deployment) : Deployment :=
  foldl deployment_apply d
    [Press Save false true; Arrives 0; Delivered 0 true; Reload; Arrives 0; Delivered 0 true].

(** C31: what saving comes to.  With nothing under way, a save that reaches the
    server is shown as saved, and after a reload the page shows the settings that
    were saved; unless the host or the port was empty or the text of the settings
    longer than a mebibyte: then too the page says saved, and the reload brings back
    what the server held before.  (The texts typed are well-formed, as in the
    contract above.) *)
Theorem saved_after_reload d :
  deployment_reachable d → flights d = [] →
  saved (client (foldl deployment_apply d [Press Save false true; Arrives 0; Delivered 0 true])) = true ∧
  ∃ s, settings (client d) = JObj (encode s) ∧
    settings (client (save_and_reload d)) =
      if (1048576 <? Z.of_nat (String.length (body_text (settings (client d))))) ||
         bool_decide (APIHost s = "") || bool_decide (APIPort s = "")
      then JObj (encode (server d)) else settings (client d).
Proof.
  intros ((s & E & Hs) & _)%deployment_reachable_ok Hf. destruct d as [st n h fl]. simpl in E, Hf. subst fl.
  unfold save_and_reload.
  change [Press Save false true; Arrives 0; Delivered 0 true; Reload; Arrives 0; Delivered 0 true] with
    ([Press Save false true] ++ [Arrives 0; Delivered 0 true] ++ [Reload] ++ [Arrives 0; Delivered 0 true]).
  change [Press Save false true; Arrives 0; Delivered 0 true] with
    ([Press Save false true] ++ [Arrives 0; Delivered 0 true]).
  rewrite !foldl_app, !step_once.
  change (deployment_apply (mkDeployment st n h []) (Press Save false true)) with
    (mkDeployment (handleSave true st) n h [mkFlight n (CPut (settings st)) None]).
  rewrite call_answered, E.
  rewrite put_good, Nat.eqb_refl by done. cbn [client settings server]. rewrite ?E.
  pose proof (Z.ltb_antisym (Z.of_nat (String.length (body_text (JObj (encode s))))) 1048576) as Hfit.
  fold (fits (body_text (JObj (encode s)))) in Hfit. revert Hfit.
  generalize (fits (body_text (JObj (encode s)))). intros fit Hfit.
  split; [by destruct fit, (_ || _)|]. exists s. split; [done|]. rewrite Hfit. clear Hfit.
  match goal with |- context [deployment_apply (mkDeployment ?st' n ?h' []) Reload] =>
    change (deployment_apply (mkDeployment st' n h' []) Reload) with
      (mkDeployment (settings_initial (stored st') (data_theme st')) (S n) h' [mkFlight (S n) CGet None]) end.
  rewrite call_answered, Nat.eqb_refl. destruct fit; [|reflexivity].
  cbn [negb orb]. by destruct (_ || _).
Qed.

(** ** Witnesses *)

Definition used_deployment : Deployment :=
  foldl deployment_apply (mkDeployment (settings_initial None "dark") 0 defaultSettings [mkFlight 0 CGet None])
    [Arrives 0; Delivered 0 true; Press (SetKey "apiHost" (JStr "")) false true].

Lemma used_reachable : deployment_reachable used_deployment.
Proof.
  unfold used_deployment. cbn [foldl]. repeat (apply deployment_next; [|try exact I]).
  - apply deployment_start.
  - left. split; [by left|]. by exists "".
Qed.

Lemma settings_contract_witness :
  validateSettings (server used_deployment) = None ∧ prop (spread (settings (client used_deployment))) "apiHost" = JStr "".
Proof.
  split; [|reflexivity]. apply (settings_contract used_deployment used_reachable).
Defined.

(** An empty host: shown as saved, and gone after a reload. *)
Lemma saved_after_reload_witness :
  saved (client (foldl deployment_apply used_deployment [Press Save false true; Arrives 0; Delivered 0 true])) = true ∧
  prop (spread (settings (client (save_and_reload used_deployment)))) "apiHost" = JStr "localhost".
Proof.
  split; [|vm_compute; reflexivity].
  apply (saved_after_reload used_deployment used_reachable). reflexivity.
Defined.
