(* ===== verification/Shell.v ===== *)
(** * components/Shell.tsx, Sidebar.tsx and Topbar.tsx: the frame of the console

    The frame around every page: its titles, the navigation, the status of the
    connection and the keyboard shortcuts.  The hover effect of the navigation,
    which sets a color on the element itself, is left out. *)

From S2P Require Import Prelude JsNumber JsString Events Connection View Icons Settings.
Open Scope Z_scope.

(** ** Keyboard *)

(** The element a key event happened in, when it is an HTML element. *)
Record target := mkTarget { tagName : string; isContentEditable : bool }.

Record key_event := mkKey {
  key_target : option target; key : string;
  metaKey : bool; ctrlKey : bool; altKey : bool; shiftKey : bool
}.

(** What the listener does, in order. *)
Inductive effect := PreventDefault | Dispatch (event : string) | Navigate (path : string).

#[export] Instance effect_eq_dec : EqDecision effect.
Proof. solve_decision. Defined.

Definition isTypingTarget (el : option target) : bool :=
  match el with
  | None => false
  | Some el =>
      let tag := tagName el in
      bool_decide (tag = "INPUT") || bool_decide (tag = "TEXTAREA") || bool_decide (tag = "SELECT") ||
      isContentEditable el
  end.

Definition handleKeyDown (e : key_event) : list effect :=
  if isTypingTarget (key_target e) then [] else
  let key := to_upper (key e) in
  let meta := metaKey e || ctrlKey e in
  if meta && bool_decide (key = "K") then [PreventDefault]
  else if meta && shiftKey e && bool_decide (key = "C") then
    [PreventDefault; Dispatch "kprobe:clear-view"]
  else if meta || altKey e || shiftKey e then []
  else if decide (key = "G") then [Navigate "/graph"]
  else if decide (key = "S") then [Navigate "/stream"]
  else if decide (key = "T") then [Navigate "/timeline"]
  else if decide (key = "R") then [Navigate "/replay"]
  else if decide (key = "ESCAPE") then [Dispatch "kprobe:escape"]
  else [].

(** ** Rendering *)

Inductive frame_action := Logout | ThemeToggle | Follow (path : string).

Definition VIEW_META : list (string * (string * string)) :=
  [("/stream", ("Live Stream", "real-time kernel event feed"));
   ("/graph", ("Causal Graph", "cause-effect chain explorer"));
   ("/timeline", ("Timeline", "nanosecond-precision event timeline"));
   ("/replay", ("Replay", "deterministic incident replay"));
   ("/settings", ("Settings", "configuration"))].

Record NavItem := mkNavItem { item_path : string; label : string; nav_icon : drawing }.

Definition NAV_ITEMS : list NavItem :=
  [mkNavItem "/stream" "Live Stream" (mkDrawing "15"
    [("path", [("d", "M2 7.5h3l2-5 3 10 2-5h1"); ("stroke", "currentColor"); ("strokeWidth", "1.25"); ("strokeLinecap", "round"); ("strokeLinejoin", "round")])]);
   mkNavItem "/graph" "Causal Graph" (mkDrawing "15"
    [("circle", [("cx", "7.5"); ("cy", "3"); ("r", "1.75"); ("stroke", "currentColor"); ("strokeWidth", "1.2")]);
     ("circle", [("cx", "2.5"); ("cy", "12"); ("r", "1.75"); ("stroke", "currentColor"); ("strokeWidth", "1.2")]);
     ("circle", [("cx", "12.5"); ("cy", "12"); ("r", "1.75"); ("stroke", "currentColor"); ("strokeWidth", "1.2")]);
     ("path", [("d", "M7.5 4.75v1.5M6.1 6.8L3.3 10.4M8.9 6.8l2.8 3.6"); ("stroke", "currentColor"); ("strokeWidth", "1.1"); ("strokeLinecap", "round")])]);
   mkNavItem "/timeline" "Timeline" (mkDrawing "15"
    [("line", [("x1", "1"); ("y1", "4.5"); ("x2", "14"); ("y2", "4.5"); ("stroke", "currentColor"); ("strokeWidth", "1.1"); ("strokeLinecap", "round")]);
     ("line", [("x1", "1"); ("y1", "7.5"); ("x2", "14"); ("y2", "7.5"); ("stroke", "currentColor"); ("strokeWidth", "1.1"); ("strokeLinecap", "round"); ("strokeDasharray", "2.5 2")]);
     ("line", [("x1", "1"); ("y1", "10.5"); ("x2", "14"); ("y2", "10.5"); ("stroke", "currentColor"); ("strokeWidth", "1.1"); ("strokeLinecap", "round"); ("strokeDasharray", "1.5 2.5")]);
     ("rect", [("x", "3"); ("y", "3.25"); ("width", "2.5"); ("height", "2.5"); ("rx", "0.5"); ("fill", "currentColor"); ("opacity", "0.7")]);
     ("rect", [("x", "8"); ("y", "6.25"); ("width", "2.5"); ("height", "2.5"); ("rx", "0.5"); ("fill", "currentColor"); ("opacity", "0.7")]);
     ("rect", [("x", "5.5"); ("y", "9.25"); ("width", "2.5"); ("height", "2.5"); ("rx", "0.5"); ("fill", "currentColor"); ("opacity", "0.7")])]);
   mkNavItem "/replay" "Replay" (mkDrawing "15"
    [("path", [("d", "M2.5 7.5A5 5 0 1112.5 7.5"); ("stroke", "currentColor"); ("strokeWidth", "1.2"); ("strokeLinecap", "round")]);
     ("path", [("d", "M2.5 4.5v3h3"); ("stroke", "currentColor"); ("strokeWidth", "1.2"); ("strokeLinecap", "round"); ("strokeLinejoin", "round")]);
     ("path", [("d", "M6.5 5.5l3 2-3 2v-4z"); ("fill", "currentColor"); ("opacity", "0.8")])])].

Definition BOTTOM_ITEMS : list NavItem :=
  [mkNavItem "/settings" "Settings" (mkDrawing "15"
    [("circle", [("cx", "7.5"); ("cy", "7.5"); ("r", "2"); ("stroke", "currentColor"); ("strokeWidth", "1.2")]);
     ("path", [("d", "M7.5 1.5v1.2M7.5 12.3v1.2M1.5 7.5h1.2M12.3 7.5h1.2M3.4 3.4l.85.85M10.75 10.75l.85.85M3.4 11.6l.85-.85M10.75 4.25l.85-.85"); ("stroke", "currentColor"); ("strokeWidth", "1.2"); ("strokeLinecap", "round")])])].

Definition NavItemLink (pathname : string) (item : NavItem) : view frame_action :=
  let active := bool_decide (pathname = item_path item) in
  Elem "a" [("href", item_path item); ("title", label item);
            ("style", if active then "navItem navItemActive" else "navItem")]
    [("onClick", Follow (item_path item))]
    (Elem "span" [("style", "navIcon"); ("color", if active then "var(--accent)" else "var(--text-muted)")] []
       [icon (nav_icon item)] ::
     span [("style", "navLabel"); ("color", if active then "var(--text-primary)" else "var(--text-secondary)");
           ("fontWeight", if active then "600" else "500")] (label item) ::
     when active [Elem "span" [("style", "activeBar")] [] []]).

Definition Sidebar (pathname : string) : view frame_action :=
  Elem "aside" [("style", "root")] []
    [sdiv "logo" [sspan "logoK" "k"; sspan "logoProbe" "probe"];
     Elem "nav" [("style", "nav")] []
      [sdiv "navGroup" (sdiv "navGroupLabel" [Text "views"] :: (NavItemLink pathname <$> NAV_ITEMS))];
     sdiv "bottom" (sdiv "bottomDivider" [] :: (NavItemLink pathname <$> BOTTOM_ITEMS))].

Definition statusColor (status : ConnectionStatus) : string :=
  match status with
  | connected => "var(--accent)"
  | mock | connecting => "var(--text-muted)"
  | disconnected => "var(--border)"
  end.

Definition statusAnimation (status : ConnectionStatus) : string :=
  if decide (status = connecting) then "pulse 1.4s ease-in-out infinite" else "none".

Definition statusLabel (status : ConnectionStatus) : string :=
  match status with
  | connected => "connected" | connecting => "connecting" | disconnected => "disconnected" | mock => "mock"
  end.

(** [https] and [host] are those of the page's address. *)
Definition endpointLabel (https : bool) (host : string) (status : ConnectionStatus) : string :=
  if decide (status = mock) then "no backend · mock data"
  else (if https then "wss:" else "ws:") +:+ "//" +:+ host +:+ "/ws".

Definition Topbar (https : bool) (host title description : string) (status : ConnectionStatus)
    (dark : bool) : view frame_action :=
  let textColor := if decide (status = connected) then "var(--accent)" else "var(--text-muted)" in
  Elem "header" [("style", "root")] []
    [sdiv "left" (sspan "title" title ::
       when (bool_decide (description ≠ "")) [sspan "sep" "·"; sspan "desc" description]);
     sdiv "right"
      [sdiv "statusPill"
        [Elem "span" [("style", "statusDot"); ("backgroundColor", statusColor status);
                      ("animation", statusAnimation status)] [] [];
         span [("style", "statusText"); ("color", textColor)] (statusLabel status);
         sspan "statusEndpoint" (endpointLabel https host status)];
       sdiv "divider" [];
       Elem "button" [("style", "iconBtn"); ("aria-label", "Toggle theme");
                      ("title", "Switch to " +:+ (if dark then "light" else "dark") +:+ " mode")]
         [("onClick", ThemeToggle)] [icon (if dark then SunIcon else MoonIcon)];
       sdiv "divider" [];
       sdiv "userRow"
        [sspan "userLabel" "admin";
         Elem "button" [("style", "iconBtn"); ("aria-label", "Sign out"); ("title", "Sign out")]
           [("onClick", Logout)] [icon LogoutIcon]]]].

(** [children] is the page the router chose. *)
Definition Shell (https : bool) (host pathname : string) (status : ConnectionStatus) (dark : bool)
    (children : view frame_action) : view frame_action :=
  let meta := default ("kprobe", "") (map_get pathname VIEW_META) in
  sdiv "root"
    [Sidebar pathname;
     sdiv "main"
      [Topbar https host meta.1 meta.2 status dark;
       Elem "main" [("style", "content"); ("className", "animate-fade-in")] [] [children]]].

(** ** The shortcuts *)

(** The key event of a shortcut as the settings page lists it, outside a field. *)
Definition pressed (keys : list string) : key_event :=
  let k := default "" (last keys) in
  mkKey None (if decide (k = "Esc") then "Escape" else k) (bool_decide ("⌘" ∈ keys)) false false
    (bool_decide ("shift" ∈ keys)).

(** The names of the events some page listens to (Replay.tsx). *)
Definition listened : list string := ["kprobe:escape"].

(** What a shortcut amounts to: where it leads, or an event that is heard. *)
Definition useful (f : effect) : bool :=
  match f with Navigate _ => true | Dispatch n => bool_decide (n ∈ listened) | PreventDefault => false end.

(** Which keys act.  A key pressed while typing does nothing at all.  Elsewhere
    the frame changes page on exactly the keys G, S, T and R without modifiers, each
    to the page the settings list for it, and announces Escape, to which the replay
    page listens; anything else has no effect that anything in the console sees. *)
Theorem shortcuts_spec e :
  (isTypingTarget (key_target e) = true → handleKeyDown e = []) ∧
  (∀ p, Navigate p ∈ handleKeyDown e ↔
    isTypingTarget (key_target e) = false ∧
    metaKey e || ctrlKey e || altKey e || shiftKey e = false ∧
    (to_upper (key e), p) ∈ [("G", "/graph"); ("S", "/stream"); ("T", "/timeline"); ("R", "/replay")]) ∧
  (∀ f, f ∈ handleKeyDown e → useful f = true →
    (∃ p, f = Navigate p) ∨ (f = Dispatch "kprobe:escape" ∧ to_upper (key e) = "ESCAPE")).
Proof.
  split; [by unfold handleKeyDown; intros ->|]. unfold handleKeyDown.
  destruct (isTypingTarget _). { set_solver. }
  generalize (to_upper (key e)); intros k.
  destruct (metaKey e || ctrlKey e) eqn:Hm; simpl.
  { destruct (bool_decide (k = "K")), (shiftKey e && bool_decide (k = "C"));
      (split; [intros p; set_solver|]); intros f Hf; set_unfold in Hf; naive_solver. }
  destruct (altKey e || shiftKey e); simpl. { set_solver. }
  split; [intros p|intros f Hf]; repeat case_decide; simplify_eq; set_unfold; naive_solver.
Qed.

(** Of the eleven shortcuts the settings page lists, the two of the command key
    do nothing: searching only stops the browser, and clearing the view announces an
    event nothing listens to.  The five of the frame do what their line says. *)
Theorem listed_shortcuts :
  filter (λ sc, "⌘" ∈ sc.1) SHORTCUTS = [(["⌘"; "K"], "Search"); (["⌘"; "shift"; "C"], "Clear current view")] ∧
  Forall (λ sc, existsb useful (handleKeyDown (pressed sc.1)) = false)
    (filter (λ sc, "⌘" ∈ sc.1) SHORTCUTS) ∧
  (λ sc, (handleKeyDown (pressed sc.1), sc.2)) <$>
    filter (λ sc, existsb useful (handleKeyDown (pressed sc.1)) = true) SHORTCUTS =
    [([Navigate "/graph"], "Go to Graph"); ([Navigate "/stream"], "Go to Stream");
     ([Navigate "/timeline"], "Go to Timeline"); ([Navigate "/replay"], "Go to Replay");
     ([Dispatch "kprobe:escape"], "Deselect / close panel")].
Proof. split; [by vm_compute|]. split; [by repeat constructor|by vm_compute]. Qed.
