(* ===== verification/Session.v ===== *)
(** * App.tsx, RequireAuth.tsx and pages/Login.tsx: signing in and out

    The session of a browser tab: the token, the login form, the theme and the
    address.  One step is one callback run to completion.  The router is a class:
    which addresses a path pattern matches is its affair. *)

From S2P Require Import Prelude JsNumber JsString Json Events WireEvent Auth Connection View Icons Shell.
Open Scope Z_scope.

(** ** The login form *)

Record Login := mkLogin { username : string; password : string; error : jsval; loading : bool }.

Definition login_initial : Login := mkLogin "" "" (JStr "") false.

(** How the request ends: it fails or its body is no JSON, or the body and whether
    the response is [ok]. *)
Inductive login_outcome := LoginFails | LoginAnswer (ok : bool) (body : jsval).

Definition unavailable : jsval := JStr "API unavailable. Start the stack with `make dev`.".

(** [handleSubmit] up to the request. *)
Definition handleSubmit (l : Login) : Login := mkLogin (username l) (password l) (JStr "") true.

(** The token and the error of an answer: [inl] is the token of an accepted one,
    [inr] the error shown. *)
Definition verdict (r : login_outcome) : string + jsval :=
  match r with
  | LoginFails => inr unavailable
  | LoginAnswer ok body =>
      let rejected := match get body "error" with
                      | Some e => inr (js_or e (JStr "Invalid credentials."))
                      | None => inr unavailable
                      end in
      if negb ok then rejected else
      match get body "token" with
      | None => inr unavailable
      | Some t => if negb (truthy t) then rejected else
                  match string_of t with Return s => inl s | Throw _ => inr unavailable end
      end
  end.

(** The rest of [handleSubmit]: the token and form it leaves, and whether [onAuth]
    was called; [storage] is false when the storage refuses the token. *)
Definition login_answered (r : login_outcome) (storage : bool) (a : Auth) (l : Login) : Auth * Login * bool :=
  let form err := mkLogin (username l) (password l) err false in
  match verdict r with
  | inl t => if storage then (setToken true t a, form (error l), true)
             else (setToken false t a, form unavailable, false)
  | inr err => (a, form err, false)
  end.

Definition submit_disabled (l : Login) : bool :=
  loading l || bool_decide (username l = "") || bool_decide (password l = "").

(** ** The session *)

Class Router := matches : string → string → bool.

Definition ROUTES : list string := ["/stream"; "/graph"; "/timeline"; "/replay"; "/settings"].

Record Session := mkSession {
  auth : Auth;
  authed : bool;
  dark : bool;
  form : Login;
  path : string
}.

(** The redirections of the routes: the index one is inside [RequireAuth]. *)
Definition settle `{Router} (authed : bool) (p : string) : string :=
  if matches "/" p then if authed then "/stream" else p
  else if existsb (λ r, matches r p) ROUTES then p
  else "/stream".

(** Loading the console at an address, with what the storage holds. *)
Definition load `{Router} (stored : option string) (p : string) : Session :=
  let a := load_module stored in
  mkSession a (isAuthenticated a) true login_initial (settle (isAuthenticated a) p).

Definition with_form (l : Login) (s : Session) : Session :=
  mkSession (auth s) (authed s) (dark s) l (path s).

(** [handleAuth] where the answer calls it; the form is unmounted then. *)
Definition answered `{Router} (r : login_outcome) (storage : bool) (s : Session) : Session :=
  let '(a, l, ok) := login_answered r storage (auth s) (form s) in
  if ok then mkSession a true (dark s) login_initial (settle true (path s))
  else mkSession a (authed s) (dark s) l (path s).

Definition handleLogout `{Router} (s : Session) : Session :=
  mkSession (clearToken (auth s)) false (dark s) login_initial (settle false (path s)).

Definition handleThemeToggle (s : Session) : Session :=
  mkSession (auth s) (authed s) (negb (dark s)) (form s) (path s).

Definition visit `{Router} (p : string) (s : Session) : Session :=
  mkSession (auth s) (authed s) (dark s) (form s) (settle (authed s) p).

(** An effect of the frame's keyboard listener. *)
Definition run_effect `{Router} (s : Session) (f : effect) : Session :=
  match f with Navigate p => visit p s | _ => s end.

Inductive session_action :=
  | Username (v : string) | Password (v : string) | Submit
  | Answered (r : login_outcome) (storage : bool)
  | Frame (a : frame_action) | KeyDown (e : key_event)
  | Visit (p : string) | Reload.

(** The form exists while signed out, the frame while signed in. *)
Definition session_enabled (s : Session) (a : session_action) : Prop :=
  match a with
  | Username _ | Password _ => authed s = false
  | Submit => authed s = false ∧ submit_disabled (form s) = false
  | Answered _ _ => authed s = false ∧ loading (form s) = true
  | Frame _ | KeyDown _ => authed s = true
  | Visit _ | Reload => True
  end.

Definition session_apply `{Router} (s : Session) (a : session_action) : Session :=
  match a with
  | Username v => with_form (mkLogin v (password (form s)) (error (form s)) (loading (form s))) s
  | Password v => with_form (mkLogin (username (form s)) v (error (form s)) (loading (form s))) s
  | Submit => with_form (handleSubmit (form s)) s
  | Answered r storage => answered r storage s
  | Frame Logout => handleLogout s
  | Frame ThemeToggle => handleThemeToggle s
  | Frame (Follow p) => visit p s
  | KeyDown e => foldl run_effect s (handleKeyDown e)
  | Visit p => visit p s
  | Reload => load (stored (auth s)) (path s)
  end.

(** ** Rendering *)

Record mock_event := mkMock { mock_ts : string; mock_type : string; mock_detail : string;
                              highlight : bool; muted : bool }.

Definition MOCK_EVENTS : list mock_event :=
  [mkMock "03:47:12.004" "tcp_send" "api-worker → checkout-service" false false;
   mkMock "03:47:12.005" "sys_write" "fd=7 · database write initiated" false false;
   mkMock "03:47:12.821" "page_fault" "PID 4721 · batch-job memory pressure" false false;
   mkMock "03:47:12.822" "sched_switch" "preempted · CPU 3 → PID 4721" true false;
   mkMock "03:47:13.210" "sched_switch" "resumed · CPU 3 · 388ms delayed" false false;
   mkMock "03:47:13.621" "sys_write" "fd=7 · completed · 802ms total" false false;
   mkMock "03:47:13.622" "tcp_recv" "timeout — api-worker · ERR" false true].

Definition mock_row (ev : mock_event) : view session_action :=
  Elem "div" [("style", "streamRow" +:+ (if highlight ev then " streamRowHighlight" else "") +:+
                        (if muted ev then " streamRowMuted" else ""))] []
    [sspan "streamTs" (mock_ts ev);
     span [("style", if highlight ev then "streamType streamTypeAccent" else "streamType")] (mock_type ev);
     sspan "streamDetail" (mock_detail ev)].

Definition metaRow (text : string) : view session_action :=
  sdiv "metaRow" [Elem "span" [("style", "metaDot")] [] []; sspan "metaText" text].

Definition login_left : view session_action :=
  sdiv "left"
    [sdiv "leftInner"
      [sdiv "wordmark" [sspan "wordmarkK" "k"; sspan "wordmarkProbe" "probe"];
       Elem "p" [("style", "leftTagline")] []
         [Text "Kernel-level observability"; Elem "br" [] [] []; Text "for production systems."];
       sdiv "leftMeta"
        [metaRow "eBPF · zero instrumentation"; metaRow "causal graphs · nanosecond precision";
         metaRow "deterministic incident replay"]];
     sdiv "streamDecor"
      (sdiv "streamLabel" [Elem "span" [("style", "streamPulse")] [] []; Text "live · kernel event stream"] ::
       (mock_row <$> MOCK_EVENTS))].

(** React shows text and numbers; the code expects a text. *)
Definition error_text (v : jsval) : string :=
  match v with JStr s => s | JNum x => num_to_string x | _ => "" end.

(** A field, with the attributes only it has; the handler is that of an unchanged text. *)
Definition login_field (id label type_ : string) (extra : list (string * string))
    (placeholder value : string) (err : jsval) (change : string → session_action) : view session_action :=
  sdiv "field"
    [Elem "label" [("style", "label"); ("htmlFor", id)] [] [Text label];
     Elem "input" ([("id", id); ("type", type_); ("value", value); ("placeholder", placeholder);
                    ("style", if truthy err then "input inputError" else "input")] ++ extra)
       [("onChange", change value)] []].

Definition error_icon : drawing := mkDrawing "13"
  [("circle", [("cx", "6.5"); ("cy", "6.5"); ("r", "5.5"); ("stroke", "var(--accent)"); ("strokeWidth", "1.1")]);
   ("path", [("d", "M6.5 4v3M6.5 9v.5"); ("stroke", "var(--accent)"); ("strokeWidth", "1.2"); ("strokeLinecap", "round")])].

(** Submitting the form goes through its button, which may be disabled. *)
Definition login_form (l : Login) : view session_action :=
  Elem "form" [("style", "form")] []
    ([login_field "username" "Username" "text"
        [("autoComplete", "username"); ("autoFocus", "true"); ("spellCheck", "false")]
        "username" (username l) (error l) Username;
      login_field "password" "Password" "password" [("autoComplete", "current-password")]
        "••••••" (password l) (error l) Password] ++
     when (truthy (error l))
       [sdiv "errorRow" [icon error_icon; sspan "errorText" (error_text (error l))]] ++
     [Elem "button"
        [("type", "submit"); ("disabled", if submit_disabled l then "true" else "false");
         ("style", if submit_disabled l then "submitBtn submitBtnDisabled" else "submitBtn")]
        [("onSubmit", Submit)]
        (if loading l then
           [Elem "span" [("style", "loadingRow")] []
              [Elem "span" [("style", "spinner")] [] []; Text "Authenticating…"]]
         else [Text "Sign in"])]).

Definition LoginPage (l : Login) : view session_action :=
  sdiv "root"
    [login_left;
     sdiv "right"
      [sdiv "card"
        [sdiv "cardHeader" [sdiv "cardTitle" [Text "Sign in"];
                            sdiv "cardSub" [Text "Access the kprobe console"]];
         login_form l];
       sdiv "rightFooter" [sspan "rightFooterText" "kprobe · infrastructure console";
                           sspan "rightFooterText" "Rust · Go · eBPF"]]].

Fixpoint map_view {A B} (f : A → B) (v : view A) : view B :=
  match v with
  | Text s => Text s
  | Elem tag attrs on kids =>
      Elem tag attrs ((λ h, (h.1, f h.2)) <$> on)
        ((fix go (l : list (view A)) := match l with [] => [] | k :: l => map_view f k :: go l end) kids)
  end.

Definition PageLoader : view frame_action :=
  Elem "div" [("display", "flex"); ("alignItems", "center"); ("justifyContent", "center"); ("height", "100%");
              ("fontFamily", "var(--font-mono)"); ("fontSize", "0.7rem"); ("color", "var(--text-muted)");
              ("opacity", "0.5")] [] [Text "loading..."].

(** [page] is what the router puts in the outlet, or nothing while its module is
    still loading. *)
Definition RequireAuth (https : bool) (host : string) (status : ConnectionStatus)
    (page : option (view frame_action)) (s : Session) : view session_action :=
  if negb (authed s) then LoginPage (form s)
  else map_view Frame (Shell https host (path s) status (dark s) (default PageLoader page)).

(** ** The server's side of the login *)

(** [LoginHandler] on a well-formed request: [sign] makes the token, and may fail. *)
Definition LoginHandler (user pass : string) (sign : string → option string) (u p : string) : login_outcome :=
  if negb (bool_decide (u = user) && bool_decide (p = pass)) then
    LoginAnswer false (JObj [("error", JStr "invalid credentials")])
  else match sign u with
       | None => LoginAnswer false (JObj [("error", JStr "internal error")])
       | Some t => LoginAnswer true (JObj [("token", JStr t)])
       end.

(** ** The invariant *)

Class RouterLaws `{Router} := {
  matches_route r : r ∈ ROUTES → matches r r = true;
  index_route r : r ∈ ROUTES → matches "/" r = false
}.

Section session.
Context `{RouterLaws}.

Inductive session_reachable : Session → Prop :=
  | session_load stored p : session_reachable (load stored p)
  | session_act s a : session_reachable s → session_enabled s a → session_reachable (session_apply s a).

(** Whether the address shows one of the pages. *)
Definition on_route (p : string) : Prop := matches "/" p = false ∧ existsb (λ r, matches r p) ROUTES = true.

Definition session_ok (s : Session) : Prop :=
  (authed s = true → is_Some (getToken (auth s)) ∧ form s = login_initial ∧ on_route (path s)) ∧
  (authed s = false → stored (auth s) = None) ∧
  (stored (auth s) = None ∨ stored (auth s) = getToken (auth s)).

Lemma stream_on_route : on_route "/stream".
Proof.
  assert ("/stream" ∈ ROUTES) as Hin by (unfold ROUTES; set_solver).
  split; [by apply index_route|]. apply existsb_exists. exists "/stream".
  split; [by rewrite <-list_elem_of_In|by apply matches_route].
Qed.

Lemma settle_on_route p : on_route (settle true p).
Proof.
  unfold settle. destruct (matches "/" p) eqn:E; [apply stream_on_route|].
  destruct (existsb _ ROUTES) eqn:E'; [by split|apply stream_on_route].
Qed.

Lemma load_ok st p : session_ok (load st p).
Proof.
  unfold load, session_ok. destruct st as [t|]; simpl; [|naive_solver].
  split_and!; [|done|by right]. intros _. split_and!; [by eexists|done|apply settle_on_route].
Qed.

Lemma visit_ok p s : session_ok s → session_ok (visit p s).
Proof.
  intros (Ha & Hs & Ht). split_and!; [|done|done]. simpl. intros E. destruct (Ha E) as (? & ? & _).
  rewrite E. split_and!; [done|done|apply settle_on_route].
Qed.

Lemma answered_ok r st s : session_ok s → authed s = false → session_ok (answered r st s).
Proof.
  intros (_ & Hs & Ht) E. specialize (Hs E). unfold answered, login_answered, session_ok.
  destruct (verdict r) as [t|err]; [destruct st|]; simpl; rewrite ?E, ?Hs; [|naive_solver..].
  split_and!; [|done|by right]. intros _. split_and!; [by eexists|done|apply settle_on_route].
Qed.

Lemma session_apply_ok s a : session_ok s → session_enabled s a → session_ok (session_apply s a).
Proof.
  intros Hok Hen. destruct a as [v|v| |r st|[]|e|p|]; simpl in *.
  1-3: destruct Hok as (Ha & Hs & Ht); unfold session_ok; simpl; split_and!; [intros E; destruct_and?; congruence|done|done].
  - apply answered_ok; naive_solver.
  - by repeat split; auto.
  - exact Hok.
  - by apply visit_ok.
  - clear Hen. revert s Hok. induction (handleKeyDown e) as [|f l IH]; intros s Hok; simpl; [done|].
    apply IH. destruct f; simpl; auto using visit_ok.
  - by apply visit_ok.
  - apply load_ok.
Qed.

Lemma session_reachable_ok s : session_reachable s → session_ok s.
Proof. induction 1; auto using load_ok, session_apply_ok. Qed.

(** C27: the console behind the login.  In every reachable state of a tab a signed-in
    session holds a token and shows one of the five pages, and only a token it holds
    is in the storage; a signed-out one has nothing in the storage, so that reloading
    the tab never signs anybody in. *)
Theorem session_invariant s :
  session_reachable s →
  (authed s = true → is_Some (getToken (auth s)) ∧ on_route (path s)) ∧
  (authed s = false → stored (auth s) = None) ∧
  (stored (auth s) = None ∨ stored (auth s) = getToken (auth s)) ∧
  (authed (session_apply s Reload) = true → authed s = true).
Proof.
  intros Hs. destruct (session_reachable_ok s Hs) as (Ha & Hn & Ht).
  split_and!; [intros E; by destruct (Ha E) as (? & _ & ?)|done|done|]. destruct (authed s); [done|]. simpl. by rewrite Hn.
Qed.

(** Logging in against the server.  Whatever name and password the form holds,
    submitting it and receiving the server's answer signs in exactly when they are
    the configured ones and the token could be signed, and then that token is held
    and sent with every request; otherwise the form is ready again, showing the
    server's reason, and no token is held. *)
Lemma login_spec user pass sign s :
  authed s = false → getToken (auth s) = None → (∀ u t, sign u = Some t → t ≠ "") →
  let u := username (form s) in
  let s' := session_apply (session_apply s Submit)
              (Answered (LoginHandler user pass sign u (password (form s))) true) in
  (authed s' = true ↔ u = user ∧ password (form s) = pass ∧ is_Some (sign u)) ∧
  (∀ t, authed s' = true → sign u = Some t →
    stored (auth s') = Some t ∧ authHeaders (auth s') = [("Authorization", "Bearer " +:+ t)]) ∧
  (authed s' = false → getToken (auth s') = None ∧ loading (form s') = false ∧
    error (form s') = JStr (if decide (u = user ∧ password (form s) = pass)
                            then "internal error" else "invalid credentials")).
Proof.
  intros Ha Ht Hsign. simpl. unfold answered, login_answered, LoginHandler. simpl.
  destruct (bool_decide_reflect (username (form s) = user)) as [Hu|Hu],
    (bool_decide_reflect (password (form s) = pass)) as [Hp|Hp]; simpl;
    try (rewrite Ha, Ht; split_and!; [naive_solver|naive_solver|]; intros _; rewrite decide_False by tauto;
         by split_and!).
  destruct (sign (username (form s))) as [t|] eqn:Es; simpl.
  - rewrite bool_decide_eq_true_2 by eauto. simpl. split_and!; [split; [by eauto|done]| |done].
    intros t' _ [= <-]. split; [done|]. unfold authHeaders. simpl. by rewrite decide_False by eauto.
  - rewrite Ha, Ht. split_and!; [naive_solver|naive_solver|]. intros _. by rewrite decide_True by done.
Qed.
End session.

(** ** Witnesses *)

Definition exact_router : Router := λ pattern p, bool_decide (pattern = p).

Lemma exact_router_laws : @RouterLaws exact_router.
Proof.
  split; unfold matches, exact_router; intros r Hr; [by apply bool_decide_eq_true|].
  unfold ROUTES in Hr. set_unfold in Hr. apply bool_decide_eq_false. naive_solver.
Qed.

Definition sign_name (u : string) : option string := Some ("jwt-" +:+ u).

(** Opened at the index, filled in and answered; then the key G. *)
Definition sample_session : Session :=
  foldl (@session_apply exact_router) (@load exact_router None "/")
    [Username "admin"; Password "secret"; Submit;
     Answered (LoginHandler "admin" "secret" sign_name "admin" "secret") true;
     KeyDown (pressed ["g"])].

Lemma sample_session_reachable : @session_reachable exact_router sample_session.
Proof.
  unfold sample_session. cbn [foldl].
  repeat (apply session_act; [|by vm_compute]). apply session_load.
Qed.

Lemma session_invariant_witness :
  path sample_session = "/graph" ∧ is_Some (getToken (auth sample_session)).
Proof.
  split; [by vm_compute|].
  destruct (@session_invariant exact_router exact_router_laws sample_session sample_session_reachable)
    as (Ha & _). apply Ha. by vm_compute.
Defined.

Definition typed (p : string) : Session :=
  foldl (@session_apply exact_router) (@load exact_router None "/graph") [Username "admin"; Password p].

Lemma login_spec_witness :
  authed (@session_apply exact_router (@session_apply exact_router (typed "secret") Submit)
    (Answered (LoginHandler "admin" "secret" sign_name "admin" "secret") true)) = true ∧
  error (form (@session_apply exact_router (@session_apply exact_router (typed "guess") Submit)
    (Answered (LoginHandler "admin" "secret" sign_name "admin" "guess") true))) = JStr "invalid credentials".
Proof.
  split.
  - apply (@login_spec exact_router "admin" "secret" sign_name (typed "secret"));
      [by vm_compute|by vm_compute|by intros ?? [= <-]|]. split_and!; [by vm_compute|by vm_compute|by eexists].
  - apply (@login_spec exact_router "admin" "secret" sign_name (typed "guess"));
      [by vm_compute|by vm_compute|by intros ?? [= <-]|by vm_compute].
Defined.
