(* ===== verification/Console.v ===== *)
(** * App.tsx: the session and the connection together

    [RequireAuth] mounts the connection's provider while somebody is signed in, and
    React drops it, state and all, on signing out.  This file composes [Session] and
    [Connection] accordingly: the provider reads the session's token, and the frame
    shows the provider's status. *)

From S2P Require Import Prelude JsNumber JsString Json Events Auth Connection View Shell Session.
Open Scope Z_scope.

Record Console := mkConsole {
  session : Session;
  provider : option Conn
}.

(** The provider that is mounted where there was [p]; [ok] tells whether the socket
    of a new one could be made. *)
Definition provide (authed ok : bool) (p : option Conn) : option Conn :=
  if authed then Some (default (apply initial (Mount ok)) p) else None.

Definition load_console `{Router} (stored : option string) (p : string) (ok : bool) : Console :=
  let s := load stored p in mkConsole s (provide (authed s) ok None).

Inductive console_action :=
  | InSession (a : session_action) (ok : bool)
  | InProvider (a : action).

(** A reload drops the provider with the rest of the tab. *)
Definition console_apply `{Router} (k : Console) (a : console_action) : Console :=
  match a with
  | InSession a ok =>
      let s := session_apply (session k) a in
      mkConsole s (provide (authed s) ok (match a with Reload => None | _ => provider k end))
  | InProvider a => mkConsole (session k) ((λ c, apply c a) <$> provider k)
  end.

(** The history is asked for with the token of the session. *)
Definition console_enabled (k : Console) (a : console_action) : Prop :=
  match a with
  | InSession a _ => session_enabled (session k) a
  | InProvider a =>
      match provider k with
      | None => False
      | Some c => enabled c a ∧
          match a with HistoryDone _ token _ => token = getToken (auth (session k)) | _ => True end
      end
  end.

(** Where the provider connects to. *)
Definition socket_url (encode : string → string) (https : bool) (host : string) (k : Console) : string :=
  getWsUrl encode https host (getToken (auth (session k))).

(** The document: the frame shows the status of the provider it is mounted in. *)
Definition App (https : bool) (host : string) (page : option (view frame_action)) (k : Console) :
    view session_action :=
  RequireAuth https host (from_option status connecting (provider k)) page (session k).

(** ** The composition *)

Section console.
Context `{RouterLaws}.

Inductive console_reachable : Console → Prop :=
  | console_load stored p ok : console_reachable (load_console stored p ok)
  | console_act k a : console_reachable k → console_enabled k a → console_reachable (console_apply k a).

Lemma provide_ok b ok p :
  (∀ c, p = Some c → reachable c) →
  (is_Some (provide b ok p) ↔ b = true) ∧ ∀ c, provide b ok p = Some c → reachable c.
Proof.
  intros Hp. unfold provide. destruct b; [|by split; [split; [by intros []|done]|]].
  split; [by split|]. intros c [= <-]. destruct p as [c|]; [by apply Hp|].
  apply (reach_step initial (Mount ok)); [apply reach_initial|done].
Qed.

(** The session of a reachable console is reachable on its own, and the provider too. *)
Lemma console_parts k :
  console_reachable k →
  session_reachable (session k) ∧
  (is_Some (provider k) ↔ authed (session k) = true) ∧ ∀ c, provider k = Some c → reachable c.
Proof.
  induction 1 as [st p ok|k [a ok|a] Hk (IHs & IHa & IHc) Hen]; simpl.
  - split; [apply session_load|]. by apply provide_ok.
  - split; [by apply session_act|]. apply provide_ok. destruct a; try done; by apply IHc.
  - split; [done|]. rewrite fmap_is_Some. split; [done|].
    intros c' (c & Hc & ->)%fmap_Some. simpl in Hen. rewrite Hc in Hen.
    apply reach_step; [by apply IHc|apply Hen].
Qed.

(** C28: the whole console.  Signed out, there is no provider: no socket, no pending
    reconnect, no message.  Signed in, there is one, in a state the connection can
    reach on its own, so that everything shown of it holds; it never reports the demo
    mode, and the session holds the token it connects with.  Whoever signs in starts
    from an empty list, and signing out leaves neither provider nor token. *)
Theorem console_invariant k :
  console_reachable k →
  (is_Some (provider k) ↔ authed (session k) = true) ∧
  (∀ c, provider k = Some c → reachable c ∧ conn_ok c ∧ status c ≠ mock ∧
    ∃ t, getToken (auth (session k)) = Some t ∧
      (t ≠ "" → ∀ encode https host, includes (socket_url encode https host k) (encode t) = true)) ∧
  (∀ a ok c, console_enabled k (InSession a ok) → authed (session k) = false →
    provider (console_apply k (InSession a ok)) = Some c → messages c = [] ∧ seenEventKeys c = ∅) ∧
  (∀ ok, let k' := console_apply k (InSession (Frame Logout) ok) in
    provider k' = None ∧ getToken (auth (session k')) = None ∧ stored (auth (session k')) = None).
Proof.
  intros Hk. destruct (console_parts k Hk) as (Hs & Hp & Hc). split_and!; try done.
  - intros c E. pose proof (Hc c E) as Hr.
    split_and!; [done|by apply reachable_conn_ok|by apply status_is_live|].
    destruct (session_reachable_ok _ Hs) as (Ha & _).
    destruct Ha as ([t Ht] & _); [apply Hp; by exists c|]. exists t. split; [done|].
    intros Hne encode https host. unfold socket_url, getWsUrl. rewrite Ht, decide_False by done.
    apply includes_spec.
    exists ((if https then "wss:" else "ws:") +:+ "//" +:+ host +:+ "/ws" +:+ "?access_token="), "".
    by rewrite app_nil_s, !app_assoc_s.
  - intros a ok c Hen Hout. simpl. unfold provide.
    assert (provider k = None) as ->.
    { destruct (provider k) eqn:E; [|done]. destruct Hp as [Hp _]. rewrite Hp in Hout by eauto. done. }
    destruct (authed (session_apply (session k) a)); [|by intros].
    intros [= <-]. destruct a, ok; by split.
Qed.

(** The address the frame shows is the one the provider connects to, but for the
    token. *)
Lemma endpoint_is_url encode https host st :
  st ≠ mock → endpointLabel https host st = getWsUrl encode https host None.
Proof. intros Hst. unfold endpointLabel, getWsUrl. by rewrite decide_False, app_nil_s by done. Qed.
End console.

(** ** Witness *)

(** Signed in at the index; the socket opens and the history fails. *)
Definition sample_console : Console :=
  foldl (@console_apply exact_router) (@load_console exact_router (Some "jwt-admin") "/" true)
    [InProvider Opened; InProvider (HistoryDone 1 (Some "jwt-admin") FetchFails);
     InProvider (Message sample_line); InProvider Flush].

Lemma sample_console_reachable : @console_reachable exact_router sample_console.
Proof.
  unfold sample_console. cbn [foldl].
  repeat (apply console_act; [|vm_compute; repeat split; try left]). apply console_load.
Qed.

Lemma console_invariant_witness :
  path (session sample_console) = "/stream" ∧
  (messages <$> provider sample_console) = Some [mkMsg 1 sample_line] ∧
  provider (@console_apply exact_router sample_console (InSession (Frame Logout) true)) = None.
Proof.
  split; [by vm_compute|]. split; [by vm_compute|].
  apply (@console_invariant exact_router exact_router_laws sample_console sample_console_reachable).
Defined.
