(* ===== verification/Search.v ===== *)
(** * The documentation search: SearchModal.tsx and search-index.json.ts

    The index the site is built with, the scoring of an entry, and the dialog: its
    state, the request for the index, the keys and what it renders.  The index
    request's answer is taken at its declared type.  Scrolling and focus are left
    out; an icon of the icon library is an element of its own name. *)

From S2P Require Import Prelude JsNumber JsString Json View.
Open Scope Z_scope.

Record SearchEntry := mkEntry { title : string; href : string; section : string; description : string }.

#[export] Instance SearchEntry_eq_dec : EqDecision SearchEntry.
Proof. solve_decision. Defined.

(** ** The index *)

Definition pageSections : list (string * string) :=
  [("api", "API Reference"); ("concepts", "Core Concepts"); ("configuration", "Configuration");
   ("dashboard", "Dashboard"); ("how-it-works", "How It Works"); ("install", "Install");
   ("operations", "Operations"); ("reference", "Reference"); ("security", "Security");
   ("troubleshooting", "Troubleshooting"); ("use-cases", "Use Cases")].

Definition non_empty (l : list string) : list string := filter (λ s, s ≠ "") l.

Definition capitalize (word : string) : string :=
  match word with "" => "" | String c s => String (upper_char c) s end.

Definition titleFromSlug (slug : string) : string :=
  match last (non_empty (split_char "/" slug)) with
  | Some part => join " " (capitalize <$> split_char "-" part)
  | None => "Docs"
  end.

(** The index of the object would also find a member of Object.prototype; no page
    is called like one. *)
Definition sectionFromSlug (slug : string) : string :=
  default "Start Here" (part ← head (non_empty (split_char "/" slug)); map_get part pageSections).

(** [s.replace(p, "")] for a string [p]: its first occurrence. *)
Fixpoint drop_bytes (n : nat) (s : string) : string :=
  match n, s with S n, String _ s => drop_bytes n s | _, _ => s end.

Fixpoint remove_first (p s : string) : string :=
  if starts_with s p then drop_bytes (String.length p) s
  else match s with "" => "" | String c s => String c (remove_first p s) end.

(** [s.replace(/p$/, "")]: [p] at the end. *)
Definition remove_suffix (p s : string) : string :=
  if starts_with (srev s) (srev p) then srev (drop_bytes (String.length p) (srev s)) else s.

Definition slug_of (path : string) : string :=
  remove_suffix ".mdx" (remove_suffix "/index.mdx" (remove_first "./docs/" path)).

(** One file of the documentation: its path, and the title and description of its
    front matter. *)
Definition entry_of (doc : string * (option string * option string)) : SearchEntry :=
  let slug := slug_of doc.1 in
  mkEntry (match doc.2.1 with Some t => if decide (t = "") then titleFromSlug slug else t
                             | None => titleFromSlug slug end)
    (if decide (slug = "index") then "/docs" else "/docs/" +:+ slug)
    (sectionFromSlug slug) (default "" doc.2.2).

Definition site_pages : list SearchEntry :=
  [mkEntry "Home" "/" "Pages" "Kernel-level incident forensics, causal graphs, and replay for production systems.";
   mkEntry "About" "/about" "Pages" "Why kprobe exists and how kernel-level forensics fits into production debugging.";
   mkEntry "Compare" "/compare" "Pages" "Compare kprobe with Datadog, Jaeger, OpenTelemetry, and Prometheus."].

Definition by_href `{Collation} (left right : SearchEntry) : bool := 0 <? localeCompare (href left) (href right).

Definition entries `{Collation} (docs : list (string * (option string * option string))) : list SearchEntry :=
  js_sort by_href ((entry_of <$> docs) ++ site_pages).

Definition entry_json (e : SearchEntry) : jsval :=
  JObj [("title", JStr (title e)); ("description", JStr (description e)); ("href", JStr (href e));
        ("section", JStr (section e))].

(** [GET]: the body of the answer. *)
Definition GET `{Collation} (docs : list (string * (option string * option string))) : option string :=
  stringify (JArr (entry_json <$> entries docs)).

(** ** Scoring *)

Definition starts_with_space (s : string) : bool :=
  match s with "" => false | String c _ => is_space c end.

(** [s.split(/\s+/)]. *)
Fixpoint split_spaces (s : string) : list string :=
  match s with
  | "" => [""]
  | String c t =>
      if is_space c then if starts_with_space t then split_spaces t else "" :: split_spaces t
      else match split_spaces t with w :: ws => String c w :: ws | [] => [String c ""] end
  end.

Definition points (b : bool) (n : Z) : Z := if b then n else 0.

Definition part_score (title description : string) (value : Z) (part : string) : Z :=
  if (js_length part <? 2)%nat then value
  else value + points (includes title part) 10 + points (includes description part) 4.

(** The points of the whole query. *)
Definition whole_score (title section description href q : string) : Z :=
  points (bool_decide (title = q)) 100 + points (starts_with title q) 60 + points (includes title q) 40 +
  points (includes section q) 20 + points (includes description q) 12 + points (includes href q) 6.

Definition score (entry : SearchEntry) (query : string) : Z :=
  let q := to_lower (trim query) in
  if decide (q = "") then 1 else
  let title := to_lower (title entry) in
  let section := to_lower (section entry) in
  let description := to_lower (description entry) in
  let href := to_lower (href entry) in
  let value := whole_score title section description href q in
  foldl (part_score title description) value (split_spaces q).

(** ** The dialog *)

Definition fallbackPages : list SearchEntry :=
  [mkEntry "Overview" "/docs" "Start Here" "kprobe documentation overview";
   mkEntry "Installation Overview" "/docs/installation" "Install" "Choose the right kprobe installation path";
   mkEntry "Architecture at a Glance" "/docs/architecture" "Start Here"
     "The high-level architecture of kprobe"].

Record Search := mkSearch {
  is_open : bool;
  query : string;
  selected : Z;
  fetched : option (list SearchEntry);   (* [pages], unless it still is [fallbackPages] *)
  loading : bool;
  request : bool                         (* a request that was not cancelled is pending *)
}.

Definition search_initial : Search := mkSearch false "" 0 None false false.

Definition pages (s : Search) : list SearchEntry := default fallbackPages (fetched s).

(** The comparator (left, right) => right.score - left.score. *)
Definition by_score (left right : SearchEntry * Z) : bool := left.2 <? right.2.

Definition ranked (pages : list SearchEntry) (q : string) : list (SearchEntry * Z) :=
  js_sort by_score (filter (λ item, 0 < item.2) ((λ e, (e, score e q)) <$> pages)).

Definition filtered (s : Search) : list SearchEntry :=
  let q := trim (query s) in
  if decide (q = "") then take 12 (pages s) else (take 12 (ranked (pages s) q)).*1.

(** [setOpen(true)] and the effects of the change: the index is asked for unless
    it is there. *)
Definition open_dialog (s : Search) : Search :=
  if is_open s then s
  else match fetched s with
       | None => mkSearch true "" 0 None true true
       | Some _ => mkSearch true "" 0 (fetched s) (loading s) false
       end.

(** [setOpen(false)], whose cleanup cancels the request. *)
Definition onClose (s : Search) : Search :=
  if is_open s then mkSearch false (query s) (selected s) (fetched s) (loading s) false else s.

(** How the request ends: it fails, is refused, or answers a list or something
    that is none. *)
Inductive index_outcome := IndexFails | IndexNotOk | IndexAnswer (entries : option (list SearchEntry)).

(** A cancelled request changes nothing. *)
Definition index_answered (r : index_outcome) (s : Search) : Search :=
  if negb (request s) then s
  else
    let pages := match r with IndexAnswer (Some (e :: l)) => Some (e :: l) | _ => fetched s end in
    mkSearch (is_open s) (query s) (selected s) pages false false.

Definition setQuery (v : string) (s : Search) : Search :=
  mkSearch (is_open s) v (if decide (v = query s) then selected s else 0) (fetched s) (loading s) (request s).

Definition setSelected (i : Z) (s : Search) : Search :=
  mkSearch (is_open s) (query s) i (fetched s) (loading s) (request s).

(** Both key listeners; the second component is where the browser goes. *)
Definition handle_key (command : bool) (key : string) (s : Search) : Search * option string :=
  if command && bool_decide (to_lower key = "k") then (if is_open s then onClose s else open_dialog s, None)
  else if negb (is_open s) then (s, None)
  else
    let n := Z.of_nat (length (filtered s)) in
    if decide (key = "ArrowDown") then (setSelected (Z.min (selected s + 1) (Z.max (n - 1) 0)) s, None)
    else if decide (key = "ArrowUp") then (setSelected (Z.max (selected s - 1) 0) s, None)
    else if decide (key = "Enter") then (s, href <$> filtered s !! Z.to_nat (selected s))
    else if decide (key = "Escape") then (onClose s, None)
    else (s, None).

Inductive search_action :=
  | Trigger | Close | Type_ (v : string) | Hover (i : Z) | Key (command : bool) (key : string)
  | Answer (r : index_outcome).

Definition search_apply (s : Search) (a : search_action) : Search :=
  match a with
  | Trigger => open_dialog s
  | Close => onClose s
  | Type_ v => setQuery v s
  | Hover i => setSelected i s
  | Key command key => (handle_key command key s).1
  | Answer r => index_answered r s
  end.

(** An icon of lucide-react, with the class it is given. *)
Definition lucide {A} (name size : string) (class : list string) : view A :=
  Elem name (("size", size) :: (pair "className" <$> class)) [] [].

Definition result_item (sel : Z) (i : nat) (item : SearchEntry) : view search_action :=
  let on := bool_decide (Z.of_nat i = sel) in
  Elem "a" [("href", href item); ("className", "result-item " +:+ if on then "result-selected" else "")]
    [("onMouseEnter", Hover (Z.of_nat i)); ("onClick", Close)]
    ([lucide "FileText" "14" ["result-icon"];
      Elem "div" [("className", "result-text")] []
       [Elem "div" [("className", "result-title")] [] [Text (title item)];
        Elem "div" [("className", "result-desc")] [] [Text (description item)]];
      span [("className", "result-section")] (section item)] ++
     when on [lucide "ChevronRight" "14" ["result-arrow"]]).

Definition SearchModal (s : Search) : list (view search_action) :=
  when (is_open s)
   [Elem "div" [("className", "modal-overlay")] [("onClick", Close)]
     [Elem "div" [("className", "modal"); ("role", "dialog"); ("aria-modal", "true"); ("aria-label", "Search kprobe docs")] []
       [Elem "div" [("className", "modal-input-row")] []
         [lucide "Search" "16" ["search-icon"];
          Elem "input" [("className", "modal-input"); ("placeholder", "Search docs, guides, APIs...");
                        ("value", query s); ("autoComplete", "off"); ("spellCheck", "false")]
            [("onChange", Type_ (query s))] [];
          Elem "button" [("className", "close-btn"); ("aria-label", "Close")] [("onClick", Close)]
            [lucide "X" "14" []]];
        Elem "div" [("className", "modal-results")] []
         (when (loading s) [Elem "div" [("className", "no-results")] [] [Text "Loading search index..."]] ++
          when (negb (loading s) && bool_decide (filtered s = []))
            [Elem "div" [("className", "no-results")] []
              [Text "No results for "; Text (String (chr 34) (query s +:+ String (chr 34) ""))]] ++
          when (negb (loading s)) (imap (result_item (selected s)) (filtered s)));
        Elem "div" [("className", "modal-footer")] []
         [Elem "span" [("className", "hint")] []
            [lucide "ArrowUp" "11" []; lucide "ArrowDown" "11" []; Text " navigate"];
          Elem "span" [("className", "hint")] [] [lucide "CornerDownLeft" "11" []; Text " open"];
          span [("className", "hint")] "esc close"]]]].

(** ** What scores *)

Lemma points_nonneg b n : 0 ≤ n → 0 ≤ points b n.
Proof. by destruct b. Qed.

(** A part that is long enough and occurs. *)
Definition part_hit (t d part : string) : Prop :=
  (2 ≤ js_length part)%nat ∧ (includes t part = true ∨ includes d part = true).

Lemma part_score_spec t d v part :
  v ≤ part_score t d v part ∧ (v < part_score t d v part ↔ part_hit t d part).
Proof.
  unfold part_score, part_hit. destruct (Nat.ltb_spec (js_length part) 2); [split; [done|]; lia|].
  destruct (includes t part), (includes d part); simpl; split; try lia;
    (split; intros; [repeat split; eauto; lia|]); destruct_and?; naive_solver lia.
Qed.

Lemma parts_score t d parts v :
  v ≤ foldl (part_score t d) v parts ∧
  (v < foldl (part_score t d) v parts ↔ ∃ part, part ∈ parts ∧ part_hit t d part).
Proof.
  revert v. induction parts as [|p parts IH]; intros v; simpl.
  - split; [done|]. split; [lia|]. by intros (? & ?%elem_of_nil & _).
  - destruct (part_score_spec t d v p) as [H1 H2], (IH (part_score t d v p)) as [H3 H4].
    split; [lia|]. setoid_rewrite elem_of_cons. split.
    + intros Hv. destruct (decide (v < part_score t d v p)) as [Hp|Hp]; [naive_solver|].
      assert (part_score t d v p < foldl (part_score t d) (part_score t d v p) parts) as Hq by lia.
      naive_solver.
    + intros (q & [-> |Hq] & Hh); [apply H2 in Hh; lia|].
      assert (part_score t d v p < foldl (part_score t d) (part_score t d v p) parts) by (apply H4; eauto). lia.
Qed.

(** The words an entry matches a query by. *)
Definition matches_query (e : SearchEntry) (q : string) : Prop :=
  let t := to_lower (title e) in
  let d := to_lower (description e) in
  (includes t q = true ∨ includes (to_lower (section e)) q = true ∨ includes d q = true ∨
   includes (to_lower (href e)) q = true) ∨
  ∃ part, part ∈ split_spaces q ∧ part_hit t d part.

Lemma starts_with_includes s p : starts_with s p = true → includes s p = true.
Proof. intros H. destruct s; simpl in *; by rewrite H. Qed.

Lemma includes_refl s : includes s s = true.
Proof. apply includes_spec. exists "", "". by rewrite app_nil_s. Qed.

Lemma whole_score_spec t sc d h q :
  0 ≤ whole_score t sc d h q ∧
  (0 < whole_score t sc d h q ↔
    includes t q = true ∨ includes sc q = true ∨ includes d q = true ∨ includes h q = true).
Proof.
  unfold whole_score. assert (bool_decide (t = q) = true → includes t q = true) as H1.
  { intros ->%bool_decide_eq_true. apply includes_refl. }
  pose proof (starts_with_includes t q) as H2. revert H1 H2.
  destruct (bool_decide (t = q)), (starts_with t q), (includes t q), (includes sc q), (includes d q),
    (includes h q); simpl; intros H1 H2; try (discriminate (H1 eq_refl)); try (discriminate (H2 eq_refl));
    split; try lia; split; intros; try lia; naive_solver.
Qed.

Lemma score_spec e query :
  let q := to_lower (trim query) in
  q ≠ "" → 0 ≤ score e query ∧ (0 < score e query ↔ matches_query e q).
Proof.
  intros q Hq. unfold score. fold q. rewrite decide_False by done.
  destruct (whole_score_spec (to_lower (title e)) (to_lower (section e)) (to_lower (description e))
              (to_lower (href e)) q) as [H0 H1].
  destruct (parts_score (to_lower (title e)) (to_lower (description e)) (split_spaces q)
              (whole_score (to_lower (title e)) (to_lower (section e)) (to_lower (description e))
                 (to_lower (href e)) q)) as [H2 H3].
  split; [lia|]. unfold matches_query. rewrite <-H1, <-H3. lia.
Qed.

(** ** What is shown *)

#[export] Instance by_score_consistent : Consistent by_score (λ _, True).
Proof. split; unfold by_score; intros; lia. Qed.

Lemma ranked_sorted ps q : sorted_by by_score (ranked ps q).
Proof. apply (js_sort_sorted _ (λ _, True)), Forall_true. done. Qed.

Lemma elem_of_ranked ps q item : item ∈ ranked ps q ↔ 0 < item.2 ∧ ∃ e, e ∈ ps ∧ item = (e, score e q).
Proof. unfold ranked. rewrite elem_of_js_sort, list_elem_of_filter, list_elem_of_fmap. naive_solver. Qed.

Lemma search_needle s : to_lower (trim (trim (query s))) = to_lower (trim (query s)).
Proof. by rewrite trim_idem. Qed.

Lemma elem_of_filtered s e :
  trim (query s) ≠ "" → e ∈ filtered s → e ∈ pages s ∧ matches_query e (to_lower (trim (query s))).
Proof.
  intros Hq. unfold filtered. rewrite decide_False by done.
  intros ([e' v] & -> & Hi)%list_elem_of_fmap. simpl.
  apply elem_of_take in Hi as (i & Hi & _). apply list_elem_of_lookup_2, elem_of_ranked in Hi.
  destruct Hi as (Hv & x & Hx & [= -> ->]). split; [done|]. rewrite <-search_needle.
  apply score_spec; [|done]. rewrite search_needle. by intros ?%smap_nil.
Qed.

Lemma filtered_length s : (length (filtered s) ≤ 12)%nat.
Proof.
  unfold filtered. case_decide; [|rewrite length_fmap]; rewrite length_take; apply Nat.le_min_l.
Qed.

(** C35: what the search finds.  At most twelve entries are listed.  For a query with
    something in it these are entries of the index in which the query, or a word of
    it of two characters or more, occurs; they come by descending score; and an
    entry that matches is left out only when twelve others, none with a lower score,
    are listed. *)
Theorem search_spec s :
  let q := trim (query s) in
  (length (filtered s) ≤ 12)%nat ∧
  (q = "" → filtered s = take 12 (pages s)) ∧
  (q ≠ "" →
    (∀ e, e ∈ filtered s → e ∈ pages s ∧ matches_query e (to_lower q)) ∧
    StronglySorted (λ a b, score b q ≤ score a q) (filtered s) ∧
    ∀ e, e ∈ pages s → matches_query e (to_lower q) → e ∈ filtered s ∨
      (length (filtered s) = 12%nat ∧ ∀ e', e' ∈ filtered s → score e q ≤ score e' q)).
Proof.
  intros q. split; [apply filtered_length|]. split.
  { intros Hq. unfold filtered. by rewrite decide_True. }
  intros Hq. split; [by intros e; apply elem_of_filtered|].
  pose proof (ranked_sorted (pages s) q) as Hs.
  assert (Forall (λ it : SearchEntry * Z, it.2 = score it.1 q) (ranked (pages s) q)) as Hsc.
  { apply Forall_forall. by intros it (_ & e & _ & ->)%elem_of_ranked. }
  unfold filtered. rewrite decide_False by done. fold q. split.
  { eapply (StronglySorted_fmap_on (λ it : SearchEntry * Z, it.2 = score it.1 q) _ _ fst);
      [|by apply Forall_take|by apply StronglySorted_take, Hs].
    intros a b <- <-. unfold by_score. intros Hab%Z.ltb_ge. done. }
  intros e He Hm. assert ((e, score e q) ∈ ranked (pages s) q) as Hin.
  { apply elem_of_ranked. split; [|eauto]. simpl. apply score_spec; unfold q; rewrite search_needle;
      [by intros ?%smap_nil|done]. }
  rewrite <-(take_drop 12 (ranked _ _)) in Hin, Hs, Hsc. apply elem_of_app in Hin as [Hin|Hin].
  - left. change e with (e, score e q).1. by apply list_elem_of_fmap_2.
  - right. split.
    + rewrite length_fmap, length_take. apply list_elem_of_lookup in Hin as [i Hi].
      apply lookup_lt_Some in Hi. rewrite length_drop in Hi. lia.
    + intros e' (it & -> & Hit)%list_elem_of_fmap. apply Forall_app in Hsc as [Hsc _].
      rewrite Forall_forall in Hsc. rewrite <-(Hsc it Hit).
      pose proof (StronglySorted_app_1_elem_of _ _ _ _ _ Hs Hit Hin) as Hb.
      unfold by_score in Hb. by apply Z.ltb_ge in Hb.
Qed.

(** ** The dialog *)

(** The pointer is over a listed result; a request that is gone does not answer. *)
Definition search_enabled (s : Search) (a : search_action) : Prop :=
  match a with
  | Hover i => 0 ≤ i < Z.of_nat (length (filtered s))
  | Type_ _ | Close => is_open s = true
  | _ => True
  end.

Inductive search_reachable : Search → Prop :=
  | search_start : search_reachable search_initial
  | search_act s a : search_reachable s → search_enabled s a → search_reachable (search_apply s a).

Definition search_ok (s : Search) : Prop :=
  0 ≤ selected s < 12 ∧
  (request s = true → is_open s = true ∧ loading s = true) ∧
  (loading s = true → fetched s = None) ∧
  (is_open s = true → loading s = request s).

Lemma open_ok s : search_ok s → search_ok (open_dialog s).
Proof.
  intros Hok. unfold open_dialog. destruct (is_open s) eqn:E; [done|]. destruct Hok as (Hs & Hr & Hl & Ho).
  destruct (fetched s) eqn:Ef; split_and!; simpl; try done; try lia.
  intros _. destruct (loading s); [by discriminate Hl|done].
Qed.

Lemma close_ok s : search_ok s → search_ok (onClose s).
Proof.
  intros Hok. unfold onClose. destruct (is_open s) eqn:E; [|done].
  destruct Hok as (Hs & Hr & Hl & Ho). split_and!; simpl; (done || lia).
Qed.

Lemma select_ok s i : search_ok s → 0 ≤ i < 12 → search_ok (setSelected i s).
Proof. intros (Hs & Hr & Hl & Ho) Hi. split_and!; simpl; (done || lia). Qed.

Lemma key_ok command key s : search_ok s → search_ok (handle_key command key s).1.
Proof.
  intros Hok. assert (0 ≤ selected s < 12) as Hs by apply Hok. pose proof (filtered_length s) as Hf.
  unfold handle_key. destruct (command && _).
  { destruct (is_open s); [by apply close_ok|by apply open_ok]. }
  destruct (is_open s); simpl; [|done].
  repeat case_decide; simpl; [apply select_ok; [done|lia]|apply select_ok; [done|lia]|done|by apply close_ok|done].
Qed.

Lemma search_apply_ok s a : search_ok s → search_enabled s a → search_ok (search_apply s a).
Proof.
  intros Hok Ha. destruct a as [| |v|i|c k|r]; simpl in *.
  - by apply open_ok.
  - by apply close_ok.
  - destruct Hok as (Hs & Hr & Hl & Ho). unfold setQuery. split_and!; simpl; try done; case_decide; lia.
  - apply select_ok; [done|]. pose proof (filtered_length s). lia.
  - by apply key_ok.
  - destruct Hok as (Hs & Hr & Hl & Ho). unfold index_answered.
    destruct (request s) eqn:E; simpl; split_and!; rewrite ?E; (done || lia || naive_solver).
Qed.

(** The search dialog.  In every reachable state the selection is one of the
    twelve lines the list can have, the list says that it is loading exactly while
    the request for the index is under way, no request outlives the dialog, and
    Enter opens an entry of the list, if anything. *)
Lemma search_invariant s :
  search_reachable s →
  0 ≤ selected s < 12 ∧
  (is_open s = true → loading s = request s) ∧
  (is_open s = false → request s = false) ∧
  (∀ h, (handle_key false "Enter" s).2 = Some h → is_open s = true ∧ h ∈ href <$> filtered s).
Proof.
  intros Hs. assert (search_ok s) as (Hsel & Hr & Hl & Ho).
  { induction Hs; [split_and!; simpl; (done || lia)|by apply search_apply_ok]. }
  split_and!; try done; try lia.
  - intros Hc. destruct (request s); [|done]. destruct (Hr eq_refl). congruence.
  - unfold handle_key. simpl. destruct (is_open s); simpl; [|done]. intros h Hh. split; [done|].
    destruct (filtered s !! _) as [e|] eqn:E; [|done]. injection Hh as <-.
    apply list_elem_of_fmap_2. by apply list_elem_of_lookup_2 in E.
Qed.

(** Until the index has come the dialog only says that it is loading, but Enter
    already opens the first of the fallback pages. *)
Example enter_while_loading :
  let s := open_dialog search_initial in
  all_of texts (SearchModal s) = ["Loading search index..."; " navigate"; " open"; "esc close"] ∧
  (handle_key false "Enter" s).2 = Some "/docs".
Proof. by split. Qed.

(** ** The index *)

Section index.
Context `{CollationLaws}.

#[export] Instance by_href_consistent : Consistent by_href (λ _, True).
Proof.
  split; unfold by_href; intros x y.
  - intros _ _ Hxy%Z.ltb_lt. apply Z.ltb_ge. apply locale_antisym in Hxy. lia.
  - intros z _ _ _ Hxy%Z.ltb_ge Hyz%Z.ltb_ge. apply Z.ltb_ge. by eapply locale_trans.
Qed.

Lemma entries_sorted docs : sorted_by by_href (entries docs).
Proof. apply (js_sort_sorted _ (λ _, True)), Forall_true. done. Qed.

(** The index of the site has one entry for each file of the documentation and
    for each of the three pages besides, in the order of their addresses; every
    address is one of this site, and a file's entry has a title: the one its front
    matter gives, or one made of the last part of its path. *)
Theorem index_spec docs :
  entries docs ≡ₚ (entry_of <$> docs) ++ site_pages ∧
  sorted_by by_href (entries docs) ∧
  Forall (λ e, starts_with (href e) "/" = true) (entries docs) ∧
  ∀ path t d, title (entry_of (path, (t, d))) =
    match t with
    | Some (String c t') => String c t'
    | _ => match last (filter (λ w, w ≠ "") (split_char "/" (slug_of path))) with
           | Some part => join " " (capitalize <$> split_char "-" part)
           | None => "Docs"
           end
    end.
Proof.
  split; [apply js_sort_perm|]. split; [apply entries_sorted|]. split.
  - apply Forall_forall. intros e. unfold entries. rewrite elem_of_js_sort, elem_of_app.
    intros [([path [t d]] & -> & _)%list_elem_of_fmap|He].
    + unfold entry_of. simpl. by case_decide.
    + unfold site_pages in He. set_unfold in He. naive_solver.
  - intros path [[|c t]|] d; unfold entry_of; simpl; done.
Qed.
End index.

(** ** Witnesses *)

Definition sample_docs : list (string * (option string * option string)) :=
  [("./docs/operations/replay-incidents.mdx", (None, Some "Replay a recorded incident"));
   ("./docs/index.mdx", (Some "Overview", None)); ("./docs/api/index.mdx", (None, None))].

Lemma index_spec_witness :
  (λ e, (title e, section e)) <$> (entry_of <$> sample_docs) =
    [("Replay Incidents", "Operations"); ("Overview", "Start Here"); ("Api", "API Reference")] ∧
  href <$> (entry_of <$> sample_docs) = ["/docs/operations/replay-incidents"; "/docs"; "/docs/api"] ∧
  @entries code_order sample_docs ≡ₚ (entry_of <$> sample_docs) ++ site_pages.
Proof.
  split; [by vm_compute|]. split; [by vm_compute|].
  apply (@index_spec code_order code_order_laws sample_docs).
Defined.

(** Opened by its shortcut, answered, and a query typed. *)
Definition sample_search : Search :=
  foldl search_apply search_initial
    [Key true "K"; Answer (IndexAnswer (Some ((entry_of <$> sample_docs) ++ site_pages)));
     Type_ " Replay"; Key false "ArrowDown"].

Lemma sample_search_reachable : search_reachable sample_search.
Proof.
  unfold sample_search. cbn [foldl].
  repeat (apply search_act; [|by vm_compute]). apply search_start.
Qed.

Lemma search_invariant_witness :
  title <$> filtered sample_search = ["Replay Incidents"; "Home"] ∧
  "/" ∈ href <$> filtered sample_search.
Proof.
  split; [by vm_compute|].
  destruct (search_invariant sample_search sample_search_reachable) as (_ & _ & _ & He).
  apply (He "/"). by vm_compute.
Defined.
