(* ===== verification/MockData.v ===== *)
(** * lib/mockData.ts: the demo generator

    [generateEvent] and its templates, run when there is no server to listen to.
    [Math.random] is a class: the n-th call's result.  The module's two variables
    and the number of calls made are its state, and the generator a small state
    monad over it that may throw.  An array read beyond its end is taken as a
    throw; the theorem shows that none is. *)

From S2P Require Import Prelude JsNumber JsString Json Events WireEvent.
From Stdlib Require Import HexadecimalString.
Open Scope Z_scope.

(** ** Random draws *)

Class Random := random : nat → num.

(** The greatest double below one. *)
Definition top : Z := one - 2 ^ 1021.

Class RandomLaws `{Random} := {
  random_nonneg n : nle (Fin 0) (random n) = true;
  random_below_one n : nle (random n) (Fin top) = true
}.

Definition Gen (A : Type) : Type := nat → result (A * nat).

#[export] Instance gen_ret : MRet Gen := λ A a n, Return (a, n).
#[export] Instance gen_bind : MBind Gen := λ A B f m n,
  match m n with Throw e => Throw e | Return (a, n') => f a n' end.

Section draws.
Context `{Random}.

Definition draw : Gen num := λ n, Return (random n, S n).

(** [Math.floor(Math.random() * n)]. *)
Definition below (n : Z) : Gen num := r ← draw; mret (nfloor (nmul r (of_Z n))).

(** [Math.floor(Math.random() * n + lo)]. *)
Definition from (lo n : Z) : Gen num := r ← draw; mret (nfloor (nadd (nmul r (of_Z n)) (of_Z lo))).

(** [Math.random() > x]. *)
Definition exceeds (x : num) : Gen bool := r ← draw; mret (nlt x r).

Definition at_index {A} (l : list A) (i : num) : Gen A := λ n,
  match i with
  | Fin m => match l !! Z.to_nat (m / one) with Some a => Return (a, n) | None => Throw "undefined" end
  | _ => Throw "undefined"
  end.

(** [l[Math.floor(Math.random() * l.length)]]. *)
Definition element {A} (l : list A) : Gen A := i ← below (Z.of_nat (length l)); at_index l i.

(** ** The templates *)

Record template := mkTemplate { t_detail : string; t_meta : list (string * string); t_durationUs : option num }.

Definition kb (bytes : num) : string := to_fixed 1 (ndiv bytes (of_Z 1024)) +:+ "kb".

(** [n.toString(16).padStart(12, "0")] of a whole number. *)
Definition hex12 (x : num) : string :=
  match x with
  | Fin m => pad_start (NilZero.string_of_int (Z.to_hex_int (m / one))) 12 "0"
  | _ => "NaN"
  end.

Definition tcp_send_template (svc : string) : Gen template :=
  dest ← element SERVICES;
  bytes ← from 512 8192;
  port ← below 10000;
  dur ← from 50 800;
  mret (mkTemplate (svc +:+ " → " +:+ dest +:+ " · " +:+ kb bytes)
    [("src_port", num_to_string (nadd (of_Z 40000) port)); ("dst_port", "8080");
     ("bytes", num_to_string bytes); ("protocol", "TCP"); ("direction", "egress")] (Some dur)).

Definition tcp_recv_template (svc : string) : Gen template :=
  bytes ← from 256 4096;
  port ← below 10000;
  dur ← from 20 400;
  mret (mkTemplate (svc +:+ " ← inbound · " +:+ kb bytes)
    [("src_port", num_to_string (nadd (of_Z 40000) port)); ("dst_port", "8080");
     ("bytes", num_to_string bytes); ("protocol", "TCP"); ("direction", "ingress")] (Some dur)).

Definition tcp_retransmit_template (svc : string) : Gen template :=
  dest ← element SERVICES;
  dur ← from 300 1200;
  mret (mkTemplate (svc +:+ " → " +:+ dest +:+ " · retransmit")
    [("protocol", "TCP"); ("direction", "egress"); ("reason", "packet_loss")] (Some dur)).

(** The templates of the two file operations. *)
Definition file_template (ops : list string) (bytes_from bytes_span : Z) (flags : string)
    (dur_from dur_span : Z) : Gen template :=
  fd ← from 3 10;
  op ← element ops;
  bytes ← from bytes_from bytes_span;
  offset ← below 1000000;
  dur ← from dur_from dur_span;
  mret (mkTemplate ("fd=" +:+ num_to_string fd +:+ " · " +:+ op)
    [("fd", num_to_string fd); ("bytes", num_to_string bytes); ("offset", num_to_string offset);
     ("flags", flags)] (Some dur)).

Definition sys_write_template : Gen template :=
  file_template ["database write"; "journal flush"; "WAL append"; "index update"] 512 16384
    "O_WRONLY|O_APPEND" 100 1200.

Definition sys_read_template : Gen template :=
  file_template ["index scan"; "page read"; "WAL read"; "snapshot fetch"] 256 8192 "O_RDONLY" 50 600.

Definition sched_switch_template (pid : num) : Gen template :=
  delayed ← exceeds (of_frac 7 10);
  delayMs ← (if delayed : bool then from 100 600 else from 2 40);
  cpu ← below 8;
  nextPid ← from 1000 9000;
  mret (mkTemplate
    (if delayed : bool
     then "preempted · CPU " +:+ num_to_string cpu +:+ " → PID " +:+ num_to_string nextPid +:+ " · " +:+
          num_to_string delayMs +:+ "ms delayed"
     else "resumed · CPU " +:+ num_to_string cpu +:+ " · " +:+ num_to_string delayMs +:+ "ms")
    [("prev_pid", num_to_string pid); ("next_pid", num_to_string nextPid); ("cpu", num_to_string cpu);
     ("delay_ms", num_to_string delayMs);
     ("prev_state", if delayed then "TASK_RUNNING" else "TASK_INTERRUPTIBLE")]
    (Some (nmul delayMs (of_Z 1000)))).

Definition page_fault_template : Gen template :=
  addr ← below 281474976710655;
  kind ← element ["minor fault"; "major fault"; "memory pressure"];
  minor ← exceeds (of_frac 1 2);
  pgfault ← below 1000;
  dur ← from 200 2000;
  mret (mkTemplate ("addr=0x" +:+ hex12 addr +:+ " · " +:+ kind)
    [("address", "0x" +:+ hex12 addr); ("fault_type", if minor : bool then "minor" else "major");
     ("vma_flags", "VM_READ|VM_WRITE"); ("pgfault", num_to_string pgfault)] (Some dur)).

Definition block_io_template : Gen template :=
  bytes ← from 4096 32768;
  read ← exceeds (of_frac 1 2);
  sector ← below 10000000;
  dur ← from 200 1800;
  mret (mkTemplate ("block device · " +:+ kb bytes)
    [("bytes", num_to_string bytes); ("op", if read : bool then "read" else "write");
     ("sector", num_to_string sector)] (Some dur)).

Definition EVENT_TEMPLATES (t : EventType) (pid : num) (svc : string) : Gen template :=
  match t with
  | tcp_send => tcp_send_template svc
  | tcp_recv => tcp_recv_template svc
  | tcp_retransmit => tcp_retransmit_template svc
  | sys_write => sys_write_template
  | sys_read => sys_read_template
  | sched_switch => sched_switch_template pid
  | page_fault => page_fault_template
  | block_io => block_io_template
  end.

(** ** The generator *)

(** The variables of the module, and how many draws were made. *)
Record generator := mkGenerator { idCounter : Z; baseNs : num; draws : nat }.

(** [now] is the clock as the call reads it, in milliseconds. *)
Definition generateEvent `{Host} (now : num) (g : generator) : result (KernelEvent * generator) :=
  let count := idCounter g + 1 in
  made ← (step ← from 100000 800000;
          ty ← element EVENT_TYPES;
          pid ← from 1000 9000;
          dtid ← below 4;
          cpu ← below 8;
          service ← element SERVICES;
          t ← EVENT_TEMPLATES ty pid service;
          mret {| id := "evt-" +:+ dec_of_Z count; timestamp := clock_text now;
                  timestampNs := nadd (baseNs g) step; type := ty; pid := pid;
                  tid := nadd pid dtid; cpu := cpu; service := service; detail := t_detail t;
                  durationUs := t_durationUs t; meta := t_meta t |}) (draws g);
  Return (made.1, mkGenerator count (timestampNs made.1) made.2).
End draws.

(** ** What is drawn *)

(** A whole number of a range. *)
Definition whole_in (lo hi : Z) (x : num) : Prop := ∃ k, x = Fin (k * one) ∧ lo ≤ k ≤ hi.

(** A draw that returns a value with a property, whatever was drawn before. *)
Definition gives {A} (m : Gen A) (P : A → Prop) : Prop := ∀ n, ∃ a n', m n = Return (a, n') ∧ P a.

Lemma gives_ret {A} (a : A) (P : A → Prop) : P a → gives (mret a) P.
Proof. intros Ha n. by exists a, n. Qed.

Lemma gives_bind {A B} (m : Gen A) (f : A → Gen B) P Q :
  gives m P → (∀ a, P a → gives (f a) Q) → gives (m ≫= f) Q.
Proof.
  intros Hm Hf n. destruct (Hm n) as (a & n' & E & Ha). destruct (Hf a Ha n') as (b & n'' & E' & Hb).
  exists b, n''. split; [|done]. unfold mbind, gen_bind. by rewrite E.
Qed.

Lemma gives_mono {A} (m : Gen A) (P Q : A → Prop) : gives m P → (∀ a, P a → Q a) → gives m Q.
Proof. intros Hm HPQ n. destruct (Hm n) as (a & n' & E & Ha). eauto. Qed.

Lemma top_lt_one : 0 ≤ top < one.
Proof. by vm_compute. Qed.

Lemma rnd_ints z : Z.abs z < 2 ^ 53 → rnd (z * one) = z * one.
Proof. intros. by apply rnd_scaled. Qed.

Lemma nmul_Fin a n : Z.abs n < 2 ^ 53 → nmul (Fin a) (of_Z n) = mk (rnd (a * n)).
Proof. intros Hn. rewrite of_Z_exact by done. simpl. by rewrite Z.mul_assoc, rnd_frac_scale. Qed.

Section laws.
Context `{RandomLaws}.

(** A draw scaled to [n]. *)
Lemma scaled_draw n i :
  0 ≤ n < 2 ^ 53 → ∃ q, nmul (random i) (of_Z n) = Fin q ∧ 0 ≤ q ≤ rnd (top * n).
Proof.
  intros Hn. destruct (nle_between 0 (random i) top (random_nonneg i) (random_below_one i)) as (a & -> & Ha).
  rewrite nmul_Fin by lia. pose proof (rnd_mono 0 (a * n) ltac:(nia)) as Hlo.
  pose proof (rnd_mono (a * n) (top * n) ltac:(nia)) as Hmid. change (rnd 0) with 0 in Hlo.
  pose proof (rnd_mono (top * n) (n * one) ltac:(pose proof top_lt_one; nia)) as Hhi.
  rewrite rnd_ints in Hhi by lia. exists (rnd (a * n)). split; [|by split]. apply mk_small.
  pose proof one_pos. rewrite Z.abs_eq by done. assert (n * one ≤ 2 ^ 62 * one) by nia. lia.
Qed.

Lemma scaled_whole n i : 0 ≤ n < 2 ^ 53 → ∃ q, nmul (random i) (of_Z n) = Fin q ∧ 0 ≤ q ≤ n * one.
Proof.
  intros Hn. destruct (scaled_draw n i Hn) as (q & -> & Hq). exists q. split; [done|].
  pose proof (rnd_mono (top * n) (n * one) ltac:(pose proof top_lt_one; nia)) as Ht.
  rewrite rnd_ints in Ht by lia. lia.
Qed.

Lemma floor_in lo hi q : lo * one ≤ q ≤ hi * one → whole_in lo hi (nfloor (Fin q)).
Proof.
  intros Hq. pose proof one_pos. exists (q / one). split; [done|]. split.
  - apply Z.div_le_lower_bound; lia.
  - apply Z.div_le_upper_bound; lia.
Qed.

Lemma below_gives n : 0 ≤ n < 2 ^ 53 → gives (below n) (whole_in 0 n).
Proof.
  intros Hn i. eexists _, _. split; [done|]. destruct (scaled_whole n i Hn) as (q & -> & Hq).
  apply floor_in. lia.
Qed.

Lemma from_gives lo n : 0 ≤ lo < 2 ^ 52 → 0 ≤ n < 2 ^ 52 → gives (from lo n) (whole_in lo (lo + n)).
Proof.
  intros Hlo Hn i. eexists _, _. split; [done|]. destruct (scaled_whole n i ltac:(lia)) as (q & -> & Hq).
  rewrite of_Z_exact by lia. change (nadd (Fin q) (Fin (lo * one))) with (mk (rnd (q + lo * one))).
  pose proof one_pos. pose proof (rnd_mono (lo * one) (q + lo * one) ltac:(lia)) as Hmid.
  pose proof (rnd_mono (q + lo * one) ((lo + n) * one) ltac:(lia)) as Hhi.
  rewrite rnd_ints in Hmid, Hhi by lia. rewrite mk_small.
  - by apply floor_in.
  - assert ((lo + n) * one ≤ 2 ^ 62 * one) by nia. assert (0 ≤ lo * one) by nia. lia.
Qed.

Lemma exceeds_gives x : gives (exceeds x) (λ _, True).
Proof. intros i. by eexists _, _. Qed.

(** Below [n] itself where [n] is small enough for the product not to round up. *)
Lemma below_lt n : 0 ≤ n < 2 ^ 53 → rnd (top * n) < n * one → gives (below n) (whole_in 0 (n - 1)).
Proof.
  intros Hn Hr i. eexists _, _. split; [done|]. destruct (scaled_draw n i Hn) as (q & -> & Hq).
  pose proof one_pos. exists (q / one). split; [done|].
  assert (q / one < n) by (apply Z.div_lt_upper_bound; lia).
  split; [apply Z.div_pos; lia|lia].
Qed.

Lemma element_gives {A} (l : list A) :
  (length l < 100)%nat → rnd (top * Z.of_nat (length l)) < Z.of_nat (length l) * one →
  gives (element l) (λ a, a ∈ l).
Proof.
  intros Hl Hr. eapply gives_bind; [apply below_lt; [lia|done]|]. intros i (k & -> & Hk) n.
  unfold at_index. rewrite Z.div_mul by (pose proof one_pos; lia).
  destruct (lookup_lt_is_Some_2 l (Z.to_nat k)) as [a Ha]; [lia|]. rewrite Ha.
  exists a, n. split; [done|]. by apply list_elem_of_lookup_2 in Ha.
Qed.

(** ** What the generator makes *)

Lemma whole_in_weaken lo hi lo' hi' x : whole_in lo hi x → lo' ≤ lo → hi ≤ hi' → whole_in lo' hi' x.
Proof. intros (k & -> & Hk) ??. exists k. split; [done|lia]. Qed.

Lemma nmul_whole lo hi n x :
  whole_in lo hi x → 0 ≤ lo → 0 ≤ n < 2 ^ 20 → hi < 2 ^ 30 → whole_in (lo * n) (hi * n) (nmul x (of_Z n)).
Proof.
  intros (k & -> & Hk) Hlo Hn Hhi. exists (k * n). split; [|nia].
  assert (0 ≤ k * n < 2 ^ 50) by nia. rewrite nmul_Fin by lia.
  replace (k * one * n) with (k * n * one) by ring. rewrite rnd_ints by lia. apply mk_whole. lia.
Qed.

Lemma services_gives : gives (element SERVICES) (λ s, s ∈ SERVICES).
Proof. apply element_gives; [simpl; lia|by vm_compute]. Qed.

Lemma types_gives : gives (element EVENT_TYPES) (λ t, t ∈ EVENT_TYPES).
Proof. apply element_gives; [simpl; lia|by vm_compute]. Qed.

(** A duration of at most 700 ms, and not zero. *)
Definition timed_template (t : template) : Prop := ∃ d, t_durationUs t = Some d ∧ whole_in 1 700000 d.

Lemma timed_made lo hi s m d : whole_in lo hi d → 1 ≤ lo → hi ≤ 700000 → gives (mret (mkTemplate s m (Some d))) timed_template.
Proof. intros Hd ??. apply gives_ret. exists d. split; [done|]. by eapply whole_in_weaken. Qed.

(** Draw the next value. *)
Ltac gives_step :=
  eapply gives_bind;
  [first [apply exceeds_gives | apply services_gives | apply from_gives; lia | apply below_gives; lia
         | apply element_gives; [simpl; lia|by vm_compute]]
  |intros ? ?].

Lemma file_gives ops b n flags lo m :
  length ops = 4%nat → 0 ≤ b < 2 ^ 30 → 0 ≤ n < 2 ^ 30 → 1 ≤ lo → 0 ≤ m → lo + m ≤ 700000 →
  gives (file_template ops b n flags lo m) timed_template.
Proof.
  intros Hops ?????. gives_step.
  eapply gives_bind; [apply element_gives; [lia|rewrite Hops; by vm_compute]|intros ? _].
  do 3 gives_step. eapply timed_made; [done|lia..].
Qed.

Lemma templates_give ty pid svc : gives (EVENT_TEMPLATES ty pid svc) timed_template.
Proof.
  destruct ty; simpl.
  - do 4 gives_step. eapply timed_made; [done|lia..].
  - do 3 gives_step. eapply timed_made; [done|lia..].
  - do 2 gives_step. eapply timed_made; [done|lia..].
  - unfold sys_write_template. apply file_gives; [reflexivity|lia..].
  - unfold sys_read_template. apply file_gives; [reflexivity|lia..].
  - unfold sched_switch_template. gives_step. eapply (gives_bind _ _ (whole_in 2 700)).
    { destruct a; (eapply gives_mono; [apply from_gives; lia|]); intros; by eapply whole_in_weaken; [done|lia..]. }
    intros delay Hd. do 2 gives_step. eapply timed_made; [apply (nmul_whole _ _ 1000 _ Hd); lia|lia..].
  - do 5 gives_step. eapply timed_made; [done|lia..].
  - do 4 gives_step. eapply timed_made; [done|lia..].
Qed.

(** Time moves on: a step of at least 100000 is not lost to rounding. *)
Lemma base_advances b step :
  0 ≤ b < 2 ^ 60 * one → whole_in 100000 900000 step →
  ∃ q, nadd (Fin b) step = Fin q ∧ b < q.
Proof.
  intros Hb (k & -> & Hk). pose proof one_pos.
  change (nadd (Fin b) (Fin (k * one))) with (mk (rnd (b + k * one))).
  assert (0 ≤ k * one ≤ 900000 * one) as Hko by nia. assert (100000 * one ≤ k * one) by nia.
  assert (b + k * one < 2 ^ 61 * one) as Hlt.
  { assert (900000 * one < 2 ^ 60 * one) by nia. lia. }
  pose proof (rnd_close (b + k * one) ltac:(lia)) as Hc. exists (rnd (b + k * one)). split; [|lia].
  apply mk_small. assert (2 ^ 61 * one + 128 * one ≤ 2 ^ 62 * one) by nia. lia.
Qed.

(** The demo generator makes events of the type the console declares.  From a
    time below 2^60 ns it never throws, whatever is drawn: no table is read beyond
    its end; the event is well-formed and newer than the one before, its id counts
    up, its service is one of the six, and its duration, pid and cpu are whole
    numbers within the ranges of the templates. *)
Lemma generateEvent_typed `{Host} now g b :
  baseNs g = Fin b → 0 ≤ b < 2 ^ 60 * one →
  ∃ e g', generateEvent now g = Return (e, g') ∧
    wf_event e ∧ nlt (baseNs g) (timestampNs e) = true ∧ baseNs g' = timestampNs e ∧
    idCounter g' = idCounter g + 1 ∧ id e = "evt-" +:+ dec_of_Z (idCounter g') ∧
    service e ∈ SERVICES ∧ whole_in 1000 10000 (pid e) ∧ whole_in 0 7 (cpu e) ∧
    ∃ d, durationUs e = Some d ∧ whole_in 1 700000 d.
Proof.
  intros Hg Hb. unfold generateEvent. cbv zeta.
  match goal with |- context [(?m : Gen _) (draws g)] =>
    assert (gives m (λ e, wf_event e ∧ nlt (baseNs g) (timestampNs e) = true ∧
      id e = "evt-" +:+ dec_of_Z (idCounter g + 1) ∧
      service e ∈ SERVICES ∧ whole_in 1000 10000 (pid e) ∧ whole_in 0 7 (cpu e) ∧
      ∃ d, durationUs e = Some d ∧ whole_in 1 700000 d)) as Hm end.
  { eapply gives_bind; [by apply from_gives|intros step Hstep].
    eapply gives_bind; [apply types_gives|intros ty _].
    do 2 gives_step. eapply gives_bind; [apply (below_lt 8); [lia|by vm_compute]|intros ? ?].
    gives_step. eapply gives_bind; [apply templates_give|intros t (d & Hd & Hw)].
    apply gives_ret. simpl. rewrite Hg. destruct (base_advances b step Hb Hstep) as (q & -> & Hq).
    assert (0 < q) by lia. assert (nlt (Fin b) (Fin q) = true) as Hlt by (simpl; lia).
    split_and!; try done; [|by exists d].
    split_and!; simpl; [done|lia|]. rewrite Hd. simpl. destruct Hw as (k & -> & Hk). pose proof one_pos.
    apply negb_true_iff, Z.ltb_ge. lia. }
  destruct (Hm (draws g)) as (e & n' & E & Hw & Hlt & Hid & Hs & Hp & Hc & Hd).
  exists e, (mkGenerator (idCounter g + 1) (timestampNs e) n'). rewrite E. by split_and!.
Qed.
End laws.

(** ** Witness *)

Definition halves : Random := λ _, of_frac 1 2.

Lemma halves_laws : @RandomLaws halves.
Proof. split; intros n; by vm_compute. Qed.

Lemma generateEvent_typed_witness :
  ∃ e g', @generateEvent halves utc (of_Z 1700000000000) (mkGenerator 4 (of_Z 1700000000000) 0) = Return (e, g') ∧
    id e = "evt-5" ∧ wf_event e.
Proof.
  destruct (@generateEvent_typed halves halves_laws utc (of_Z 1700000000000)
    (mkGenerator 4 (of_Z 1700000000000) 0) (1700000000000 * one)) as (e & g' & E & Hw & _ & _ & Hn & Hi & _).
  - by apply of_Z_exact.
  - by vm_compute.
  - exists e, g'. split; [exact E|]. split; [|exact Hw]. rewrite Hi, Hn. by vm_compute.
Defined.
