(* ===== verification/Replay.v ===== *)
(** * pages/Replay.tsx: replaying a recorded incident

    The recorded incidents, the playhead with its animation frames, the transport
    controls and the keyboard, the injections and the outcome they lead to, and
    what the page renders. *)

From S2P Require Import Prelude JsNumber JsString Json Events View Icons.
Open Scope Z_scope.

Record ReplayEvent := mkEvt {
  evt_id : string;
  offsetMs : Z;
  evt_type : EventType;
  evt_pid : Z;
  evt_service : string;
  evt_detail : string;
  duration : option Z;
  isKeyEvent : bool;
  keyLabel : option string
}.

Inductive Outcome := FAILED | PASSED.

#[export] Instance Outcome_eq_dec : EqDecision Outcome.
Proof. solve_decision. Defined.

Record Incident := mkIncident {
  inc_id : string;
  name : string;
  ts : string;
  transactionId : string;
  rootCause : string;
  durationMs : Z;
  events : list ReplayEvent;
  originalOutcome : Outcome;
  fixTimeoutMs : Z
}.

Record Injections := mkInj {
  timeoutMs : num;
  networkLatencyMs : num;
  memoryPressure : bool;
  cpuThrottle : num
}.

Definition DEFAULT_INJECTIONS : Injections := mkInj (of_Z 750) (of_Z 0) false (of_Z 0).

(** ** The recorded incidents *)

Definition INCIDENT_1 : Incident := {|
  inc_id := "inc-001"; name := "Database timeout — request req-9f21"; ts := "2026-05-08 02:47:13"; transactionId := "#98721";
  rootCause := "Memory pressure from batch-job caused 800ms database write delay, exceeding 750ms api-worker timeout";
  durationMs := 1240; fixTimeoutMs := 1500; originalOutcome := FAILED;
  events := [
    mkEvt "e1" 0 tcp_recv 4821 "api-worker" "api-worker ← inbound · 2.1kb" (Some 120) true (Some "Request req-9f21 received");
    mkEvt "e2" 4 tcp_send 4821 "api-worker" "api-worker → auth-service · 1.4kb" (Some 80) false None;
    mkEvt "e3" 18 tcp_recv 5103 "risk-engine" "risk-engine ← inbound · 1.4kb" (Some 95) false None;
    mkEvt "e4" 45 tcp_send 5103 "risk-engine" "auth-service → api-worker · 0.8kb" (Some 60) true (Some "Risk check passed");
    mkEvt "e5" 62 tcp_recv 4821 "api-worker" "api-worker ← auth-service · 0.8kb" (Some 55) false None;
    mkEvt "e6" 80 sys_write 4821 "api-worker" "fd=7 · database write initiated" None true (Some "Database write initiated");
    mkEvt "e7" 82 page_fault 4721 "batch-job" "addr=0x7fff3a2b1c00 · memory pressure" (Some 1800) true (Some "Memory pressure (batch-job PID 4721)");
    mkEvt "e8" 85 sched_switch 4821 "api-worker" "preempted · CPU 3 → PID 4721 · 800ms" (Some 800000) true (Some "api-worker preempted");
    mkEvt "e9" 112 sys_write 4721 "batch-job" "fd=4 · index update" (Some 420) false None;
    mkEvt "e10" 340 sys_read 4721 "batch-job" "fd=4 · page read" (Some 280) false None;
    mkEvt "e11" 880 sched_switch 4821 "api-worker" "resumed · CPU 3 · after 800ms" None true (Some "api-worker resumed");
    mkEvt "e12" 882 sys_write 4821 "api-worker" "fd=7 · database write completed" (Some 950000) true (Some "Database write complete (950ms total)");
    mkEvt "e13" 830 tcp_send 4821 "api-worker" "api-worker → checkout-service · timeout signal" None true (Some "Timeout exceeded (750ms threshold)");
    mkEvt "e14" 835 tcp_send 4821 "api-worker" "api-worker → client · request failed" None true (Some "Request failed — timeout")
  ]
|}.

Definition INCIDENT_2 : Incident := {|
  inc_id := "inc-002"; name := "Queue consumer stall — job #44102"; ts := "2026-05-06 14:22:07"; transactionId := "#44102";
  rootCause := "TCP retransmit on queue-consumer → checkout-service pushed job past timeout budget";
  durationMs := 980; fixTimeoutMs := 2000; originalOutcome := FAILED;
  events := [
    mkEvt "f1" 0 tcp_recv 7201 "queue-consumer" "queue-consumer ← inbound · 3.2kb" (Some 90) true (Some "Job #44102 received");
    mkEvt "f2" 12 sys_read 7201 "queue-consumer" "fd=5 · cache snapshot fetch" (Some 180) false None;
    mkEvt "f3" 55 tcp_send 7201 "queue-consumer" "queue-consumer → checkout-service · 4.1kb" None true (Some "Route to checkout");
    mkEvt "f4" 58 sched_switch 7201 "queue-consumer" "preempted · CPU 1 → PID 9012 · 420ms" (Some 420000) true (Some "CPU preempt on queue-consumer");
    mkEvt "f5" 480 tcp_send 7201 "queue-consumer" "queue-consumer → checkout-service · retransmit" None true (Some "TCP retransmit");
    mkEvt "f6" 485 tcp_recv 8830 "checkout-service" "checkout-service ← inbound · 4.1kb" (Some 110) false None;
    mkEvt "f7" 510 sys_write 8830 "checkout-service" "fd=9 · database write" (Some 340000) false None;
    mkEvt "f8" 855 tcp_send 8830 "checkout-service" "checkout-service → database-writer · timeout budget missed" None true (Some "Timeout budget exceeded")
  ]
|}.

Definition INCIDENT_3 : Incident := {|
  inc_id := "inc-003"; name := "WAL write collision — txn #21983"; ts := "2026-05-04 09:11:44"; transactionId := "#21983";
  rootCause := "Concurrent sys_write from two database-writer threads caused page fault cascade";
  durationMs := 640; fixTimeoutMs := 1000; originalOutcome := FAILED;
  events := [
    mkEvt "g1" 0 tcp_recv 6601 "database-writer" "database-writer ← inbound · 1.8kb" (Some 70) true (Some "Txn #21983 write request");
    mkEvt "g2" 8 sys_write 6601 "database-writer" "fd=11 · WAL append — thread A" None true (Some "Thread A WAL write begins");
    mkEvt "g3" 9 sys_write 6602 "database-writer" "fd=11 · WAL append — thread B (concurrent)" None true (Some "Thread B concurrent write");
    mkEvt "g4" 11 page_fault 6601 "database-writer" "addr=0x7ffe00a12400 · major fault" (Some 1200) true (Some "Page fault cascade begins");
    mkEvt "g5" 14 page_fault 6602 "database-writer" "addr=0x7ffe00a12800 · major fault" (Some 1100) false None;
    mkEvt "g6" 180 sched_switch 6601 "database-writer" "preempted · CPU 5 · 280ms" (Some 280000) false None;
    mkEvt "g7" 460 sys_write 6601 "database-writer" "fd=11 · WAL append complete" (Some 580000) true (Some "Thread A write complete");
    mkEvt "g8" 465 sys_write 6602 "database-writer" "fd=11 · WAL append — duplicate entry detected" None true (Some "Duplicate write — txn rolled back")
  ]
|}.

Definition INCIDENTS : list Incident := [INCIDENT_1; INCIDENT_2; INCIDENT_3].

(** The page's own labels, short of two event types. *)
Definition REPLAY_LABELS (t : EventType) : option string :=
  match t with
  | tcp_send => Some "tcp_send" | tcp_recv => Some "tcp_recv"
  | sys_write => Some "sys_write" | sys_read => Some "sys_read"
  | sched_switch => Some "sched" | page_fault => Some "page_fault"
  | tcp_retransmit | block_io => None
  end.

Definition SPEEDS : list num :=
  Eval vm_compute in [of_frac 1 10; of_frac 1 2; of_Z 1; of_Z 2; of_Z 5; of_Z 10].

Definition outcomeFlips (incident : Incident) (inj : Injections) : bool :=
  nle (of_Z (fixTimeoutMs incident)) (timeoutMs inj) &&
  negb (memoryPressure inj) && nlt (networkLatencyMs inj) (of_Z 200).

Definition injIsModified (inj : Injections) : bool :=
  negb (neqb (timeoutMs inj) (timeoutMs DEFAULT_INJECTIONS)) ||
  negb (neqb (networkLatencyMs inj) (networkLatencyMs DEFAULT_INJECTIONS)) ||
  negb (Bool.eqb (memoryPressure inj) (memoryPressure DEFAULT_INJECTIONS)) ||
  negb (neqb (cpuThrottle inj) (cpuThrottle DEFAULT_INJECTIONS)).

(** ** The page *)

Record Replay := mkReplay {
  selectedIncident : Incident;
  injections : Injections;
  playing : bool;
  speedIdx : nat;
  playheadMs : num;
  visibleCount : nat;
  lastTs : option num          (* [lastTsRef]; a frame is requested while playing *)
}.

Definition replay_initial : Replay :=
  mkReplay INCIDENT_1 DEFAULT_INJECTIONS false 2 (of_Z 0) 0 None.

Definition set_playing (b : bool) (s : Replay) : Replay :=
  mkReplay (selectedIncident s) (injections s) b (speedIdx s) (playheadMs s) (visibleCount s)
    (* the effect on [playing] forgets the last frame when it becomes true *)
    (if b && negb (playing s) then None else lastTs s).

Definition set_playhead (ms : num) (count : nat) (s : Replay) : Replay :=
  mkReplay (selectedIncident s) (injections s) (playing s) (speedIdx s) ms count (lastTs s).

Definition set_injections (inj : Injections) (s : Replay) : Replay :=
  mkReplay (selectedIncident s) inj (playing s) (speedIdx s) (playheadMs s) (visibleCount s)
    (lastTs s).

(** [events.filter((e) => e.offsetMs <= ms)]. *)
Definition upto (evts : list ReplayEvent) (ms : num) : list ReplayEvent :=
  filter (λ e, nle (of_Z (offsetMs e)) ms = true) evts.

Definition visibleEvents (s : Replay) : list ReplayEvent :=
  upto (events (selectedIncident s)) (playheadMs s).

Definition outcome (s : Replay) : Outcome :=
  if outcomeFlips (selectedIncident s) (injections s) then PASSED
  else originalOutcome (selectedIncident s).

Definition speed (s : Replay) : num := default NaN (SPEEDS !! speedIdx s).

(** One animation frame. *)
Definition tick (now : num) (s : Replay) : Replay :=
  if negb (playing s) then s
  else
    let last := default now (lastTs s) in
    let elapsed := nmul (nsub now last) (speed s) in
    let next := nmin (nadd (playheadMs s) elapsed) (of_Z (durationMs (selectedIncident s))) in
    mkReplay (selectedIncident s) (injections s)
      (negb (nle (of_Z (durationMs (selectedIncident s))) next)) (speedIdx s) next
      (length (upto (events (selectedIncident s)) next)) (Some now).

Definition handleSelectIncident (inc : Incident) (s : Replay) : Replay :=
  mkReplay inc DEFAULT_INJECTIONS false (speedIdx s) (of_Z 0) 0 (lastTs s).

Definition at_end (s : Replay) : bool := nle (of_Z (durationMs (selectedIncident s))) (playheadMs s).

Definition handlePlay (s : Replay) : Replay :=
  set_playing true (if at_end s then set_playhead (of_Z 0) 0 s else s).

Definition handlePause (s : Replay) : Replay := set_playing false s.

(** Where a step lands, from [cur] events shown. *)
Definition step_target (inc : Incident) (cur : nat) (dir : Z) : Z :=
  let evts := events inc in
  let target := Z.max 0 (Z.min (Z.of_nat (length evts) - 1)
                               (Z.of_nat cur + dir - (if dir =? -1 then 1 else 0))) in
  match evts !! Z.to_nat target with
  | Some e => offsetMs e
  | None => if dir =? 1 then durationMs inc else 0
  end.

(** [handleStep] of the render that showed [cur] events of [inc]. *)
Definition handleStep_of (inc : Incident) (cur : nat) (dir : Z) (s : Replay) : Replay :=
  let newMs := of_Z (step_target inc cur dir) in
  set_playhead newMs (length (upto (events inc) newMs)) (set_playing false s).

Definition handleStep (dir : Z) (s : Replay) : Replay :=
  handleStep_of (selectedIncident s) (length (visibleEvents s)) dir s.

(** [Number(e.target.value)] is [ms]. *)
Definition handleScrub (ms : num) (s : Replay) : Replay :=
  set_playhead ms (length (upto (events (selectedIncident s)) ms)) (set_playing false s).

Definition handleReset (s : Replay) : Replay := set_playhead (of_Z 0) 0 (set_playing false s).

Definition handleMarkerClick (offset : Z) (s : Replay) : Replay :=
  set_playhead (of_Z offset) (length (upto (events (selectedIncident s)) (of_Z offset)))
    (set_playing false s).

Inductive key := Space | ArrowLeft | ArrowRight | OtherKey.

(** [onKey]: the listener is installed once, so the [handleStep] it calls is that
    of the first render, which showed [INCIDENTS[0]] at 0 ms. *)
Definition onKey (tag : string) (k : key) (s : Replay) : Replay :=
  if bool_decide (tag ∈ ["INPUT"; "TEXTAREA"; "SELECT"]) then s
  else match k with
  | Space => if playing s then set_playing false s else handlePlay s
  | ArrowLeft => handleStep_of INCIDENT_1 (length (visibleEvents replay_initial)) (-1) s
  | ArrowRight => handleStep_of INCIDENT_1 (length (visibleEvents replay_initial)) 1 s
  | OtherKey => s
  end.

Definition onEscape (s : Replay) : Replay := handleReset s.

Inductive replay_action :=
  | SelectIncident (inc : Incident) | Play | Pause | Step (dir : Z) | Scrub (ms : num) | Reset
  | Marker (offset : Z) | Speed (i : nat) | Key (tag : string) (k : key) | Escape
  | Frame (now : num)
  | SetTimeout (v : num) | SetLatency (v : num) | SetThrottle (v : num) | ToggleMemory
  | ResetInjections.

Definition replay_apply (s : Replay) (a : replay_action) : Replay :=
  let i := injections s in
  match a with
  | SelectIncident inc => handleSelectIncident inc s
  | Play => handlePlay s
  | Pause => handlePause s
  | Step dir => handleStep dir s
  | Scrub ms => handleScrub ms s
  | Reset => handleReset s
  | Marker offset => handleMarkerClick offset s
  | Speed j => mkReplay (selectedIncident s) i (playing s) j (playheadMs s) (visibleCount s) (lastTs s)
  | Key tag k => onKey tag k s
  | Escape => onEscape s
  | Frame now => tick now s
  | SetTimeout v => set_injections (mkInj v (networkLatencyMs i) (memoryPressure i) (cpuThrottle i)) s
  | SetLatency v => set_injections (mkInj (timeoutMs i) v (memoryPressure i) (cpuThrottle i)) s
  | SetThrottle v => set_injections (mkInj (timeoutMs i) (networkLatencyMs i) (memoryPressure i) v) s
  | ToggleMemory =>
      set_injections (mkInj (timeoutMs i) (networkLatencyMs i) (negb (memoryPressure i)) (cpuThrottle i)) s
  | ResetInjections => set_injections DEFAULT_INJECTIONS s
  end.

(** ** Rendering *)

Definition ms_text (x : num) : string := num_to_string x +:+ "ms".
Definition pct (x total : num) : string :=
  num_to_string (nmul (ndiv x total) (of_Z 100)) +:+ "%".

(** The part of [s] before [sep]: [s.split(sep)[0]]. *)
Fixpoint split_first (sep s : string) : string :=
  if starts_with s sep then "" else
  match s with "" => "" | String c t => String c (split_first sep t) end.

Definition outcome_text (o : Outcome) : string := match o with FAILED => "FAILED" | PASSED => "PASSED" end.

Definition InjLabel (label value : string) : view replay_action :=
  Elem "div"
    [("display", "flex"); ("justifyContent", "space-between"); ("alignItems", "baseline");
     ("marginBottom", "0.4rem")] []
    [span [("fontSize", "0.6rem"); ("fontFamily", "var(--font-mono)"); ("fontWeight", "700");
           ("letterSpacing", "0.1em"); ("textTransform", "uppercase"); ("color", "var(--text-muted)")] label;
     span [("fontSize", "0.7rem"); ("fontFamily", "var(--font-mono)"); ("fontWeight", "700");
           ("color", "var(--text-secondary)")] value].

Definition slider (min max step : Z) (value : num) (set : num → replay_action) (lo hi : string) :
    list (view replay_action) :=
  [Elem "input" [("type", "range"); ("min", dec_of_Z min); ("max", dec_of_Z max);
                 ("step", dec_of_Z step); ("value", num_to_string value); ("className", "inj-slider")]
     [("onChange", set value)] [];
   sdiv "sliderHints" [span [] lo; span [] hi]].

Definition incident_button (s : Replay) (inc : Incident) : view replay_action :=
  Elem "button"
    [("className", "incident-btn " +:+
        if decide (inc_id (selectedIncident s) = inc_id inc) then "on" else "")]
    [("onClick", SelectIncident inc)]
    [sspan "incidentBtnId" (transactionId inc);
     sspan "incidentBtnName" (trim (split_first "—" (name inc)));
     Elem "span" [("style", "outcomeDot");
                  ("backgroundColor", if decide (originalOutcome inc = FAILED) then "rgba(239,68,68,0.5)"
                                      else "var(--border)")] [] []].

Definition injDivider : view replay_action := sdiv "injDivider" [].

Definition injection_panel (s : Replay) : view replay_action :=
  let i := injections s in
  sdiv "injPanel" (
    [sdiv "panelHeader" (sspan "panelTitle" "injections" ::
       when (injIsModified i)
         [Elem "button" [("style", "resetInjBtn")] [("onClick", ResetInjections)] [Text "reset"]]);
     sdiv "injSection" (InjLabel "timeout threshold" (ms_text (timeoutMs i)) ::
       slider 100 3000 50 (timeoutMs i) SetTimeout "100ms" "3000ms");
     injDivider;
     sdiv "injSection" (InjLabel "network latency" ("+" +:+ ms_text (networkLatencyMs i)) ::
       slider 0 500 5 (networkLatencyMs i) SetLatency "0ms" "500ms");
     injDivider;
     sdiv "injSection" (InjLabel "CPU throttle" (num_to_string (cpuThrottle i) +:+ "%") ::
       slider 0 90 5 (cpuThrottle i) SetThrottle "0%" "90%");
     injDivider;
     sdiv "injSection"
       [sdiv "toggleRow"
         [InjLabel "memory pressure" (if memoryPressure i then "ON" else "OFF");
          Elem "button" [("className", "toggle-btn " +:+ if memoryPressure i then "on" else "")]
            [("onClick", ToggleMemory)] [Text (if memoryPressure i then "on" else "off")]]];
     injDivider;
     sdiv "rootCauseBox"
       [sspan "rootCauseLabel" "root cause"; sspan "rootCauseText" (rootCause (selectedIncident s))]] ++
    when (bool_decide (outcome s = FAILED))
      [sdiv "hintBox" [sspan "hintText" "Adjust injections to address root cause and verify resolution"]]).

(** [outcomeStyle]. *)
Definition outcomeStyle (passed : bool) : list (string * string) :=
  [("backgroundColor", if passed then "rgba(34,197,94,0.08)" else "rgba(239,68,68,0.08)");
   ("borderColor", if passed then "rgba(34,197,94,0.35)" else "rgba(239,68,68,0.3)");
   ("color", if passed then "rgb(134,239,172)" else "rgb(252,165,165)")].

Definition outcome_bar (s : Replay) : view replay_action :=
  let inc := selectedIncident s in
  let passed := bool_decide (outcome s = PASSED) in
  sdiv "outcomeRow"
    [sdiv "incidentMeta"
       [sspan "metaId" (transactionId inc); sspan "metaSep" "·"; sspan "metaTs" (ts inc);
        sspan "metaSep" "·"; sspan "metaDur" (dec_of_Z (durationMs inc) +:+ "ms window")];
     Elem "div" (("style", "outcomeBadge") :: outcomeStyle passed) []
       [icon (if passed then PassIcon else FailIcon); Text (outcome_text (outcome s))]].

Definition marker (inc : Incident) (e : ReplayEvent) : view replay_action :=
  Elem "div"
    [("className", "scrub-marker"); ("title", default "" (keyLabel e));
     ("left", pct (of_Z (offsetMs e)) (of_Z (durationMs inc)))]
    [("onClick", Marker (offsetMs e))] [].

Definition scrubber (s : Replay) : view replay_action :=
  let inc := selectedIncident s in
  sdiv "scrubberWrap"
    [sdiv "scrubberTrack"
       (sdiv "scrubRail" [] ::
        (marker inc <$> filter (λ e, isKeyEvent e = true) (events inc)) ++
        [Elem "div" [("style", "scrubFill"); ("width", pct (playheadMs s) (of_Z (durationMs inc)))] [] [];
         Elem "input" [("type", "range"); ("min", "0"); ("max", dec_of_Z (durationMs inc)); ("step", "1");
                       ("value", num_to_string (playheadMs s)); ("style", "scrubInput")]
           [("onChange", Scrub (playheadMs s))] []]);
     sdiv "scrubTime"
       [sspan "scrubTs" (to_fixed 0 (playheadMs s) +:+ "ms");
        sspan "scrubTotal" ("/ " +:+ dec_of_Z (durationMs inc) +:+ "ms")]].

Definition transport (s : Replay) : view replay_action :=
  sdiv "controls"
    [sdiv "ctrlLeft"
       [Elem "button" [("className", "ctrl-btn"); ("title", "reset (Esc)")] [("onClick", Reset)] [icon ResetIcon];
        Elem "button" [("className", "ctrl-btn"); ("title", "step back (←)")] [("onClick", Step (-1))]
          [icon StepBackIcon];
        (if playing s
         then Elem "button" [("className", "ctrl-btn primary")] [("onClick", Pause)]
                [icon PauseIcon; Text " pause"]
         else Elem "button" [("className", "ctrl-btn primary")] [("onClick", Play)]
                [icon PlayIcon; Text " "; Text (if at_end s then "replay" else "play")]);
        Elem "button" [("className", "ctrl-btn"); ("title", "step forward (→)")] [("onClick", Step 1)]
          [icon StepFwdIcon]];
     sdiv "ctrlRight"
       [sspan "speedLabel" "speed";
        sdiv "speedGroup"
          (imap (λ i sp, Elem "button" [("className", "speed-btn " +:+ if decide (speedIdx s = i) then "on" else "")]
                           [("onClick", Speed i)] [Text (num_to_string sp +:+ "×")]) SPEEDS)]].

Definition key_event_row (s : Replay) (e : ReplayEvent) : view replay_action :=
  let reached := nle (of_Z (offsetMs e)) (playheadMs s) in
  Elem "div" [("style", "keyEventRow"); ("opacity", if reached then "1" else "0.4")] []
    [Elem "div" [("style", "keyEventDot");
                 ("backgroundColor", if reached then "var(--text-primary)" else "var(--border)")] [] [];
     sspan "keyEventOffset" (dec_of_Z (offsetMs e) +:+ "ms");
     span [("style", "keyEventLabel");
           ("color", if reached then "var(--text-primary)" else "var(--text-muted)")] (default "" (keyLabel e))].

Definition log_row (idx : nat) (evt : ReplayEvent) : view replay_action :=
  Elem "div"
    [("className", "log-row"); ("style", "logRow");
     ("backgroundColor", if (idx mod 2 =? 0)%nat then "var(--bg)" else "var(--bg-subtle)");
     ("borderLeft", if isKeyEvent evt then "2px solid var(--border-subtle)" else "2px solid transparent")] []
    [sspan "logOffset" (dec_of_Z (offsetMs evt) +:+ "ms");
     sspan "logBadge" (default "" (REPLAY_LABELS (evt_type evt)));
     sspan "logSvc" (evt_service evt); sspan "logDetail" (evt_detail evt);
     sspan "logDur" (fmtDur (of_Z <$> duration evt))].

Definition ReplayPage (s : Replay) : view replay_action :=
  let inc := selectedIncident s in
  sdiv "root"
    [sdiv "incidentBar" (sspan "incidentBarLabel" "incident" :: (incident_button s <$> INCIDENTS));
     sdiv "body"
      [injection_panel s;
       sdiv "playPanel"
        [outcome_bar s; scrubber s; transport s;
         sdiv "keyEventList" (key_event_row s <$> filter (λ e, isKeyEvent e = true) (events inc));
         sdiv "logHeader"
          [sspan "logTitle" "event log";
           sspan "logCount" (dec_of_nat (length (visibleEvents s)) +:+ " / " +:+ dec_of_nat (length (events inc)))];
         sdiv "logBody"
          (imap log_row (visibleEvents s) ++
           when (bool_decide (visibleEvents s = [])) [sdiv "logEmpty" [Text "press play to begin replay"]])]]].

(** ** The playhead stays inside the incident *)

(** What the recordings satisfy, checked on each of them. *)
Definition recorded (inc : Incident) : Prop :=
  inc ∈ INCIDENTS ∧ 18 ≤ durationMs inc < 2 ^ 12 ∧
  Forall (λ e, 0 ≤ offsetMs e ≤ durationMs inc) (events inc).

Lemma INCIDENTS_recorded inc : inc ∈ INCIDENTS → recorded inc.
Proof.
  intros Hin. split; [done|]. revert inc Hin. apply Forall_forall.
  repeat constructor; simpl; lia.
Qed.

Definition replay_ok (s : Replay) : Prop :=
  recorded (selectedIncident s) ∧
  is_finite (playheadMs s) = true ∧ exact (playheadMs s) ∧
  nle (Fin 0) (playheadMs s) = true ∧
  nle (playheadMs s) (of_Z (durationMs (selectedIncident s))) = true ∧
  (∃ sp, SPEEDS !! speedIdx s = Some sp) ∧
  match lastTs s with Some t => is_finite t = true | None => True end.

(** The inputs a browser delivers: an incident of the list, a step of a button, a
    value of the range input, a marker that is drawn, a speed that is offered,
    and frames in time order. *)
Definition deliverable (s : Replay) (a : replay_action) : Prop :=
  match a with
  | SelectIncident inc => inc ∈ INCIDENTS
  | Step dir => dir = 1 ∨ dir = -1
  | Scrub ms => ∃ z, ms = of_Z z ∧ 0 ≤ z ≤ durationMs (selectedIncident s)
  | Marker offset => ∃ e, e ∈ events (selectedIncident s) ∧ offset = offsetMs e
  | Speed i => (i < length SPEEDS)%nat
  | Frame now => is_finite now = true ∧ match lastTs s with Some t => nle t now = true | None => True end
  | _ => True
  end.

Lemma SPEEDS_positive sp : sp ∈ SPEEDS → nlt (Fin 0) sp = true ∧ is_finite sp = true.
Proof. revert sp. apply Forall_forall. repeat constructor. Qed.

Lemma of_Z_small z : 0 ≤ z < 2 ^ 12 → of_Z z = Fin (z * one).
Proof. intros. apply of_Z_exact. lia. Qed.

(** A position given in whole milliseconds. *)
Lemma replay_ok_at s z n :
  replay_ok s → 0 ≤ z ≤ durationMs (selectedIncident s) → replay_ok (set_playhead (of_Z z) n s).
Proof.
  intros (Hr & _ & _ & _ & _ & Hsp & Hl) Hz. pose proof Hr as (_ & Hd & _). unfold replay_ok; simpl.
  split_and!; try done.
  - by rewrite of_Z_small by lia.
  - apply exact_of_Z.
  - rewrite of_Z_small by lia. simpl. apply negb_true_iff, Z.ltb_ge. pose proof one_pos. nia.
  - apply of_Z_mono. lia.
Qed.

Lemma replay_ok_playing b s : replay_ok s → replay_ok (set_playing b s).
Proof.
  intros (?&?&?&?&?&?&?). unfold replay_ok; simpl. do 6 (split; [done|]).
  by destruct (b && negb (playing s)).
Qed.

Lemma step_target_bounds inc cur dir :
  recorded inc → 0 ≤ step_target inc cur dir ≤ durationMs inc.
Proof.
  intros (_ & Hd & Hf). unfold step_target. destruct (events inc !! _) as [e|] eqn:E.
  - rewrite Forall_forall in Hf. apply Hf. by eapply list_elem_of_lookup_2.
  - destruct (dir =? 1); lia.
Qed.

(** The keyboard always lands on one of two positions. *)
Lemma arrow_targets dir :
  dir = 1 ∨ dir = -1 →
  step_target INCIDENT_1 (length (visibleEvents replay_initial)) dir = (if dir =? 1 then 18 else 0).
Proof. intros [-> | ->]; vm_compute; reflexivity. Qed.

Lemma tick_ok now s : replay_ok s → deliverable s (Frame now) → replay_ok (tick now s).
Proof.
  intros Hok [Hnow Hlast]. unfold tick. destruct (playing s); simpl; [|done].
  destruct Hok as (Hr & Hfin & Hex & H0 & Hle & [sp Hsp] & Hl). unfold replay_ok; simpl.
  unfold speed. rewrite Hsp. simpl. apply list_elem_of_lookup_2, SPEEDS_positive in Hsp as Hpos.
  set (last := default now (lastTs s)).
  assert (nle (Fin 0) (nmul (nsub now last) sp) = true) as Hel.
  { apply nmul_nonneg; [|apply Hpos..]. subst last. destruct (lastTs s); simpl in *;
      apply nsub_nonneg; try done. apply nle_refl. by destruct now. }
  pose proof (nadd_nonneg_le _ _ Hex Hfin H0 Hel) as Hadv.
  set (pos := nadd (playheadMs s) (nmul (nsub now last) sp)) in *.
  set (dur := of_Z (durationMs (selectedIncident s))) in *.
  destruct (nle_not_nan _ _ Hadv) as [_ Hn1]. destruct (nle_not_nan _ _ Hle) as [_ Hn2].
  assert (nle (Fin 0) (nmin pos dur) = true) as Hn0.
  { apply nmin_glb; eapply nle_trans; [exact H0|exact Hadv|exact H0|exact Hle]. }
  pose proof (nmin_le_r pos dur Hn1 Hn2) as Hnd.
  split_and!; try done.
  - destruct Hr as (_ & Hd & _). subst dur. rewrite of_Z_small in * by lia.
    by destruct (nmin pos _) as [|[]|].
  - apply exact_nmin; [apply exact_nadd|apply exact_of_Z].
  - by exists sp.
Qed.

Lemma replay_ok_injections s i : replay_ok s → replay_ok (set_injections i s).
Proof. intros (?&?&?&?&?&?&?). by split_and!. Qed.

Lemma handlePlay_ok s : replay_ok s → replay_ok (handlePlay s).
Proof.
  intros Hok. apply replay_ok_playing. destruct (at_end s); [|done].
  apply replay_ok_at; [done|]. destruct Hok as ((_ & ? & _) & _). lia.
Qed.

Lemma handleStep_ok inc cur dir s :
  replay_ok s → 0 ≤ step_target inc cur dir ≤ durationMs (selectedIncident s) →
  replay_ok (handleStep_of inc cur dir s).
Proof. intros Hok Ht. unfold handleStep_of. apply replay_ok_at; [by apply replay_ok_playing|done]. Qed.

Lemma handleReset_ok s : replay_ok s → replay_ok (handleReset s).
Proof.
  intros Hok. apply replay_ok_at; [by apply replay_ok_playing|].
  destruct Hok as ((_ & ? & _) & _). simpl. lia.
Qed.

Lemma onKey_ok tag k s : replay_ok s → replay_ok (onKey tag k s).
Proof.
  intros Hok. pose proof Hok as ((_ & Hd & _) & _). unfold onKey. case_bool_decide; [done|].
  destruct k; [|apply handleStep_ok; [done|]..|done].
  - destruct (playing s); [by apply replay_ok_playing|by apply handlePlay_ok].
  - rewrite arrow_targets by auto. simpl. lia.
  - rewrite arrow_targets by auto. simpl. lia.
Qed.

Lemma replay_apply_ok s a : replay_ok s → deliverable s a → replay_ok (replay_apply s a).
Proof.
  intros Hok Ha. pose proof Hok as (Hr & _). pose proof Hr as (_ & Hd & Hf).
  destruct a as [inc| | |dir|ms| |offset|i|tag k| |now|v|v|v| |]; simpl in *.
  - destruct Hok as (_ & _ & _ & _ & _ & Hsp & Hl). apply INCIDENTS_recorded in Ha as Hri.
    pose proof Hri as (_ & Hdi & _). unfold replay_ok.
    cbn [selectedIncident playheadMs speedIdx lastTs handleSelectIncident].
    split_and!; try done. apply of_Z_mono. lia.
  - by apply handlePlay_ok.
  - by apply replay_ok_playing.
  - apply handleStep_ok; [done|by apply step_target_bounds].
  - destruct Ha as (z & -> & Hz). apply replay_ok_at; [by apply replay_ok_playing|done].
  - by apply handleReset_ok.
  - destruct Ha as (e & He & ->). rewrite Forall_forall in Hf. apply Hf in He.
    apply replay_ok_at; [by apply replay_ok_playing|done].
  - destruct Hok as (?&?&?&?&?&_&?). split_and!; simpl; try done.
    apply (lookup_lt_is_Some SPEEDS) in Ha as [sp ?]. by exists sp.
  - by apply onKey_ok.
  - by apply handleReset_ok.
  - by apply tick_ok.
  - by apply replay_ok_injections.
  - by apply replay_ok_injections.
  - by apply replay_ok_injections.
  - by apply replay_ok_injections.
  - by apply replay_ok_injections.
Qed.

Inductive replay_reachable : Replay → Prop :=
  | replay_start : replay_reachable replay_initial
  | replay_act s a : replay_reachable s → deliverable s a → replay_reachable (replay_apply s a).

Lemma replay_initial_ok : replay_ok replay_initial.
Proof.
  split_and!; simpl; try done; [apply INCIDENTS_recorded; left|by eexists].
Qed.

Lemma replay_reachable_ok s : replay_reachable s → replay_ok s.
Proof. induction 1; auto using replay_apply_ok, replay_initial_ok. Qed.

(** C38: whatever the user does, and however animation frames fall in between, the
    playhead is a number between 0 and the duration of the selected incident. *)
Theorem playhead_in_range s :
  replay_reachable s →
  selectedIncident s ∈ INCIDENTS ∧ is_finite (playheadMs s) = true ∧
  nle (Fin 0) (playheadMs s) = true ∧
  nle (playheadMs s) (of_Z (durationMs (selectedIncident s))) = true.
Proof. intros Hs. destruct (replay_reachable_ok s Hs) as ([? _]&?&_&?&?&_). by split_and!. Qed.

(** ** The replay ends *)

Definition run_frames (s : Replay) (nows : list num) : Replay := foldl (λ s now, tick now s) s nows.

(** Each frame, while playing, is worth at least a millisecond at the chosen speed. *)
Fixpoint advances (s : Replay) (nows : list num) : Prop :=
  match nows with
  | [] => True
  | now :: nows =>
      (playing s = true →
       nle (of_Z 1) (nmul (nsub now (default now (lastTs s))) (speed s)) = true) ∧
      advances (tick now s) nows
  end.

(** The playhead is at the end, or has passed half a millisecond per frame. *)
Definition progressed (start : Z) (n : nat) (s : Replay) : Prop :=
  (playing s = false ∧ playheadMs s = of_Z (durationMs (selectedIncident s))) ∨
  (playing s = true ∧ ∃ p, playheadMs s = Fin p ∧
     0 ≤ p < durationMs (selectedIncident s) * one ∧ start + Z.of_nat n * (one / 2) ≤ p).

Lemma tick_progress start now n s :
  0 < durationMs (selectedIncident s) < 2 ^ 12 → progressed start n s →
  (playing s = true →
   nle (of_Z 1) (nmul (nsub now (default now (lastTs s))) (speed s)) = true) →
  progressed start (S n) (tick now s) ∧ selectedIncident (tick now s) = selectedIncident s.
Proof.
  intros Hd Hp Hadv. destruct Hp as [[Hpl Hph]|(Hpl & p & Hph & Hp & Hn)].
  { unfold tick. rewrite Hpl. simpl. by split; [left|]. }
  specialize (Hadv Hpl). unfold tick. rewrite Hpl, Hph. cbn [negb].
  set (D := durationMs (selectedIncident s)) in *.
  pose proof (nadd_progress p _ ltac:(nia) Hadv) as Hge.
  unfold progressed. cbn [selectedIncident playing playheadMs]. split; [|done]. fold D.
  rewrite (of_Z_small D) by lia.
  destruct (nmin_cases _ _ (D * one) Hge) as [->|(q & -> & Hq)]; rewrite nle_Fin.
  - left. by rewrite Z.leb_refl.
  - right. destruct (Z.leb_spec (D * one) q); [lia|]. split; [done|]. exists q.
    assert (0 ≤ one / 2) by (apply Z.div_pos; pose proof one_pos; lia).
    split; [done|]. rewrite Nat2Z.inj_succ. nia.
Qed.

Lemma run_frames_progress start nows n s :
  0 < durationMs (selectedIncident s) < 2 ^ 12 → progressed start n s → advances s nows →
  progressed start (n + length nows) (run_frames s nows) ∧
  selectedIncident (run_frames s nows) = selectedIncident s.
Proof.
  revert n s. induction nows as [|now nows IH]; intros n s Hd Hp Ha; simpl.
  { by rewrite Nat.add_0_r. }
  destruct Ha as [Ha1 Ha2]. destruct (tick_progress start now n s Hd Hp Ha1) as [Hp' Hs].
  destruct (IH (S n) (tick now s)) as [H1 H2]; [by rewrite Hs|done..|].
  rewrite Nat.add_succ_r. split; [exact H1|]. by rewrite H2.
Qed.

(** C39: a replay ends by itself.  Played from any position of any incident, with
    frames each worth at least a millisecond at the chosen speed, after two frames
    per millisecond that remains the playhead is exactly at the end, every event of
    the incident is shown, and the page no longer plays. *)
Theorem replay_ends s p nows :
  recorded (selectedIncident s) → playing s = true →
  playheadMs s = Fin p → 0 ≤ p < durationMs (selectedIncident s) * one →
  advances s nows →
  2 * (durationMs (selectedIncident s) * one - p) ≤ Z.of_nat (length nows) * one →
  let s' := run_frames s nows in
  playing s' = false ∧ playheadMs s' = of_Z (durationMs (selectedIncident s)) ∧
  visibleEvents s' = events (selectedIncident s).
Proof.
  intros (Hin & Hd & Hf) Hpl Hph Hp Ha Hlen. simpl.
  destruct (run_frames_progress p nows 0 s) as [Hend Hs]; [lia| |done|].
  { right. split; [done|]. exists p. split; [done|]. simpl. lia. }
  assert (one = 2 * (one / 2)) as Ho by (vm_compute; reflexivity). pose proof one_pos.
  destruct Hend as [[Hp1 Hp2]|(_ & q & _ & Hq & Hn)].
  - rewrite Hs in Hp2. split_and!; [done..|]. unfold visibleEvents. rewrite Hs, Hp2. unfold upto.
    apply filter_all. intros e He. rewrite Forall_forall in Hf. apply Hf in He.
    apply of_Z_mono. lia.
  - exfalso. rewrite Hs in Hq. simpl in Hn. nia.
Qed.

(** ** Outcomes *)

(** The outcome.  Every recorded incident fails under the injections the page
    starts with, and passes once the timeout alone is raised to the value of its
    fix; a longer timeout, less latency or less memory pressure never turns a pass
    into a failure. *)
Theorem outcome_spec inc :
  inc ∈ INCIDENTS →
  let fixed := mkInj (of_Z (fixTimeoutMs inc)) (of_Z 0) false (of_Z 0) in
  (∀ s, selectedIncident s = inc → injections s = DEFAULT_INJECTIONS → outcome s = FAILED) ∧
  (∀ s, selectedIncident s = inc → injections s = fixed → outcome s = PASSED) ∧
  ∀ i j, nle (timeoutMs i) (timeoutMs j) = true →
    nle (networkLatencyMs j) (networkLatencyMs i) = true →
    (memoryPressure j = true → memoryPressure i = true) →
    outcomeFlips inc i = true → outcomeFlips inc j = true.
Proof.
  intros Hin. simpl. split_and!.
  - intros s <- Hi. unfold outcome. rewrite Hi. revert Hin. generalize (selectedIncident s).
    apply Forall_forall. repeat constructor.
  - intros s <- Hi. unfold outcome. rewrite Hi. unfold outcomeFlips. simpl timeoutMs.
    rewrite nle_refl by apply of_Z_not_nan. by simpl.
  - intros i j Ht Hl Hm. unfold outcomeFlips. rewrite !andb_true_iff, !negb_true_iff.
    intros [[Hi1 Hi2] Hi3]. split_and!.
    + by eapply nle_trans.
    + destruct (memoryPressure j); [|done]. by rewrite Hm in Hi2.
    + by eapply nle_lt_trans.
Qed.

(** The CPU throttle has no effect: moving its slider marks the injections as
    modified, but never changes the outcome, the events shown or the playhead. *)
Theorem throttle_ignored s v :
  let s' := replay_apply s (SetThrottle v) in
  outcome s' = outcome s ∧ visibleEvents s' = visibleEvents s ∧ playheadMs s' = playheadMs s.
Proof. done. Qed.

(** ** Stepping *)

Definition offsets (inc : Incident) : list Z := offsetMs <$> events inc.

Lemma nle_of_Z a b : Z.abs a < 2 ^ 53 → Z.abs b < 2 ^ 53 → nle (of_Z a) (of_Z b) = (a <=? b).
Proof.
  intros. rewrite !of_Z_exact by done. simpl. pose proof one_pos.
  destruct (Z.ltb_spec (b * one) (a * one)), (Z.leb_spec a b); simpl; nia.
Qed.

(** In order, as many events as the index says are shown at the offset of one. *)
Lemma upto_sorted evts t e :
  StronglySorted Z.lt (offsetMs <$> evts) → Forall (λ e, Z.abs (offsetMs e) < 2 ^ 53) evts →
  evts !! t = Some e → length (upto evts (of_Z (offsetMs e))) = S t.
Proof.
  revert t. induction evts as [|e0 evts IH]; intros t Hs Hf Ht; [done|].
  rewrite fmap_cons in Hs. apply StronglySorted_inv in Hs as [Hs Hall].
  apply Forall_cons in Hf as [H0 Hf]. unfold upto in *. rewrite filter_cons.
  destruct t as [|t]; simpl in Ht.
  - simplify_eq. rewrite decide_True by (apply nle_refl, of_Z_not_nan). simpl. f_equal.
    enough (filter (λ e1, nle (of_Z (offsetMs e1)) (of_Z (offsetMs e)) = true) evts = []) as -> by done.
    apply filter_none. intros x Hx Hle. rewrite Forall_forall in Hf. rewrite Forall_forall in Hall.
    specialize (Hall (offsetMs x) ltac:(by apply list_elem_of_fmap_2)).
    rewrite nle_of_Z in Hle by (done || by apply Hf). apply Z.leb_le in Hle. lia.
  - assert (e ∈ evts) as He by by eapply list_elem_of_lookup_2.
    rewrite Forall_forall in Hall. specialize (Hall (offsetMs e) ltac:(by apply list_elem_of_fmap_2)).
    rewrite decide_True by (apply of_Z_mono; lia). simpl. f_equal. by apply IH.
Qed.

Lemma visible_after_step dir s :
  visibleEvents (handleStep dir s) =
  upto (events (selectedIncident s))
    (of_Z (step_target (selectedIncident s) (length (visibleEvents s)) dir)).
Proof. done. Qed.

(** What the step buttons do on an incident whose events are in order.  With n
    events shown, "step back" leaves n - 1 (never fewer than one), but "step
    forward" shows n + 2, not n + 1: it passes over an event. *)
Theorem step_counts s :
  recorded (selectedIncident s) → events (selectedIncident s) ≠ [] →
  StronglySorted Z.lt (offsets (selectedIncident s)) →
  let n := length (visibleEvents s) in
  length (visibleEvents (handleStep 1 s)) = Nat.min (length (events (selectedIncident s))) (n + 2) ∧
  length (visibleEvents (handleStep (-1) s)) = Nat.max 1 (n - 1).
Proof.
  intros (Hin & Hd & Hf) Hne Hs. simpl.
  assert (length (visibleEvents s) ≤ length (events (selectedIncident s)))%nat as Hle by apply length_filter.
  assert (Forall (λ e, Z.abs (offsetMs e) < 2 ^ 53) (events (selectedIncident s))) as Hf'.
  { eapply Forall_impl; [exact Hf|]. simpl. lia. }
  assert (0 < length (events (selectedIncident s)))%nat by (destruct (events _); simpl; [done|lia]).
  rewrite !visible_after_step. unfold step_target. simpl.
  split.
  - destruct (lookup_lt_is_Some_2 (events (selectedIncident s))
      (Nat.min (length (events (selectedIncident s)) - 1) (length (visibleEvents s) + 1)) ltac:(lia)) as [e He].
    match goal with |- context [events ?i !! ?k] => replace k with
      (Nat.min (length (events (selectedIncident s)) - 1) (length (visibleEvents s) + 1)) by lia end.
    rewrite He. rewrite (upto_sorted _ _ _ Hs Hf' He). lia.
  - destruct (lookup_lt_is_Some_2 (events (selectedIncident s)) (length (visibleEvents s) - 2)
      ltac:(lia)) as [e He].
    match goal with |- context [events ?i !! ?k] => replace k with (length (visibleEvents s) - 2)%nat by lia end.
    rewrite He. rewrite (upto_sorted _ _ _ Hs Hf' He). lia.
Qed.

Lemma handleStep_playhead inc cur dir s :
  playheadMs (handleStep_of inc cur dir s) = of_Z (step_target inc cur dir).
Proof. done. Qed.

(** The arrow keys do not step.  Whatever incident is selected and wherever the
    playhead is, "right" moves it to 18 ms and "left" to 0: the listener keeps the
    handler of the first render. *)
Theorem arrow_keys_stale s tag :
  tag ∉ ["INPUT"; "TEXTAREA"; "SELECT"] →
  playheadMs (onKey tag ArrowRight s) = of_Z 18 ∧ playheadMs (onKey tag ArrowLeft s) = of_Z 0 ∧
  playing (onKey tag ArrowRight s) = false.
Proof.
  intros Ht. unfold onKey. rewrite bool_decide_eq_false_2 by done.
  rewrite !handleStep_playhead, !arrow_targets by auto. done.
Qed.

(** The events of the first incident are not in order: stepping forward from its
    last event stays there, two events unseen. *)
Example first_incident_sticks :
  let s := set_playhead (of_Z 835) 12 replay_initial in
  playheadMs (handleStep 1 s) = playheadMs s ∧ length (visibleEvents s) = 12%nat ∧
  length (events INCIDENT_1) = 14%nat.
Proof. vm_compute. by split. Qed.

(** ** Witnesses *)

Definition sample_actions : list replay_action :=
  [Play; Frame (of_Z 1000); Frame (of_Z 1016); Step 1; Key "BODY" Space].

Lemma playhead_in_range_witness :
  let s := foldl replay_apply replay_initial sample_actions in
  playing s = true ∧ nle (playheadMs s) (of_Z 1240) = true.
Proof.
  split; [reflexivity|].
  apply (playhead_in_range (foldl replay_apply replay_initial sample_actions)).
  cbn [foldl sample_actions].
  do 5 (apply replay_act; [|vm_compute; auto]). apply replay_start.
Defined.

(** The last incident, played from 639 ms. *)
Definition playing_state : Replay :=
  mkReplay INCIDENT_3 DEFAULT_INJECTIONS true 3 (of_Z 639) 8 (Some (of_Z 0)).

Definition sample_frames : list num := (λ i, of_Z (Z.of_nat i)) <$> seq 1 2.

Lemma replay_ends_witness :
  playheadMs (run_frames playing_state sample_frames) = of_Z 640.
Proof.
  apply (replay_ends playing_state (639 * one) sample_frames).
  - apply INCIDENTS_recorded. vm_compute. repeat (left || right).
  - reflexivity.
  - vm_compute. reflexivity.
  - vm_compute. split; congruence.
  - vm_compute. repeat split.
  - vm_compute. congruence.
Defined.

Lemma outcome_spec_witness :
  outcomeFlips INCIDENT_1 (mkInj (of_Z 3000) (of_Z 0) false (of_Z 0)) = true.
Proof.
  apply (outcome_spec INCIDENT_1 ltac:(left)) with (mkInj (of_Z 1500) (of_Z 100) false (of_Z 50));
    vm_compute; congruence.
Defined.

Definition stepped_state : Replay := set_playhead (of_Z 55) 3 (handleSelectIncident INCIDENT_2 replay_initial).

Lemma step_counts_witness :
  length (visibleEvents stepped_state) = 3%nat ∧
  length (visibleEvents (handleStep 1 stepped_state)) = 5%nat.
Proof.
  split; [vm_compute; reflexivity|].
  destruct (step_counts stepped_state) as [-> _].
  - apply INCIDENTS_recorded. vm_compute. right. left.
  - discriminate.
  - vm_compute. repeat constructor.
  - vm_compute. reflexivity.
Defined.

Lemma arrow_keys_stale_witness :
  playheadMs (onKey "BODY" ArrowRight stepped_state) = of_Z 18.
Proof.
  apply (arrow_keys_stale stepped_state "BODY").
  intros Hin. repeat (apply elem_of_cons in Hin as [Hin|Hin]; [discriminate|]).
  by apply elem_of_nil in Hin.
Defined.
