(* ===== verification/Timeline.v ===== *)
(** * pages/Timeline.tsx: the timeline canvas

    The state of the page, the scene it draws, zooming, and the search for the
    event under a click.  [draw] returns the scene as data: lanes, ruler ticks,
    the line of the latest event, the curves between related events and the bars;
    [Paint] has the canvas calls that paint them. *)

From S2P Require Import Prelude JsNumber JsString Json Events WireEvent Connection Feed View Icons StreamPage.
Open Scope Z_scope.

Definition MAX_EVENTS : nat := 2000.
Definition LANE_H : Z := 56.
Definition LANE_LABEL_W : Z := 132.
Definition RULER_H : Z := 28.
Definition BAR_H : Z := 20.
Definition BAR_Y_OFFSET : Z := (LANE_H - BAR_H) / 2.
Definition MIN_BAR_W : Z := 3.
Definition CAUSAL_WINDOW_NS : Z := 8000000.
Definition MAX_LANES : nat := 12.

(** [event.service || "kernel"]. *)
Definition lane_of (e : KernelEvent) : string :=
  if decide (service e = "") then "kernel" else service e.

Definition add_lane (lanes : list string) (e : KernelEvent) : list string :=
  if decide (lane_of e ∈ lanes) then lanes else lanes ++ [lane_of e].

Definition getTimelineLanes (events : list KernelEvent) : list string :=
  slice_last MAX_LANES (foldl add_lane [] events).

Definition fmtNs (ns : num) : string :=
  if nlt ns (of_Z 1000) then num_to_string ns +:+ "ns"
  else if nlt ns (of_Z 1000000) then to_fixed 1 (ndiv ns (of_Z 1000)) +:+ "µs"
  else if nlt ns (of_Z 1000000000) then to_fixed 1 (ndiv ns (of_Z 1000000)) +:+ "ms"
  else to_fixed 2 (ndiv ns (of_Z 1000000000)) +:+ "s".

(** [getDpr]: a missing or zero ratio counts as 1. *)
Definition getDpr (devicePixelRatio : num) : num :=
  nmin (if is_nan devicePixelRatio || neqb devicePixelRatio (Fin 0) then of_Z 1 else devicePixelRatio)
       (of_Z 2).

Record Timeline := mkTimeline {
  events : list KernelEvent;          (* [eventsRef] *)
  paused : bool;
  processedMessage : Z;
  timeWindow : Z;                     (* 1, 5, 30, or 0 for "all" *)
  viewNs : num;
  offsetNs : num;
  zoomLabel : string;
  selectedEvent : option KernelEvent;
  activeTypes : list EventType;
  dim_w : Z;
  dim_h : Z
}.

Definition timeline_initial : Timeline :=
  mkTimeline [] false 0 5 (of_Z 5000000000) (of_Z 0) "5s" None EVENT_TYPES 1200 400.

Record range := mkRange {
  visStartNs : num; visEndNs : num; visRangeNs : num; latestNs : num; rangeStartNs : num
}.

(** [getVisRange]; reading past an empty list throws, which callers exclude. *)
Definition getVisRange (s : Timeline) (evts : list KernelEvent) : option range :=
  first ← head evts; latest ← last evts;
  let latestNs := timestampNs latest in
  let rangeEnd := nadd latestNs (of_Z 100000000) in
  let rangeStart := if timeWindow s =? 0 then timestampNs first
                    else nsub rangeEnd (nmul (of_Z (timeWindow s)) (of_Z 1000000000)) in
  let rangeEnd := nsub rangeEnd (offsetNs s) in
  Some (mkRange (nsub rangeEnd (viewNs s)) rangeEnd (viewNs s) latestNs rangeStart).

Definition activeEvents (s : Timeline) : list KernelEvent :=
  filter (λ e, type e ∈ activeTypes s) (events s).

(** ** The scene *)

Record curve := mkCurve { ax : num; ay : Z; bx : num; by_ : Z; c1x : num; c2x : num }.

Record bar := mkBar {
  bar_event : KernelEvent;
  bar_x : num; bar_y : Z; bar_w : num;
  alpha : string; fill : string; stroke : string; lineWidth : string;
  bar_label : option string;           (* drawn when the bar is wide enough *)
  outlined : bool
}.

Record scene := mkScene {
  canvas_w : Z;
  canvas_h : Z;
  lanes : list (string * Z * bool);
  ruler : list (num * string);
  now_line : option num;
  curves : list curve;
  bars : list bar
}.

(** The ruler's unit: the first magnitude that is large enough, or the last. *)
Definition tickMags : list Z :=
  [1000; 10000; 100000; 1000000; 10000000; 100000000; 1000000000; 10000000000].

Fixpoint choose_tick (tickNs : Z) (mags : list Z) (rawTickNs : num) : Z :=
  match mags with
  | [] => tickNs
  | m :: mags' => if nle rawTickNs (of_Z m) then m else choose_tick m mags' rawTickNs
  end.

Definition tick_unit (visRange : num) : Z :=
  choose_tick 1000 tickMags (ndiv visRange (of_Z 8)).

(** [for (let t = firstTick; t <= visEndNs; t += tickNs)]: the positions of [t],
    [None] when the fuel runs out. *)
Fixpoint tick_loop (fuel : nat) (t visEnd tickNs : num) : option (list num) :=
  if nle t visEnd then
    match fuel with
    | O => None
    | S fuel => rest ← tick_loop fuel (nadd t tickNs) visEnd tickNs; Some (t :: rest)
    end
  else Some [].

(** Never more than sixteen: see [ruler_terminates]. *)
Definition ruler_fuel : nat := 16.

Definition ruler_positions (r : range) : option (list num) :=
  let tickNs := of_Z (tick_unit (visRangeNs r)) in
  let firstTick := nmul (nceil (ndiv (visStartNs r) tickNs)) tickNs in
  tick_loop ruler_fuel firstTick (visEndNs r) tickNs.

Definition nsToX (r : range) (plotW : Z) (ns : num) : num :=
  nadd (of_Z LANE_LABEL_W) (nmul (ndiv (nsub ns (visStartNs r)) (visRangeNs r)) (of_Z plotW)).

(** [laneByService.get(service)]. *)
Definition lane_index (lanes : list string) (svc : string) : option Z :=
  p ← list_find (λ l, l = svc) lanes; Some (Z.of_nat p.1).

Definition add_to_group (groups : list (num * list KernelEvent)) (e : KernelEvent) :
    list (num * list KernelEvent) :=
  map_set (pid e) (default [] (map_get (pid e) groups) ++ [e]) groups.

Definition by_timestamp (a b : KernelEvent) : bool :=
  positive (nsub (timestampNs a) (timestampNs b)).

Definition two_fifths : num := Eval vm_compute in of_frac 2 5.

(** The curve between two successive events of a process, if there is one. *)
Definition curve_of (r : range) (plotW : Z) (lanes : list string) (a b : KernelEvent) : option curve :=
  if nlt (of_Z CAUSAL_WINDOW_NS) (nsub (timestampNs b) (timestampNs a)) then None
  else if decide (service a = service b) then None
  else
    si ← lane_index lanes (service a);
    di ← lane_index lanes (service b);
    let ax := nsToX r plotW (timestampNs a) in
    let bx := nsToX r plotW (timestampNs b) in
    let d := nmul (nsub bx ax) two_fifths in
    Some (mkCurve ax (RULER_H + si * LANE_H + LANE_H / 2) bx (RULER_H + di * LANE_H + LANE_H / 2)
            (nadd ax d) (nsub bx d)).

Fixpoint successive {A} (l : list A) : list (A * A) :=
  match l with a :: (b :: _) as l' => (a, b) :: successive l' | _ => [] end.

Definition curves_of (r : range) (plotW : Z) (lanes : list string) (visEvents : list KernelEvent) :
    list curve :=
  concat ((λ g : num * list KernelEvent,
             omap (λ ab, curve_of r plotW lanes ab.1 ab.2) (successive (js_sort by_timestamp g.2)))
          <$> foldl add_to_group [] visEvents).

(** [e.durationUs ? e.durationUs * 1000 : 600_000]. *)
Definition durNs (e : KernelEvent) : num :=
  match durationUs e with
  | Some d => if is_nan d || neqb d (Fin 0) then of_Z 600000 else nmul d (of_Z 1000)
  | None => of_Z 600000
  end.

Definition bar_of (s : Timeline) (r : range) (plotW : Z) (lanes : list string) (e : KernelEvent) :
    option bar :=
  si ← lane_index lanes (service e);
  let x := nsToX r plotW (timestampNs e) in
  if nlt (of_Z (dim_w s + 20)) x || nlt x (of_Z (LANE_LABEL_W - 20)) then None else
  let y := RULER_H + si * LANE_H + BAR_Y_OFFSET in
  let barW := nmax (of_Z MIN_BAR_W) (nmul (ndiv (durNs e) (visRangeNs r)) (of_Z plotW)) in
  let slow := isSlow (durationUs e) in
  let isSelected := match selectedEvent s with Some sel => bool_decide (id sel = id e) | None => false end in
  let dimmed := match selectedEvent s with Some _ => negb isSelected | None => false end in
  let c := TYPE_COLORS (type e) in
  Some {| bar_event := e; bar_x := x; bar_y := y; bar_w := barW;
          alpha := if dimmed then "0.18" else "1";
          fill := if slow then "rgba(245,158,11,0.88)" else canvas c;
          stroke := if isSelected then "rgba(255,255,255,0.9)"
                    else if slow then "rgba(245,158,11,1)" else border c;
          lineWidth := if isSelected then "1.5" else "0.6";
          bar_label := if nlt (of_Z 30) barW then Some (TYPE_SHORT (type e)) else None;
          outlined := isSelected |}.

Definition visible_events (r : range) (evts : list KernelEvent) : list KernelEvent :=
  filter (λ e, nle (nsub (visStartNs r) (of_Z 5000000)) (timestampNs e) = true ∧
               nle (timestampNs e) (nadd (visEndNs r) (of_Z 5000000)) = true) evts.

Definition draw_lanes (s : Timeline) : list string :=
  getTimelineLanes (match activeEvents s with [] => events s | l => l end).

(** The stripes of the lanes: label, top edge, and whether the background is that
    of the page. *)
Definition rows_of (lanes : list string) : list (string * Z * bool) :=
  imap (λ i svc, (svc, RULER_H + Z.of_nat i * LANE_H, Nat.even i)) lanes.

Definition scene_of (s : Timeline) (cssW cssH : Z) (lanes : list string) (r : range)
    (first : KernelEvent) (evts : list KernelEvent) : option scene :=
  positions ← ruler_positions r;
  let plotW := cssW - LANE_LABEL_W in
  let visEvents := visible_events r evts in
  let nowX := nsToX r plotW (latestNs r) in
  Some {| canvas_w := cssW; canvas_h := cssH; lanes := rows_of lanes;
          ruler := omap (λ t, let x := nsToX r plotW t in
                     if nlt x (of_Z LANE_LABEL_W) || nlt (of_Z cssW) x then None
                     else Some (x, fmtNs (nsub t (timestampNs first)))) positions;
          now_line := if nlt (of_Z LANE_LABEL_W) nowX && nlt nowX (of_Z cssW) then Some nowX else None;
          curves := curves_of r plotW lanes visEvents;
          bars := omap (bar_of s r plotW lanes) visEvents |}.

(** [None] only when the ruler's fuel runs out. *)
Definition draw (s : Timeline) : option scene :=
  let lanes := draw_lanes s in
  let laneCount := Z.max (Z.of_nat (length lanes)) 1 in
  let cssW := dim_w s in
  let cssH := Z.max (RULER_H + laneCount * LANE_H) (dim_h s) in
  let evts := activeEvents s in
  match lanes, getVisRange s evts, head evts with
  | _ :: _, Some r, Some first => scene_of s cssW cssH lanes r first evts
  | _, _, _ => Some (mkScene cssW cssH (rows_of lanes) [] None [] [])
  end.

(** ** Handlers *)

Definition with_events (l : list KernelEvent) (processed : Z) (s : Timeline) : Timeline :=
  mkTimeline l (paused s) processed (timeWindow s) (viewNs s) (offsetNs s) (zoomLabel s)
    (selectedEvent s) (activeTypes s) (dim_w s) (dim_h s).

Definition with_zoom (tw : Z) (view offset : num) (label : string) (s : Timeline) : Timeline :=
  mkTimeline (events s) (paused s) (processedMessage s) tw view offset label
    (selectedEvent s) (activeTypes s) (dim_w s) (dim_h s).

Definition with_selected (o : option KernelEvent) (s : Timeline) : Timeline :=
  mkTimeline (events s) (paused s) (processedMessage s) (timeWindow s) (viewNs s) (offsetNs s)
    (zoomLabel s) o (activeTypes s) (dim_w s) (dim_h s).

(** The effect on [messages] and [paused]; the theme flag is never set. *)
Definition consume `{Host} (messages : list ConnectionMessage) (s : Timeline) : Timeline :=
  if paused s then s
  else
    let l := pending (processedMessage s) messages in
    let evts := decoded l in
    let processed := last_processed (processedMessage s) l in
    match evts with
    | [] => with_events (events s) processed s
    | _ => with_events (slice_last MAX_EVENTS (events s ++ evts)) processed s
    end.

(** A tick of the demo generator, which made the events of [batch]. *)
Definition mock_tick (status : ConnectionStatus) (batch : list KernelEvent) (s : Timeline) : Timeline :=
  if negb (bool_decide (status = mock)) || paused s then s
  else with_events (slice_last MAX_EVENTS (events s ++ batch)) (processedMessage s) s.

Definition four_fifths : num := Eval vm_compute in of_frac 4 5.
Definition five_fourths : num := Eval vm_compute in of_frac 5 4.

(** [120_000_000_000] and [500_000]. *)
Definition MAX_VIEW : Z := 120000000000.
Definition MIN_VIEW : Z := 500000.

Definition handleWheel (deltaY : num) (s : Timeline) : Timeline :=
  let factor := if nlt (Fin 0) deltaY then five_fourths else four_fifths in
  let next := nmin (of_Z MAX_VIEW) (nmax (of_Z MIN_VIEW) (nmul (viewNs s) factor)) in
  with_zoom (timeWindow s) next (offsetNs s) (fmtNs next) s.

(** A button of the window group. *)
Definition setTimeWindow (w : Z) (s : Timeline) : Timeline :=
  let ns := of_Z ((if w =? 0 then 30 else w) * 1000000000) in
  with_zoom w ns (of_Z 0) (fmtNs ns) s.

Definition toggleType (t : EventType) (s : Timeline) : Timeline :=
  mkTimeline (events s) (paused s) (processedMessage s) (timeWindow s) (viewNs s) (offsetNs s)
    (zoomLabel s) (selectedEvent s) (toggle_in t (activeTypes s)) (dim_w s) (dim_h s).

Definition togglePause (s : Timeline) : Timeline :=
  mkTimeline (events s) (negb (paused s)) (processedMessage s) (timeWindow s) (viewNs s) (offsetNs s)
    (zoomLabel s) (selectedEvent s) (activeTypes s) (dim_w s) (dim_h s).

(** The page's part of "clear". *)
Definition clear (s : Timeline) : Timeline :=
  with_selected None (with_events [] (processedMessage s) s).

Definition resize (w h : Z) (s : Timeline) : Timeline :=
  mkTimeline (events s) (paused s) (processedMessage s) (timeWindow s) (viewNs s) (offsetNs s)
    (zoomLabel s) (selectedEvent s) (activeTypes s) w h.

(** [(e.clientX - rect.left) * (canvas.width / dpr / rect.width)]. *)
Definition canvas_coord (client origin size dpr extent : num) : num :=
  nmul (nsub client origin) (ndiv (ndiv size dpr) extent).

(** The bar of [e], with a margin of 300 µs, is under the time [clickNs]. *)
Definition under (clickNs : num) (e : KernelEvent) : bool :=
  nle (nsub (timestampNs e) (of_Z 300000)) clickNs &&
  nle clickNs (nadd (nadd (timestampNs e) (durNs e)) (of_Z 300000)).

Definition distance (clickNs : num) (e : KernelEvent) : num := nabs (nsub (timestampNs e) clickNs).

(** One round of the search for the nearest bar. *)
Definition consider (clickSvc : string) (clickNs : num) (best : option KernelEvent * num)
    (e : KernelEvent) : option KernelEvent * num :=
  if decide (service e = clickSvc) then
    if under clickNs e && nlt (distance clickNs e) best.2 then (Some e, distance clickNs e) else best
  else best.

Definition best_hit (evts : list KernelEvent) (clickSvc : string) (clickNs : num) : option KernelEvent :=
  (foldl (consider clickSvc clickNs) (None, Inf false) evts).1.

Definition handleCanvasClick (mx my : num) (s : Timeline) : Timeline :=
  if nlt mx (of_Z LANE_LABEL_W) then with_selected None s
  else
    let evts := activeEvents s in
    match getVisRange s evts with
    | None => s
    | Some r =>
        let plotW := dim_w s - LANE_LABEL_W in
        let clickNs := nadd (visStartNs r)
          (nmul (ndiv (nsub mx (of_Z LANE_LABEL_W)) (of_Z plotW)) (visRangeNs r)) in
        let laneIdx := nfloor (ndiv (nsub my (of_Z RULER_H)) (of_Z LANE_H)) in
        let lanes := getTimelineLanes evts in
        if nlt laneIdx (Fin 0) || nle (of_Z (Z.of_nat (length lanes))) laneIdx
        then with_selected None s
        else
          let clickSvc := match laneIdx with Fin m => lanes !! Z.to_nat (m / one) | _ => None end in
          match clickSvc with
          | None => with_selected None s       (* no event has an undefined service *)
          | Some svc =>
              match best_hit evts svc clickNs with
              | Some e =>
                  if match selectedEvent s with Some prev => bool_decide (id prev = id e) | None => false end
                  then with_selected None s else with_selected (Some e) s
              | None => with_selected None s
              end
          end
    end.

Inductive timeline_action :=
  | ToggleType (t : EventType) | TogglePause | SetWindow (w : Z) | Clear | Wheel (deltaY : num)
  | Click (mx my : num) | CloseDetail | Resize (w h : Z).

Definition timeline_apply (s : Timeline) (a : timeline_action) : Timeline :=
  match a with
  | ToggleType t => toggleType t s
  | TogglePause => togglePause s
  | SetWindow w => setTimeWindow w s
  | Clear => clear s
  | Wheel d => handleWheel d s
  | Click mx my => handleCanvasClick mx my s
  | CloseDetail => with_selected None s
  | Resize w h => resize w h s
  end.

(** ** Rendering *)

Definition type_pill (active : list EventType) (t : EventType) : view timeline_action :=
  let on := bool_decide (t ∈ active) in
  let c := TYPE_COLORS t in
  let locked := on && bool_decide (length active = 1%nat) in
  Elem "button"
    ([("style", "pill");
      ("backgroundColor", if on then bg c else "transparent");
      ("color", if on then text c else "var(--text-muted)");
      ("borderColor", if on then border c else "var(--border-subtle)");
      ("opacity", if locked then "0.5" else "1");
      ("cursor", if locked then "not-allowed" else "pointer");
      ("disabled", if locked then "true" else "false")] ++
     (if locked then [("title", "At least one type must remain active")] else []))
    [("onClick", ToggleType t)]
    [Elem "span" [("style", "pillDot"); ("backgroundColor", if on then text c else "var(--text-muted)")] [] [];
     Text (TYPE_SHORT t)].

Definition detail_panel (e : KernelEvent) : view timeline_action :=
  sdiv "detail"
    [sdiv "detailHeader"
      [sspan "detailType" (type_name (type e)); sspan "detailSep" "·"; sspan "detailSvc" (service e);
       sspan "detailTs" (timestamp e); sspan "detailDur" (fmtDur (durationUs e));
       Elem "button" [("style", "closeBtn"); ("aria-label", "Close")] [("onClick", CloseDetail)] [icon CloseIcon]];
     sdiv "detailGrid"
      (KV "pid" (num_to_string (pid e)) false ++ KV "tid" (num_to_string (tid e)) false ++
       KV "cpu" (num_to_string (cpu e)) false ++ KV "timestamp" (timestamp e) false ++
       KV "duration" (fmtDur (durationUs e)) (isSlow (durationUs e)) ++ KV "detail" (detail e) false ++
       concat ((λ kv, KV kv.1 kv.2 false) <$> meta e))].

Definition timeline_toolbar (s : Timeline) : view timeline_action :=
  sdiv "toolbar"
    [sdiv "tlLeft" (sspan "filterLabel" "filter" :: (type_pill (activeTypes s) <$> EVENT_TYPES));
     sdiv "tlRight"
      [sdiv "segGroup"
        ((λ w, Elem "button" [("style", if decide (timeWindow s = w) then "seg segOn" else "seg")]
                 [("onClick", SetWindow w)] [Text (if w =? 0 then "all" else dec_of_Z w +:+ "s")])
         <$> [1; 5; 30; 0]);
       sdiv "divider" [];
       sspan "zoomLabel" (zoomLabel s);
       sdiv "divider" [];
       Elem "button" [("style", if paused s then "ctrlBtn ctrlBtnOn" else "ctrlBtn")]
         [("onClick", TogglePause)]
         [icon (if paused s then PlayIcon else PauseIcon); Text (if paused s then "resume" else "live")];
       Elem "button" [("style", "ctrlBtn")] [("onClick", Clear)] [icon ClearIcon; Text " clear"]]].

Definition legend_item {A} (color label : string) : view A :=
  sdiv "legendItem" [Elem "span" [("style", "legendDot"); ("backgroundColor", color)] [] []; sspan "legendLabel" label].

Definition timeline_legend : view timeline_action :=
  sdiv "legend"
    [sspan "legendHint" "scroll to zoom · click bar to inspect";
     sdiv "legendItems"
      (((λ t, legend_item (canvas (TYPE_COLORS t)) (TYPE_SHORT t)) <$> EVENT_TYPES) ++
       [legend_item "rgba(245,158,11,0.88)" "slow (>500ms)"])].

(** The click handler of the canvas takes the mouse position. *)
Definition TimelinePage (s : Timeline) : view timeline_action :=
  sdiv "root"
    ([timeline_toolbar s; timeline_legend;
      sdiv "canvasWrap"
       (Elem "canvas" [("style", "canvas")] [] [] ::
        when (bool_decide (events s = [])) [sdiv "empty" [sspan "emptyText" "awaiting kernel events"]])] ++
     match selectedEvent s with Some e => [detail_panel e] | None => [] end).

(** ** Lanes *)

Lemma add_lanes_spec events :
  NoDup (foldl add_lane [] events) ∧
  ∀ l, l ∈ foldl add_lane [] events ↔ ∃ e, e ∈ events ∧ lane_of e = l.
Proof.
  induction events as [|e events [Hn Hin] IH] using rev_ind; simpl.
  { split; [constructor|]. intros l. rewrite elem_of_nil. split; [done|].
    by intros (? & ?%elem_of_nil & _). }
  rewrite foldl_app. simpl. unfold add_lane at 1 3. case_decide as Hd.
  - split; [done|]. intros l. rewrite Hin. setoid_rewrite elem_of_snoc. split; [naive_solver|].
    intros (e' & [?| ->] & <-); [by exists e'|]. by apply Hin in Hd.
  - split; [by apply NoDup_snoc|]. intros l. rewrite elem_of_snoc, Hin.
    setoid_rewrite elem_of_snoc. naive_solver.
Qed.

(** The lanes of the timeline.  No service has two lanes, there are at most
    twelve, each is the service of an event, and every event has its lane unless
    twelve others are shown. *)
Theorem lanes_spec events :
  let lanes := getTimelineLanes events in
  NoDup lanes ∧ (length lanes ≤ 12)%nat ∧
  (∀ l, l ∈ lanes → ∃ e, e ∈ events ∧ lane_of e = l) ∧
  (∀ e, e ∈ events → lane_of e ∈ lanes ∨ length lanes = 12%nat).
Proof.
  destruct (add_lanes_spec events) as [Hn Hin]. unfold getTimelineLanes. simpl. split_and!.
  - by apply slice_last_NoDup.
  - apply slice_last_le.
  - intros l Hl%slice_last_elem. by apply Hin.
  - intros e He. destruct (decide (length (foldl add_lane [] events) ≤ MAX_LANES)%nat).
    + left. rewrite slice_last_all by done. apply Hin. by exists e.
    + right. rewrite slice_last_length. unfold MAX_LANES in *. lia.
Qed.

(** ** The event under a click *)

(** [a] is further from the click than [b]. *)
Definition further (clickNs : num) (a b : KernelEvent) : bool :=
  nlt (distance clickNs b) (distance clickNs a).

Lemma further_consistent clickNs :
  Consistent (further clickNs) (λ e, is_finite (distance clickNs e) = true).
Proof.
  split; unfold further.
  - intros a b _ _. apply nlt_asym.
  - intros a b c _ Hb _ Hab Hbc. eapply nlt_neg_trans; [|exact Hbc|exact Hab].
    by destruct (distance clickNs b).
Qed.

(** The bars of the clicked lane under the click. *)
Definition hits (evts : list KernelEvent) (svc : string) (clickNs : num) : list KernelEvent :=
  filter (λ e, service e = svc ∧ under clickNs e = true) evts.

Lemma hits_snoc evts svc clickNs e :
  hits (evts ++ [e]) svc clickNs =
  hits evts svc clickNs ++ (if decide (service e = svc ∧ under clickNs e = true) then [e] else []).
Proof. unfold hits. by rewrite filter_app, filter_singleton. Qed.

(** The search keeps the first nearest of the bars seen so far. *)
Definition found (clickNs : num) (l : list KernelEvent) (best : option KernelEvent * num) : Prop :=
  match best.1 with
  | None => l = [] ∧ best.2 = Inf false
  | Some e => first_least (further clickNs) l e ∧ best.2 = distance clickNs e
  end.

Lemma first_least_snoc {A} (gt : A → A → bool) (P : A → Prop) `{!Consistent gt P} l m x :
  P m → P x → Forall P l → first_least gt l m →
  first_least gt (l ++ [x]) (if gt m x then x else m).
Proof.
  intros Hm Hx HP (l1 & l2 & -> & H1 & H2). destruct (gt m x) eqn:E.
  - exists (l1 ++ m :: l2), []. split; [done|]. split; [|constructor].
    rewrite Forall_forall in HP, H1, H2.
    apply Forall_forall. intros y [Hy|[->|Hy]%elem_of_cons]%elem_of_app; [|done|].
    + destruct (gt y x) eqn:Eyx; [done|].
      assert (gt m y = false) as Hmy by (apply (gt_asym gt); [apply HP; set_solver|done|auto]).
      rewrite (gt_neg_trans gt m y x) in E; [done|done|apply HP; set_solver|done|done|done].
    + destruct (gt y x) eqn:Eyx; [done|].
      rewrite (gt_neg_trans gt m y x) in E; [done|done|apply HP; set_solver|done|auto|done].
  - exists l1, (l2 ++ [x]). split; [by rewrite <-app_assoc|]. split; [done|].
    apply Forall_app. by repeat constructor.
Qed.

Lemma best_hit_found evts svc clickNs :
  Forall (λ e, is_finite (distance clickNs e) = true) evts →
  found clickNs (hits evts svc clickNs) (foldl (consider svc clickNs) (None, Inf false) evts).
Proof.
  induction evts as [|e evts IH] using rev_ind; intros Hf; [done|].
  apply Forall_app in Hf as [Hf [He _]%Forall_cons]. specialize (IH Hf).
  rewrite foldl_app, hits_snoc. simpl. set (best := foldl _ _ _) in *. clearbody best.
  unfold consider. destruct (decide (service e = svc)) as [Hs|Hs];
    [|rewrite decide_False by (intros [? _]; done); by rewrite app_nil_r].
  destruct (under clickNs e) eqn:Eu; simpl;
    [rewrite decide_True by done|rewrite decide_False by (intros [_ ?]; congruence); by rewrite app_nil_r].
  destruct best as [[m|] d]; unfold found in *; simpl in *.
  - destruct IH as [Hm ->]. pose proof (further_consistent clickNs) as Hc.
    assert (Forall (λ e, is_finite (distance clickNs e) = true) (hits evts svc clickNs)) as HP.
    { apply Forall_forall. intros y [_ Hy]%list_elem_of_filter. by eapply Forall_forall in Hf. }
    assert (is_finite (distance clickNs m) = true) as Hmf.
    { destruct Hm as (l1 & l2 & El & _). rewrite El in HP. by apply Forall_app in HP as [_ [? _]%Forall_cons]. }
    pose proof (first_least_snoc (further clickNs) _ _ m e Hmf He HP Hm) as Hfl.
    unfold further at 2 in Hfl. by destruct (nlt (distance clickNs e) (distance clickNs m)).
  - destruct IH as [-> ->]. assert (nlt (distance clickNs e) (Inf false) = true) as ->
      by by destruct (distance clickNs e).
    simpl. split; [|done]. exists [], []. by repeat constructor.
Qed.

(** A click selects the right event: among the bars of the clicked lane that are
    under the click, margins included, the one that starts nearest to it, the first
    of them when several are equally near; and none exactly when no bar is there. *)
Lemma best_hit_spec evts svc clickNs :
  Forall (λ e, is_finite (distance clickNs e) = true) evts →
  match best_hit evts svc clickNs with
  | None => hits evts svc clickNs = []
  | Some e => first_least (further clickNs) (hits evts svc clickNs) e
  end.
Proof.
  intros Hf. pose proof (best_hit_found evts svc clickNs Hf) as Hfo. unfold best_hit, found in *.
  destruct (foldl _ _ _) as [[m|] d]; simpl in *; naive_solver.
Qed.

(** ** The ruler *)

Lemma choose_tick_spec raw t mags :
  t ∈ tickMags → (∀ m, m ∈ mags → m ∈ tickMags) →
  choose_tick t mags raw ∈ tickMags ∧
  (nle raw (of_Z (choose_tick t mags raw)) = true ∨ choose_tick t mags raw = default t (last mags)).
Proof.
  revert t. induction mags as [|m mags IH]; intros t Ht Hm; simpl; [by split; [|right]|].
  destruct (nle raw (of_Z m)) eqn:E; [split; [apply Hm; by left|by left]|].
  destruct (IH m ltac:(apply Hm; by left) ltac:(intros; apply Hm; by right)) as [H1 H2].
  split; [done|]. destruct H2 as [?|H2]; [by left|right]. rewrite H2.
  destruct mags as [|m' mags]; [done|]. change (last (m :: m' :: mags)) with (last (m' :: mags)).
  destruct (last (m' :: mags)) eqn:El; [done|]. by apply last_None in El.
Qed.

Lemma tickMags_bounds t : t ∈ tickMags → 1000 ≤ t ≤ 10000000000 ∧ (8 | t).
Proof.
  revert t. apply Forall_forall.
  repeat (constructor; [split; [lia|apply Z.mod_divide; [lia|reflexivity]]|]). constructor.
Qed.

(** The unit is at least a ninth of the range, or the largest there is. *)
Lemma tick_unit_spec v :
  0 ≤ v ≤ MAX_VIEW * one →
  1000 ≤ tick_unit (Fin v) ≤ 10000000000 ∧ v < 13 * tick_unit (Fin v) * one ∧
  (tick_unit (Fin v) < 10000000000 → v < 9 * tick_unit (Fin v) * one).
Proof.
  intros Hv. pose proof one_pos. unfold tick_unit.
  destruct (choose_tick_spec (ndiv (Fin v) (of_Z 8)) 1000 tickMags) as [Hin Hc]; [left|done|].
  set (t := choose_tick _ _ _) in *. destruct (tickMags_bounds t Hin) as [Hb [k Hk]].
  assert (nle (ndiv (Fin v) (of_Z 8)) (of_Z t) = true → v < 9 * t * one) as Hle.
  { intros Hle. apply Z.nle_gt. intros Hge. rewrite (of_Z_exact 8), (of_Z_exact t) in Hle by lia.
    rewrite ndiv_Fin in Hle by lia.
    pose proof (rnd_frac_mono (9 * k * one * (8 * one)) (v * one) (8 * one) ltac:(lia) ltac:(nia)) as Hm.
    rewrite rnd_frac_scale in Hm by lia. unfold one in Hm at 1. rewrite rnd_scaled in Hm by lia.
    fold one in Hm. apply nle_mk_le in Hle; nia. }
  split; [done|]. unfold MAX_VIEW in Hv. destruct Hc as [Hc|Hc]; [specialize (Hle Hc); split; [nia|done]|].
  simpl in Hc. rewrite Hc. split; [lia|]. intros. lia.
Qed.

(** From a whole position on, [n] rounds pass any end that is not further away. *)
Lemma tick_loop_ends n z e t :
  1000 ≤ t ≤ 10000000000 → - 2 ^ 60 ≤ z → e ≤ (2 ^ 61 - 2 ^ 36) * one →
  e < (z + Z.of_nat n * (t - 128)) * one →
  ∃ l, tick_loop n (Fin (z * one)) (Fin e) (of_Z t) = Some l ∧ (length l ≤ n)%nat.
Proof.
  pose proof one_pos as Ho. intros Ht. revert z. induction n as [|n IH]; intros z Hz He Hn.
  - cbn [tick_loop]. rewrite nle_Fin. destruct (Z.leb_spec (z * one) e); [|by eexists].
    change (Z.of_nat 0) with 0 in Hn. lia.
  - cbn [tick_loop]. rewrite nle_Fin. destruct (Z.leb_spec (z * one) e) as [Hle|]; [|exists []; split; [done|simpl; lia]].
    assert (z ≤ 2 ^ 61 - 2 ^ 36) by nia.
    assert (nadd (Fin (z * one)) (of_Z t) = mk (rnd ((z + t) * one))) as ->.
    { rewrite of_Z_exact by lia. change (mk (rnd (z * one + t * one)) = mk (rnd ((z + t) * one))).
      do 2 f_equal. ring. }
    destruct (rnd_whole (z + t) ltac:(lia)) as (z' & -> & Hz').
    rewrite mk_whole by lia.
    destruct (IH z') as (l & -> & Hl); [lia|done|nia|].
    eexists. split; [done|]. simpl. lia.
Qed.

(** Drawing ends.  For any view the page can have and any latest event before
    the year 2043, the ruler's loop over floating-point times stops within the
    sixteen rounds of its fuel, although a step may be rounded. *)
Lemma ruler_terminates s evts r :
  getVisRange s evts = Some r → offsetNs s = of_Z 0 →
  (∃ v, viewNs s = Fin v ∧ MIN_VIEW * one ≤ v ≤ MAX_VIEW * one) →
  (∃ m, latestNs r = Fin m ∧ 0 ≤ m ≤ (2 ^ 61 - 2 ^ 38) * one) →
  ∃ l, ruler_positions r = Some l ∧ (length l ≤ 16)%nat.
Proof.
  unfold getVisRange. intros Hr Ho (v & Hv & Hvb) (m & Hm & Hmb).
  destruct (head evts) as [e0|], (last evts) as [e|]; try done. simplify_eq/=. rewrite Hm, Hv, Ho.
  unfold ruler_positions. cbn [visStartNs visEndNs visRangeNs]. pose proof one_pos as Hone.
  unfold MIN_VIEW, MAX_VIEW in *.
  destruct (tick_unit_spec v) as (Ht & H13 & H9); [unfold MAX_VIEW; lia|].
  set (t := tick_unit (Fin v)) in *.
  assert (∀ j, 0 ≤ j ≤ 2 ^ 61 * one → mk j = Fin j) as Hmk.
  { intros j Hj. apply mk_small. lia. }
  set (q := rnd (m + 100000000 * one)).
  pose proof (rnd_close (m + 100000000 * one) ltac:(lia)) as Hq. fold q in Hq.
  assert (0 ≤ q) by (apply (rnd_mono 0); lia).
  assert (nsub (nadd (Fin m) (of_Z 100000000)) (of_Z 0) = Fin q) as ->.
  { rewrite !of_Z_exact by done. simpl. fold q. rewrite Hmk by lia. simpl.
    rewrite Z.add_0_r. unfold q. rewrite rnd_idem. fold q. apply Hmk. lia. }
  rewrite nsub_Fin. pose proof (rnd_close (q - v) ltac:(lia)) as Ha.
  set (a := rnd (q - v)) in *. rewrite mk_small by lia.
  rewrite (of_Z_exact t) by lia.
  destruct (nceil_ndiv a t) as (k & -> & Hk); [lia|lia|].
  assert (nmul (Fin (k * one)) (Fin (t * one)) = mk (rnd (k * t * one))) as ->.
  { simpl. f_equal. rewrite <-(rnd_frac_scale (k * t * one) one) by done. f_equal. ring. }
  assert (Z.abs (k * t) < 2 ^ 61) as Hkt by nia.
  destruct (rnd_whole (k * t) Hkt) as (z & -> & Hz).
  rewrite mk_whole by lia.
  rewrite <-(of_Z_exact t) by lia. apply tick_loop_ends; [done|nia|lia|].
  change (Z.of_nat ruler_fuel) with 16. destruct (Z.lt_ge_cases t 10000000000) as [Hlt|Hge].
  - specialize (H9 Hlt). nia.
  - nia.
Qed.

(** ** The invariant *)

Definition view_ok (s : Timeline) : Prop :=
  (∃ v, viewNs s = Fin v ∧ MIN_VIEW * one ≤ v ≤ MAX_VIEW * one) ∧ offsetNs s = of_Z 0 ∧
  (zoomLabel s = fmtNs (viewNs s) ∨ (zoomLabel s = "5s" ∧ viewNs s = of_Z 5000000000)).

Definition timeline_ok (s : Timeline) : Prop :=
  (length (events s) ≤ MAX_EVENTS)%nat ∧ Forall wf_event (events s) ∧
  activeTypes s ≠ [] ∧ NoDup (activeTypes s) ∧ view_ok s.

Lemma zoom_in_range v f :
  is_finite f = true → nlt (Fin 0) f = true → 0 ≤ v →
  ∃ w, nmin (of_Z MAX_VIEW) (nmax (of_Z MIN_VIEW) (nmul (Fin v) f)) = Fin w ∧
       MIN_VIEW * one ≤ w ≤ MAX_VIEW * one.
Proof.
  intros Hf Hp Hv.
  assert (nle (Fin 0) (nmul (Fin v) f) = true) as H0.
  { apply nmul_nonneg; [|done..]. rewrite nle_Fin. lia. }
  destruct (nle_not_nan _ _ H0) as [_ Hn].
  destruct (nmax_ge_l (of_Z MIN_VIEW) _ (of_Z_not_nan _) Hn) as [Hge Hn'].
  pose proof (nmin_le_l (of_Z MAX_VIEW) _ (of_Z_not_nan _) Hn') as Hle.
  pose proof (nmin_glb (of_Z MAX_VIEW) _ (of_Z MIN_VIEW) ltac:(by apply of_Z_mono) Hge) as Hmin.
  rewrite (of_Z_exact MIN_VIEW), (of_Z_exact MAX_VIEW) in * by done.
  by apply nle_between.
Qed.

(** The buttons of the window group. *)
Definition offered_action (a : timeline_action) : Prop :=
  match a with SetWindow w => w ∈ [1; 5; 30; 0] | _ => True end.

Lemma view_ok_same s s' :
  viewNs s' = viewNs s → offsetNs s' = offsetNs s → zoomLabel s' = zoomLabel s → view_ok s → view_ok s'.
Proof. unfold view_ok. by intros -> -> ->. Qed.

Lemma handleWheel_ok d s : view_ok s → view_ok (handleWheel d s).
Proof.
  intros ((v & Hv & Hb) & Ho & _). unfold view_ok, handleWheel.
  cbn [viewNs offsetNs zoomLabel with_zoom]. split; [|split; [done|by left]]. rewrite Hv. pose proof one_pos. unfold MIN_VIEW in Hb.
  destruct (nlt (Fin 0) d); apply zoom_in_range; try done; lia.
Qed.

Lemma setTimeWindow_ok w s : w ∈ [1; 5; 30; 0] → view_ok (setTimeWindow w s).
Proof.
  intros Hw. unfold view_ok, setTimeWindow. cbn [viewNs offsetNs zoomLabel with_zoom].
  split; [|split; [done|by left]].
  assert (1 ≤ (if w =? 0 then 30 else w) ≤ 30) as Hb.
  { revert w Hw. apply Forall_forall. repeat (constructor; [simpl; lia|]). constructor. }
  set (ws := if w =? 0 then 30 else w) in *. rewrite of_Z_exact by lia.
  eexists. split; [done|]. unfold MIN_VIEW, MAX_VIEW. pose proof one_pos. nia.
Qed.

(** A click changes nothing but the selection. *)
Lemma handleCanvasClick_same mx my s :
  ∃ o, handleCanvasClick mx my s = with_selected o s.
Proof.
  assert (s = with_selected (selectedEvent s) s) as Hs by by destruct s.
  unfold handleCanvasClick. repeat case_match; eauto.
Qed.

Lemma timeline_apply_ok s a : timeline_ok s → offered_action a → timeline_ok (timeline_apply s a).
Proof.
  intros (Hl & Hw & Hn & Hd & Hv) Ha. destruct a as [t| |w| |d|mx my| |w h]; simpl in *.
  - destruct (toggle_in_ok t (activeTypes s) Hn Hd). by split_and!.
  - by split_and!.
  - split_and!; try done; by apply setTimeWindow_ok.
  - destruct Hv as (?&?&?). split_and!; simpl; first [done|lia|constructor].
  - split_and!; try done; by apply handleWheel_ok.
  - destruct (handleCanvasClick_same mx my s) as [o ->]. by split_and!.
  - by split_and!.
  - by split_and!.
Qed.

Section timeline.
Context `{Host}.

Lemma timeline_consume_ok msgs s : timeline_ok s → timeline_ok (consume msgs s).
Proof.
  intros (Hl & Hw & Hn & Hd & Hv). unfold consume. destruct (paused s); [done|].
  pose proof (decoded_wf (pending (processedMessage s) msgs)) as Hdw.
  destruct (decoded _) as [|e l]; [by split_and!|].
  unfold timeline_ok. cbn [events activeTypes with_events]. split_and!; try done.
  - apply slice_last_le.
  - by apply slice_last_Forall, Forall_app.
Qed.

Lemma timeline_mock_tick_ok status batch s :
  Forall wf_event batch → timeline_ok s → timeline_ok (mock_tick status batch s).
Proof.
  intros He (Hl & Hw & Hn & Hd & Hv). unfold mock_tick. destruct (_ || _); [done|].
  unfold timeline_ok. cbn [events activeTypes with_events]. split_and!; try done.
  - apply slice_last_le.
  - by apply slice_last_Forall, Forall_app.
Qed.

Inductive timeline_reachable : Timeline → Prop :=
  | timeline_start : timeline_reachable timeline_initial
  | timeline_act s a :
      timeline_reachable s → offered_action a → timeline_reachable (timeline_apply s a)
  | timeline_consume s msgs : timeline_reachable s → timeline_reachable (consume msgs s)
  | timeline_mock s status batch :
      timeline_reachable s → Forall wf_event batch → timeline_reachable (mock_tick status batch s).

Lemma timeline_initial_ok : timeline_ok timeline_initial.
Proof.
  unfold timeline_ok, view_ok. cbn [events activeTypes viewNs offsetNs zoomLabel timeline_initial].
  split_and!; try done; [simpl; lia|apply EVENT_TYPES_NoDup| |by right].
  rewrite of_Z_exact by done. eexists. split; [done|]. unfold MIN_VIEW, MAX_VIEW. pose proof one_pos. lia.
Qed.

Lemma timeline_reachable_ok s : timeline_reachable s → timeline_ok s.
Proof.
  induction 1; auto using timeline_initial_ok, timeline_apply_ok, timeline_consume_ok, timeline_mock_tick_ok.
Qed.

(** Whatever the user does and whatever arrives, the timeline keeps at most
    2000 events, all well-formed, at least one type stays active, the view is
    between 0.5 ms and 120 s however far one scrolls, and the zoom label shows
    the view. *)
Lemma timeline_invariant s :
  timeline_reachable s →
  (length (events s) ≤ 2000)%nat ∧ Forall wf_event (events s) ∧
  activeTypes s ≠ [] ∧ NoDup (activeTypes s) ∧
  (∃ v, viewNs s = Fin v ∧ 500000 * one ≤ v ≤ 120000000000 * one) ∧
  (zoomLabel s = fmtNs (viewNs s) ∨ (zoomLabel s = "5s" ∧ viewNs s = of_Z 5000000000)).
Proof.
  intros Hs. by destruct (timeline_reachable_ok s Hs) as (?&?&?&?&?&?&?).
Qed.
End timeline.

(** What is drawn does not depend on where the range starts. *)
Lemma scene_of_range s s' w h lanes a b c d e e' first evts :
  selectedEvent s = selectedEvent s' → dim_w s = dim_w s' →
  scene_of s w h lanes (mkRange a b c d e) first evts =
  scene_of s' w h lanes (mkRange a b c d e') first evts.
Proof. intros Hs Hw. unfold scene_of, bar_of. rewrite Hs, Hw. reflexivity. Qed.

(** The window "all" is not all: choosing it draws exactly what the window
    "30s" draws, whatever the events. *)
Theorem all_window_is_30s s : draw (setTimeWindow 0 s) = draw (setTimeWindow 30 s).
Proof.
  assert (∃ v l, setTimeWindow 0 s = with_zoom 0 v (of_Z 0) l s ∧
                 setTimeWindow 30 s = with_zoom 30 v (of_Z 0) l s) as (v & l & -> & ->) by eauto.
  unfold draw, getVisRange. generalize (of_Z 0) (of_Z 100000000). intros z h.
  change (draw_lanes (with_zoom 30 v z l s)) with (draw_lanes (with_zoom 0 v z l s)).
  change (activeEvents (with_zoom 30 v z l s)) with (activeEvents (with_zoom 0 v z l s)).
  destruct (draw_lanes (with_zoom 0 v z l s)) as [|x xs], (activeEvents (with_zoom 0 v z l s)) as [|e es];
    [reflexivity..|].
  destruct (last (e :: es)); [by apply scene_of_range|reflexivity].
Qed.

(** ** Witnesses *)

Definition timeline_events : list KernelEvent :=
  [sample_event "a" 1000000 sys_write 7 "api-worker" (Some 900000);
   sample_event "b" 3000000 tcp_send 7 "db" (Some 300);
   sample_event "c" 900000000 tcp_recv 8 "api-worker" None].

Definition sample_timeline : Timeline :=
  with_events timeline_events 3 timeline_initial.

Lemma best_hit_spec_witness :
  id <$> best_hit timeline_events "api-worker" (of_Z 1100000) = Some "a" ∧
  match best_hit timeline_events "api-worker" (of_Z 1100000) with
  | None => hits timeline_events "api-worker" (of_Z 1100000) = []
  | Some e => first_least (further (of_Z 1100000))
                (hits timeline_events "api-worker" (of_Z 1100000)) e
  end.
Proof.
  split; [vm_compute; reflexivity|].
  apply (best_hit_spec timeline_events "api-worker" (of_Z 1100000)).
  repeat constructor.
Defined.

Definition sample_range : range :=
  default (mkRange NaN NaN NaN NaN NaN) (getVisRange sample_timeline timeline_events).

Lemma ruler_terminates_witness :
  ∃ l, ruler_positions sample_range = Some l ∧ (length l ≤ 16)%nat.
Proof.
  apply (ruler_terminates sample_timeline timeline_events sample_range); [vm_compute; reflexivity..| |].
  - exists (5000000000 * one). split; [vm_compute; reflexivity|vm_compute; split; congruence].
  - exists (900000000 * one).
    split; [vm_compute; reflexivity|vm_compute; split; congruence].
Defined.

Definition used_timeline : Timeline :=
  timeline_apply (consume (H := utc) sample_messages
    (timeline_apply (timeline_apply timeline_initial (Wheel (of_Z (-3)))) (SetWindow 30))) TogglePause.

Lemma timeline_invariant_witness :
  zoomLabel used_timeline = "30.00s" ∧ activeTypes used_timeline ≠ [].
Proof.
  split; [vm_compute; reflexivity|].
  destruct (timeline_invariant (H := utc) used_timeline) as (_ & _ & Ht & _); [|exact Ht].
  apply timeline_act; [apply timeline_consume|done].
  apply timeline_act; [|simpl; right; right; left].
  apply timeline_act; [apply timeline_start|done].
Defined.
