(* ===== verification/Paint.v ===== *)
(** * pages/Timeline.tsx: painting the timeline

    The calls [draw] makes on the canvas, in order, from the scene of [Timeline]:
    the resizing, the lanes, the ruler, the curves and the bars.  What the theme's
    custom properties compute to is a class. *)

From S2P Require Import Prelude JsNumber JsString Events WireEvent Connection Feed StreamPage Timeline.
Open Scope Z_scope.

(** [getComputedStyle(document.documentElement).getPropertyValue]. *)
Class Theme := getPropertyValue : string → string.

(** Assignments to properties of the canvas and its context, and calls: the size in
    pixels, the size on the page, and what the context draws. *)
Inductive call :=
  | SetSize (w h : num) | StyleSize (w h : Z) | Scale (x y : num)
  | FillStyle (c : string) | StrokeStyle (c : string) | LineWidth (w : string)
  | GlobalAlpha (a : string) | LineDash (l : list Z) | Font (f : string) | TextAlign (a : string)
  | Save | Restore
  | ClearRect (x y w h : num) | FillRect (x y w h : num) | BeginPath | MoveTo (x y : num) | LineTo (x y : num)
  | BezierCurveTo (ax ay bx by_ x y : num) | Rect (x y w h : num) | Fill | Stroke
  | FillText (s : string) (x y : num).

Section paint.
Context `{Theme}.

Definition v (name : string) : string := trim (getPropertyValue name).

(** A straight line. *)
Definition line (x1 y1 x2 y2 : num) : list call := [BeginPath; MoveTo x1 y1; LineTo x2 y2; Stroke].

(** The canvas is resized when its size in pixels is not [size]. *)
Definition fit (dpr : num) (size : num * num) (sc : scene) : list call :=
  let w := nmul (of_Z (canvas_w sc)) dpr in
  let h := nmul (of_Z (canvas_h sc)) dpr in
  if negb (neqb size.1 w) || negb (neqb size.2 h) then [SetSize w h; StyleSize (canvas_w sc) (canvas_h sc); Scale dpr dpr]
  else [].

Definition stripe (cssW : Z) (row : string * Z * bool) : list call :=
  let '(_, y, even) := row in
  [FillStyle (if even : bool then v "--bg" else v "--bg-subtle");
   FillRect (of_Z LANE_LABEL_W) (of_Z y) (of_Z (cssW - LANE_LABEL_W)) (of_Z LANE_H);
   StrokeStyle (v "--border-subtle"); LineWidth "1"] ++
  line (of_Z 0) (of_Z (y + LANE_H)) (of_Z cssW) (of_Z (y + LANE_H)).

Definition lane_label (row : string * Z * bool) : list call :=
  let '(svc, y, _) := row in
  [FillStyle (v "--bg-subtle"); FillRect (of_Z 0) (of_Z y) (of_Z LANE_LABEL_W) (of_Z LANE_H);
   Font "600 10px monospace"; TextAlign "left"; FillStyle (v "--text-secondary");
   FillText svc (of_Z 12) (of_Z (y + LANE_H / 2 + 4));
   StrokeStyle (v "--border"); LineWidth "1"] ++
  line (of_Z LANE_LABEL_W) (of_Z y) (of_Z LANE_LABEL_W) (of_Z (y + LANE_H)).

(** Background, ruler and lanes. *)
Definition frame (sc : scene) : list call :=
  let w := of_Z (canvas_w sc) in
  [ClearRect (of_Z 0) (of_Z 0) w (of_Z (canvas_h sc));
   FillStyle (v "--bg"); FillRect (of_Z 0) (of_Z 0) w (of_Z (canvas_h sc));
   FillStyle (v "--bg-subtle"); FillRect (of_Z 0) (of_Z 0) w (of_Z RULER_H);
   StrokeStyle (v "--border-subtle"); LineWidth "1"] ++
  line (of_Z LANE_LABEL_W) (of_Z RULER_H) w (of_Z RULER_H) ++
  concat (stripe (canvas_w sc) <$> lanes sc) ++ concat (lane_label <$> lanes sc).

Definition tick (cssH : Z) (t : num * string) : list call :=
  [StrokeStyle (v "--border"); LineWidth "1"] ++ line t.1 (of_Z (RULER_H - 6)) t.1 (of_Z RULER_H) ++
  [StrokeStyle (v "--border-subtle")] ++ line t.1 (of_Z RULER_H) t.1 (of_Z cssH) ++
  [FillStyle (v "--text-muted"); FillText t.2 t.1 (of_Z (RULER_H - 9))].

Definition now_calls (cssH : Z) (x : num) : list call :=
  [StrokeStyle "rgba(245,158,11,0.45)"; LineWidth "1"; LineDash [4; 3]] ++
  line x (of_Z RULER_H) x (of_Z cssH) ++ [LineDash []].

Definition curve_calls (c : curve) : list call :=
  [BeginPath; MoveTo (ax c) (of_Z (ay c));
   BezierCurveTo (c1x c) (of_Z (ay c)) (c2x c) (of_Z (by_ c)) (bx c) (of_Z (by_ c)); Stroke].

Definition bar_calls (b : bar) : list call :=
  [GlobalAlpha (alpha b); FillStyle (fill b); BeginPath;
   Rect (bar_x b) (of_Z (bar_y b)) (bar_w b) (of_Z BAR_H); Fill;
   StrokeStyle (stroke b); LineWidth (lineWidth b); Stroke] ++
  match bar_label b with
  | Some t =>
      [GlobalAlpha (if decide (alpha b = "1") then "0.9" else "0.12"); Font "600 7px monospace"; TextAlign "left";
       FillStyle (v "--text-primary");
       FillText t (nadd (bar_x b) (of_Z 4)) (of_Z (bar_y b + BAR_H / 2 + 3))]
  | None => []
  end ++
  [GlobalAlpha "1"] ++
  if outlined b then
    [StrokeStyle "rgba(245,158,11,1)"; LineWidth "2"; BeginPath;
     Rect (nsub (bar_x b) (of_Z 2)) (of_Z (bar_y b - 2)) (nadd (bar_w b) (of_Z 4)) (of_Z (BAR_H + 4)); Stroke]
  else [].

(** What is painted when there are events. *)
Definition marks (sc : scene) : list call :=
  [Font "600 9px monospace"; TextAlign "center"] ++
  concat (tick (canvas_h sc) <$> ruler sc) ++
  match now_line sc with Some x => now_calls (canvas_h sc) x | None => [] end ++
  [Save; StrokeStyle (v "--accent-dim"); LineWidth "1"; LineDash [2; 4]] ++
  concat (curve_calls <$> curves sc) ++ [LineDash []; Restore] ++
  concat (bar_calls <$> bars sc).

(** The calls of [draw], on a canvas of [size] pixels. *)
Definition paint (dpr : num) (size : num * num) (s : Timeline) : option (list call) :=
  sc ← draw s;
  Some (fit dpr size sc ++ frame sc ++ match activeEvents s with [] => [] | _ => marks sc end).

(** ** What painting leaves behind *)

(** The drawing state a call could leave to the next frame: setting the size
    resets it, saving and restoring stack it. *)
Record context := mkContext { globalAlpha : string; dash : list Z; saved : list (string * list Z) }.

Definition fresh : context := mkContext "1" [] [].

Definition run_call (c : context) (k : call) : context :=
  match k with
  | SetSize _ _ => fresh
  | GlobalAlpha a => mkContext a (dash c) (saved c)
  | LineDash l => mkContext (globalAlpha c) l (saved c)
  | Save => mkContext (globalAlpha c) (dash c) ((globalAlpha c, dash c) :: saved c)
  | Restore => match saved c with [] => c | (a, l) :: st => mkContext a l st end
  | _ => c
  end.

Definition run (c : context) (l : list call) : context := foldl run_call c l.

Lemma run_app c l k : run c (l ++ k) = run (run c l) k.
Proof. apply foldl_app. Qed.

(** Chunks that bring a state back. *)
Lemma run_concat {A} (f : A → list call) (l : list A) c :
  (∀ x, run c (f x) = c) → run c (concat (f <$> l)) = c.
Proof. intros Hf. induction l as [|x l IH]; [done|]. rewrite fmap_cons. cbn [concat]. by rewrite run_app, Hf. Qed.

Lemma run_fit dpr size sc : run fresh (fit dpr size sc) = fresh.
Proof. unfold fit. by destruct (_ || _). Qed.

Lemma run_frame sc : run fresh (frame sc) = fresh.
Proof.
  unfold frame. rewrite !run_app. change (run (run fresh _) _) with fresh.
  rewrite run_concat by (by intros [[??]?]). by apply run_concat; intros [[??]?].
Qed.

Lemma run_bar b : run fresh (bar_calls b) = fresh.
Proof. unfold bar_calls. by destruct (bar_label b), (outlined b). Qed.

Lemma run_marks sc : run fresh (marks sc) = fresh.
Proof.
  unfold marks. rewrite !run_app. change (run fresh [Font _; _]) with fresh.
  rewrite (run_concat (tick _)) by done.
  assert (run fresh (match now_line sc with Some x => now_calls (canvas_h sc) x | None => [] end) = fresh) as ->
    by by destruct (now_line sc).
  rewrite (run_concat curve_calls) by done. apply run_concat, run_bar.
Qed.
End paint.

(** ** Every frame is painted *)

(** A time before the year 2043. *)
Definition in_time (e : KernelEvent) : Prop := nle (timestampNs e) (of_Z (2 ^ 61 - 2 ^ 38)) = true.

Lemma in_time_bounds e :
  wf_event e → in_time e → ∃ m, timestampNs e = Fin m ∧ 0 ≤ m ≤ (2 ^ 61 - 2 ^ 38) * one.
Proof.
  intros (Hf & Hp & _) Ht. unfold in_time in Ht.
  assert (of_Z (2 ^ 61 - 2 ^ 38) = Fin ((2 ^ 61 - 2 ^ 38) * one)) as Ho.
  { rewrite of_Z_finite by lia. reflexivity. }
  rewrite Ho in Ht. clear Ho. destruct (timestampNs e) as [|b|m]; [discriminate Hf|discriminate Hf|].
  exists m. split; [done|]. rewrite nle_Fin in Ht. apply Z.leb_le in Ht. apply Z.ltb_lt in Hp. lia.
Qed.

Lemma omap_length {A B} (f : A → option B) (l : list A) : (length (omap f l) ≤ length l)%nat.
Proof. induction l as [|x l IH]; [done|]. csimpl. destruct (f x); csimpl; lia. Qed.

Lemma rows_of_length l : length (rows_of l) = length l.
Proof. apply length_imap. Qed.

(** The last lane ends where the canvas does, or above. *)
Lemma rows_of_fit l svc y even :
  (svc, y, even) ∈ rows_of l → y + LANE_H ≤ RULER_H + Z.of_nat (length l) * LANE_H.
Proof.
  unfold rows_of. intros (i & Hi)%list_elem_of_lookup. rewrite list_lookup_imap in Hi.
  destruct (l !! i) as [x|] eqn:E; [|done]. injection Hi as _ <- _. apply lookup_lt_Some in E.
  unfold LANE_H. lia.
Qed.

(** The parts of a scene that [timeline_drawn] speaks of. *)
Definition sized (s : Timeline) (sc : scene) : Prop :=
  lanes sc = rows_of (draw_lanes s) ∧
  RULER_H + Z.of_nat (length (draw_lanes s)) * LANE_H ≤ canvas_h sc ∧
  (length (ruler sc) ≤ 16)%nat ∧ (length (bars sc) ≤ 2000)%nat.

Lemma active_length s : (length (activeEvents s) ≤ length (events s))%nat.
Proof. apply length_filter. Qed.

Lemma draw_sized s :
  timeline_ok s → (∀ e, last (activeEvents s) = Some e → in_time e) → ∃ sc, draw s = Some sc ∧ sized s sc.
Proof.
  intros (Hl & Hw & _ & _ & Hv & Ho & _) Htime.
  assert (∀ h, RULER_H + Z.of_nat (length (draw_lanes s)) * LANE_H ≤
    Z.max (RULER_H + Z.max (Z.of_nat (length (draw_lanes s))) 1 * LANE_H) h) as Hh by (unfold LANE_H; lia).
  unfold draw. destruct (getVisRange s (activeEvents s)) as [r|] eqn:Er.
  2: { exists (mkScene (dim_w s) (Z.max (RULER_H + Z.max (Z.of_nat (length (draw_lanes s))) 1 * LANE_H) (dim_h s))
         (rows_of (draw_lanes s)) [] None [] []). split; [by destruct (draw_lanes s)|].
       split_and!; [done|apply Hh|simpl; lia|simpl; lia]. }
  destruct (ruler_terminates s (activeEvents s) r Er Ho Hv) as (ps & Hps & Hlen).
  { unfold getVisRange in Er. destruct (head (activeEvents s)), (last (activeEvents s)) as [e|] eqn:El; try done.
    injection Er as <-. cbn [latestNs]. apply in_time_bounds; [|by apply Htime].
    apply last_Some_elem_of, list_elem_of_filter in El as [_ Hin]. rewrite Forall_forall in Hw. by apply Hw. }
  destruct (draw_lanes s) as [|x xs] eqn:Ed, (head (activeEvents s)) as [e|];
    try (eexists; split; [reflexivity|]; unfold sized; rewrite ?Ed; split_and!; [done|apply Hh|simpl; lia|simpl; lia]).
  unfold scene_of. rewrite Hps. cbn [mbind option_bind]. eexists. split; [reflexivity|].
  unfold sized. rewrite Ed. cbn [lanes canvas_h ruler bars]. split_and!; [done|apply Hh| |].
  - etrans; [apply omap_length|exact Hlen].
  - etrans; [apply omap_length|]. unfold visible_events. etrans; [apply length_filter|].
    etrans; [apply active_length|exact Hl].
Qed.

Section drawn.
Context `{Host} `{Theme}.

(** C37: every frame of the timeline.  In every reachable state with times before the
    year 2043, drawing ends: the ruler's loop over floating-point times stops within
    its sixteen rounds however far one zoomed.  What it draws is bounded - twelve
    lanes that fit on the canvas, at most sixteen ticks, a bar for at most 2000
    events - and painting it on a canvas of any size and pixel ratio leaves no
    transparency, dashes or saved states behind for the next frame. *)
Theorem timeline_drawn s dpr size :
  timeline_reachable s → (∀ e, last (activeEvents s) = Some e → in_time e) →
  ∃ sc calls, draw s = Some sc ∧ paint dpr size s = Some calls ∧
    (length (lanes sc) ≤ 12)%nat ∧
    (∀ svc y even, (svc, y, even) ∈ lanes sc → y + LANE_H ≤ canvas_h sc) ∧
    (length (ruler sc) ≤ 16)%nat ∧ (length (bars sc) ≤ 2000)%nat ∧
    run fresh calls = fresh.
Proof.
  intros Hs Htime.
  destruct (draw_sized s (timeline_reachable_ok s Hs) Htime) as (sc & Hd & Hla & Hh & Hr & Hb).
  exists sc. eexists. split; [exact Hd|]. unfold paint. rewrite Hd. split; [reflexivity|].
  rewrite Hla, rows_of_length. split; [apply slice_last_le|]. split.
  { intros svc y even Hin%rows_of_fit. lia. }
  split; [exact Hr|]. split; [exact Hb|].
  rewrite !run_app, run_fit, run_frame. destruct (activeEvents s); [done|apply run_marks].
Qed.
End drawn.

(** ** Witness *)

Definition dark_theme : Theme := λ name, default "" (map_get name [("--bg", "#0e0e0f"); ("--border", "#242426")]).

(** The sample timeline, on a canvas of its size. *)
Lemma timeline_drawn_witness :
  ∃ sc calls, draw used_timeline = Some sc ∧
    paint (H := dark_theme) (of_Z 2) (of_Z 2400, of_Z 800) used_timeline = Some calls ∧
    run fresh calls = fresh.
Proof.
  destruct (timeline_drawn (H := utc) (H0 := dark_theme) used_timeline (of_Z 2) (of_Z 2400, of_Z 800))
    as (sc & calls & Hd & Hp & _ & _ & _ & _ & Hr); [| |exists sc, calls; split; [exact Hd|split; [exact Hp|exact Hr]]].
  - apply timeline_act; [apply timeline_consume|done].
    apply timeline_act; [|simpl; right; right; left].
    apply timeline_act; [apply timeline_start|done].
  - intros e He. vm_compute in He. injection He as <-. unfold in_time. vm_compute. reflexivity.
Defined.
