(* ===== verification/Live.v ===== *)
(** * The provider and its pages together

    The pages read the provider through [useConnection]: its status, its list and
    [clearMessages].  [Consumer] is what the provider's side relies on of a page,
    [Window] what holds of a page that shows the newest events; Stream and Timeline
    are instances of both, Graph of the first.  [Live] runs such a page against the
    provider; the theorems, whose lemmas are proved against the interface, follow a
    message from the socket to what is shown. *)

From S2P Require Import Prelude JsNumber JsString Json Events WireEvent Auth Connection CausalApi DebugAnalysis Graph Feed View GraphPage StreamPage Timeline.
Open Scope Z_scope.

(** ** The interface *)

Class Consumer (P A : Type) := {
  start : P;                          (* the state of the page when it is mounted *)
  act_enabled : P → A → Prop;
  act : P → A → P;                    (* a callback of the page *)
  clears : A → bool;                  (* that callback also calls [clearMessages] *)
  render : list ConnectionMessage → P → P;   (* the effect that reads the list *)
  demo : ConnectionStatus → list KernelEvent → P → P;   (* ticks of the demo generator *)
  mark : P → Z;                       (* [processedMessageRef] *)
  stopped : P → bool
}.

Class ConsumerLaws (P A : Type) `{Consumer P A} := {
  mark_start : mark start = 0;
  mark_act p a : act_enabled p a → mark (act p a) = mark p;
  mark_render msgs p :
    mark (render msgs p) =
      if stopped p then mark p else last_processed (mark p) (pending (mark p) msgs);
  demo_off st l p : st ≠ mock → demo st l p = p
}.

(** A page that keeps the newest [cap] of the events it decoded. *)
Class Window (P A : Type) `{Consumer P A} := { shown : P → list KernelEvent; cap : nat }.

Class WindowLaws (P A : Type) `{Host} `{Window P A} := {
  cap_pos : (0 < cap)%nat;
  shown_start : shown start = [];
  shown_act p a : shown (act p a) = if clears a then [] else shown p;
  shown_render msgs p :
    (length (shown p) ≤ cap)%nat →
    shown (render msgs p) =
      if stopped p then shown p
      else slice_last cap (shown p ++ decoded (pending (mark p) msgs))
}.

(** ** A page under the provider *)

Section live.
Context {P A : Type} `{Consumer P A}.

Record Live := mkLive { provider : Conn; page : P }.

Inductive live_action :=
  | Provider (a : action) | User (a : A) | Demo (evts : list KernelEvent) | Render.

Definition live_enabled (l : Live) (a : live_action) : Prop :=
  match a with
  | Provider a => enabled (provider l) a
  | User a => act_enabled (page l) a
  | Demo _ | Render => True
  end.

Definition live_apply (l : Live) (a : live_action) : Live :=
  match a with
  | Provider a => mkLive (apply (provider l) a) (page l)
  | User a =>
      mkLive (if clears a then apply (provider l) Connection.Clear else provider l) (act (page l) a)
  | Demo evts => mkLive (provider l) (demo (status (provider l)) evts (page l))
  | Render => mkLive (provider l) (render (messages (provider l)) (page l))
  end.

(** A page is mounted under a provider in any state it can be in. *)
Inductive live_reachable : Live → Prop :=
  | live_mounted c : reachable c → live_reachable (mkLive c start)
  | live_step l a : live_reachable l → live_enabled l a → live_reachable (live_apply l a).

(** The world of [Feed] the pair is in, once the page has gone through [seen]. *)
Definition world_of (l : Live) (seen : list ConnectionMessage) : World :=
  mkWorld (provider l) (mark (page l)) seen.

(** What a step makes the page go through. *)
Definition read (l : Live) (a : live_action) : list ConnectionMessage :=
  match a with
  | Render => if stopped (page l) then [] else pending (mark (page l)) (messages (provider l))
  | _ => []
  end.

Context `{!ConsumerLaws P A}.

Lemma live_step_world l a seen :
  world_reachable (world_of l seen) → live_enabled l a →
  world_reachable (world_of (live_apply l a) (seen ++ read l a)).
Proof.
  intros Hw Ha. destruct a as [a|a|e|]; unfold world_of in *; simpl in *; rewrite ?app_nil_r.
  - exact (world_conn _ a Hw Ha).
  - rewrite mark_act by done. destruct (clears a); [exact (world_conn _ Connection.Clear Hw I)|done].
  - rewrite demo_off; [done|]. apply status_is_live. apply (world_reachable_ok _ Hw).
  - rewrite mark_render. destruct (stopped (page l)); [by rewrite app_nil_r|].
    exact (world_pass _ Hw).
Qed.

Lemma live_world l : live_reachable l → ∃ seen, world_reachable (world_of l seen).
Proof.
  induction 1 as [c Hc|l a _ [seen Hw] Ha].
  - exists []. unfold world_of. simpl. rewrite mark_start. by apply world_initial.
  - eexists. by apply live_step_world.
Qed.

Lemma live_mark l : live_reachable l → reachable (provider l) ∧ mark (page l) ≤ sequence (provider l).
Proof. intros (seen & (Hr & _ & _ & Hp & _)%world_reachable_ok)%live_world. done. Qed.

(** A message the provider queues is the last one the page goes through at the
    next render after the flush. *)
Lemma message_pending l d :
  live_reachable l → mounted (provider l) = true → hydrated (provider l) = true →
  eventKey d ∉ seenEventKeys (provider l) →
  ∃ k i, pending (mark (page l)) (messages (flush (onmessage d (provider l)))) = k ++ [mkMsg i d].
Proof.
  intros Hl Hm Hh Hk. destruct (live_mark l Hl) as [_ Hs].
  pose proof (apply_sequence (provider l) Flush) as Hf. simpl in Hf.
  rewrite message_flushed, decide_False by done.
  destruct (slice_last_snoc 2000 (messages (flush (provider l)))
    (mkMsg (sequence (flush (provider l)) + 1) d)) as [k ->]; [lia|].
  unfold pending. rewrite filter_app, filter_cons_True by (simpl; lia). rewrite filter_nil. by eexists _, _.
Qed.
End live.

Arguments Live : clear implicits.
Arguments live_action : clear implicits.

(** ** The pages *)

(** Which callbacks call [clearMessages]: "clear" of the table and of the timeline;
    that of the graph leaves the provider's list alone. *)
Definition stream_clears (a : stream_action) : bool :=
  match a with ClearEvents => true | _ => false end.

Definition timeline_clears (a : timeline_action) : bool :=
  match a with Clear => true | _ => false end.

Definition graph_clears (a : page_action) : bool := false.

#[export] Instance Stream_consumer `{Host} : Consumer Stream stream_action := {
  start := stream_initial;
  act_enabled _ _ := True;
  act := stream_apply;
  clears := stream_clears;
  render := commit;
  demo st evts s := foldl (λ s e, StreamPage.mock_tick st e s) s evts;
  mark := StreamPage.processedMessage;
  stopped := StreamPage.paused
}.

#[export] Instance Timeline_consumer `{Host} : Consumer Timeline timeline_action := {
  start := timeline_initial;
  act_enabled _ a := offered_action a;
  act := timeline_apply;
  clears := timeline_clears;
  render := Timeline.consume;
  demo := Timeline.mock_tick;
  mark := Timeline.processedMessage;
  stopped := Timeline.paused
}.

(** The effects of the graph page are not callbacks of the user. *)
#[export] Instance Graph_consumer `{Host} `{Collation} `{Dagre} : Consumer Page page_action := {
  start := page_initial;
  act_enabled s a := page_enabled s a ∧ match a with Messages _ | MockTick _ _ => False | _ => True end;
  act := page_apply;
  clears := graph_clears;
  render := GraphPage.consume;
  demo st evts s := foldl (λ s e, GraphPage.mock_tick st e s) s evts;
  mark := GraphPage.processedMessage;
  stopped := GraphPage.paused
}.

#[export] Instance Stream_window `{Host} : Window Stream stream_action :=
  { shown := StreamPage.events; cap := StreamPage.MAX_EVENTS }.

#[export] Instance Timeline_window `{Host} : Window Timeline timeline_action :=
  { shown := Timeline.events; cap := Timeline.MAX_EVENTS }.

Lemma close_hidden_same s :
  StreamPage.events (close_hidden s) = StreamPage.events s ∧
  StreamPage.paused (close_hidden s) = StreamPage.paused s ∧
  StreamPage.processedMessage (close_hidden s) = StreamPage.processedMessage s.
Proof. unfold close_hidden. by repeat case_match. Qed.

Section pages.
Context `{Host} `{Collation} `{Dagre}.

(** The loop of the table moves its mark whatever it holds. *)
Lemma stream_loop_mark l s :
  StreamPage.processedMessage (foldl handle_message s l) =
  last_processed (StreamPage.processedMessage s) l.
Proof. revert s. induction l as [|m l IH]; intros s; [done|]. apply IH. Qed.

#[export] Instance Stream_laws : ConsumerLaws Stream stream_action.
Proof.
  split; simpl.
  - done.
  - by intros p [] _.
  - intros msgs p. unfold commit. destruct (close_hidden_same p) as (_ & Ep & Em).
    destruct (close_hidden_same (StreamPage.consume msgs (close_hidden p))) as (_ & _ & ->).
    unfold StreamPage.consume. rewrite Ep. destruct (StreamPage.paused p); [done|].
    by rewrite stream_loop_mark, Em.
  - intros st evts p Hst. induction evts as [|e evts IH]; [done|]. simpl.
    unfold StreamPage.mock_tick at 2. by rewrite bool_decide_eq_false_2.
Qed.

#[export] Instance Stream_window_laws : WindowLaws Stream stream_action.
Proof.
  split; simpl.
  - unfold StreamPage.MAX_EVENTS. lia.
  - done.
  - by intros p [].
  - intros msgs p Hl. unfold commit. destruct (close_hidden_same p) as (Ee & Ep & Em).
    destruct (close_hidden_same (StreamPage.consume msgs (close_hidden p))) as (-> & _ & _).
    unfold StreamPage.consume. rewrite Ep. destruct (StreamPage.paused p); [done|].
    rewrite handle_messages by by rewrite Ee. simpl. by rewrite Ee, Em.
Qed.

#[export] Instance Timeline_laws : ConsumerLaws Timeline timeline_action.
Proof.
  split; simpl.
  - done.
  - intros p [] _; try done; simpl. by destruct (handleCanvasClick_same mx my p) as [o ->].
  - intros msgs p. unfold Timeline.consume. destruct (Timeline.paused p); [done|]. by case_match.
  - intros st e p Hst. unfold Timeline.mock_tick. by rewrite bool_decide_eq_false_2.
Qed.

#[export] Instance Timeline_window_laws : WindowLaws Timeline timeline_action.
Proof.
  split; simpl.
  - unfold Timeline.MAX_EVENTS. lia.
  - done.
  - intros p []; try done; simpl. by destruct (handleCanvasClick_same mx my p) as [o ->].
  - intros msgs p Hl. unfold Timeline.consume. destruct (Timeline.paused p); [done|].
    destruct (decoded _) eqn:E; simpl; [|done]. by rewrite app_nil_r, slice_last_all.
Qed.

#[export] Instance Graph_laws : ConsumerLaws Page page_action.
Proof.
  split; simpl.
  - done.
  - intros p a [_ Ha]. destruct a as [| |d| |l|st e| |tx r]; simpl; try done.
    + unfold start_fetch. by case_match.
    + unfold chain_answered. destruct (fetchCausalChain tx r) as [|[evts edges]]; [done|].
      destruct (_ || _); [done|]. unfold applyGraph. by destruct (analyzeDebugGraph _ _).
  - intros msgs p. unfold GraphPage.consume. destruct (GraphPage.paused p); [done|].
    set (l := pending _ _).
    destruct (loadCausalChain_fields (latest_transaction (decoded l))
      (set_processed (last_processed (GraphPage.processedMessage p) l) p)) as (c & r & t & ->).
    case_decide; [done|]. by rewrite (proj1 (proj2 (proj2 (proj2 (applyGraph_kept _ _ _ _))))).
  - intros st evts p Hst. induction evts as [|e evts IH]; [done|]. simpl.
    unfold GraphPage.mock_tick at 2. by rewrite bool_decide_eq_false_2.
Qed.
End pages.

Lemma decoded_wire `{Host} d p t i :
  json_parse d = Some (kernelEventWire p) → proto_ok p →
  type_of_name (EventType' p) = Some t → TimestampNs p ≠ 0 →
  decoded [mkMsg i d] = [event_of_proto t p].
Proof.
  intros Hd Hok Ht Hts. unfold decoded, decode. simpl. rewrite Hd. simpl.
  by rewrite mapWireEvent_live, (outcome_known p t).
Qed.

(** ** What a page shows *)

Section window.
Context {P A : Type} `{Host} `{HC : Consumer P A} `{HW : @Window P A HC}.
Context `{!ConsumerLaws P A} `{!WindowLaws P A}.

Implicit Types l : Live P.

(** A run of callbacks, each enabled when its turn comes. *)
Fixpoint live_run l (acts : list (live_action A)) : Prop :=
  match acts with [] => True | a :: acts => live_enabled l a ∧ live_run (live_apply l a) acts end.

(** What the page goes through in a run, and what of it since it was last cleared. *)
Fixpoint gone_through l (acts : list (live_action A)) (gone : list ConnectionMessage) :
    list ConnectionMessage :=
  match acts with [] => gone | a :: acts => gone_through (live_apply l a) acts (gone ++ read l a) end.

Definition clearing (a : live_action A) : bool := match a with User a => clears a | _ => false end.

Fixpoint since_clear l (acts : list (live_action A)) (since : list ConnectionMessage) :
    list ConnectionMessage :=
  match acts with
  | [] => since
  | a :: acts => since_clear (live_apply l a) acts (if clearing a then [] else since ++ read l a)
  end.

Lemma run_shows l acts gone since :
  world_reachable (world_of l gone) → shown (page l) = slice_last cap (decoded since) → live_run l acts →
  let l' := foldl live_apply l acts in
  world_reachable (world_of l' (gone_through l acts gone)) ∧
  shown (page l') = slice_last cap (decoded (since_clear l acts since)).
Proof.
  revert l gone since. induction acts as [|a acts IH]; intros l gone since Hw Hs Hr; [done|].
  destruct Hr as [Ha Hr]. cbn [foldl gone_through since_clear].
  apply IH; [by apply live_step_world| |done]. destruct a as [a|a|evts|]; simpl; rewrite ?app_nil_r.
  - done.
  - rewrite shown_act, ?Hs. destruct (clears a); [by rewrite slice_last_all by (simpl; lia)|done].
  - rewrite demo_off; [done|]. apply status_is_live. apply (world_reachable_ok _ Hw).
  - rewrite shown_render, Hs by (rewrite Hs; apply slice_last_le).
    destruct (stopped (page l)); [by rewrite app_nil_r|]. by rewrite slice_last_app, decoded_app.
Qed.

(** A page that shows, after any run under a provider in any state it can be in,
    the newest [cap] events of what it went through since it was last cleared; and
    that goes through the messages of the provider in the order of their ids, none
    twice, every listed one up to its mark among them, and all that are listed once
    it renders unpaused. *)
Definition shows_newest : Prop :=
  ∀ c acts, reachable c → live_run (mkLive c start) acts →
    let l := foldl live_apply (mkLive c start) acts in
    let gone := gone_through (mkLive c start) acts [] in
    shown (page l) = slice_last cap (decoded (since_clear (mkLive c start) acts [])) ∧
    world_reachable (world_of l gone) ∧ StronglySorted Z.lt (ids gone) ∧
    (∀ m, m ∈ messages (provider l) → msg_id m ≤ mark (page l) → m ∈ gone) ∧
    (stopped (page l) = false → ∀ m, m ∈ messages (provider l) → m ∈ gone ++ read l Render).

Lemma window_shows_newest : shows_newest.
Proof.
  intros c acts Hc Hr l gone.
  destruct (run_shows (mkLive c start) acts [] []) as [Hw Hs]; [..|done|].
  - unfold world_of. simpl. rewrite mark_start. by apply world_initial.
  - simpl. by rewrite shown_start, slice_last_all by (simpl; lia).
  - fold l gone in Hw, Hs. pose proof (world_reachable_ok _ Hw) as (_ & Hsort & _ & _ & _ & Hm).
    split_and!; [done..|]. intros Hst m Hin. simpl. rewrite Hst. apply elem_of_app.
    destruct (decide (msg_id m ≤ mark (page l))); [left; by apply Hm|right]. apply elem_of_pending. split; [lia|done].
Qed.

Lemma shown_bound l : live_reachable l → (length (shown (page l)) ≤ cap)%nat.
Proof.
  induction 1 as [c Hc|l a Hl IH Ha]; simpl; [rewrite shown_start; simpl; lia|].
  destruct a as [a|a|evts|]; simpl; [done|..].
  - rewrite shown_act. case_match; simpl; [lia|done].
  - rewrite demo_off; [done|]. by apply status_is_live, live_mark.
  - rewrite shown_render by done. case_match; [done|apply slice_last_le].
Qed.

(** After a render nothing is left to go through. *)
Lemma pending_rendered p msgs :
  StronglySorted Z.lt (ids msgs) → pending (last_processed p (pending p msgs)) msgs = [].
Proof.
  intros Hl. destruct (last_processed_bound p (pending p msgs)) as (Hle & Hall & _);
    [by apply StronglySorted_filter_ids|apply pending_past|].
  destruct (pending (last_processed p (pending p msgs)) msgs) as [|m k] eqn:E; [done|exfalso].
  assert (m ∈ pending (last_processed p (pending p msgs)) msgs) as [Hm Hin]%elem_of_pending by (rewrite E; left).
  rewrite Forall_forall in Hall. assert (msg_id m ≤ last_processed p (pending p msgs)); [|lia].
  apply Hall, list_elem_of_fmap_2, elem_of_pending. split; [lia|done].
Qed.

(** C10: a live event reaches the reader.  Take a page that is not paused under a
    provider that is mounted and hydrated, in any state they can reach together,
    and a text that parses to a record of the server with a known type, a timestamp
    other than 0, counters of the Go types' ranges and a key not seen before: once
    the message has arrived, React has run the queue and the page has rendered, the
    last event shown is the one the record stands for, and rendering again changes
    nothing. *)
Theorem live_event_shown l d p t :
  live_reachable l → mounted (provider l) = true → hydrated (provider l) = true →
  stopped (page l) = false → eventKey d ∉ seenEventKeys (provider l) →
  json_parse d = Some (kernelEventWire p) → proto_ok p →
  type_of_name (EventType' p) = Some t → TimestampNs p ≠ 0 →
  let l' := foldl live_apply l [Provider (Message d); Provider Flush; Render] in
  last (shown (page l')) = Some (event_of_proto t p) ∧
  shown (page (live_apply l' Render)) = shown (page l').
Proof.
  intros Hl Hm Hh Hp Hk Hd Hok Ht Hts. cbn [foldl live_apply provider page apply].
  set (c := flush (onmessage d (provider l))).
  assert (reachable c) as Hc.
  { apply (reach_step _ Flush); [|done]. apply (reach_step _ (Message d)); [|done]. by apply live_mark. }
  pose proof (shown_bound l Hl) as Hb. split.
  - destruct (message_pending l d Hl Hm Hh Hk) as (k & i & E). fold c in E.
    rewrite shown_render, Hp, E, decoded_app, app_assoc by done.
    rewrite (decoded_wire d p t) by done.
    destruct (slice_last_snoc cap (shown (page l) ++ decoded k) (event_of_proto t p) cap_pos) as [k' ->].
    apply last_snoc.
  - rewrite (shown_render _ (render _ _)) by (rewrite shown_render, Hp by done; apply slice_last_le).
    rewrite mark_render, Hp. destruct (reachable_messages_ok _ Hc) as [(_ & Hsort & _) _].
    rewrite pending_rendered, app_nil_r by done.
    case_match; [done|]. rewrite slice_last_all; [done|]. rewrite shown_render, Hp by done. apply slice_last_le.
Qed.

(** Clearing leaves nothing to show, whatever was queued before it. *)
Lemma clear_is_complete l a :
  live_reachable l → act_enabled (page l) a → clears a = true →
  let l' := foldl live_apply l [User a; Provider Flush; Render] in
  messages (provider l') = [] ∧ shown (page l') = [].
Proof.
  intros Hl Ha Hc. cbn [foldl live_apply provider page apply]. rewrite Hc.
  assert (messages (flush (clearMessages (provider l))) = []) as E.
  { unfold flush, clearMessages, enqueue. simpl. by rewrite foldl_app. }
  split; [exact E|]. rewrite shown_render, shown_act, Hc, E by (rewrite shown_act, Hc; simpl; lia).
  unfold pending. rewrite filter_nil. simpl. case_match; [done|]. by rewrite slice_last_all by (simpl; lia).
Qed.
End window.

(** C9: the composition of the provider with the table and with the timeline,
    whatever the order of socket events, history, reconnects, flushes, renders,
    pauses and clears.  The page shows exactly the newest events (500 in the table,
    2000 in the timeline) decoded from the messages it went through since it was
    last cleared.  It goes through the messages in the order of their ids, none
    twice, every listed one up to its mark among them, as the abstract loop of
    [Feed] does; and once it renders unpaused, it has gone through all that are
    listed. *)
Theorem live_shows_newest `{Host} :
  shows_newest (P := Stream) (A := stream_action) ∧ shows_newest (P := Timeline) (A := timeline_action).
Proof. split; apply window_shows_newest. Qed.

(** ** The graph page *)

Section graph.
Context `{Host} `{Collation} `{Dagre}.

(** The graph keeps the newest of the nodes it is given. *)
Lemma applied_last l n es o s :
  ∃ m, m ∈ GraphPage.nodes (applyGraph (newest (l ++ [n])) es o s).1 ∧ placed_as m = placed_as n.
Proof.
  rewrite newest_spec. destruct (slice_last_snoc MAX_NODES l n) as [k ->]; [unfold MAX_NODES; lia|].
  rewrite (proj1 (applyGraph_kept _ es o s)).
  pose proof (sanitized_last k n es) as Hin. set (g := sanitizeGraph _ es) in *.
  assert (placed_as n ∈ placed_as <$> layoutDAG g.1 g.2) as (m & Hm & ?)%list_elem_of_fmap; [|by exists m].
  rewrite (layoutDAG_placed g.1 g.2). by apply list_elem_of_fmap_2.
Qed.

Lemma shouldPromote_all e : shouldPromote e = true.
Proof. unfold shouldPromote. by repeat case_match. Qed.

Lemma consumed_in_graph msgs (s : Page) k e :
  GraphPage.paused s = false →
  decoded (pending (GraphPage.processedMessage s) msgs) = k ++ [e] →
  ∃ n, n ∈ GraphPage.nodes (GraphPage.consume msgs s) ∧ placed_as n = (id e, e).
Proof.
  intros Hp Hd. unfold GraphPage.consume. rewrite Hp. cbv zeta. rewrite Hd.
  rewrite filter_app, filter_cons_True, filter_nil, fmap_app by apply shouldPromote_all.
  rewrite app_assoc. case_decide as Hlen.
  - exfalso. rewrite !length_app in Hlen.
    destruct (loadCausalChain_fields (latest_transaction (k ++ [e]))
      (set_processed (last_processed (GraphPage.processedMessage s)
        (pending (GraphPage.processedMessage s) msgs)) s)) as (c & r & t & E).
    rewrite E in Hlen. simpl in Hlen. lia.
  - apply applied_last.
Qed.

(** C11: a live event reaches the graph.  Take the graph page, not paused, under a
    provider that is mounted and hydrated, in any state they can reach together,
    and a text that parses to a record of the server with a known type, a timestamp
    other than 0, counters of the Go types' ranges and a key not seen before: once
    the message has arrived, React has run the queue and the page has rendered, the
    graph has a node with the id of the record and the very event it stands for,
    even if a node with that id was shown before. *)
Theorem live_event_in_graph (l : Live Page) d p t :
  live_reachable l → mounted (provider l) = true → hydrated (provider l) = true →
  GraphPage.paused (page l) = false → eventKey d ∉ seenEventKeys (provider l) →
  json_parse d = Some (kernelEventWire p) → proto_ok p →
  type_of_name (EventType' p) = Some t → TimestampNs p ≠ 0 →
  let l' := foldl live_apply l [Provider (Message d); Provider Flush; Render] in
  ∃ n, n ∈ GraphPage.nodes (page l') ∧ node_id n = EventId p ∧ event n = event_of_proto t p.
Proof.
  intros Hl Hm Hh Hp Hk Hd Hok Ht Hts. cbn [foldl live_apply provider page apply].
  destruct (message_pending l d Hl Hm Hh Hk) as (k & i & E).
  destruct (consumed_in_graph (messages (flush (onmessage d (provider l)))) (page l)
    (decoded k) (event_of_proto t p)) as (n & Hn & [= Hi He]).
  - done.
  - etrans; [apply (f_equal decoded), E|]. by rewrite decoded_app, (decoded_wire d p t).
  - by exists n.
Qed.

(** Clearing the graph does not last: whatever was cleared, a page mounted again
    shows the last event the provider lists, since only the table and the timeline
    also clear that list. *)
Lemma graph_clear_comes_back (l : Live Page) k e :
  decoded (pending 0 (messages (provider l))) = k ++ [e] →
  GraphPage.nodes (page (live_apply l (User ClearGraph))) = [] ∧
  ∃ n, n ∈ GraphPage.nodes (page (live_apply
         (mkLive (provider (live_apply l (User ClearGraph))) start) Render)) ∧
       placed_as n = (id e, e).
Proof. intros Hd. split; [done|]. by apply (consumed_in_graph _ page_initial k e). Qed.
End graph.

(** ** Witnesses *)

#[local] Existing Instances utc code_order nan_dagre.

Definition small_proto : KernelEventProto :=
  mkProto "evt-7" 1000 7 "tcp_send" "" "db" "" 0 7 1 "".

Definition small_text : string := jtext
  ("{'cpu':1,'durationNs':0,'eventId':'evt-7','eventType':'tcp_send','pid':7,'serviceName':'db'," +:+
   "'spanId':'','tid':7,'timestampNs':1000,'traceId':'','transactionId':''}").

(** A provider that is mounted, connected and hydrated with nothing. *)
Definition ready_conn : Conn :=
  foldl apply initial [Mount true; Opened; HistoryDone 1 None FetchFails].

Lemma ready_reachable : reachable ready_conn.
Proof.
  unfold ready_conn. cbn [foldl].
  do 3 (apply reach_step; [|vm_compute; first [done|by left]]). constructor.
Qed.

Definition sample_live : Live Stream := mkLive ready_conn stream_initial.

Definition stamped_text : string := jtext "{'eventType':'tcp_send','timestampNs':'1000'}".

(** An event is shown, the table is cleared, another event follows. *)
Definition cleared_run : list (live_action stream_action) :=
  [Provider (Message stamped_text); Provider Flush; Render; User ClearEvents;
   Provider (Message small_text); Provider Flush; Render].

Lemma live_shows_newest_witness :
  let l := foldl live_apply (mkLive ready_conn start) cleared_run in
  since_clear (mkLive ready_conn start) cleared_run [] = [mkMsg 2 small_text] ∧
  ids (gone_through (mkLive ready_conn start) cleared_run []) = [1; 2] ∧
  shown (page l) = slice_last cap (decoded [mkMsg 2 small_text]) ∧
  length (shown (page l)) = 1%nat.
Proof.
  assert (since_clear (mkLive ready_conn start) cleared_run [] = [mkMsg 2 small_text]) as Hs
    by (vm_compute; reflexivity).
  split; [exact Hs|]. split; [vm_compute; reflexivity|].
  destruct (proj1 live_shows_newest ready_conn cleared_run ready_reachable) as [Hl _].
  - repeat (split; [exact I|]). exact I.
  - rewrite Hs in Hl. split; [exact Hl|]. vm_compute. reflexivity.
Defined.

Lemma live_event_shown_witness :
  last (shown (page (foldl live_apply sample_live
    [Provider (Message small_text); Provider Flush; Render]))) =
  Some (event_of_proto tcp_send small_proto).
Proof.
  apply (live_event_shown sample_live small_text small_proto tcp_send).
  - exact (live_mounted _ ready_reachable).
  - reflexivity.
  - reflexivity.
  - reflexivity.
  - vm_compute. set_solver.
  - vm_compute. reflexivity.
  - unfold proto_ok. simpl. lia.
  - reflexivity.
  - discriminate.
Defined.

Definition graph_live : Live Page := mkLive ready_conn page_initial.

Lemma live_event_in_graph_witness :
  ∃ n, n ∈ GraphPage.nodes (page (foldl live_apply graph_live
         [Provider (Message small_text); Provider Flush; Render])) ∧ node_id n = "evt-7".
Proof.
  destruct (live_event_in_graph graph_live small_text small_proto tcp_send) as (n & Hn & Hi & _).
  - exact (live_mounted _ ready_reachable).
  - reflexivity.
  - reflexivity.
  - reflexivity.
  - vm_compute. set_solver.
  - vm_compute. reflexivity.
  - unfold proto_ok. simpl. lia.
  - reflexivity.
  - discriminate.
  - exists n. split; [exact Hn|exact Hi].
Defined.
