(* ===== verification/Protobuf.v ===== *)
(** * The classes generated from the protocol file

    src/console/src/generated/kprobe.ts holds a class per message of the protocol,
    all written after one template: a table of the fields, [create],
    [internalBinaryRead] and [internalBinaryWrite].  [MessageType] is what differs
    from class to class (the entries of the table, the assignments of [create], the
    cases of the switch, the statements that write); the template is the
    definitions below it.  The classes themselves are in [Kprobe].

    The reader, the writer and the store of unknown fields are those of
    @protobuf-ts/runtime: a class, with what its documentation says of them as laws.
    A caller's own handler of unknown fields is left out. *)

From S2P Require Import Prelude JsNumber JsString.
Open Scope Z_scope.

(** ** The runtime *)

Inductive WireType := Varint | Bit64 | LengthDelimited | StartGroup | EndGroup | Bit32.
Inductive ScalarType := DOUBLE | INT64 | UINT64 | INT32 | STRING | UINT32.

Definition bytes : Type := list Z.

(** A property of a scalar type: a string, a bigint or a number. *)
Inductive scalar := SString (s : string) | SBigint (z : Z) | SNumber (x : num).

#[export] Instance num_eq_dec : EqDecision num.
Proof. solve_decision. Defined.

#[export] Instance scalar_eq_dec : EqDecision scalar.
Proof. solve_decision. Defined.

Record UnknownField := mkUnknown { u_no : Z; u_wire : WireType; u_data : bytes }.

(** A reader is the bytes it has left.  [put] is given [None] for a property that is
    missing or not a scalar. *)
Class Runtime := {
  put_tag : Z → WireType → bytes;                           (* [writer.tag] *)
  put : ScalarType → option scalar → result bytes;          (* [writer.string], [.uint64], ... *)
  get_tag : bytes → result (Z * WireType * bytes);          (* [reader.tag] *)
  get : ScalarType → bytes → result (scalar * bytes);       (* [reader.string], [.uint64().toBigInt], ... *)
  skip : WireType → bytes → result (bytes * bytes);         (* [reader.skip] *)
  onRead : string → list UnknownField → Z → WireType → bytes → list UnknownField;
  onWrite : string → list UnknownField → bytes;
  is_text : string → Prop     (* has a UTF-8 form that a buffer can hold *)
}.

(** The values of a scalar type. *)
Definition fits `{Runtime} (t : ScalarType) (v : scalar) : Prop :=
  match t, v with
  | STRING, SString s => is_text s
  | UINT64, SBigint z => 0 ≤ z < 2 ^ 64
  | INT64, SBigint z => - 2 ^ 63 ≤ z < 2 ^ 63
  | UINT32, SNumber x => ∃ z, x = of_Z z ∧ 0 ≤ z < 2 ^ 32
  | INT32, SNumber x => ∃ z, x = of_Z z ∧ - 2 ^ 31 ≤ z < 2 ^ 31
  | DOUBLE, SNumber x => exact x
  | _, _ => False
  end.

(** How a scalar goes on the wire. *)
Definition wire_of (t : ScalarType) : WireType :=
  match t with STRING => LengthDelimited | DOUBLE => Bit64 | _ => Varint end.

Class RuntimeLaws `{Runtime} := {
  put_fits t v : fits t v → ∃ b, put t (Some v) = Return b;
  get_put t v b rest : fits t v → put t (Some v) = Return b → get t (b ++ rest) = Return (v, rest);
  get_put_tag no w rest : 0 < no < 2 ^ 29 → get_tag (put_tag no w ++ rest) = Return (no, w, rest);
  get_tag_shrinks l no w l' : get_tag l = Return (no, w, l') → (length l' < length l)%nat;
  get_shrinks t l v l' : get t l = Return (v, l') → (length l' ≤ length l)%nat;
  skip_splits w l d l' : skip w l = Return (d, l') → l = d ++ l';
  skip_put t v b rest :
    fits t v → put t (Some v) = Return b → skip (wire_of t) (b ++ rest) = Return (b, rest);
  skip_delimited h b rest :
    Z.of_nat (length b) < 2 ^ 32 → put UINT32 (Some (SNumber (of_Z (Z.of_nat (length b))))) = Return h →
    skip LengthDelimited ((h ++ b) ++ rest) = Return (h ++ b, rest);
  onRead_keeps name us no w d : onRead name us no w d = us ++ [mkUnknown no w d];
  onWrite_writes name us :
    onWrite name us = concat ((λ u, put_tag (u_no u) (u_wire u) ++ u_data u) <$> us)
}.

Inductive unknown_reader := ReadThrow | ReadDrop | ReadKeep.   (* "throw", false, true *)

Record options := mkOptions { readUnknownField : unknown_reader; writeUnknownFields : bool }.

Definition default_options : options := mkOptions ReadKeep true.

(** ** Running the reader *)

Inductive run (A : Type) := OutOfFuel | Done (r : result A).
Arguments OutOfFuel {_}.
Arguments Done {_} _.

#[export] Instance run_ret : MRet run := λ A a, Done (Return a).
#[export] Instance run_bind : MBind run := λ A B f m,
  match m with
  | OutOfFuel => OutOfFuel
  | Done (Throw e) => Done (Throw e)
  | Done (Return a) => f a
  end.

(** ** What the template needs of the classes of nested messages *)

Class Codec (T M : Type) := {
  read_message : T → options → Z → option M → bytes → run (M * bytes);
  write_message : T → options → M → result bytes
}.

(** ** Messages and classes *)

Inductive value (M : Type) := VScalar (v : scalar) | VMessage (m : M) | VArray (l : list M).
Arguments VScalar {_} _.
Arguments VMessage {_} _.
Arguments VArray {_} _.

(** The properties of a message, and the fields its reader did not know. *)
Record message (M : Type) := mkMessage { props : gmap string (value M); unknown : list UnknownField }.
Arguments mkMessage {_} _ _.
Arguments props {_} _.
Arguments unknown {_} _.

(** An entry of the table: a scalar, a message, or a repeated message. *)
Inductive field_kind (T : Type) := KScalar (t : ScalarType) | KMessage (t : T) | KRepeated (t : T).
Arguments KScalar {_} _.
Arguments KMessage {_} _.
Arguments KRepeated {_} _.

(** [message.p = "";] or [message.p = [];]. *)
Inductive initial_value := IScalar (v : scalar) | IArray.

(** A case of the switch:
    [message.p = reader.t();]
    [message.p = t.internalBinaryRead(reader, reader.uint32(), options, message.p);]
    [message.p.push(t.internalBinaryRead(reader, reader.uint32(), options));] *)
Inductive read_case (T : Type) :=
  | ReadScalar (p : string) (t : ScalarType)
  | ReadMessage (p : string) (t : T)
  | PushMessage (p : string) (t : T).
Arguments ReadScalar {_} _ _.
Arguments ReadMessage {_} _ _.
Arguments PushMessage {_} _ _.

(** A statement of [internalBinaryWrite]:
    [if (message.p !== v) writer.tag(no, w).t(message.p);]
    [if (message.p) t.internalBinaryWrite(message.p, writer.tag(no, w).fork(), options).join();]
    the same for every element of the array [message.p]. *)
Inductive write_stmt (T : Type) :=
  | WriteScalar (p : string) (v : scalar) (no : Z) (w : WireType) (t : ScalarType)
  | WriteMessage (p : string) (no : Z) (w : WireType) (t : T)
  | WriteEach (p : string) (no : Z) (w : WireType) (t : T).
Arguments WriteScalar {_} _ _ _ _ _.
Arguments WriteMessage {_} _ _ _ _.
Arguments WriteEach {_} _ _ _ _.

Record MessageType (T : Type) := mkType {
  typeName : string;
  fields : list (Z * string * field_kind T);
  creates : list (string * initial_value);
  cases : list (Z * read_case T);
  writes : list (write_stmt T)
}.
Arguments mkType {_} _ _ _ _ _.
Arguments typeName {_} _.
Arguments fields {_} _.
Arguments creates {_} _.
Arguments cases {_} _.
Arguments writes {_} _.

(** ** The template *)

Section template.
Context {T M : Type} `{Codec T M} `{Runtime}.

Definition set_prop (p : string) (v : value M) (m : message M) : message M :=
  mkMessage (<[p := v]> (props m)) (unknown m).

Definition assigned (i : initial_value) : value M :=
  match i with IScalar v => VScalar v | IArray => VArray [] end.

Definition create (t : MessageType T) : message M :=
  foldl (λ m a, set_prop a.1 (assigned a.2) m) (mkMessage ∅ []) (creates t).

(** [reader.uint32()] as the length of what follows. *)
Definition get_length (l : bytes) : result (Z * bytes) :=
  r ← get UINT32 l;
  Return (match r.1 with SNumber (Fin m) => m / one | _ => 0 end, r.2).

Definition find_case (no : Z) (l : list (Z * read_case T)) : option (read_case T) :=
  c ← List.find (λ c, c.1 =? no) l; Some c.2.

Definition wire_number (w : WireType) : Z :=
  match w with Varint => 0 | Bit64 => 1 | LengthDelimited => 2 | StartGroup => 3 | EndGroup => 4 | Bit32 => 5 end.

(** The default branch of the switch. *)
Definition read_unknown (t : MessageType T) (o : options) (no : Z) (w : WireType) (m : message M)
    (l : bytes) : result (message M * bytes) :=
  match readUnknownField o with
  | ReadThrow =>
      Throw ("Unknown field " +:+ dec_of_Z no +:+ " (wire type " +:+ dec_of_Z (wire_number w) +:+
             ") for " +:+ typeName t)
  | u =>
      dl ← skip w l;
      Return (match u with
              | ReadKeep => mkMessage (props m) (onRead (typeName t) (unknown m) no w dl.1)
              | _ => m
              end, dl.2)
  end.

(** One round of the loop. *)
Definition read_field (t : MessageType T) (o : options) (m : message M) (l : bytes) :
    run (message M * bytes) :=
  r ← Done (get_tag l);
  let '(no, w, l) := r in
  match find_case no (cases t) with
  | Some (ReadScalar p s) =>
      vl ← Done (get s l); mret (set_prop p (VScalar vl.1) m, vl.2)
  | Some (ReadMessage p u) =>
      nl ← Done (get_length l);
      let target := match props m !! p with Some (VMessage sub) => Some sub | _ => None end in
      sl ← read_message u o nl.1 target nl.2;
      mret (set_prop p (VMessage sl.1) m, sl.2)
  | Some (PushMessage p u) =>
      nl ← Done (get_length l);
      sl ← read_message u o nl.1 None nl.2;
      match props m !! p with
      | Some (VArray a) => mret (set_prop p (VArray (a ++ [sl.1])) m, sl.2)
      | _ => Done (Throw "TypeError")
      end
  | None => Done (read_unknown t o no w m l)
  end.

(** [while (reader.pos < end)]: [stop] bytes are left at [end]. *)
Fixpoint read_loop (fuel : nat) (t : MessageType T) (o : options) (stop : Z) (m : message M)
    (l : bytes) : run (message M * bytes) :=
  if stop <? Z.of_nat (length l) then
    match fuel with
    | O => OutOfFuel
    | S fuel => r ← read_field t o m l; read_loop fuel t o stop r.1 r.2
    end
  else mret (m, l).

Definition internalBinaryRead (t : MessageType T) (o : options) (len : Z)
    (target : option (message M)) (l : bytes) : run (message M * bytes) :=
  read_loop (S (length l)) t o (Z.of_nat (length l) - len) (default (create t) target) l.

(** [.join()]: the length of the fork goes before it. *)
Definition join (b : bytes) : result bytes :=
  h ← put UINT32 (Some (SNumber (of_Z (Z.of_nat (length b))))); Return (h ++ b).

Definition write_nested (o : options) (no : Z) (w : WireType) (t : T) (sub : M) : result bytes :=
  b ← write_message t o sub; j ← join b; Return (put_tag no w ++ j).

Fixpoint concat_all (l : list (result bytes)) : result bytes :=
  match l with
  | [] => Return []
  | r :: l' => b ← r; bs ← concat_all l'; Return (b ++ bs)
  end.

Definition scalar_at (p : string) (m : message M) : option scalar :=
  match props m !! p with Some (VScalar v) => Some v | _ => None end.

(** The values that the interfaces exclude throw. *)
Definition write_field (o : options) (m : message M) (s : write_stmt T) : result bytes :=
  match s with
  | WriteScalar p v no w t =>
      if decide (scalar_at p m = Some v) then Return []
      else b ← put t (scalar_at p m); Return (put_tag no w ++ b)
  | WriteMessage p no w t =>
      match props m !! p with
      | None => Return []
      | Some (VMessage sub) => write_nested o no w t sub
      | Some _ => Throw "TypeError"
      end
  | WriteEach p no w t =>
      match props m !! p with
      | Some (VArray l) => concat_all (write_nested o no w t <$> l)
      | _ => Throw "TypeError"
      end
  end.

Definition internalBinaryWrite (t : MessageType T) (o : options) (m : message M) : result bytes :=
  b ← concat_all (write_field o m <$> writes t);
  Return (b ++ if writeUnknownFields o then onWrite (typeName t) (unknown m) else []).

#[export] Instance message_codec : Codec (MessageType T) (message M) := {
  read_message := internalBinaryRead;
  write_message := internalBinaryWrite
}.
End template.

(** No class is nested in a class without message fields. *)
#[export] Instance empty_codec : Codec Empty_set Empty_set := {
  read_message t := match t with end;
  write_message t := match t with end
}.

(** ** The protocol file, and the class it should give *)

(** [kind name = no;], kept in the property [f_prop]. *)
Record field (T : Type) := mkField {
  f_kind : field_kind T; f_name : string; f_no : Z; f_prop : string
}.
Arguments mkField {_} _ _ _ _.
Arguments f_kind {_} _.
Arguments f_name {_} _.
Arguments f_no {_} _.
Arguments f_prop {_} _.

Record schema (T : Type) := mkSchema { s_name : string; s_fields : list (field T) }.
Arguments mkSchema {_} _ _.
Arguments s_name {_} _.
Arguments s_fields {_} _.

Definition default_of (t : ScalarType) : scalar :=
  match t with
  | STRING => SString ""
  | INT64 | UINT64 => SBigint 0
  | DOUBLE | INT32 | UINT32 => SNumber (Fin 0)
  end.

Section compile.
Context {T : Type}.

Definition case_of (f : field T) : read_case T :=
  match f_kind f with
  | KScalar t => ReadScalar (f_prop f) t
  | KMessage t => ReadMessage (f_prop f) t
  | KRepeated t => PushMessage (f_prop f) t
  end.

Definition stmt_of (f : field T) : write_stmt T :=
  match f_kind f with
  | KScalar t => WriteScalar (f_prop f) (default_of t) (f_no f) (wire_of t) t
  | KMessage t => WriteMessage (f_prop f) (f_no f) LengthDelimited t
  | KRepeated t => WriteEach (f_prop f) (f_no f) LengthDelimited t
  end.

Definition initial_of (f : field T) : option (string * initial_value) :=
  match f_kind f with
  | KScalar t => Some (f_prop f, IScalar (default_of t))
  | KMessage _ => None
  | KRepeated _ => Some (f_prop f, IArray)
  end.

Definition compile (s : schema T) : MessageType T := {|
  typeName := s_name s;
  fields := (λ f, (f_no f, f_name f, f_kind f)) <$> s_fields s;
  creates := omap initial_of (s_fields s);
  cases := (λ f, (f_no f, case_of f)) <$> s_fields s;
  writes := stmt_of <$> s_fields s
|}.

(** Numbers and properties are distinct, and numbers are those of a field. *)
Definition schema_ok (s : schema T) : Prop :=
  NoDup (f_no <$> s_fields s) ∧ NoDup (f_prop <$> s_fields s) ∧
  Forall (λ i, 0 < i < 2 ^ 29) (f_no <$> s_fields s).

#[export] Instance schema_ok_dec s : Decision (schema_ok s).
Proof. apply _. Defined.
End compile.

(** ** What is promised of a class, and asked of the nested ones *)

Class CodecLaws (T M : Type) `{Runtime} `{Codec T M} := {
  well_typed : T → M → Prop;
  read_total t o n target l : read_message t o n target l ≠ OutOfFuel;
  read_shrinks t o n target l m l' :
    read_message t o n target l = Done (Return (m, l')) → (length l' ≤ length l)%nat;
  write_read t m :
    well_typed t m → ∃ b, write_message t default_options m = Return b ∧
      ∀ rest, read_message t default_options (Z.of_nat (length b)) None (b ++ rest) =
              Done (Return (m, rest))
}.

#[export] Instance empty_codec_laws `{Runtime} : CodecLaws Empty_set Empty_set.
Proof. by exists (λ _ _, False); intros []. Defined.

(** Take apart a run that returned. *)
Lemma run_bind_Return {A B} (f : A → run B) (m : run A) b :
  m ≫= f = Done (Return b) → ∃ a, m = Done (Return a) ∧ f a = Done (Return b).
Proof. destruct m as [|[e|a]]; simpl; try done. by exists a. Qed.

Ltac run_inv :=
  repeat match goal with
  | H : _ ≫= _ = Done (Return _) |- _ =>
      let x := fresh "x" in let Hx := fresh "Hx" in
      apply run_bind_Return in H as (x & Hx & H); cbv beta in H
  | H : mret _ = Done (Return _) |- _ => injection H as ??
  | H : Done _ = Done (Return _) |- _ => injection H as ?
  | x : (_ * _)%type |- _ => destruct x; cbv iota in *; cbn [fst snd] in *
  end; simplify_eq.

Section laws.
Context {T M : Type} `{RuntimeLaws} `{!Codec T M} `{!CodecLaws T M}.

Implicit Types t : MessageType T.
Implicit Types m : message M.
Implicit Types s : schema T.
Implicit Types f : field T.
Implicit Types fs : list (field T).
Implicit Types a : message M.

(** ** Termination *)

Lemma get_length_shrinks l n l' : get_length l = Return (n, l') → (length l' ≤ length l)%nat.
Proof.
  unfold get_length. destruct (get UINT32 l) as [|[v k]] eqn:E; simpl; [done|].
  intros [= _ <-]. by eapply get_shrinks.
Qed.

Lemma skip_shrinks w l d l' : skip w l = Return (d, l') → (length l' ≤ length l)%nat.
Proof. intros ->%skip_splits. rewrite length_app. lia. Qed.

Lemma read_unknown_shrinks t o no w m l m' l' :
  read_unknown t o no w m l = Return (m', l') → (length l' ≤ length l)%nat.
Proof.
  unfold read_unknown. intros Hr.
  destruct (readUnknownField o); [done|..]; destruct (skip w l) as [|[d k]] eqn:E; simpl in Hr;
    simplify_eq; by eapply skip_shrinks.
Qed.

Lemma read_field_shrinks t o m l m' l' :
  read_field t o m l = Done (Return (m', l')) → (length l' < length l)%nat.
Proof.
  unfold read_field. intros Hr. run_inv.
  match goal with E : get_tag l = _ |- _ => apply get_tag_shrinks in E; eapply Nat.le_lt_trans; [|exact E] end.
  destruct (find_case _ _) as [[p s|p u|p u]|]; run_inv.
  - by eapply get_shrinks.
  - etrans; [by eapply read_shrinks|by eapply get_length_shrinks].
  - case_match; [|done]. case_match; run_inv; try done.
    etrans; [by eapply read_shrinks|by eapply get_length_shrinks].
  - by eapply read_unknown_shrinks.
Qed.

Lemma run_bind_total {A B} (f : A → run B) (r : run A) :
  r ≠ OutOfFuel → (∀ x, r = Done (Return x) → f x ≠ OutOfFuel) → r ≫= f ≠ OutOfFuel.
Proof. intros Hr Hf. destruct r as [|[e|a]]; simpl; [done|done|]. by apply Hf. Qed.

Lemma read_field_total t o m l : read_field t o m l ≠ OutOfFuel.
Proof.
  unfold read_field. apply run_bind_total; [done|]. intros [[no w] k] _.
  destruct (find_case _ _) as [[p s|p u|p u]|]; [..|done]; apply run_bind_total; try done;
    intros nl _; apply run_bind_total; try apply read_total; intros sl _; [done|].
  by repeat case_match.
Qed.

Lemma read_loop_total fuel t o stop m l : (length l < fuel)%nat → read_loop fuel t o stop m l ≠ OutOfFuel.
Proof.
  revert m l. induction fuel as [|fuel IH]; intros m l Hl; [lia|]. simpl. case_match; [|done].
  apply run_bind_total; [apply read_field_total|]. intros [m' l'] Hr%read_field_shrinks.
  apply IH. simpl. lia.
Qed.

Lemma read_loop_shrinks fuel t o stop m l m' l' :
  read_loop fuel t o stop m l = Done (Return (m', l')) → (length l' ≤ length l)%nat.
Proof.
  revert m l. induction fuel as [|fuel IH]; intros m l Hr; cbn [read_loop] in Hr; case_match.
  - done.
  - by run_inv.
  - apply run_bind_Return in Hr as ([m1 l1] & Hf%read_field_shrinks & Hr%IH). simpl in Hr. lia.
  - by run_inv.
Qed.

(** ** Reading what was written *)

(** A nested message of its type, within the four gigabytes that a length can say. *)
Definition nested_ok (u : T) (sub : M) : Prop :=
  well_typed u sub ∧
  ∀ b, write_message u default_options sub = Return b → Z.of_nat (length b) < 2 ^ 32.

(** A field of a message of the schema's type. *)
Definition field_ok (f : field T) m : Prop :=
  match f_kind f with
  | KScalar s => ∃ v, props m !! f_prop f = Some (VScalar v) ∧ fits s v
  | KMessage u =>
      props m !! f_prop f = None ∨
      ∃ sub, props m !! f_prop f = Some (VMessage sub) ∧ nested_ok u sub
  | KRepeated u => ∃ l, props m !! f_prop f = Some (VArray l) ∧ Forall (nested_ok u) l
  end.

(** A field of a newer schema: its number is not one of the schema's, and the
    runtime finds its end. *)
Definition unknown_ok (s : schema T) (u : UnknownField) : Prop :=
  0 < u_no u < 2 ^ 29 ∧ u_no u ∉ f_no <$> s_fields s ∧
  ∀ rest, skip (u_wire u) (u_data u ++ rest) = Return (u_data u, rest).

Definition typed (s : schema T) m : Prop :=
  Forall (λ f, field_ok f m) (s_fields s) ∧
  (∀ p, is_Some (props m !! p) → p ∈ f_prop <$> s_fields s) ∧
  Forall (unknown_ok s) (unknown m).

(** Rounds of the loop that return. *)
Inductive reads t : message M → bytes → message M → bytes → Prop :=
  | reads_done m l : reads t m l m l
  | reads_field m l m1 l1 m2 l2 :
      read_field t default_options m l = Done (Return (m1, l1)) → reads t m1 l1 m2 l2 →
      reads t m l m2 l2.

Lemma reads_shrinks t m l m' l' : reads t m l m' l' → (length l' ≤ length l)%nat.
Proof. induction 1 as [|m l m1 l1 m2 l2 Hf%read_field_shrinks _ IH]; lia. Qed.

Lemma reads_trans t m l m1 l1 m2 l2 : reads t m l m1 l1 → reads t m1 l1 m2 l2 → reads t m l m2 l2.
Proof. induction 1; [done|]. intros. eapply reads_field; eauto. Qed.

Lemma reads_one t m l m' l' :
  read_field t default_options m l = Done (Return (m', l')) → reads t m l m' l'.
Proof. intros. by eapply reads_field, reads_done. Qed.

Lemma read_loop_reads t m l m' rest fuel :
  reads t m l m' rest → (length l < fuel)%nat →
  read_loop fuel t default_options (Z.of_nat (length rest)) m l = Done (Return (m', rest)).
Proof.
  intros Hr. revert fuel. induction Hr as [m l|m l m1 l1 m2 l2 Hf Hr IH]; intros [|fuel] Hl; try lia.
  - cbn [read_loop]. by rewrite Z.ltb_irrefl.
  - pose proof (read_field_shrinks _ _ _ _ _ _ Hf). pose proof (reads_shrinks _ _ _ _ _ Hr).
    cbn [read_loop]. destruct (Z.ltb_spec (Z.of_nat (length l2)) (Z.of_nat (length l))); [|lia].
    rewrite Hf. cbn [mbind run_bind fst snd]. apply IH. lia.
Qed.

Lemma read_case_of s f :
  schema_ok s → f ∈ s_fields s → find_case (f_no f) (cases (compile s)) = Some (case_of f).
Proof.
  intros (Hn & _ & _) Hf. unfold find_case. simpl. induction (s_fields s) as [|g fs IH]; [by apply elem_of_nil in Hf|].
  simpl in *. apply NoDup_cons in Hn as [Hg Hn]. apply elem_of_cons in Hf as [->|Hf]; [by rewrite Z.eqb_refl|].
  destruct (Z.eqb_spec (f_no g) (f_no f)) as [E|]; [|by apply IH].
  exfalso. apply Hg. rewrite E. by apply list_elem_of_fmap_2.
Qed.

Lemma no_case s i : i ∉ f_no <$> s_fields s → find_case i (cases (compile s)) = None.
Proof.
  intros Hi. unfold find_case. simpl. induction (s_fields s) as [|g fs IH]; [done|]. simpl in *.
  apply not_elem_of_cons in Hi as [Hg Hi]. destruct (Z.eqb_spec (f_no g) i); [congruence|]. by apply IH.
Qed.

(** [reader.uint32()] reads what [join] wrote. *)
Lemma joined b :
  Z.of_nat (length b) < 2 ^ 32 →
  ∃ j, join b = Return j ∧
       ∀ rest, get_length (j ++ rest) = Return (Z.of_nat (length b), b ++ rest) ∧
               skip LengthDelimited (j ++ rest) = Return (j, rest).
Proof.
  intros Hb. set (n := Z.of_nat (length b)) in *.
  assert (fits UINT32 (SNumber (of_Z n))) as Hf by (exists n; split; [done|lia]).
  destruct (put_fits _ _ Hf) as [h Hh]. unfold join. fold n. rewrite Hh. simpl.
  exists (h ++ b). split; [done|]. intros rest. split; [|by apply skip_delimited].
  unfold get_length. rewrite <-app_assoc, (get_put _ _ _ _ Hf Hh). simpl.
  rewrite of_Z_exact by lia. by rewrite Z.div_mul by (pose proof one_pos; lia).
Qed.

Lemma field_number s f : schema_ok s → f ∈ s_fields s → 0 < f_no f < 2 ^ 29.
Proof.
  intros (_ & _ & Hr) Hf. rewrite Forall_forall in Hr. by apply Hr, list_elem_of_fmap_2.
Qed.

(** A nested message is written, and read where its field stands. *)
Lemma nested_written no u sub :
  nested_ok u sub →
  ∃ b j, write_nested default_options no LengthDelimited u sub = Return (put_tag no LengthDelimited ++ j) ∧
    ∀ rest, get_length (j ++ rest) = Return (Z.of_nat (length b), b ++ rest) ∧
      skip LengthDelimited (j ++ rest) = Return (j, rest) ∧
      read_message u default_options (Z.of_nat (length b)) None (b ++ rest) = Done (Return (sub, rest)).
Proof.
  intros [(b & Hb & Hr)%write_read Hlen]. specialize (Hlen b Hb).
  destruct (joined b Hlen) as (j & Hj & Hg).
  exists b, j. unfold write_nested. rewrite Hb. simpl. rewrite Hj. split; [done|].
  intros rest. destruct (Hg rest). auto.
Qed.

(** What [create] puts in a field. *)
Definition fresh f : option (value M) :=
  match f_kind f with
  | KScalar t => Some (VScalar (default_of t))
  | KMessage _ => None
  | KRepeated _ => Some (VArray [])
  end.

(** [a] with the field [p] of [m]. *)
Definition copy m (a : message M) (p : string) : message M :=
  mkMessage (partial_alter (λ _, props m !! p) p (props a)) (unknown a).

Lemma copy_same m a p : props a !! p = props m !! p → copy m a p = a.
Proof. intros E. unfold copy. rewrite <-E, partial_alter_self. by destruct a. Qed.

Lemma copy_set m a p v : props m !! p = Some v → copy m a p = set_prop p v a.
Proof. intros E. unfold copy. by rewrite E. Qed.

(** One round reads the tag of a field, and goes to its case. *)
Lemma round_case s f w a rest :
  schema_ok s → f ∈ s_fields s →
  read_field (compile s) default_options a (put_tag (f_no f) w ++ rest) =
  match case_of f with
  | ReadScalar p k => vl ← Done (get k rest); mret (set_prop p (VScalar vl.1) a, vl.2)
  | ReadMessage p u =>
      nl ← Done (get_length rest);
      let target := match props a !! p with Some (VMessage sub) => Some sub | _ => None end in
      sl ← read_message u default_options nl.1 target nl.2;
      mret (set_prop p (VMessage sl.1) a, sl.2)
  | PushMessage p u =>
      nl ← Done (get_length rest);
      sl ← read_message u default_options nl.1 None nl.2;
      match props a !! p with
      | Some (VArray l) => mret (set_prop p (VArray (l ++ [sl.1])) a, sl.2)
      | _ => Done (Throw "TypeError")
      end
  end.
Proof.
  intros Hs Hf. unfold read_field. rewrite get_put_tag by by eapply field_number.
  cbn [mbind run_bind]. by rewrite read_case_of.
Qed.

Lemma elements_read s f u l pre a :
  schema_ok s → f ∈ s_fields s → f_kind f = KRepeated u → Forall (nested_ok u) l →
  props a !! f_prop f = Some (VArray pre) →
  ∃ b, concat_all (write_nested default_options (f_no f) LengthDelimited u <$> l) = Return b ∧
    ∀ rest, reads (compile s) a (b ++ rest) (set_prop (f_prop f) (VArray (pre ++ l)) a) rest.
Proof.
  intros Hs Hf Hk Hl. revert pre a. induction Hl as [|sub l Hsub _ IH]; intros pre a Ha.
  - exists []. split; [done|]. intros rest. rewrite app_nil_r.
    assert (set_prop (f_prop f) (VArray pre) a = a) as ->; [|constructor].
    unfold set_prop. rewrite insert_id by done. by destruct a.
  - destruct (nested_written (f_no f) u sub Hsub) as (b & j & Hw & Hr).
    destruct (IH (pre ++ [sub]) (set_prop (f_prop f) (VArray (pre ++ [sub])) a)) as (bs & Hbs & Hrs).
    { simpl. apply lookup_insert_eq. }
    rewrite fmap_cons. cbn [concat_all]. rewrite Hw. cbn [mbind result_bind]. rewrite Hbs.
    eexists. split; [done|]. intros rest.
    destruct (Hr (bs ++ rest)) as (Hg & _ & Hm). rewrite <-!app_assoc. eapply reads_field.
    + rewrite round_case by done. unfold case_of. rewrite Hk, Hg. cbn [mbind run_bind fst snd].
      rewrite Hm. cbn [fst snd]. by rewrite Ha.
    + cbn [mret run_ret]. replace (set_prop _ (VArray (pre ++ sub :: l)) a) with
        (set_prop (f_prop f) (VArray ((pre ++ [sub]) ++ l))
          (set_prop (f_prop f) (VArray (pre ++ [sub])) a)); [apply Hrs|].
      unfold set_prop. simpl. by rewrite insert_insert_eq, <-app_assoc.
Qed.

(** What a statement writes is read by its case. *)
Lemma field_read s f m a :
  schema_ok s → f ∈ s_fields s → field_ok f m → props a !! f_prop f = fresh f →
  ∃ b, write_field default_options m (stmt_of f) = Return b ∧
    ∀ rest, reads (compile s) a (b ++ rest) (copy m a (f_prop f)) rest.
Proof.
  intros Hs Hf Hok Ha. unfold field_ok, fresh, stmt_of in *. destruct (f_kind f) as [k|u|u] eqn:Hk; simpl.
  - destruct Hok as (v & Hv & Hfit). unfold scalar_at. rewrite Hv. case_decide as Hd.
    + exists []. split; [done|]. intros rest. rewrite copy_same; [constructor|]. congruence.
    + destruct (put_fits _ _ Hfit) as [b Hb]. rewrite Hb. simpl. eexists. split; [done|].
      intros rest. apply reads_one. rewrite <-app_assoc, round_case by done.
      unfold case_of. rewrite Hk, (get_put _ _ _ _ Hfit Hb). by rewrite (copy_set _ _ _ _ Hv).
  - destruct Hok as [Hn|(sub & Hv & Hsub)].
    + rewrite Hn. exists []. split; [done|]. intros rest. rewrite copy_same; [constructor|congruence].
    + rewrite Hv. destruct (nested_written (f_no f) u sub Hsub) as (b & j & Hw & Hr).
      rewrite Hw. eexists. split; [done|]. intros rest. destruct (Hr rest) as (Hg & _ & Hm).
      apply reads_one. rewrite <-app_assoc, round_case by done. unfold case_of. rewrite Hk, Hg.
      cbn [mbind run_bind fst snd]. rewrite Ha, Hm. by rewrite (copy_set _ _ _ _ Hv).
  - destruct Hok as (l & Hv & Hl). rewrite Hv.
    destruct (elements_read s f u l [] a Hs Hf Hk Hl Ha) as (b & Hb & Hr).
    exists b. split; [done|]. by rewrite (copy_set _ _ _ _ Hv).
Qed.

Lemma copies_lookup m ps a p :
  props (foldl (copy m) a ps) !! p = if decide (p ∈ ps) then props m !! p else props a !! p.
Proof.
  revert a. induction ps as [|q ps IH]; intros a; cbn [foldl].
  - by rewrite decide_False by apply not_elem_of_nil.
  - rewrite IH. unfold copy. cbn [props]. destruct (decide (p ∈ ps)) as [Hp|Hp].
    + rewrite decide_True; [done|]. by right.
    + destruct (decide (p = q)) as [->|Hne].
      * rewrite lookup_partial_alter_eq, decide_True; [done|by left].
      * rewrite lookup_partial_alter_ne, decide_False; [done| |done]. by intros [?|?]%elem_of_cons.
Qed.

Lemma copies_unknown m ps a : unknown (foldl (copy m) a ps) = unknown a.
Proof. revert a. induction ps as [|q ps IH]; intros a; [done|]. cbn [foldl]. by rewrite IH. Qed.

Lemma fields_read s fs m a :
  schema_ok s → (∀ f, f ∈ fs → f ∈ s_fields s) → NoDup (f_prop <$> fs) →
  Forall (λ f, field_ok f m) fs → Forall (λ f, props a !! f_prop f = fresh f) fs →
  ∃ b, concat_all (write_field default_options m <$> (stmt_of <$> fs)) = Return b ∧
    ∀ rest, reads (compile s) a (b ++ rest) (foldl (copy m) a (f_prop <$> fs)) rest.
Proof.
  intros Hs. revert a. induction fs as [|f fs IH]; intros a Hin Hn Hok Ha.
  { exists []. split; [done|]. intros rest. constructor. }
  rewrite fmap_cons in Hn. apply NoDup_cons in Hn as [Hf Hn].
  apply Forall_cons in Hok as [Hfo Hok]. apply Forall_cons in Ha as [Hfa Ha].
  destruct (field_read s f m a Hs (Hin f ltac:(left)) Hfo Hfa) as (b & Hb & Hr).
  destruct (IH (copy m a (f_prop f))) as (bs & Hbs & Hrs); [by intros g Hg; apply Hin; right|done..| |].
  { rewrite Forall_forall in Ha |- *. intros g Hg. unfold copy. cbn [props].
    rewrite lookup_partial_alter_ne; [by apply Ha|]. intros E. apply Hf. rewrite E.
    by apply list_elem_of_fmap_2. }
  rewrite !fmap_cons. cbn [concat_all foldl]. rewrite Hb. cbn [mbind result_bind]. rewrite Hbs.
  eexists. split; [done|]. intros rest. rewrite <-app_assoc. by eapply reads_trans.
Qed.

Definition set_initial (a : message M) (i : string * initial_value) : message M :=
  set_prop i.1 (assigned i.2) a.

Lemma create_other fs a p :
  p ∉ f_prop <$> fs → props (foldl set_initial a (omap initial_of fs)) !! p = props a !! p.
Proof.
  revert a. induction fs as [|f fs IH]; intros a Hp; [done|]. rewrite fmap_cons in Hp.
  apply not_elem_of_cons in Hp as [Hf Hp]. cbn [omap list_omap].
  unfold initial_of at 1. destruct (f_kind f); cbn [foldl]; rewrite IH by done; try done;
    unfold set_initial, set_prop; cbn [props fst snd]; by rewrite lookup_insert_ne.
Qed.

Lemma create_field fs a f :
  NoDup (f_prop <$> fs) → f ∈ fs → props a !! f_prop f = None →
  props (foldl set_initial a (omap initial_of fs)) !! f_prop f = fresh f.
Proof.
  revert a. induction fs as [|g fs IH]; intros a Hn Hf Ha; [by apply elem_of_nil in Hf|].
  rewrite fmap_cons in Hn. apply NoDup_cons in Hn as [Hg Hn].
  cbn [omap list_omap]. apply elem_of_cons in Hf as [->|Hf].
  - unfold initial_of at 1, fresh. destruct (f_kind g); cbn [foldl]; rewrite create_other by done;
      [apply lookup_insert_eq|done|apply lookup_insert_eq].
  - assert (f_prop g ≠ f_prop f) as Hne.
    { intros E. apply Hg. rewrite E. by apply list_elem_of_fmap_2. }
    unfold initial_of at 1. destruct (f_kind g); cbn [foldl]; apply IH; try done;
      unfold set_initial, set_prop; cbn [props fst snd]; by rewrite lookup_insert_ne.
Qed.

Lemma create_unknown t : unknown (create t : message M) = [].
Proof.
  unfold create. set (a := mkMessage ∅ []). assert (unknown a = []) as Ha by done. clearbody a.
  revert a Ha. induction (creates t) as [|i l IH]; intros a Ha; [done|]. by apply IH.
Qed.

Lemma create_lookup s f :
  schema_ok s → f ∈ s_fields s → props (create (compile s)) !! f_prop f = fresh f.
Proof. intros (_ & Hn & _) Hf. by apply create_field. Qed.

(** Unknown fields are read into the store that [onWrite] writes. *)
Lemma unknown_read s us a :
  Forall (unknown_ok s) us →
  ∀ rest, reads (compile s) a (concat ((λ u, put_tag (u_no u) (u_wire u) ++ u_data u) <$> us) ++ rest)
            (mkMessage (props a) (unknown a ++ us)) rest.
Proof.
  intros Hus. revert a. induction Hus as [|u us (Hno & Hni & Hsk) _ IH]; intros a rest.
  { rewrite app_nil_r. destruct a. constructor. }
  rewrite fmap_cons. cbn [concat]. rewrite <-!app_assoc. eapply reads_field.
  - unfold read_field. rewrite get_put_tag by done. cbn [mbind run_bind].
    rewrite no_case by done. unfold read_unknown. cbn [readUnknownField default_options].
    rewrite Hsk. cbn [mbind result_bind fst snd]. rewrite onRead_keeps. done.
  - specialize (IH (mkMessage (props a) (unknown a ++ [u])) rest). cbn [props unknown] in IH.
    rewrite <-app_assoc in IH. by destruct u.
Qed.

(** The class of a schema writes every message of its type, and reads it back. *)
Lemma message_roundtrip s m :
  schema_ok s → typed s m →
  ∃ b, internalBinaryWrite (compile s) default_options m = Return b ∧
    ∀ rest, internalBinaryRead (compile s) default_options (Z.of_nat (length b)) None (b ++ rest) =
            Done (Return (m, rest)).
Proof.
  intros Hs (Hok & Hdom & Hun). pose proof Hs as (_ & Hn & _).
  destruct (fields_read s (s_fields s) m (create (compile s))) as (b & Hb & Hr); [done..| |].
  { apply Forall_forall. intros f Hf. by apply create_lookup. }
  unfold internalBinaryWrite. cbn [writes compile]. rewrite Hb. cbn [mbind result_bind].
  cbn [writeUnknownFields default_options]. rewrite onWrite_writes.
  eexists. split; [done|]. intros rest. unfold internalBinaryRead. cbn [default].
  rewrite length_app. match goal with |- context [Z.of_nat (?x + ?y) - _] =>
    replace (Z.of_nat (x + y) - Z.of_nat x) with (Z.of_nat y) by lia end.
  apply read_loop_reads; [|rewrite length_app; lia].
  rewrite <-app_assoc. eapply reads_trans; [apply Hr|].
  set (a := foldl (copy m) (create (compile s)) (f_prop <$> s_fields s)).
  pose proof (unknown_read s (unknown m) a Hun rest) as Hu.
  assert (mkMessage (props a) (unknown a ++ unknown m) = m) as E; [|by rewrite E in Hu].
  clear Hu Hr. subst a.
  destruct m as [ps us]. cbn [unknown] in *. f_equal.
  - apply map_eq. intros p. rewrite copies_lookup. cbn [props] in *. case_decide as Hp; [done|].
    change (props (create (compile s))) with
      (props (foldl set_initial (mkMessage ∅ []) (omap initial_of (s_fields s)))).
    rewrite create_other by done. cbn [props]. rewrite lookup_empty.
    destruct (ps !! p) eqn:E; [|done]. exfalso. apply Hp, Hdom. by rewrite E.
  - by rewrite copies_unknown, create_unknown.
Qed.

#[export] Instance message_codec_laws : CodecLaws (MessageType T) (message M).
Proof.
  exists (λ t m, ∃ s, t = compile s ∧ schema_ok s ∧ typed s m).
  - intros t o n target l. apply read_loop_total. lia.
  - intros t o n target l m l'. apply read_loop_shrinks.
  - intros t m (s & -> & Hs & Hm). by apply message_roundtrip.
Defined.

(** A message as [create] makes it has the type of the class, and nothing to write. *)
Lemma create_typed s : schema_ok s → fits STRING (SString "") → typed s (create (compile s)).
Proof.
  intros Hs Htext. split_and!.
  - apply Forall_forall. intros f Hf. unfold field_ok. rewrite create_lookup by done. unfold fresh.
    destruct (f_kind f) as [k|u|u]; [|by left|by exists []].
    eexists. split; [done|]. destruct k; cbn; try done; try lia; exists 0; (split; [|lia]); by rewrite of_Z_exact.
  - intros p Hp. destruct (decide (p ∈ f_prop <$> s_fields s)) as [|Hni]; [done|exfalso].
    change (create (compile s)) with
      (foldl set_initial (mkMessage ∅ []) (omap (initial_of (T := T)) (s_fields s))) in Hp.
    rewrite create_other in Hp by done. cbn [props] in Hp. rewrite lookup_empty in Hp. by destruct Hp.
  - rewrite create_unknown. constructor.
Qed.

(** ** Fields of a newer schema *)

Definition encoded (us : list UnknownField) : bytes :=
  concat ((λ u, put_tag (u_no u) (u_wire u) ++ u_data u) <$> us).

(** To an older class, what a newer one writes for a field is unknown fields. *)
Lemma nested_unknown s no u l :
  0 < no < 2 ^ 29 → no ∉ f_no <$> s_fields s → Forall (nested_ok u) l →
  ∃ us, concat_all (write_nested default_options no LengthDelimited u <$> l) = Return (encoded us) ∧
        Forall (unknown_ok s) us.
Proof.
  intros Hno Hni. induction 1 as [|sub l Hsub _ (us & Hus & Hok)]; [by exists []|].
  destruct (nested_written no u sub Hsub) as (b & j & Hw & Hr).
  exists (mkUnknown no LengthDelimited j :: us). rewrite fmap_cons. cbn [concat_all].
  rewrite Hw. cbn [mbind result_bind]. rewrite Hus. split; [done|].
  constructor; [|done]. split_and!; try done; simpl; [lia..|]. intros rest. by destruct (Hr rest) as (_ & ? & _).
Qed.

Lemma field_unknown s f m :
  0 < f_no f < 2 ^ 29 → f_no f ∉ f_no <$> s_fields s → field_ok f m →
  ∃ us, write_field default_options m (stmt_of f) = Return (encoded us) ∧ Forall (unknown_ok s) us.
Proof.
  intros Hno Hni Hok. unfold field_ok, stmt_of in *. destruct (f_kind f) as [k|u|u]; simpl.
  - destruct Hok as (v & Hv & Hfit). unfold scalar_at. rewrite Hv. case_decide; [by exists []|].
    destruct (put_fits _ _ Hfit) as [b Hb]. exists [mkUnknown (f_no f) (wire_of k) b].
    rewrite Hb. split; [unfold encoded; simpl; by rewrite app_nil_r|].
    apply Forall_singleton. split_and!; simpl; [lia..|done|]. intros rest. by eapply skip_put.
  - destruct Hok as [Hn|(sub & Hv & Hsub)]; [rewrite Hn; by exists []|]. rewrite Hv.
    destruct (nested_unknown s (f_no f) u [sub]) as (us & Hus & ?); [done|done|by constructor|].
    exists us. split; [|done]. rewrite <-Hus, fmap_cons. cbn [concat_all fmap list_fmap].
    destruct (nested_written (f_no f) u sub Hsub) as (b & j & -> & _).
    cbn [mbind result_bind]. by rewrite app_nil_r.
  - destruct Hok as (l & Hv & Hl). rewrite Hv. by apply nested_unknown.
Qed.

Lemma fields_unknown s fs m :
  Forall (λ f, 0 < f_no f < 2 ^ 29 ∧ f_no f ∉ f_no <$> s_fields s ∧ field_ok f m) fs →
  ∃ us, concat_all (write_field default_options m <$> (stmt_of <$> fs)) = Return (encoded us) ∧
        Forall (unknown_ok s) us.
Proof.
  induction 1 as [|f fs (Hno & Hni & Hok) _ (us & Hus & Hu)]; [by exists []|].
  destruct (field_unknown s f m Hno Hni Hok) as (us' & Hus' & Hu'). exists (us' ++ us).
  rewrite !fmap_cons. cbn [concat_all]. rewrite Hus'. cbn [mbind result_bind]. rewrite Hus.
  split; [|by apply Forall_app]. unfold encoded. by rewrite fmap_app, concat_app.
Qed.

Lemma concat_all_app (l k : list (result bytes)) b c :
  concat_all l = Return b → concat_all k = Return c → concat_all (l ++ k) = Return (b ++ c).
Proof.
  revert b. induction l as [|r l IH]; intros b Hb Hc; simpl in *; [by simplify_eq|].
  destruct r as [|x]; [done|]. simpl in *. destruct (concat_all l) as [|y]; [done|]. simpl in *.
  simplify_eq. rewrite (IH y) by done. simpl. by rewrite app_assoc.
Qed.

Lemma write_fields_same fs m a :
  (∀ p, p ∈ f_prop <$> fs → props a !! p = props m !! p) →
  write_field default_options a <$> (stmt_of <$> fs) = write_field default_options m <$> (stmt_of <$> fs).
Proof.
  intros Hp. rewrite <-!list_fmap_compose. apply list_fmap_ext. intros i f Hf. simpl.
  specialize (Hp (f_prop f) (list_elem_of_fmap_2 _ _ _ (list_elem_of_lookup_2 _ _ _ Hf))).
  unfold stmt_of, write_field, scalar_at. destruct (f_kind f); by rewrite Hp.
Qed.

(** The newer schema [s'] adds fields to [s]. *)
Definition extends s s' : Prop := ∃ fs, s_fields s' = s_fields s ++ fs.

Lemma newer_message s s' m :
  schema_ok s → schema_ok s' → extends s s' → typed s' m → unknown m = [] →
  ∃ b, internalBinaryWrite (compile s') default_options m = Return b ∧
    ∃ m', (∀ rest, internalBinaryRead (compile s) default_options (Z.of_nat (length b)) None (b ++ rest) =
                   Done (Return (m', rest))) ∧
          (∀ p, p ∈ f_prop <$> s_fields s → props m' !! p = props m !! p) ∧
          internalBinaryWrite (compile s) default_options m' = Return b.
Proof.
  intros Hs (Hn' & _ & Hr') [fs Hfs] (Hok & _ & _) Hun. rewrite Hfs in Hok, Hn', Hr'.
  apply Forall_app in Hok as [Hok Hok']. pose proof Hs as (_ & Hn & _).
  destruct (fields_read s (s_fields s) m (create (compile s))) as (b & Hb & Hr); [done..| |].
  { apply Forall_forall. intros f Hf. by apply create_lookup. }
  destruct (fields_unknown s fs m) as (us & Hus & Hu).
  { rewrite fmap_app in Hn', Hr'. apply NoDup_app in Hn' as (_ & Hn' & _).
    apply Forall_app in Hr' as [_ Hr']. rewrite Forall_forall in Hr'. rewrite Forall_forall in Hok'.
    apply Forall_forall. intros f Hf.
    pose proof (list_elem_of_fmap_2 f_no _ _ Hf) as Hf'.
    split; [by apply Hr'|]. split; [|by apply Hok']. intros Hin. by destruct (Hn' _ Hin). }
  set (a := foldl (copy m) (create (compile s)) (f_prop <$> s_fields s)) in *.
  exists (b ++ encoded us). split.
  { unfold internalBinaryWrite. cbn [writes compile]. rewrite Hfs, !fmap_app.
    rewrite (concat_all_app _ _ _ _ Hb Hus). cbn [mbind result_bind writeUnknownFields default_options].
    by rewrite onWrite_writes, Hun, app_nil_r. }
  assert (∀ p, p ∈ f_prop <$> s_fields s → props a !! p = props m !! p) as Ha.
  { intros p Hp. unfold a. by rewrite copies_lookup, decide_True. }
  exists (mkMessage (props a) us). split_and!; [| |].
  - intros rest. unfold internalBinaryRead. cbn [default]. rewrite length_app.
    match goal with |- context [Z.of_nat (?x + ?y) - _] =>
      replace (Z.of_nat (x + y) - Z.of_nat x) with (Z.of_nat y) by lia end.
    apply read_loop_reads; [|rewrite length_app; lia]. rewrite <-app_assoc.
    eapply reads_trans; [apply Hr|]. pose proof (unknown_read s us a Hu rest) as Hus'.
    unfold a in Hus' at 3. rewrite copies_unknown, create_unknown in Hus'. exact Hus'.
  - intros p Hp. simpl. by apply Ha.
  - unfold internalBinaryWrite. cbn [writes compile].
    rewrite (write_fields_same _ m) by (intros p Hp; by apply Ha). rewrite Hb.
    cbn [mbind result_bind writeUnknownFields default_options unknown]. by rewrite onWrite_writes.
Qed.
End laws.
