(* ===== verification/Varint.v ===== *)
(** * A runtime for the witnesses of [Protobuf]

    The binary format of the protocol, as far as the classes use it: a tag is the
    varint of the number and the wire type, an integer is a varint (a negative one
    that of its two's complement in 64 bits), a string and a nested message follow
    their length.  A double takes two cells here instead of eight bytes, and text is
    kept as it is; groups are refused. *)

From S2P Require Import Prelude JsNumber JsString Protobuf.
Open Scope Z_scope.

(** Seven bits at a time, the lowest first. *)
Fixpoint varint_put (fuel : nat) (z : Z) : bytes :=
  match fuel with
  | O => [z]
  | S fuel => if z <? 128 then [z] else 128 + z mod 128 :: varint_put fuel (z / 128)
  end.

Fixpoint varint_get (l : bytes) : result (Z * bytes) :=
  match l with
  | [] => Throw "RangeError"
  | b :: l =>
      if b <? 128 then Return (b, l)
      else r ← varint_get l; Return (b - 128 + 128 * r.1, r.2)
  end.

(** Ten bytes are enough for 64 bits. *)
Lemma varint_roundtrip fuel z rest :
  0 ≤ z < 2 ^ (7 * (Z.of_nat fuel + 1)) → varint_get (varint_put fuel z ++ rest) = Return (z, rest).
Proof.
  revert z. induction fuel as [|fuel IH]; intros z Hz.
  { simpl. destruct (Z.ltb_spec z 128); [done|]. simpl in Hz. lia. }
  cbn [varint_put]. destruct (Z.ltb_spec z 128) as [Hl|Hl].
  { simpl. destruct (Z.ltb_spec z 128); [done|lia]. }
  pose proof (Z.mod_pos_bound z 128). simpl. destruct (Z.ltb_spec (128 + z mod 128) 128); [lia|].
  rewrite IH; simpl.
  - do 2 f_equal. pose proof (Z.div_mod z 128). lia.
  - split; [apply Z.div_pos; lia|]. apply Z.div_lt_upper_bound; [lia|].
    replace (7 * (Z.of_nat (S fuel) + 1)) with (7 + 7 * (Z.of_nat fuel + 1)) in Hz by lia.
    rewrite Z.pow_add_r in Hz by lia. lia.
Qed.

Definition varint (z : Z) : bytes := varint_put 9 z.

Lemma varint_get_put z rest : 0 ≤ z < 2 ^ 64 → varint_get (varint z ++ rest) = Return (z, rest).
Proof. intros. apply varint_roundtrip. simpl. lia. Qed.

Lemma varint_suffix l z l' : varint_get l = Return (z, l') → ∃ d, l = d ++ l' ∧ d ≠ [].
Proof.
  revert z. induction l as [|b l IH]; intros z Hz; simpl in Hz; [done|].
  destruct (b <? 128); [simplify_eq; by exists [z]|].
  destruct (varint_get l) as [|[v k]] eqn:E; simpl in Hz; [done|]. simplify_eq.
  destruct (IH v eq_refl) as (d & -> & _). by exists (b :: d).
Qed.

Definition codes (s : string) : bytes := byte_of <$> String.list_ascii_of_string s.
Definition text_of (l : bytes) : string := String.string_of_list_ascii (chr <$> l).

Lemma text_of_codes s : text_of (codes s) = s.
Proof.
  unfold text_of, codes. rewrite <-list_fmap_compose.
  rewrite (list_fmap_ext _ (λ c, c)); [rewrite list_fmap_id; apply String.string_of_list_ascii_of_string|].
  intros i c _. simpl. unfold chr, byte_of. by rewrite N2Z.id, ascii_N_embedding.
Qed.

Lemma length_codes s : length (codes s) = String.length s.
Proof. unfold codes. rewrite length_fmap. induction s; simpl; congruence. Qed.

(** The first [n] cells. *)
Definition cut (n : Z) (l : bytes) : result (bytes * bytes) :=
  if (n <? 0) || (Z.of_nat (length l) <? n) then Throw "RangeError"
  else Return (take (Z.to_nat n) l, drop (Z.to_nat n) l).

Lemma cut_app b rest : cut (Z.of_nat (length b)) (b ++ rest) = Return (b, rest).
Proof.
  unfold cut. rewrite length_app. destruct (Z.ltb_spec (Z.of_nat (length b)) 0); [lia|].
  destruct (Z.ltb_spec (Z.of_nat (length b + length rest)) (Z.of_nat (length b))); [lia|]. simpl.
  by rewrite Nat2Z.id, take_app_length, drop_app_length.
Qed.

Lemma cut_splits n l d l' : cut n l = Return (d, l') → l = d ++ l'.
Proof. unfold cut. case_match; [done|]. intros [= <- <-]. by rewrite take_drop. Qed.

Definition wire_of_number (z : Z) : option WireType :=
  match z with
  | 0 => Some Varint | 1 => Some Bit64 | 2 => Some LengthDelimited
  | 3 => Some StartGroup | 4 => Some EndGroup | 5 => Some Bit32 | _ => None
  end.

Definition get_tag_of (l : bytes) : result (Z * WireType * bytes) :=
  r ← varint_get l;
  match wire_of_number (r.1 mod 8) with
  | Some w => Return (r.1 / 8, w, r.2)
  | None => Throw "illegal tag"
  end.

Definition put_of (t : ScalarType) (v : option scalar) : result bytes :=
  match t, v with
  | STRING, Some (SString s) => Return (varint (Z.of_nat (String.length s)) ++ codes s)
  | UINT64, Some (SBigint z) => Return (varint z)
  | INT64, Some (SBigint z) => Return (varint (z mod 2 ^ 64))
  | UINT32, Some (SNumber (Fin m)) => Return (varint (m / one))
  | INT32, Some (SNumber (Fin m)) => Return (varint ((m / one) mod 2 ^ 64))
  | DOUBLE, Some (SNumber x) =>
      Return (match x with NaN => [0; 0] | Inf false => [1; 0] | Inf true => [2; 0] | Fin m => [3; m] end)
  | _, _ => Throw "invalid value"
  end.

(** The signed reading of 64 bits. *)
Definition signed (z : Z) : Z := if z <? 2 ^ 63 then z else z - 2 ^ 64.

Definition get_of (t : ScalarType) (l : bytes) : result (scalar * bytes) :=
  match t with
  | DOUBLE =>
      match l with
      | k :: m :: l =>
          Return (SNumber (if k =? 0 then NaN else if k =? 1 then Inf false
                           else if k =? 2 then Inf true else Fin m), l)
      | _ => Throw "RangeError"
      end
  | _ =>
      r ← varint_get l;
      match t with
      | STRING => c ← cut r.1 r.2; Return (SString (text_of c.1), c.2)
      | UINT64 => Return (SBigint r.1, r.2)
      | INT64 => Return (SBigint (signed r.1), r.2)
      | INT32 => Return (SNumber (of_Z (signed r.1)), r.2)
      | _ => Return (SNumber (of_Z r.1), r.2)
      end
  end.

Definition skip_of (w : WireType) (l : bytes) : result (bytes * bytes) :=
  match w with
  | Bit64 => cut 2 l
  | Varint => r ← varint_get l; cut (Z.of_nat (length l - length r.2)) l
  | LengthDelimited => r ← varint_get l; cut (Z.of_nat (length l - length r.2) + r.1) l
  | _ => Throw "not supported"
  end.

#[export] Instance concrete : Runtime := {
  put_tag no w := varint (no * 8 + wire_number w);
  put := put_of;
  get_tag := get_tag_of;
  get := get_of;
  skip := skip_of;
  onRead _ us no w d := us ++ [mkUnknown no w d];
  onWrite _ us := concat ((λ u, varint (u_no u * 8 + wire_number (u_wire u)) ++ u_data u) <$> us);
  is_text s := Z.of_nat (String.length s) < 2 ^ 32
}.

Lemma signed_mod z : - 2 ^ 63 ≤ z < 2 ^ 63 → signed (z mod 2 ^ 64) = z.
Proof.
  intros Hz. unfold signed. destruct (Z.lt_ge_cases z 0) as [Hn|Hn].
  - assert (z mod 2 ^ 64 = z + 2 ^ 64) as ->.
    { symmetry. apply (Z.mod_unique_pos _ _ (-1)); lia. }
    destruct (Z.ltb_spec (z + 2 ^ 64) (2 ^ 63)); lia.
  - rewrite Z.mod_small by lia. destruct (Z.ltb_spec z (2 ^ 63)); lia.
Qed.

Lemma of_Z_div z : - 2 ^ 53 < z < 2 ^ 53 → ∃ m, of_Z z = Fin m ∧ m / one = z.
Proof.
  intros. exists (z * one). split; [by apply of_Z_exact; lia|]. pose proof one_pos. apply Z.div_mul. lia.
Qed.

Lemma put_of_fits t v : fits t v → ∃ b, put_of t (Some v) = Return b.
Proof.
  destruct t, v as [s|z|x]; simpl; try done; eauto; intros (z & -> & Hz);
    destruct (of_Z_div z) as (m & -> & _); eauto; lia.
Qed.

(** An integer written as a varint is skipped as one. *)
Lemma skip_varint z rest : 0 ≤ z < 2 ^ 64 → skip_of Varint (varint z ++ rest) = Return (varint z, rest).
Proof.
  intros Hz. unfold skip_of. rewrite varint_get_put by done. cbn [mbind result_bind snd].
  rewrite length_app. replace (length (varint z) + length rest - length rest)%nat
    with (length (varint z)) by lia. apply cut_app.
Qed.

Lemma skip_delimited_of n c rest :
  0 ≤ n < 2 ^ 64 → Z.of_nat (length c) = n →
  skip_of LengthDelimited ((varint n ++ c) ++ rest) = Return (varint n ++ c, rest).
Proof.
  intros Hn Hc. unfold skip_of. rewrite <-app_assoc, varint_get_put by done. cbn [mbind result_bind fst snd].
  rewrite app_assoc. match goal with |- cut ?k _ = _ =>
    replace k with (Z.of_nat (length (varint n ++ c))) by (rewrite !length_app; lia) end.
  apply cut_app.
Qed.

(** The cases of a scalar that fits, with the integer it stands for. *)
Ltac fits_cases t v :=
  destruct t, v as [?|?|?]; try done; simpl;
  try match goal with
  | |- (∃ _, _) → _ =>
      let z := fresh "z" in let m := fresh "m" in let E := fresh "E" in let Em := fresh "Em" in
      intros (z & -> & Hz); destruct (of_Z_div z) as (m & E & Em); [lia|];
      rewrite E; cbv beta iota; rewrite ?Em
  end.

Lemma put_of_skips t v b rest :
  fits t v → put_of t (Some v) = Return b → skip_of (wire_of t) (b ++ rest) = Return (b, rest).
Proof.
  fits_cases t v.
  - intros _ [= <-]. match goal with x : num |- _ => destruct x as [|[]|] end; apply (cut_app [_; _]).
  - intros _ [= <-]. apply skip_varint, Z.mod_pos_bound. lia.
  - intros Hz [= <-]. by apply skip_varint.
  - intros [= <-]. apply skip_varint, Z.mod_pos_bound. lia.
  - intros Hs [= <-]. apply skip_delimited_of; [lia|]. by rewrite length_codes.
  - intros [= <-]. apply skip_varint. lia.
Qed.

Lemma get_of_put t v b rest :
  fits t v → put_of t (Some v) = Return b → get_of t (b ++ rest) = Return (v, rest).
Proof.
  fits_cases t v.
  - intros _ [= <-]. match goal with x : num |- _ => by destruct x as [|[]|] end.
  - intros Hz [= <-]. rewrite varint_get_put by (apply Z.mod_pos_bound; lia).
    cbn [mbind result_bind fst snd]. by rewrite signed_mod.
  - intros Hz [= <-]. by rewrite varint_get_put.
  - intros [= <-]. rewrite varint_get_put by (apply Z.mod_pos_bound; lia).
    cbn [mbind result_bind fst snd]. rewrite signed_mod by lia. by rewrite E.
  - intros Hs [= <-]. rewrite <-app_assoc, varint_get_put by lia.
    cbn [mbind result_bind fst snd]. rewrite <-length_codes, cut_app. simpl. by rewrite text_of_codes.
  - intros [= <-]. rewrite varint_get_put by lia. cbn [mbind result_bind fst snd]. by rewrite E.
Qed.

Lemma get_of_shrinks t l v l' : get_of t l = Return (v, l') → (length l' ≤ length l)%nat.
Proof.
  assert (∀ z k, varint_get l = Return (z, k) → (length k ≤ length l)%nat) as Hv.
  { intros z k (d & -> & _)%varint_suffix. rewrite length_app. lia. }
  destruct t; simpl; [destruct l as [|k [|m l]]; intros; simplify_eq/=; lia|..];
    destruct (varint_get l) as [|[z k]] eqn:E; simpl; intros Hg; simplify_eq; try by eapply Hv.
  destruct (cut z k) as [|[c k']] eqn:Ec; simpl in Hg; simplify_eq. apply cut_splits in Ec.
  specialize (Hv _ _ eq_refl). rewrite Ec, length_app in Hv. lia.
Qed.

Lemma get_tag_of_shrinks l no w l' : get_tag_of l = Return (no, w, l') → (length l' < length l)%nat.
Proof.
  unfold get_tag_of. destruct (varint_get l) as [|[z k]] eqn:E; simpl; [done|]. intros Hg.
  case_match; simplify_eq. apply varint_suffix in E as ([|b d] & -> & Hd); [done|].
  simpl. rewrite length_app. lia.
Qed.

Lemma get_tag_of_put no w rest :
  0 < no < 2 ^ 29 → get_tag_of (varint (no * 8 + wire_number w) ++ rest) = Return (no, w, rest).
Proof.
  intros Hno. unfold get_tag_of. assert (0 ≤ wire_number w < 8) by (destruct w; simpl; lia).
  rewrite varint_get_put by lia. cbn [mbind result_bind fst snd].
  rewrite Z.add_comm, Z_mod_plus_full, Z.mod_small, Z.div_add, Z.div_small by lia.
  by destruct w.
Qed.

Lemma skip_of_splits w l d l' : skip_of w l = Return (d, l') → l = d ++ l'.
Proof.
  destruct w; simpl; try done; [|apply cut_splits|];
    destruct (varint_get l) as [|[z k]]; simpl; try done; apply cut_splits.
Qed.

#[export] Instance concrete_laws : RuntimeLaws (H := concrete).
Proof.
  split; simpl.
  - apply put_of_fits.
  - apply get_of_put.
  - apply get_tag_of_put.
  - apply get_tag_of_shrinks.
  - apply get_of_shrinks.
  - apply skip_of_splits.
  - apply put_of_skips.
  - intros h b rest Hb Hh. set (n := Z.of_nat (length b)) in *.
    destruct (of_Z_div n) as (m & E & Em); [lia|]. rewrite E in Hh. injection Hh as <-. rewrite Em.
    apply skip_delimited_of; [lia|done].
  - done.
  - done.
Qed.
