(* ===== verification/Kprobe.v ===== *)
(** * generated/kprobe.ts and kprobe.client.ts: the protocol of the services

    The nineteen message classes, the two services and their clients, as the
    generator wrote them from api/proto/kprobe.proto.  The tables of a class are
    transcribed from its constructor, [create], [internalBinaryRead] and
    [internalBinaryWrite]; [X_fields] is the interface [X] with the comment of each
    property, which is its line of kprobe.proto.  The classes are shown to be the
    ones their interfaces call for, and so to write and read every message. *)

From S2P Require Import Prelude JsNumber JsString Protobuf Varint.
Open Scope Z_scope.

(** ** The classes without nested messages *)

Definition KernelEventProto : MessageType Empty_set := mkType "kprobe.KernelEventProto"
  [(1, "event_id", KScalar STRING); (2, "timestamp_ns", KScalar UINT64); (3, "pid", KScalar UINT32);
   (4, "event_type", KScalar STRING); (5, "transaction_id", KScalar STRING);
   (6, "service_name", KScalar STRING); (7, "trace_id", KScalar STRING);
   (8, "duration_ns", KScalar UINT64); (9, "tid", KScalar UINT32); (10, "cpu", KScalar UINT32);
   (11, "span_id", KScalar STRING)]
  [("eventId", IScalar (SString "")); ("timestampNs", IScalar (SBigint 0));
   ("pid", IScalar (SNumber (Fin 0))); ("eventType", IScalar (SString ""));
   ("transactionId", IScalar (SString "")); ("serviceName", IScalar (SString ""));
   ("traceId", IScalar (SString "")); ("durationNs", IScalar (SBigint 0));
   ("tid", IScalar (SNumber (Fin 0))); ("cpu", IScalar (SNumber (Fin 0)));
   ("spanId", IScalar (SString ""))]
  [(1, ReadScalar "eventId" STRING); (2, ReadScalar "timestampNs" UINT64);
   (3, ReadScalar "pid" UINT32); (4, ReadScalar "eventType" STRING);
   (5, ReadScalar "transactionId" STRING); (6, ReadScalar "serviceName" STRING);
   (7, ReadScalar "traceId" STRING); (8, ReadScalar "durationNs" UINT64);
   (9, ReadScalar "tid" UINT32); (10, ReadScalar "cpu" UINT32); (11, ReadScalar "spanId" STRING)]
  [WriteScalar "eventId" (SString "") 1 LengthDelimited STRING;
   WriteScalar "timestampNs" (SBigint 0) 2 Varint UINT64;
   WriteScalar "pid" (SNumber (Fin 0)) 3 Varint UINT32;
   WriteScalar "eventType" (SString "") 4 LengthDelimited STRING;
   WriteScalar "transactionId" (SString "") 5 LengthDelimited STRING;
   WriteScalar "serviceName" (SString "") 6 LengthDelimited STRING;
   WriteScalar "traceId" (SString "") 7 LengthDelimited STRING;
   WriteScalar "durationNs" (SBigint 0) 8 Varint UINT64;
   WriteScalar "tid" (SNumber (Fin 0)) 9 Varint UINT32;
   WriteScalar "cpu" (SNumber (Fin 0)) 10 Varint UINT32;
   WriteScalar "spanId" (SString "") 11 LengthDelimited STRING].

Definition CausalEdgeProto : MessageType Empty_set := mkType "kprobe.CausalEdgeProto"
  [(1, "from_event_id", KScalar STRING); (2, "to_event_id", KScalar STRING);
   (3, "cause_type", KScalar STRING); (4, "latency_ns", KScalar UINT64);
   (5, "transaction_id", KScalar STRING); (6, "service_name", KScalar STRING)]
  [("fromEventId", IScalar (SString "")); ("toEventId", IScalar (SString ""));
   ("causeType", IScalar (SString "")); ("latencyNs", IScalar (SBigint 0));
   ("transactionId", IScalar (SString "")); ("serviceName", IScalar (SString ""))]
  [(1, ReadScalar "fromEventId" STRING); (2, ReadScalar "toEventId" STRING);
   (3, ReadScalar "causeType" STRING); (4, ReadScalar "latencyNs" UINT64);
   (5, ReadScalar "transactionId" STRING); (6, ReadScalar "serviceName" STRING)]
  [WriteScalar "fromEventId" (SString "") 1 LengthDelimited STRING;
   WriteScalar "toEventId" (SString "") 2 LengthDelimited STRING;
   WriteScalar "causeType" (SString "") 3 LengthDelimited STRING;
   WriteScalar "latencyNs" (SBigint 0) 4 Varint UINT64;
   WriteScalar "transactionId" (SString "") 5 LengthDelimited STRING;
   WriteScalar "serviceName" (SString "") 6 LengthDelimited STRING].

Definition QueryCausalChainRequest : MessageType Empty_set := mkType "kprobe.QueryCausalChainRequest"
  [(1, "transaction_id", KScalar STRING)]
  [("transactionId", IScalar (SString ""))]
  [(1, ReadScalar "transactionId" STRING)]
  [WriteScalar "transactionId" (SString "") 1 LengthDelimited STRING].

Definition QueryEventsRequest : MessageType Empty_set := mkType "kprobe.QueryEventsRequest"
  [(1, "transaction_id", KScalar STRING)]
  [("transactionId", IScalar (SString ""))]
  [(1, ReadScalar "transactionId" STRING)]
  [WriteScalar "transactionId" (SString "") 1 LengthDelimited STRING].

Definition QueryTimeRangeRequest : MessageType Empty_set := mkType "kprobe.QueryTimeRangeRequest"
  [(1, "from_ns", KScalar UINT64); (2, "to_ns", KScalar UINT64)]
  [("fromNs", IScalar (SBigint 0)); ("toNs", IScalar (SBigint 0))]
  [(1, ReadScalar "fromNs" UINT64); (2, ReadScalar "toNs" UINT64)]
  [WriteScalar "fromNs" (SBigint 0) 1 Varint UINT64; WriteScalar "toNs" (SBigint 0) 2 Varint UINT64].

Definition StreamEventsRequest : MessageType Empty_set := mkType "kprobe.StreamEventsRequest"
  []
  []
  []
  [].

Definition StartReplayRequest : MessageType Empty_set := mkType "kprobe.StartReplayRequest"
  [(1, "transaction_id", KScalar STRING); (2, "timeout_override_ns", KScalar UINT64);
   (3, "latency_multiplier", KScalar DOUBLE); (4, "extra_latency_ns", KScalar UINT64);
   (5, "inject_failure_at", KScalar STRING); (6, "speed_factor", KScalar DOUBLE)]
  [("transactionId", IScalar (SString "")); ("timeoutOverrideNs", IScalar (SBigint 0));
   ("latencyMultiplier", IScalar (SNumber (Fin 0))); ("extraLatencyNs", IScalar (SBigint 0));
   ("injectFailureAt", IScalar (SString "")); ("speedFactor", IScalar (SNumber (Fin 0)))]
  [(1, ReadScalar "transactionId" STRING); (2, ReadScalar "timeoutOverrideNs" UINT64);
   (3, ReadScalar "latencyMultiplier" DOUBLE); (4, ReadScalar "extraLatencyNs" UINT64);
   (5, ReadScalar "injectFailureAt" STRING); (6, ReadScalar "speedFactor" DOUBLE)]
  [WriteScalar "transactionId" (SString "") 1 LengthDelimited STRING;
   WriteScalar "timeoutOverrideNs" (SBigint 0) 2 Varint UINT64;
   WriteScalar "latencyMultiplier" (SNumber (Fin 0)) 3 Bit64 DOUBLE;
   WriteScalar "extraLatencyNs" (SBigint 0) 4 Varint UINT64;
   WriteScalar "injectFailureAt" (SString "") 5 LengthDelimited STRING;
   WriteScalar "speedFactor" (SNumber (Fin 0)) 6 Bit64 DOUBLE].

Definition StartReplayResponse : MessageType Empty_set := mkType "kprobe.StartReplayResponse"
  [(1, "session_id", KScalar STRING); (2, "event_count", KScalar INT32);
   (3, "injections", KScalar STRING)]
  [("sessionId", IScalar (SString "")); ("eventCount", IScalar (SNumber (Fin 0)));
   ("injections", IScalar (SString ""))]
  [(1, ReadScalar "sessionId" STRING); (2, ReadScalar "eventCount" INT32);
   (3, ReadScalar "injections" STRING)]
  [WriteScalar "sessionId" (SString "") 1 LengthDelimited STRING;
   WriteScalar "eventCount" (SNumber (Fin 0)) 2 Varint INT32;
   WriteScalar "injections" (SString "") 3 LengthDelimited STRING].

Definition ReplayControlRequest : MessageType Empty_set := mkType "kprobe.ReplayControlRequest"
  [(1, "session_id", KScalar STRING); (2, "command", KScalar STRING);
   (3, "seek_index", KScalar INT32)]
  [("sessionId", IScalar (SString "")); ("command", IScalar (SString ""));
   ("seekIndex", IScalar (SNumber (Fin 0)))]
  [(1, ReadScalar "sessionId" STRING); (2, ReadScalar "command" STRING);
   (3, ReadScalar "seekIndex" INT32)]
  [WriteScalar "sessionId" (SString "") 1 LengthDelimited STRING;
   WriteScalar "command" (SString "") 2 LengthDelimited STRING;
   WriteScalar "seekIndex" (SNumber (Fin 0)) 3 Varint INT32].

Definition ReplayControlResponse : MessageType Empty_set := mkType "kprobe.ReplayControlResponse"
  [(1, "session_id", KScalar STRING); (2, "state", KScalar STRING); (3, "cursor", KScalar INT32)]
  [("sessionId", IScalar (SString "")); ("state", IScalar (SString ""));
   ("cursor", IScalar (SNumber (Fin 0)))]
  [(1, ReadScalar "sessionId" STRING); (2, ReadScalar "state" STRING);
   (3, ReadScalar "cursor" INT32)]
  [WriteScalar "sessionId" (SString "") 1 LengthDelimited STRING;
   WriteScalar "state" (SString "") 2 LengthDelimited STRING;
   WriteScalar "cursor" (SNumber (Fin 0)) 3 Varint INT32].

Definition ReplayStatusRequest : MessageType Empty_set := mkType "kprobe.ReplayStatusRequest"
  [(1, "session_id", KScalar STRING)]
  [("sessionId", IScalar (SString ""))]
  [(1, ReadScalar "sessionId" STRING)]
  [WriteScalar "sessionId" (SString "") 1 LengthDelimited STRING].

Definition ReplayStatusResponse : MessageType Empty_set := mkType "kprobe.ReplayStatusResponse"
  [(1, "session_id", KScalar STRING); (2, "state", KScalar STRING); (3, "cursor", KScalar INT32);
   (4, "event_count", KScalar INT32); (5, "injections", KScalar STRING)]
  [("sessionId", IScalar (SString "")); ("state", IScalar (SString ""));
   ("cursor", IScalar (SNumber (Fin 0))); ("eventCount", IScalar (SNumber (Fin 0)));
   ("injections", IScalar (SString ""))]
  [(1, ReadScalar "sessionId" STRING); (2, ReadScalar "state" STRING);
   (3, ReadScalar "cursor" INT32); (4, ReadScalar "eventCount" INT32);
   (5, ReadScalar "injections" STRING)]
  [WriteScalar "sessionId" (SString "") 1 LengthDelimited STRING;
   WriteScalar "state" (SString "") 2 LengthDelimited STRING;
   WriteScalar "cursor" (SNumber (Fin 0)) 3 Varint INT32;
   WriteScalar "eventCount" (SNumber (Fin 0)) 4 Varint INT32;
   WriteScalar "injections" (SString "") 5 LengthDelimited STRING].

Definition ReplayEventProto : MessageType Empty_set := mkType "kprobe.ReplayEventProto"
  [(1, "event_id", KScalar STRING); (2, "timestamp_ns", KScalar UINT64); (3, "pid", KScalar UINT32);
   (4, "event_type", KScalar STRING); (5, "transaction_id", KScalar STRING);
   (6, "service_name", KScalar STRING); (7, "duration_ns", KScalar UINT64);
   (8, "return_value", KScalar INT64); (9, "index", KScalar INT32)]
  [("eventId", IScalar (SString "")); ("timestampNs", IScalar (SBigint 0));
   ("pid", IScalar (SNumber (Fin 0))); ("eventType", IScalar (SString ""));
   ("transactionId", IScalar (SString "")); ("serviceName", IScalar (SString ""));
   ("durationNs", IScalar (SBigint 0)); ("returnValue", IScalar (SBigint 0));
   ("index", IScalar (SNumber (Fin 0)))]
  [(1, ReadScalar "eventId" STRING); (2, ReadScalar "timestampNs" UINT64);
   (3, ReadScalar "pid" UINT32); (4, ReadScalar "eventType" STRING);
   (5, ReadScalar "transactionId" STRING); (6, ReadScalar "serviceName" STRING);
   (7, ReadScalar "durationNs" UINT64); (8, ReadScalar "returnValue" INT64);
   (9, ReadScalar "index" INT32)]
  [WriteScalar "eventId" (SString "") 1 LengthDelimited STRING;
   WriteScalar "timestampNs" (SBigint 0) 2 Varint UINT64;
   WriteScalar "pid" (SNumber (Fin 0)) 3 Varint UINT32;
   WriteScalar "eventType" (SString "") 4 LengthDelimited STRING;
   WriteScalar "transactionId" (SString "") 5 LengthDelimited STRING;
   WriteScalar "serviceName" (SString "") 6 LengthDelimited STRING;
   WriteScalar "durationNs" (SBigint 0) 7 Varint UINT64;
   WriteScalar "returnValue" (SBigint 0) 8 Varint INT64;
   WriteScalar "index" (SNumber (Fin 0)) 9 Varint INT32].

Definition WatchReplayRequest : MessageType Empty_set := mkType "kprobe.WatchReplayRequest"
  [(1, "session_id", KScalar STRING)]
  [("sessionId", IScalar (SString ""))]
  [(1, ReadScalar "sessionId" STRING)]
  [WriteScalar "sessionId" (SString "") 1 LengthDelimited STRING].

(** ** The classes of the responses that carry events and edges *)

Definition QueryCausalChainResponse : MessageType (MessageType Empty_set) := mkType "kprobe.QueryCausalChainResponse"
  [(1, "nodes", KRepeated KernelEventProto); (2, "edges", KRepeated CausalEdgeProto)]
  [("nodes", IArray); ("edges", IArray)]
  [(1, PushMessage "nodes" KernelEventProto); (2, PushMessage "edges" CausalEdgeProto)]
  [WriteEach "nodes" 1 LengthDelimited KernelEventProto;
   WriteEach "edges" 2 LengthDelimited CausalEdgeProto].

Definition QueryEventsResponse : MessageType (MessageType Empty_set) := mkType "kprobe.QueryEventsResponse"
  [(1, "events", KRepeated KernelEventProto)]
  [("events", IArray)]
  [(1, PushMessage "events" KernelEventProto)]
  [WriteEach "events" 1 LengthDelimited KernelEventProto].

Definition QueryTimeRangeResponse : MessageType (MessageType Empty_set) := mkType "kprobe.QueryTimeRangeResponse"
  [(1, "events", KRepeated KernelEventProto)]
  [("events", IArray)]
  [(1, PushMessage "events" KernelEventProto)]
  [WriteEach "events" 1 LengthDelimited KernelEventProto].

Definition StreamEventsResponse : MessageType (MessageType Empty_set) := mkType "kprobe.StreamEventsResponse"
  [(1, "event", KMessage KernelEventProto)]
  []
  [(1, ReadMessage "event" KernelEventProto)]
  [WriteMessage "event" 1 LengthDelimited KernelEventProto].

Definition WatchReplayResponse : MessageType (MessageType Empty_set) := mkType "kprobe.WatchReplayResponse"
  [(1, "event", KMessage ReplayEventProto); (2, "state", KScalar STRING)]
  [("state", IScalar (SString ""))]
  [(1, ReadMessage "event" ReplayEventProto); (2, ReadScalar "state" STRING)]
  [WriteMessage "event" 1 LengthDelimited ReplayEventProto;
   WriteScalar "state" (SString "") 2 LengthDelimited STRING].

(** ** The interfaces

    The comment of a property is the line of kprobe.proto it comes from. *)

Definition KernelEventProto_fields : schema Empty_set := mkSchema "kprobe.KernelEventProto"
  [mkField (KScalar STRING) "event_id" 1 "eventId";
   mkField (KScalar UINT64) "timestamp_ns" 2 "timestampNs"; mkField (KScalar UINT32) "pid" 3 "pid";
   mkField (KScalar STRING) "event_type" 4 "eventType";
   mkField (KScalar STRING) "transaction_id" 5 "transactionId";
   mkField (KScalar STRING) "service_name" 6 "serviceName";
   mkField (KScalar STRING) "trace_id" 7 "traceId";
   mkField (KScalar UINT64) "duration_ns" 8 "durationNs"; mkField (KScalar UINT32) "tid" 9 "tid";
   mkField (KScalar UINT32) "cpu" 10 "cpu"; mkField (KScalar STRING) "span_id" 11 "spanId"].

Definition CausalEdgeProto_fields : schema Empty_set := mkSchema "kprobe.CausalEdgeProto"
  [mkField (KScalar STRING) "from_event_id" 1 "fromEventId";
   mkField (KScalar STRING) "to_event_id" 2 "toEventId";
   mkField (KScalar STRING) "cause_type" 3 "causeType";
   mkField (KScalar UINT64) "latency_ns" 4 "latencyNs";
   mkField (KScalar STRING) "transaction_id" 5 "transactionId";
   mkField (KScalar STRING) "service_name" 6 "serviceName"].

Definition QueryCausalChainRequest_fields : schema Empty_set := mkSchema "kprobe.QueryCausalChainRequest"
  [mkField (KScalar STRING) "transaction_id" 1 "transactionId"].

Definition QueryCausalChainResponse_fields : schema (MessageType Empty_set) := mkSchema "kprobe.QueryCausalChainResponse"
  [mkField (KRepeated KernelEventProto) "nodes" 1 "nodes";
   mkField (KRepeated CausalEdgeProto) "edges" 2 "edges"].

Definition QueryEventsRequest_fields : schema Empty_set := mkSchema "kprobe.QueryEventsRequest"
  [mkField (KScalar STRING) "transaction_id" 1 "transactionId"].

Definition QueryEventsResponse_fields : schema (MessageType Empty_set) := mkSchema "kprobe.QueryEventsResponse"
  [mkField (KRepeated KernelEventProto) "events" 1 "events"].

Definition QueryTimeRangeRequest_fields : schema Empty_set := mkSchema "kprobe.QueryTimeRangeRequest"
  [mkField (KScalar UINT64) "from_ns" 1 "fromNs"; mkField (KScalar UINT64) "to_ns" 2 "toNs"].

Definition QueryTimeRangeResponse_fields : schema (MessageType Empty_set) := mkSchema "kprobe.QueryTimeRangeResponse"
  [mkField (KRepeated KernelEventProto) "events" 1 "events"].

Definition StreamEventsRequest_fields : schema Empty_set := mkSchema "kprobe.StreamEventsRequest"
  [].

Definition StreamEventsResponse_fields : schema (MessageType Empty_set) := mkSchema "kprobe.StreamEventsResponse"
  [mkField (KMessage KernelEventProto) "event" 1 "event"].

Definition StartReplayRequest_fields : schema Empty_set := mkSchema "kprobe.StartReplayRequest"
  [mkField (KScalar STRING) "transaction_id" 1 "transactionId";
   mkField (KScalar UINT64) "timeout_override_ns" 2 "timeoutOverrideNs";
   mkField (KScalar DOUBLE) "latency_multiplier" 3 "latencyMultiplier";
   mkField (KScalar UINT64) "extra_latency_ns" 4 "extraLatencyNs";
   mkField (KScalar STRING) "inject_failure_at" 5 "injectFailureAt";
   mkField (KScalar DOUBLE) "speed_factor" 6 "speedFactor"].

Definition StartReplayResponse_fields : schema Empty_set := mkSchema "kprobe.StartReplayResponse"
  [mkField (KScalar STRING) "session_id" 1 "sessionId";
   mkField (KScalar INT32) "event_count" 2 "eventCount";
   mkField (KScalar STRING) "injections" 3 "injections"].

Definition ReplayControlRequest_fields : schema Empty_set := mkSchema "kprobe.ReplayControlRequest"
  [mkField (KScalar STRING) "session_id" 1 "sessionId";
   mkField (KScalar STRING) "command" 2 "command";
   mkField (KScalar INT32) "seek_index" 3 "seekIndex"].

Definition ReplayControlResponse_fields : schema Empty_set := mkSchema "kprobe.ReplayControlResponse"
  [mkField (KScalar STRING) "session_id" 1 "sessionId"; mkField (KScalar STRING) "state" 2 "state";
   mkField (KScalar INT32) "cursor" 3 "cursor"].

Definition ReplayStatusRequest_fields : schema Empty_set := mkSchema "kprobe.ReplayStatusRequest"
  [mkField (KScalar STRING) "session_id" 1 "sessionId"].

Definition ReplayStatusResponse_fields : schema Empty_set := mkSchema "kprobe.ReplayStatusResponse"
  [mkField (KScalar STRING) "session_id" 1 "sessionId"; mkField (KScalar STRING) "state" 2 "state";
   mkField (KScalar INT32) "cursor" 3 "cursor";
   mkField (KScalar INT32) "event_count" 4 "eventCount";
   mkField (KScalar STRING) "injections" 5 "injections"].

Definition ReplayEventProto_fields : schema Empty_set := mkSchema "kprobe.ReplayEventProto"
  [mkField (KScalar STRING) "event_id" 1 "eventId";
   mkField (KScalar UINT64) "timestamp_ns" 2 "timestampNs"; mkField (KScalar UINT32) "pid" 3 "pid";
   mkField (KScalar STRING) "event_type" 4 "eventType";
   mkField (KScalar STRING) "transaction_id" 5 "transactionId";
   mkField (KScalar STRING) "service_name" 6 "serviceName";
   mkField (KScalar UINT64) "duration_ns" 7 "durationNs";
   mkField (KScalar INT64) "return_value" 8 "returnValue";
   mkField (KScalar INT32) "index" 9 "index"].

Definition WatchReplayRequest_fields : schema Empty_set := mkSchema "kprobe.WatchReplayRequest"
  [mkField (KScalar STRING) "session_id" 1 "sessionId"].

Definition WatchReplayResponse_fields : schema (MessageType Empty_set) := mkSchema "kprobe.WatchReplayResponse"
  [mkField (KMessage ReplayEventProto) "event" 1 "event";
   mkField (KScalar STRING) "state" 2 "state"].

Definition flat_classes : list (MessageType Empty_set) :=
  [KernelEventProto; CausalEdgeProto; QueryCausalChainRequest; QueryEventsRequest;
   QueryTimeRangeRequest; StreamEventsRequest; StartReplayRequest; StartReplayResponse;
   ReplayControlRequest; ReplayControlResponse; ReplayStatusRequest; ReplayStatusResponse;
   ReplayEventProto; WatchReplayRequest].

Definition flat_schemas : list (schema Empty_set) :=
  [KernelEventProto_fields; CausalEdgeProto_fields; QueryCausalChainRequest_fields;
   QueryEventsRequest_fields; QueryTimeRangeRequest_fields; StreamEventsRequest_fields;
   StartReplayRequest_fields; StartReplayResponse_fields; ReplayControlRequest_fields;
   ReplayControlResponse_fields; ReplayStatusRequest_fields; ReplayStatusResponse_fields;
   ReplayEventProto_fields; WatchReplayRequest_fields].

Definition nested_classes : list (MessageType (MessageType Empty_set)) :=
  [QueryCausalChainResponse; QueryEventsResponse; QueryTimeRangeResponse; StreamEventsResponse;
   WatchReplayResponse].

Definition nested_schemas : list (schema (MessageType Empty_set)) :=
  [QueryCausalChainResponse_fields; QueryEventsResponse_fields; QueryTimeRangeResponse_fields;
   StreamEventsResponse_fields; WatchReplayResponse_fields].

(** ** Services and clients *)

Record MethodInfo := mkMethod {
  method_name : string; serverStreaming : bool; method_I : string; method_O : string
}.

Record ServiceType := mkService { service_name : string; methods : list MethodInfo }.

Definition KprobeService : ServiceType := mkService "kprobe.KprobeService"
  [mkMethod "QueryCausalChain" false (typeName QueryCausalChainRequest) (typeName QueryCausalChainResponse);
   mkMethod "QueryEvents" false (typeName QueryEventsRequest) (typeName QueryEventsResponse);
   mkMethod "QueryTimeRange" false (typeName QueryTimeRangeRequest) (typeName QueryTimeRangeResponse);
   mkMethod "StreamEvents" true (typeName StreamEventsRequest) (typeName StreamEventsResponse)].

Definition ReplayService : ServiceType := mkService "kprobe.ReplayService"
  [mkMethod "StartReplay" false (typeName StartReplayRequest) (typeName StartReplayResponse);
   mkMethod "Control" false (typeName ReplayControlRequest) (typeName ReplayControlResponse);
   mkMethod "Status" false (typeName ReplayStatusRequest) (typeName ReplayStatusResponse);
   mkMethod "WatchReplay" true (typeName WatchReplayRequest) (typeName WatchReplayResponse)].

(** A method of a client: the kind of call, [this.methods[index]], and the types of
    its input and answer. *)
Record client_method := mkClient {
  client_name : string; call_kind : string; method_index : nat; client_I : string; client_O : string
}.

Definition KprobeServiceClient : list client_method :=
  [mkClient "queryCausalChain" "unary" 0 (typeName QueryCausalChainRequest) (typeName QueryCausalChainResponse);
   mkClient "queryEvents" "unary" 1 (typeName QueryEventsRequest) (typeName QueryEventsResponse);
   mkClient "queryTimeRange" "unary" 2 (typeName QueryTimeRangeRequest) (typeName QueryTimeRangeResponse);
   mkClient "streamEvents" "serverStreaming" 3 (typeName StreamEventsRequest) (typeName StreamEventsResponse)].

Definition ReplayServiceClient : list client_method :=
  [mkClient "startReplay" "unary" 0 (typeName StartReplayRequest) (typeName StartReplayResponse);
   mkClient "control" "unary" 1 (typeName ReplayControlRequest) (typeName ReplayControlResponse);
   mkClient "status" "unary" 2 (typeName ReplayStatusRequest) (typeName ReplayStatusResponse);
   mkClient "watchReplay" "serverStreaming" 3 (typeName WatchReplayRequest) (typeName WatchReplayResponse)].

(** The client a service calls for: a method per method, in order, its name in
    lower camel case. *)
Definition lower_first (s : string) : string :=
  match s with String c s' => String (lower_char c) s' | "" => "" end.

Definition client_of (s : ServiceType) : list client_method :=
  imap (λ i m, mkClient (lower_first (method_name m))
                 (if serverStreaming m then "serverStreaming" else "unary") i (method_I m) (method_O m))
    (methods s).

(** The property of a field: its name in lower camel case. *)
Fixpoint camel_case (s : string) : string :=
  match s with
  | "" => ""
  | String "_" (String c s') => String (upper_char c) (camel_case s')
  | String c s' => String c (camel_case s')
  end.

Definition named {T} (s : schema T) : bool :=
  forallb (λ f, bool_decide (f_prop f = camel_case (f_name f))) (s_fields s).

(** ** The classes are those of the protocol file *)

(** The generated code is what the protocol file calls for.  Each of the
    nineteen classes is the one compiled from its interface: the same fields in its
    table, the defaults in [create], a case per number that reads the right type
    into the right property, and a statement per field that writes it under its
    number and wire type unless it is the default.  Numbers and properties are
    distinct, properties are the names in camel case, and the methods of the two
    clients are those of the services, in order. *)
Lemma generated_follows_schema :
  flat_classes = compile <$> flat_schemas ∧ nested_classes = compile <$> nested_schemas ∧
  Forall schema_ok flat_schemas ∧ Forall schema_ok nested_schemas ∧
  forallb named flat_schemas = true ∧ forallb named nested_schemas = true ∧
  KprobeServiceClient = client_of KprobeService ∧ ReplayServiceClient = client_of ReplayService.
Proof.
  split_and!; try reflexivity; by apply (bool_decide_unpack _).
Qed.

Lemma flat_pairs : flat_classes = compile <$> flat_schemas ∧ Forall schema_ok flat_schemas.
Proof. split; [reflexivity|by apply (bool_decide_unpack _)]. Qed.

Lemma nested_pairs : nested_classes = compile <$> nested_schemas ∧ Forall schema_ok nested_schemas.
Proof. split; [reflexivity|by apply (bool_decide_unpack _)]. Qed.

Lemma zip_compiled {T} (ts : list (MessageType T)) ss t s :
  ts = compile <$> ss ∧ Forall schema_ok ss → (t, s) ∈ zip ts ss → t = compile s ∧ schema_ok s.
Proof.
  intros [-> Hok]. induction Hok as [|s0 ss Hs _ IH]; [by intros ?%elem_of_nil|].
  intros [[= -> ->]|?]%elem_of_cons; auto.
Qed.

Section generated.
Context `{RuntimeLaws}.

(** The class [t] writes [m], and reads what it wrote as [m], whatever follows. *)
Definition reads_back {T M} `{Codec T M} (t : MessageType T) (m : message M) : Prop :=
  ∃ b, internalBinaryWrite t default_options m = Return b ∧
    ∀ rest, internalBinaryRead t default_options (Z.of_nat (length b)) None (b ++ rest) =
            Done (Return (m, rest)).

(** C33: every message of the protocol survives the wire.  A message whose
    properties have the types of its interface, the unknown fields it carries
    included, is written without an error, and its class reads the bytes back as
    that very message and stops where they end, whatever follows them. *)
Theorem generated_roundtrip :
  (∀ t s (m : message Empty_set),
     (t, s) ∈ zip flat_classes flat_schemas → typed s m → reads_back t m) ∧
  (∀ t s (m : message (message Empty_set)),
     (t, s) ∈ zip nested_classes nested_schemas → typed s m → reads_back t m).
Proof.
  split; intros t s m Hts Hm;
    [apply (zip_compiled _ _ _ _ flat_pairs) in Hts as [-> Hs]
    |apply (zip_compiled _ _ _ _ nested_pairs) in Hts as [-> Hs]]; by apply message_roundtrip.
Qed.

(** Reading ends.  Whatever the bytes, the length claimed for them, the options
    and the message read into, the loop of a class and those of the messages nested
    in it end, with a message or with an error: they take no more rounds than there
    are bytes. *)
Theorem generated_read_ends :
  (∀ t o len (target : option (message Empty_set)) l,
     t ∈ flat_classes → internalBinaryRead t o len target l ≠ OutOfFuel) ∧
  (∀ t o len (target : option (message (message Empty_set))) l,
     t ∈ nested_classes → internalBinaryRead t o len target l ≠ OutOfFuel).
Proof. split; intros t o len target l _; apply read_loop_total; lia. Qed.

(** [b], written by a newer class [t'] for [m], is read by [t] into a message with
    the properties [s] knows, and written again as [b]. *)
Definition passes_on {T M} `{Codec T M} (s : schema T) (t t' : MessageType T) (m : message M) : Prop :=
  ∃ b, internalBinaryWrite t' default_options m = Return b ∧
    ∃ m', (∀ rest, internalBinaryRead t default_options (Z.of_nat (length b)) None (b ++ rest) =
                   Done (Return (m', rest))) ∧
          (∀ p, p ∈ f_prop <$> s_fields s → props m' !! p = props m !! p) ∧
          internalBinaryWrite t default_options m' = Return b.

(** C34: fields of a newer protocol pass through.  When a later version of the
    protocol adds fields to a message, the classes of this version read what the
    later one writes without an error, see the properties they know as they were
    sent, and write the message on byte for byte, with the fields they do not
    know. *)
Theorem newer_fields_survive :
  (∀ t s s' (m : message Empty_set),
     (t, s) ∈ zip flat_classes flat_schemas → schema_ok s' → extends s s' → typed s' m →
     unknown m = [] → passes_on s t (compile s') m) ∧
  (∀ t s s' (m : message (message Empty_set)),
     (t, s) ∈ zip nested_classes nested_schemas → schema_ok s' → extends s s' → typed s' m →
     unknown m = [] → passes_on s t (compile s') m).
Proof.
  split; intros t s s' m Hts Hs' He Hm Hu;
    [apply (zip_compiled _ _ _ _ flat_pairs) in Hts as [-> Hs]
    |apply (zip_compiled _ _ _ _ nested_pairs) in Hts as [-> Hs]]; by apply newer_message.
Qed.
End generated.

(** ** Witnesses *)

Definition sample_edge : message Empty_set := mkMessage
  (list_to_map
    [("fromEventId", VScalar (SString "evt-1")); ("toEventId", VScalar (SString "evt-2"));
     ("causeType", VScalar (SString "IO_WAIT")); ("latencyNs", VScalar (SBigint 1500));
     ("transactionId", VScalar (SString "tx-1")); ("serviceName", VScalar (SString ""))]) [].

(** A chain of one edge, and a field of a newer server. *)
Definition sample_chain : message (message Empty_set) := mkMessage
  (list_to_map [("nodes", VArray []); ("edges", VArray [sample_edge])]) [mkUnknown 7 Varint [1]].

(** Every key of a concrete message is a property. *)
Lemma keys_known {M} (l : list (string * value M)) (ps : list string) :
  forallb (λ kv, bool_decide (kv.1 ∈ ps)) l = true →
  ∀ p, is_Some ((list_to_map l : gmap string (value M)) !! p) → p ∈ ps.
Proof.
  intros Hl p [v Hv]. apply elem_of_list_to_map_2 in Hv. rewrite forallb_forall in Hl.
  specialize (Hl _ (proj1 (list_elem_of_In _ _) Hv)). by apply bool_decide_eq_true in Hl.
Qed.

Lemma sample_edge_typed : typed CausalEdgeProto_fields sample_edge.
Proof.
  split_and!; [|by apply keys_known|constructor]. unfold CausalEdgeProto_fields. simpl.
  repeat constructor; (eexists; split; [reflexivity|]); simpl; lia.
Qed.

Lemma sample_chain_typed : typed QueryCausalChainResponse_fields sample_chain.
Proof.
  split_and!; [|by apply keys_known|].
  - constructor; [by exists []|]. constructor; [|constructor].
    exists [sample_edge]. split; [reflexivity|]. constructor; [|constructor]. split.
    + exists CausalEdgeProto_fields. split; [reflexivity|].
      split; [by apply (bool_decide_unpack _)|apply sample_edge_typed].
    + intros b Hb. vm_compute in Hb. injection Hb as <-. vm_compute. reflexivity.
  - constructor; [|constructor]. split_and!; [vm_compute; reflexivity..| |].
    + by apply (bool_decide_unpack _).
    + intros rest. apply (skip_varint 1 rest). lia.
Qed.

Lemma generated_roundtrip_witness : reads_back QueryCausalChainResponse sample_chain.
Proof.
  apply (proj2 generated_roundtrip _ QueryCausalChainResponse_fields); [|apply sample_chain_typed].
  apply (list_elem_of_lookup_2 _ 0). reflexivity.
Defined.

(** A length that lies: the reader runs past the end and fails. *)
Lemma generated_read_ends_witness :
  internalBinaryRead QueryCausalChainResponse default_options 100 None [10; 99; 8] ≠ OutOfFuel ∧
  internalBinaryRead QueryCausalChainResponse default_options 100 None [10; 99; 8] =
    Done (Throw "RangeError").
Proof.
  split; [|vm_compute; reflexivity].
  apply (proj2 generated_read_ends). apply (list_elem_of_lookup_2 _ 0). reflexivity.
Defined.

(** A later version of a request, with a limit. *)
Definition limited_fields : schema Empty_set := mkSchema "kprobe.QueryEventsRequest"
  [mkField (KScalar STRING) "transaction_id" 1 "transactionId";
   mkField (KScalar UINT64) "limit" 2 "limit"].

Definition limited_request : message Empty_set := mkMessage
  (list_to_map [("transactionId", VScalar (SString "tx-1")); ("limit", VScalar (SBigint 300))]) [].

Lemma newer_fields_survive_witness :
  passes_on QueryEventsRequest_fields QueryEventsRequest (compile limited_fields) limited_request.
Proof.
  apply (proj1 newer_fields_survive).
  - apply (list_elem_of_lookup_2 _ 3). reflexivity.
  - by apply (bool_decide_unpack _).
  - eexists. reflexivity.
  - split_and!; [|by apply keys_known|constructor]. unfold limited_fields. simpl.
    repeat constructor; (eexists; split; [reflexivity|]); simpl; lia.
  - reflexivity.
Defined.
