(* ===== verification/Styling.v ===== *)
(** * The pages against their style tables

    Nothing checks the names a page takes from its style table or gives as a class:
    the tables are records over any string, and a class is a string.  Every element
    of every page, in every state, names entries and classes that exist, and the
    tables and sheets refer to custom properties that the themes declare. *)

From S2P Require Import Prelude JsNumber JsString Json Styles Events View Icons Connection Feed StreamPage GraphPage Settings Shell Session Search Replay Timeline.

(** ** The pieces the pages share *)

Lemma all_styled_KV {A} names classes k v accent : all_styled names classes (@KV A k v accent).
Proof. repeat (constructor; [apply styled_Elem; [repeat (constructor; [by apply attr_ok_other|]); constructor|by repeat constructor]|]). constructor. Qed.

(** An attribute whose value is known once its conditions are decided. *)
Ltac known := repeat case_match; vm_compute; reflexivity.

(** One step down a tree. *)
Ltac style_step :=
  match goal with
  | |- Forall _ [] => apply Forall_nil_2
  | |- Forall _ (_ :: _) => apply List.Forall_cons
  | |- Forall _ (_ ++ _) => apply Forall_app; split
  | |- Forall _ (if _ then _ else _) => case_match
  | |- all_styled _ _ [] => apply Forall_nil_2
  | |- all_styled _ _ (_ :: _) => apply all_styled_cons
  | |- all_styled _ _ (_ ++ _) => apply all_styled_app
  | |- all_styled _ _ (when _ _) => apply all_styled_when
  | |- all_styled _ _ (imap _ _) => apply all_styled_imap; intros ? ?
  | |- all_styled _ _ (concat (_ <$> _)) => apply all_styled_concat; intros ?
  | |- all_styled _ _ (_ <$> _) => apply all_styled_fmap; intros ?
  | |- all_styled _ _ (KV _ _ _) => apply all_styled_KV
  | |- all_styled _ _ (match _ with _ => _ end) => case_match
  | |- styled _ _ (Text _) = true => reflexivity
  | |- styled _ _ (span _ _) = true => apply styled_Elem
  | |- styled _ _ (icon (if _ then _ else _)) = true => case_match
  | |- styled _ _ (icon _) = true => apply styled_icon; repeat constructor; discriminate
  | |- styled _ _ (Elem _ _ _ _) = true => apply styled_Elem
  | |- styled _ _ (if _ then _ else _) = true => case_match
  | |- attr_ok _ _ ("style", _) = true => known
  | |- attr_ok _ _ ("className", _) = true => known
  | |- attr_ok _ _ _ = true => apply attr_ok_other; discriminate
  end.

Ltac style_tree := cbv zeta; repeat style_step.

(** ** The pages *)

(** Every element of [v] names entries of the table [l], and classes of the
    component's sheet [css] or of the console's. *)
Definition dressed {A} (l : sheet) (css : list rule) (v : View.view A) : Prop :=
  styled (sheet_names l) (css_classes (css ++ index_css)) v = true.

Lemma stream_dressed `{Locale} status s : dressed stream_styles [] (StreamPage.StreamPage status s).
Proof.
  unfold dressed, StreamPage.StreamPage, stream_toolbar, stream_stats, stream_thead, pill, event_row, Stat, StatDiv,
    ExpandSection.
  style_tree.
Qed.

Lemma timeline_dressed s : dressed timeline_styles [] (TimelinePage s).
Proof.
  unfold dressed, TimelinePage, timeline_toolbar, timeline_legend, type_pill, detail_panel, legend_item. style_tree.
Qed.

Lemma graph_dressed s : dressed graph_styles graph_css (GraphPage.GraphPage s).
Proof.
  unfold dressed, GraphPage.GraphPage, graph_toolbar, svg_view, mkMarker, edge_view, node_view, node_text,
    DebugSummaryPanel, node_panel, GraphPage.StatPill.
  style_tree.
Qed.

Lemma replay_dressed s : dressed replay_styles replay_css (ReplayPage s).
Proof.
  unfold dressed, ReplayPage, injection_panel, outcome_bar, outcomeStyle, scrubber, transport, incident_button,
    marker, key_event_row, log_row, slider, InjLabel, injDivider.
  style_tree.
Qed.

Lemma settings_dressed `{Locale} s : dressed settings_styles settings_css (SettingsPage s).
Proof.
  unfold dressed, SettingsPage, header, connection_section, display_section, data_section, overhead_section,
    shortcuts_section, about_section, SettingsSection, Row, Divider, Toggle, SegControl, AboutRow, text_field,
    range_field.
  style_tree.
Qed.

Lemma login_dressed l : dressed login_styles [] (LoginPage l).
Proof.
  unfold dressed, LoginPage, login_left, login_form, login_field, metaRow, mock_row. style_tree.
Qed.

Lemma sidebar_dressed p : dressed sidebar_styles [] (Sidebar p).
Proof.
  unfold dressed, Sidebar, NAV_ITEMS, BOTTOM_ITEMS. cbn [fmap list_fmap]. unfold NavItemLink.
  cbn [nav_icon item_path label]. style_tree.
Qed.

Lemma topbar_dressed https host title desc status dark :
  dressed topbar_styles [] (Topbar https host title desc status dark).
Proof. unfold dressed, Topbar. style_tree. Qed.

Lemma search_dressed s : all_styled [] (css_classes search_css) (SearchModal s).
Proof.
  unfold SearchModal, result_item, lucide. cbn [fmap list_fmap]. style_tree.
Qed.

(** The frame around a page whose own elements are all right. *)
Lemma shell_dressed https host p status dark page :
  dressed (shell_styles ++ sidebar_styles ++ topbar_styles) [] page →
  dressed (shell_styles ++ sidebar_styles ++ topbar_styles) [] (Shell https host p status dark page).
Proof.
  intros Hp. unfold dressed, Shell, Sidebar, Topbar, NAV_ITEMS, BOTTOM_ITEMS. cbn [fmap list_fmap].
  unfold NavItemLink. cbn [nav_icon item_path label]. style_tree. exact Hp.
Qed.

Lemma loading_dressed https host p status dark :
  dressed (shell_styles ++ sidebar_styles ++ topbar_styles) [] (Shell https host p status dark PageLoader).
Proof. apply shell_dressed. reflexivity. Qed.

(** ** The theme *)

(** What the tables and sheets refer to exists: the custom properties without a
    fallback are declared, and the animations have their steps. *)
Definition grounded (declared : list (string * string)) (animations : list string) (l : sheet) (css : list rule) : bool :=
  forallb (λ x, bool_decide (x ∈ declared.*1)) (sheet_variables l ++ css_variables css) &&
  forallb (λ x, bool_decide (x ∈ animations)) (sheet_animations l).

(** A component's table and sheet under the console's theme. *)
Definition in_console (l : sheet) (css : list rule) : Prop :=
  grounded console_variables keyframes.*1 l (css ++ index_css) = true.

(** C36: the styles of the console and of the search dialog.  In every state of
    every page, each style an element takes from its component's table and each class
    it carries exists, which the types do not check: a misspelt name would silently
    leave the element bare.  Every custom property the tables and the sheets use is
    declared, every animation a table starts is defined, and the light themes
    redefine only what the dark ones declare. *)
Theorem styles_resolve `{Locale} :
  (∀ status s, dressed stream_styles [] (StreamPage.StreamPage status s)) ∧
  (∀ s, dressed timeline_styles [] (TimelinePage s)) ∧
  (∀ s, dressed graph_styles graph_css (GraphPage.GraphPage s)) ∧
  (∀ s, dressed replay_styles replay_css (ReplayPage s)) ∧
  (∀ s, dressed settings_styles settings_css (SettingsPage s)) ∧
  (∀ l, dressed login_styles [] (LoginPage l)) ∧
  (∀ p, dressed sidebar_styles [] (Sidebar p)) ∧
  (∀ https host title desc status dark,
     dressed topbar_styles [] (Topbar https host title desc status dark)) ∧
  (∀ https host p status dark,
     dressed (shell_styles ++ sidebar_styles ++ topbar_styles) [] (Shell https host p status dark PageLoader)) ∧
  (∀ s, all_styled [] (css_classes search_css) (SearchModal s)) ∧
  (in_console stream_styles [] ∧ in_console timeline_styles [] ∧ in_console graph_styles graph_css ∧
   in_console replay_styles replay_css ∧ in_console settings_styles settings_css ∧
   in_console login_styles [] ∧ in_console sidebar_styles [] ∧ in_console topbar_styles [] ∧
   in_console shell_styles [] ∧ grounded site_variables [] [] search_css = true) ∧
  console_light.*1 ⊆ console_variables.*1 ∧ site_light.*1 ⊆ site_variables.*1.
Proof.
  split; [exact stream_dressed|]. split; [exact timeline_dressed|]. split; [exact graph_dressed|].
  split; [exact replay_dressed|]. split; [exact settings_dressed|]. split; [exact login_dressed|].
  split; [exact sidebar_dressed|]. split; [exact topbar_dressed|]. split; [exact loading_dressed|].
  split; [exact search_dressed|]. split; [by vm_compute|]. split; by apply (bool_decide_unpack _).
Qed.
